(* ===== verification/_CoqProject ===== *)
-Q . S2P
Prelude.v
Riscv.v
Lock.v
Mem.v
Printk.v
Stl.v
LibUtils.v
MemoryList.v
VirtualMemory.v
Malloc.v
Inode.v
Process.v
Scheduler.v
Console.v
Virtio.v
VirtioBlk.v
FsCommon.v
FileData.v
FileStream.v
Directory.v
Syscalls.v
Trap.v
Loader.v
Display.v
NetInput.v
DynamicLoader.v
Mkfs.v
GenInitcode.v
UserSys.v
UserPrograms.v
UserFiles.v
UserShell.v
Image.v
ContextSwitch.v
Mandelbrot.v
Start.v
