(* ===== verification/Prelude.v ===== *)
(** Verification of orange-os, a small operating system for RISC-V written in C++.

    THE PROGRAM.  A kernel that runs in machine mode on one hart ([CPU_NUM] is 1):
    a physical page allocator and Sv39 page tables; processes and a round-robin
    scheduler; traps, interrupts and 26 system calls; a console on a serial line;
    virtio drivers for disks, display, mouse and network; on the disk a small inode
    file system; a static and a dynamic ELF loader.  A library used by the kernel and
    by user programs: formatted output, C strings, containers, a heap allocator,
    streams.  User programs (a shell, file tools, graphics), and tools of the build
    that make the disk image and embed the first program.

    THE FILES, from the bottom up; each opens with what it holds.
    - Prelude.v (this file): outcomes and the state/error monad with its rules
      ([wp], [pwp]), machine integers, little-endian bytes, loops over ranges,
      list surgery, bits, and the tactics [wp_step], [wp_steps], [inv_bind] and
      [dlia].
    - Riscv.v: arch/ and kernel/config/.  CSRs are a function from names to
      values; memory-mapped I/O is a free monad [io] whose reads the environment
      answers.
    - Lock.v: kernel/lock/.  [SpinLock] as a step relation over threads, whose steps
      are labelled with the call, and as a loop with a bound; who may call [UnLock] is a
      predicate on a run, since the code checks nothing; [CriticalGuard] as a bracket over any state of the class
      [HasMstatus], the interface between the guard and the components it guards.
    - Mem.v: memory as a map from addresses to bytes, and lib/string.cc.
    - Printk.v: lib/printk.cc, lib/printf.cc and kernel/printf.cc.
    - Stl.v, LibUtils.v: lib/stl/, lib/stringpp.cc, lib/common.cc,
      lib/math_utils.cc.
    - MemoryList.v, VirtualMemory.v: kernel/virtual_memory.h and .cc.  The free list
      lives in the free pages, page tables in memory, as in the code; [list_rep],
      [vm_inv] and [pt_rep] say which pages they are.
    - Malloc.v: lib/memory.cc.  Headers at their addresses; [heap_ok] gives the
      blocks in address order.
    - Inode.v, FsCommon.v, FileData.v, FileStream.v, Directory.v: filesystem/ and the
      streams of lib/.  Inode.v has the layout on disk and the class [BlockDevice],
      the interface the file system is written against; FsCommon.v the operations of
      common.cc; the other files what they do to the bytes of files, to directories
      and to paths.
    - Process.v, Scheduler.v: kernel/process.* and kernel/scheduler.*.  An operation
      that switches context is modelled up to its [Switch]; the switches are the
      steps of [Scheduler.step], between the dispatch loop and the running process.
    - Console.v: kernel/console.* and driver/uart.cc.  A reader that sleeps is a value
      that says how it goes on.
    - Virtio.v, VirtioBlk.v: the virtio core of driver/ and the block device.  The
      device is the environment: it fills the used ring.
    - Syscalls.v: kernel/syscalls/, over the whole kernel state.
    - Trap.v: kernel/trap.cc, kernel/extern_controller.*, driver/device_factory.* and
      the way back to user mode of kernel/syscalls/execute.cc.
    - Loader.v: kernel/syscalls/static_loader.*, the rest of execute.cc and sys_exec,
      over the classes [StreamBase] and [StreamLaw], whose instances are the file
      and buffer streams.
    - Display.v, NetInput.v: driver/virtio_gpu.*, virtio_net.* and virtio_input.* with
      the system calls for the screen.  The device is the environment: what it does
      with a queue is a step of its own.
    - DynamicLoader.v: kernel/syscalls/dynamic_loader.*.
    - Mkfs.v: filesystem/mkfs.cc, which writes the image that the kernel's file system
      reads; it is composed with the operations of Directory.v and FileStream.v.
    - GenInitcode.v: tools/gen_initcode.cc, which writes the first program's bytes as
      C++ source, against a reader of that source.
    - UserSys.v, UserPrograms.v, UserFiles.v, UserShell.v, Image.v, Mandelbrot.v: user/
      and lib/syscall.h.  A program is an interaction tree whose events are its system
      calls; [does] and [ends] run it against a kernel, which is a handler of the
      events.  The class [FilesLaw] says what programs need of a kernel's files;
      [kernel_calls], an instance, runs the definitions of Syscalls.v with the arguments
      in the trap frame and the buffers in a page of the process, through its page
      table, on a disk that mkfs built.  [ScreenLaw] says what drawing needs.
    - ContextSwitch.v: the assembly that saves and restores registers (switch.S,
      context_switch_user.S, context_switch_kernel.S, timer_handler.S), as lists of
      instructions over registers, CSRs and memory.
    - Start.v: kernel/start.cc, kernel/resource_factory.* and the vector tables: from
      reset to the dispatch loop.

    HOW THE CODE IS MODELLED.  A function of the code is a Definition or Fixpoint of
    the same name.  State is explicit: [M S A] is [S -> res (A * S)], and [stop] has
    the ways a computation ends without a result: [Panicked] (kernel::panic),
    [Faulted] (an access C++ does not define), [Exited] (the user library's exit) and
    [OutOfFuel].  Larger states contain smaller ones, and lifts run a component's
    operation on its part: [VirtualMemory] is in [Process.tstate], which is in
    [Scheduler.sched], in [Console.con], in [Syscalls.kernel], in [Trap.hart].
    Unsigned integers are [Z] with [wrap] where the code can wrap; pointers are
    addresses; pointers to processes are indices of the process table.  Memory the
    code reads uninitialised is a parameter or a member of the state ([junk]).

    WHAT THE THEOREMS SHOW, by group (the ids are those of the properties).
    - Memory: MapPage makes VAToPA answer the page and nothing else changes; MapMemory
      maps a range to distinct zeroed pages and FreeMemory undoes it; the allocator's
      invariant; the list in the pages refines a mathematical list.
    - Files: first-fit block allocation and Write against the bytes of a file, read back
      through the stream (direct blocks); CreateImpl then lookup; every file that mkfs
      puts in an image, up to the 71680 bytes it accepts, is opened and read back by the
      kernel, byte for byte, through the direct and the indirect block.
    - Processes: at most one running process in every reachable state, the dispatch loop
      is fair within a round, Exit then wait hands over the exit code; a context that
      Switch saved is resumed.
    - Traps, system calls, loading: a system call from trap to return; the registers of
      a trapped process survive the trap; every enabled interrupt has a device;
      safe_copy ends; a loaded segment's pages hold the file's bytes and zeros, with the
      permissions its flags give; the spin lock excludes when only holders unlock it;
      a dynamic program's relocations get the addresses of their symbols.
    - Start: the order of the boot sequence works, and ends in the dispatch loop.
    - Devices: the console refines a queue of lines; a block request completes and
      gives its status; the negotiation order of virtio; the display's session and the
      pages it is given; packets sent complete; packets received are handed over as the
      device completes them, in any order, and it is said when no buffer is lost.
    - User programs: cat prints the files, and faults on the null pointer when nothing
      is mapped at 0; a round of the shell makes the calls it should, for lines of any
      length; a BMP image is parsed and drawn where it should be; the Mandelbrot program
      ends, stays on the screen, and gives each point the colour of an independent
      definition of its orbit.
    - Library: printk against a rendering function; malloc and free keep the heap and
      give disjoint blocks, and end; a freed block is joined to its free neighbours;
      vector refines a list, resizing in both directions; SplitString equals a
      word splitter; the checksum verifies.
    - Errors: theorems that say what a flaw of the code does are named for it, and the
      flaws are listed with the development's findings.

    FUEL.  Loops that the code bounds by a counter are structural or take a bound
    computed from their input ([for_u64], [safe_copy], [LoadSegment], [SplitString]),
    and their theorems show that they do not run out.  Where the bound depends on the
    state it is an argument: [malloc] and [free] end with twice, respectively once, the
    number of blocks; [UsedBufferNotify] with the number of completions;
    [spin_lock] with one try on a free lock, and with none that is enough on one that
    nobody releases.

    The loops of user programs need no fuel (they are iterations of interaction trees);
    [ends] is total, so their theorems include termination.  The loops over doubles of
    the Mandelbrot program are evaluated: 2667 rounds.

    NOT MODELLED.  entry.S, caches and fences.  Messages of the file system, the boot
    sequence and the system calls to the console.  Constant tables of the Linux input
    protocol, which have no behaviour, and the build scripts.  A compiler may contract
    floating-point operations; the model rounds each.  The theorems on writing a
    file cover the direct blocks (6144 bytes); writing through the indirect block is
    modelled and not specified, reading through it is both.  [kernel_calls] starts at
    the system call's function, so the trap and the table of calls before it are the
    subject of Trap.v, and it gives a call one page of buffer. *)
From Stdlib Require Export ZArith Lia ZifyBool.
From stdpp Require Export strings gmap option numbers prelude list.
#[global] Set Default Goal Selector "!".
#[global] Open Scope Z_scope.

(** * Outcomes and the state/error monad

    [Panicked] is [kernel::panic] (interrupts off, then spin for ever);
    [Faulted] is an access the C++ abstract machine does not define (a null or
    out-of-range pointer, an index past the end of an array); [Exited] is the
    user library's [syscall::exit]; [OutOfFuel] is a loop that used up the fuel
    its definition was given. *)
Inductive stop : Type :=
| Panicked (msg : string)
| Faulted (why : string)
| Exited (code : Z)
| OutOfFuel.

Inductive res (A : Type) : Type :=
| Ok (a : A)
| Stop (s : stop).
Arguments Ok {A} a.
Arguments Stop {A} s.

Definition M (S A : Type) : Type := S → res (A * S).

#[export] Instance M_ret S : MRet (M S) := λ A a s, Ok (a, s).
#[export] Instance M_bind S : MBind (M S) := λ A B f m s,
  match m s with
  | Ok (a, s') => f a s'
  | Stop e => Stop e
  end.

Definition gets {S A} (f : S → A) : M S A := λ s, Ok (f s, s).
Definition modify {S} (f : S → S) : M S () := λ s, Ok ((), f s).
Definition stop_with {S A} (e : stop) : M S A := λ _, Stop e.
Definition of_option {S A} (e : stop) (o : option A) : M S A :=
  match o with Some a => mret a | None => stop_with e end.

(** Total-correctness weakest precondition: [m] returns from [s], and its value
    and final state satisfy [Q].  A computation that stops satisfies none. *)
Definition wp {S A} (m : M S A) (Q : A → S → Prop) (s : S) : Prop :=
  match m s with Ok (a, s') => Q a s' | Stop _ => False end.

(** Partial correctness: when [m] returns, its value and final state satisfy [Q]. *)
Definition pwp {S A} (m : M S A) (Q : A → S → Prop) (s : S) : Prop :=
  match m s with Ok (a, s') => Q a s' | Stop _ => True end.

(** * Machine integers: an unsigned [w]-bit integer is a [Z] in [0, 2^w) *)
Definition wrap (w z : Z) : Z := z `mod` 2 ^ w.
Abbreviation u8 := (wrap 8).
Abbreviation u16 := (wrap 16).
Abbreviation u32 := (wrap 32).
Abbreviation u64 := (wrap 64).
(** two's complement reading of the low [w] bits *)
Definition swrap (w z : Z) : Z := (z + 2 ^ (w - 1)) `mod` 2 ^ w - 2 ^ (w - 1).
Abbreviation s32 := (swrap 32).
Abbreviation s64 := (swrap 64).
(** C's conversion of an integer to [bool] *)
Definition nonzero (z : Z) : bool := negb (z =? 0).

(** [for (uint64_t i = beg; i < end; i += step) body], where a [body] that gives
    [Some r] is an early [return r].  The fuel is the number of iterations when
    [i += step] does not wrap; a loop that wraps runs out of it. *)
Fixpoint for_loop {S R} (fuel : nat) (i fin step : Z) (body : Z → M S (option R)) : M S (option R) :=
  if i <? fin then
    match fuel with
    | O => stop_with OutOfFuel
    | S fuel =>
      r ← body i;
      match r with
      | Some r => mret (Some r)
      | None => for_loop fuel (u64 (i + step)) fin step body
      end
    end
  else mret None.
Definition for_u64 {S R} (beg fin step : Z) (body : Z → M S (option R)) : M S (option R) :=
  for_loop (Z.to_nat ((fin - beg) / step + 1)) beg fin step body.
(** a loop whose body does not return early *)
Definition for_u64_ {S} (beg fin step : Z) (body : Z → M S ()) : M S () :=
  (for_u64 beg fin step (λ i, body i ;; mret (@None ()))) ;; mret ().

(** Little-endian byte strings. *)
Fixpoint le_bytes (n : nat) (v : Z) : list Z :=
  match n with O => [] | S n => v `mod` 256 :: le_bytes n (v `div` 256) end.
Fixpoint le_value (l : list Z) : Z :=
  match l with [] => 0 | b :: l => b + 256 * le_value l end.

(** [splice buf off data]: [memcpy(buf + off, data, |data|)] inside one buffer. *)
Definition splice {A} (buf : list A) (off : nat) (data : list A) : list A :=
  take off buf ++ data ++ drop (off + length data) buf.

(** bit [i] of a bitmap kept as bytes *)
Definition bit_at (bm : list Z) (i : Z) : bool :=
  Z.testbit (default 0 (bm !! Z.to_nat (i / 8))) (i mod 8).

Create Rewrite HintDb wrap.
Create Rewrite HintDb bytes.
Create HintDb bytes.

(** * Lemmas *)
Lemma wp_ret {S A} (a : A) (Q : A → S → Prop) s : Q a s → wp (mret a) Q s.
Proof. done. Qed.
Lemma wp_bind {S A B} (m : M S A) (f : A → M S B) Q s :
  wp m (λ a s', wp (f a) Q s') s → wp (m ≫= f) Q s.
Proof. unfold wp, mbind, M_bind. by destruct (m s) as [[a s']|]. Qed.
Lemma wp_gets {S A} (f : S → A) Q (s : S) : Q (f s) s → wp (gets f) Q s.
Proof. done. Qed.
Lemma wp_modify {S} (f : S → S) Q (s : S) : Q () (f s) → wp (modify f) Q s.
Proof. done. Qed.
Lemma wp_mono {S A} (m : M S A) (P Q : A → S → Prop) s :
  wp m P s → (∀ a s', P a s' → Q a s') → wp m Q s.
Proof. unfold wp. destruct (m s) as [[a s']|]; naive_solver. Qed.
Lemma wp_ok {S A} (m : M S A) Q s :
  wp m Q s ↔ ∃ a s', m s = Ok (a, s') ∧ Q a s'.
Proof. unfold wp. destruct (m s) as [[a s']|]; naive_solver. Qed.
Lemma bind_Ok {S A B} (m : M S A) (f : A → M S B) s a s' :
  m s = Ok (a, s') → (m ≫= f) s = f a s'.
Proof. intros H. unfold mbind, M_bind. by rewrite H. Qed.
Lemma bind_Stop {S A B} (m : M S A) (f : A → M S B) s e :
  m s = Stop e → (m ≫= f) s = Stop e.
Proof. intros H. unfold mbind, M_bind. by rewrite H. Qed.
Lemma bind_inv {S A B} (m : M S A) (f : A → M S B) s b s'' :
  (m ≫= f) s = Ok (b, s'') → ∃ a s', m s = Ok (a, s') ∧ f a s' = Ok (b, s'').
Proof. unfold mbind, M_bind. destruct (m s) as [[a s']|]; naive_solver. Qed.

Lemma pwp_ret {S A} (a : A) (Q : A → S → Prop) s : Q a s → pwp (mret a) Q s.
Proof. done. Qed.
Lemma pwp_bind {S A B} (m : M S A) (f : A → M S B) Q s :
  pwp m (λ a s', pwp (f a) Q s') s → pwp (m ≫= f) Q s.
Proof. unfold pwp, mbind, M_bind. by destruct (m s) as [[a s']|]. Qed.
Lemma pwp_mono {S A} (m : M S A) (P Q : A → S → Prop) s :
  pwp m P s → (∀ a s', P a s' → Q a s') → pwp m Q s.
Proof. unfold pwp. destruct (m s) as [[a s']|]; naive_solver. Qed.
Lemma pwp_Ok {S A} (m : M S A) (Q : A → S → Prop) s a s' : pwp m Q s → m s = Ok (a, s') → Q a s'.
Proof. unfold pwp. intros H E. by rewrite E in H. Qed.
Lemma pwp_stop {S A} e (Q : A → S → Prop) s : pwp (stop_with e) Q s.
Proof. done. Qed.
Lemma pwp_of_option {S A} e (o : option A) (Q : A → S → Prop) s :
  (∀ a, o = Some a → Q a s) → pwp (of_option e o) Q s.
Proof. destruct o; intros H; [by apply H|exact I]. Qed.

(** The rule for loops: [Inv k] holds before the [k]-th iteration. *)
Lemma wp_for_loop {S R} (Inv : nat → S → Prop) (Q : option R → S → Prop) fuel k beg fin step body (s : S) :
  0 < step → fin + step ≤ 2 ^ 64 → 0 ≤ beg → fin - (beg + Z.of_nat k * step) < Z.of_nat fuel * step →
  Inv k s →
  (∀ j s, beg + Z.of_nat j * step < fin → Inv j s →
    wp (body (beg + Z.of_nat j * step))
       (λ r s', match r with Some r => Q (Some r) s' | None => Inv (Datatypes.S j) s' end) s) →
  (∀ j s, fin ≤ beg + Z.of_nat j * step → (j = k ∨ beg + Z.of_nat j * step < fin + step) → Inv j s → Q None s) →
  wp (for_loop fuel (beg + Z.of_nat k * step) fin step body) Q s.
Proof.
  intros Hst Hfin Hbeg. revert k s. induction fuel as [|fuel IH]; intros k s Hf HI Hb HQ; cbn [for_loop].
  { replace (_ <? fin) with false by lia. apply wp_ret. apply (HQ k); [lia|by left|done]. }
  destruct (Z.ltb_spec (beg + Z.of_nat k * step) fin) as [Hlt|Hge].
  - apply wp_bind. eapply wp_mono; [by apply Hb|]. intros [r|] s'; [intros; by apply wp_ret|].
    intros HI'. unfold wrap. rewrite (Z.mod_small (beg + Z.of_nat k * step + step)) by lia.
    replace (beg + Z.of_nat k * step + step) with (beg + Z.of_nat (Datatypes.S k) * step) by lia.
    apply IH; [lia|done|done|]. intros j s'' Hj Hjk. apply HQ; [done|]. right. lia.
  - apply wp_ret. apply (HQ k); [lia|by left|done].
Qed.
Lemma wp_for_u64 {S R} (Inv : nat → S → Prop) (Q : option R → S → Prop) beg fin step body (s : S) :
  0 < step → fin + step ≤ 2 ^ 64 → 0 ≤ beg →
  Inv 0%nat s →
  (∀ j s, beg + Z.of_nat j * step < fin → Inv j s →
    wp (body (beg + Z.of_nat j * step))
       (λ r s', match r with Some r => Q (Some r) s' | None => Inv (Datatypes.S j) s' end) s) →
  (∀ j s, fin ≤ beg + Z.of_nat j * step → (j = 0%nat ∨ beg + Z.of_nat j * step < fin + step) → Inv j s → Q None s) →
  wp (for_u64 beg fin step body) Q s.
Proof.
  intros Hst Hfin Hbeg HI Hb HQ. unfold for_u64.
  replace beg with (beg + Z.of_nat 0 * step) at 2 by lia.
  apply (wp_for_loop Inv); try done. destruct (decide (beg < fin)).
  - assert (0 ≤ (fin - beg) / step) by (apply Z.div_pos; lia).
    pose proof (Z.mod_pos_bound (fin - beg) step Hst).
    pose proof (Z.div_mod (fin - beg) step ltac:(lia)). rewrite Z2Nat.id by lia. lia.
  - destruct (decide (beg = fin)) as [->|].
    + rewrite Z.sub_diag, Z.div_0_l by lia. simpl. lia.
    + pose proof (Z.mul_nonneg_nonneg (Z.of_nat (Z.to_nat ((fin - beg) / step + 1))) step). lia.
Qed.
Lemma wp_for_u64_ {S} (Inv : nat → S → Prop) (Q : S → Prop) beg fin step body (s : S) :
  0 < step → fin + step ≤ 2 ^ 64 → 0 ≤ beg →
  Inv 0%nat s →
  (∀ j s, beg + Z.of_nat j * step < fin → Inv j s →
    wp (body (beg + Z.of_nat j * step)) (λ _, Inv (Datatypes.S j)) s) →
  (∀ j s, fin ≤ beg + Z.of_nat j * step → (j = 0%nat ∨ beg + Z.of_nat j * step < fin + step) → Inv j s → Q s) →
  wp (for_u64_ beg fin step body) (λ _, Q) s.
Proof.
  intros Hst Hfin Hbeg HI Hb HQ. unfold for_u64_. apply wp_bind.
  apply (wp_for_u64 Inv); try done. intros j s' Hj HI'. apply wp_bind.
  eapply wp_mono; [by apply Hb|]. intros [] s'' H. by apply wp_ret.
Qed.

Lemma wrap_range w z : 0 ≤ w → 0 ≤ wrap w z < 2 ^ w.
Proof. intros. apply Z.mod_pos_bound. lia. Qed.
Lemma wrap_small w z : 0 ≤ z < 2 ^ w → wrap w z = z.
Proof. apply Z.mod_small. Qed.
Lemma wrap_wrap w z : wrap w (wrap w z) = wrap w z.
Proof. apply Zmod_mod. Qed.
Lemma wrap_0 w : wrap w 0 = 0.
Proof. apply Zmod_0_l. Qed.
#[export] Hint Rewrite wrap_wrap wrap_0 : wrap.

Lemma nonzero_true z : nonzero z = true ↔ z ≠ 0.
Proof. unfold nonzero. lia. Qed.
Lemma nonzero_false z : nonzero z = false ↔ z = 0.
Proof. unfold nonzero. lia. Qed.

Lemma length_le_bytes n v : length (le_bytes n v) = n.
Proof. revert v. induction n; intros v; simpl; auto. Qed.
Lemma pow256_S n : 2 ^ (8 * Z.of_nat (S n)) = 256 * 2 ^ (8 * Z.of_nat n).
Proof.
  replace (8 * Z.of_nat (S n)) with (8 + 8 * Z.of_nat n) by lia.
  rewrite Z.pow_add_r by lia. done.
Qed.
Lemma mod_split_256 v n :
  v `mod` 2 ^ (8 * Z.of_nat (S n)) = v `mod` 256 + 256 * ((v `div` 256) `mod` 2 ^ (8 * Z.of_nat n)).
Proof. rewrite pow256_S. rewrite Z.rem_mul_r by lia. done. Qed.
Lemma le_value_bytes n v : le_value (le_bytes n v) = v `mod` 2 ^ (8 * Z.of_nat n).
Proof.
  revert v. induction n as [|n IH]; intros v.
  - simpl. by rewrite Zmod_1_r.
  - cbn [le_bytes le_value]. rewrite IH, mod_split_256. done.
Qed.
Lemma le_bytes_range n v : Forall (λ b, 0 ≤ b < 256) (le_bytes n v).
Proof.
  revert v. induction n; intros v; simpl; constructor; auto.
  apply Z.mod_pos_bound. lia.
Qed.
Lemma le_bytes_value l : Forall (λ b, 0 ≤ b < 256) l → le_bytes (length l) (le_value l) = l.
Proof.
  induction 1 as [|b l Hb _ IH]; [done|]. cbn [length le_bytes le_value].
  rewrite (Z.mul_comm 256), Z_mod_plus_full, Z.div_add by lia.
  rewrite (Z.mod_small b), (Z.div_small b), Z.add_0_l by lia. by rewrite IH.
Qed.
Lemma le_value_range l :
  Forall (λ b, 0 ≤ b < 256) l → 0 ≤ le_value l < 2 ^ (8 * Z.of_nat (length l)).
Proof.
  induction 1 as [|b l Hb _ IH]; [simpl; lia|].
  cbn [length le_value]. rewrite pow256_S. lia.
Qed.
#[export] Hint Rewrite length_le_bytes : bytes.
#[export] Hint Resolve le_bytes_range : bytes.

Lemma length_splice {A} (buf : list A) off data :
  (off + length data ≤ length buf)%nat → length (splice buf off data) = length buf.
Proof. intros. unfold splice. rewrite !length_app, length_take, length_drop. lia. Qed.
Lemma splice_same {A} (buf : list A) off data :
  (off + length data ≤ length buf)%nat →
  take (length data) (drop off (splice buf off data)) = data.
Proof.
  intros. unfold splice. rewrite drop_app_length' by (rewrite length_take; lia).
  by rewrite take_app_length.
Qed.
Lemma lookup_splice_ne {A} (buf : list A) off data i :
  (off + length data ≤ length buf)%nat →
  (i < off ∨ off + length data ≤ i)%nat → splice buf off data !! i = buf !! i.
Proof.
  intros Hlen Hi. unfold splice. destruct (decide (i < off)%nat).
  - rewrite lookup_app_l by (rewrite length_take; lia). by rewrite lookup_take_lt.
  - rewrite lookup_app_r by (rewrite length_take; lia).
    rewrite lookup_app_r; rewrite length_take; [|lia].
    rewrite lookup_drop. f_equal. lia.
Qed.
Lemma lookup_splice {A} (l : list A) o x j :
  (o ≤ length l)%nat →
  splice l o x !! j =
    if decide (o ≤ j < o + length x)%nat then x !! (j - o)%nat else l !! j.
Proof.
  intros Ho. unfold splice. destruct (decide (j < o)%nat).
  { rewrite decide_False by lia. rewrite lookup_app_l by (rewrite length_take; lia). by apply lookup_take_lt. }
  rewrite lookup_app_r by (rewrite length_take; lia). rewrite length_take, Nat.min_l by lia. case_decide.
  - by rewrite lookup_app_l by lia.
  - rewrite lookup_app_r, lookup_drop by lia. f_equal. lia.
Qed.
Lemma length_splice_ext {A} (l : list A) o x :
  (o ≤ length l)%nat → length (splice l o x) = Nat.max (length l) (o + length x).
Proof. intros. unfold splice. rewrite !length_app, length_take, length_drop. lia. Qed.
Lemma take_splice {A} (l : list A) size pos x :
  (pos ≤ size ≤ length l)%nat →
  take (Nat.max size (pos + length x)) (splice l pos x) = splice (take size l) pos x.
Proof.
  intros Hs. apply list_eq. intros j. rewrite lookup_splice by (rewrite length_take; lia).
  destruct (decide (j < Nat.max size (pos + length x))%nat) as [Hj|Hj].
  - rewrite lookup_take_lt, lookup_splice by lia. case_decide; [done|]. by rewrite lookup_take_lt by lia.
  - rewrite lookup_take_ge by lia. rewrite decide_False, lookup_take_ge by lia. done.
Qed.
Lemma splice_splice_block {A} (l : list A) o y off x :
  (o + length y ≤ length l)%nat → take (length y) (drop o l) = y → (off + length x ≤ length y)%nat →
  splice l o (splice y off x) = splice l (o + off) x.
Proof.
  intros Hl Hy Hx. apply list_eq. intros j.
  rewrite (lookup_splice l o), (lookup_splice l (o + off)) by lia. rewrite length_splice by lia.
  destruct (decide (o ≤ j < o + length y)%nat).
  - rewrite lookup_splice by lia. destruct (decide (off ≤ j - o < off + length x)%nat).
    + rewrite decide_True by lia. f_equal. lia.
    + rewrite decide_False by lia. rewrite <-Hy at 1. rewrite lookup_take_lt, lookup_drop by lia. f_equal. lia.
  - by rewrite decide_False by lia.
Qed.
Lemma take_splice_head {A} (l : list A) o y x :
  (o ≤ length l)%nat → (length x ≤ length y)%nat →
  take (o + length x) (splice l o (splice y 0 x)) = take (o + length x) (splice l o x).
Proof.
  intros Hl Hx. apply list_eq. intros j. destruct (decide (j < o + length x)%nat) as [Hj|Hj].
  - rewrite !lookup_take_lt by lia. rewrite (lookup_splice l o (splice y 0 x)), (lookup_splice l o x) by lia.
    rewrite length_splice by lia. destruct (decide (o ≤ j)%nat).
    + rewrite !decide_True by lia. by rewrite lookup_splice, Nat.sub_0_r, decide_True by lia.
    + by rewrite !decide_False by lia.
  - by rewrite !lookup_take_ge by lia.
Qed.
Lemma splice_splice_same {A} (l : list A) o y x :
  (o ≤ length l)%nat → length y = length x → splice (splice l o y) o x = splice l o x.
Proof.
  intros Hl Hy. apply list_eq. intros j. rewrite !lookup_splice by (rewrite ?length_splice_ext; lia).
  rewrite Hy. by case_decide.
Qed.
Lemma splice_app {A} (l : list A) o x y :
  (o ≤ length l)%nat → splice (splice l o x) (o + length x) y = splice l o (x ++ y).
Proof.
  intros Hl. apply list_eq. intros j.
  rewrite lookup_splice by (rewrite length_splice_ext; lia). rewrite !lookup_splice, length_app by done.
  destruct (decide (o + length x ≤ j < o + length x + length y)%nat).
  - rewrite decide_True, lookup_app_r by lia. f_equal. lia.
  - destruct (decide (o ≤ j < o + length x)%nat).
    + by rewrite decide_True, lookup_app_l by lia.
    + by rewrite decide_False by lia.
Qed.
Lemma splice_nil {A} (l : list A) o : splice l o [] = l.
Proof. unfold splice. rewrite Nat.add_0_r. simpl. apply take_drop. Qed.
(** replacing one of the equal-sized pieces of a concatenation *)
Lemma length_concat_eq {A} (l : list (list A)) n :
  Forall (λ x, length x = n) l → length (concat l) = (length l * n)%nat.
Proof. induction 1 as [|x l Hx _ IH]; [done|]. simpl. rewrite length_app, Hx, IH. done. Qed.
Lemma concat_insert {A} (l : list (list A)) n k x :
  Forall (λ y, length y = n) l → length x = n → (k < length l)%nat →
  concat (<[k := x]> l) = splice (concat l) (k * n) x.
Proof.
  intros Hl Hx Hk. revert k Hk. induction Hl as [|y l Hy Hl IH]; intros k Hk; [simpl in Hk; lia|].
  unfold splice. destruct k as [|k]; simpl.
  - rewrite Hx, <-Hy, drop_app_length. done.
  - rewrite IH by (simpl in Hk; lia). unfold splice. rewrite <-Hy.
    rewrite take_app_add, <-Nat.add_assoc, drop_app_add. by rewrite <-app_assoc.
Qed.
Lemma lookup_concat {A} (l : list (list A)) n k x j :
  Forall (λ y, length y = n) l → l !! k = Some x → (j < n)%nat → concat l !! (k * n + j)%nat = x !! j.
Proof.
  intros Hl. revert k. induction Hl as [|y l Hy Hl IH]; intros k Hk Hj; [done|].
  destruct k as [|k]; simpl in *.
  - injection Hk as ->. apply lookup_app_l. lia.
  - rewrite lookup_app_r by lia. rewrite <-(IH k) by done. f_equal. lia.
Qed.
Lemma splice_take_ne {A} (buf : list A) off data o n :
  (off + length data ≤ length buf)%nat →
  (o + n ≤ off ∨ off + length data ≤ o)%nat →
  take n (drop o (splice buf off data)) = take n (drop o buf).
Proof.
  intros Hlen Ho. apply list_eq. intros i.
  destruct (decide (i < n)%nat).
  - rewrite !lookup_take_lt, !lookup_drop by lia. apply lookup_splice_ne; lia.
  - by rewrite !lookup_take_ge by lia.
Qed.

(** * Bits *)
Lemma testbit_set_bit a i j :
  0 ≤ i → 0 ≤ j →
  Z.testbit (Z.lor a (Z.shiftl 1 i)) j = if decide (i = j) then true else Z.testbit a j.
Proof.
  intros Hi Hj. rewrite Z.lor_spec, Z.shiftl_spec by lia. case_decide as E.
  - subst. rewrite Z.sub_diag. simpl. apply orb_true_r.
  - destruct (decide (j < i)).
    + rewrite (Z.testbit_neg_r 1) by lia. apply orb_false_r.
    + rewrite (Z.bits_above_log2 1); [apply orb_false_r|lia|simpl; lia].
Qed.
Lemma testbit_clear_bit a i j :
  0 ≤ i → 0 ≤ j →
  Z.testbit (Z.ldiff a (Z.shiftl 1 i)) j = if decide (i = j) then false else Z.testbit a j.
Proof.
  intros Hi Hj. rewrite Z.ldiff_spec, Z.shiftl_spec by lia. case_decide as E.
  - subst. rewrite Z.sub_diag. simpl. apply andb_false_r.
  - destruct (decide (j < i)).
    + rewrite (Z.testbit_neg_r 1) by lia. apply andb_true_r.
    + rewrite (Z.bits_above_log2 1); [apply andb_true_r|lia|simpl; lia].
Qed.
Lemma testbit_wrap w z j :
  0 ≤ w → Z.testbit (wrap w z) j = if decide (j < w) then Z.testbit z j else false.
Proof.
  intros Hw. unfold wrap. case_decide.
  - destruct (decide (0 ≤ j)).
    + by rewrite Z.mod_pow2_bits_low by lia.
    + by rewrite !Z.testbit_neg_r by lia.
  - apply Z.mod_pow2_bits_high. lia.
Qed.

Lemma bits_range w x : 0 ≤ w → (∀ j, w ≤ j → Z.testbit x j = false) → 0 ≤ x < 2 ^ w.
Proof.
  intros Hw Hb. assert (x = wrap w x) as ->; [|by apply wrap_range].
  apply Z.bits_inj'. intros j Hj. rewrite testbit_wrap by lia. case_decide; [done|]. apply Hb. lia.
Qed.
Lemma range_bits w x j : 0 ≤ w ≤ j → 0 ≤ x < 2 ^ w → Z.testbit x j = false.
Proof.
  intros Hw Hx. rewrite <-(wrap_small w x) by done. rewrite testbit_wrap by lia.
  rewrite decide_False; [done|lia].
Qed.
Lemma lor_range w a b : 0 ≤ w → 0 ≤ a < 2 ^ w → 0 ≤ b < 2 ^ w → 0 ≤ Z.lor a b < 2 ^ w.
Proof.
  intros Hw Ha Hb. apply bits_range; [done|]. intros j Hj.
  by rewrite Z.lor_spec, (range_bits w a), (range_bits w b) by lia.
Qed.
Lemma land_range_l w a b : 0 ≤ w → 0 ≤ a < 2 ^ w → 0 ≤ Z.land a b < 2 ^ w.
Proof.
  intros Hw Ha. apply bits_range; [done|]. intros j Hj.
  by rewrite Z.land_spec, (range_bits w a) by lia.
Qed.
Lemma land_range_r w a b : 0 ≤ w → 0 ≤ b < 2 ^ w → 0 ≤ Z.land a b < 2 ^ w.
Proof. intros. rewrite Z.land_comm. by apply land_range_l. Qed.
Lemma ldiff_range w a b : 0 ≤ w → 0 ≤ a < 2 ^ w → 0 ≤ Z.ldiff a b < 2 ^ w.
Proof.
  intros Hw Ha. apply bits_range; [done|]. intros j Hj.
  by rewrite Z.ldiff_spec, (range_bits w a) by lia.
Qed.

(** * Tactics *)
Ltac wp_step :=
  first
    [ lazymatch goal with
      | |- wp (mbind _ _) _ _ => apply wp_bind
      | |- wp (mret _) _ _ => apply wp_ret
      | |- wp (gets _) _ _ => apply wp_gets
      | |- wp (modify _) _ _ => apply wp_modify
      end ]; cbv beta.
Ltac wp_steps := repeat wp_step.
Ltac inv_bind H :=
  let a := fresh "a" in let s := fresh "s" in let E := fresh "E" in
  apply bind_inv in H as (a & s & E & H).
(** [lia] with division and modulo by constants *)
Ltac dlia := Z.to_euclidean_division_equations; lia.

(** * Bitmaps *)
Lemma bit_at_byte bm k j b : bm !! k = Some b → 0 ≤ j < 8 → bit_at bm (8 * Z.of_nat k + j) = Z.testbit b j.
Proof.
  intros Hb Hj. unfold bit_at. replace (Z.to_nat ((8 * Z.of_nat k + j) / 8)) with k by dlia.
  rewrite Hb. f_equal. dlia.
Qed.
Lemma bit_at_set bm i b j :
  bm !! Z.to_nat (i / 8) = Some b → 0 ≤ i → 0 ≤ j →
  bit_at (<[Z.to_nat (i / 8) := u8 (Z.lor b (Z.shiftl 1 (i mod 8)))]> bm) j =
    if decide (i = j) then true else bit_at bm j.
Proof.
  intros Hb Hi Hj. unfold bit_at. pose proof (lookup_lt_Some _ _ _ Hb).
  assert (0 ≤ i mod 8 < 8 ∧ 0 ≤ j mod 8 < 8) as [Hi8 Hj8] by dlia.
  destruct (decide (i / 8 = j / 8)) as [Heq|Hne].
  - rewrite <-Heq, list_lookup_insert_eq, Hb by done. cbn [default from_option id].
    rewrite testbit_wrap, decide_True, testbit_set_bit by lia.
    destruct (decide (i mod 8 = j mod 8)), (decide (i = j)); done || (exfalso; dlia).
  - rewrite list_lookup_insert_ne by dlia. rewrite decide_False; [done|]. intros ->. by apply Hne.
Qed.
