(* ===== verification/Riscv.v ===== *)
(** The privileged architecture layer: [arch/riscv_isa.h] (bit layouts),
    [arch/riscv_reg.h] (CSR accessors), [arch/riscv_plic.cc] (interrupt
    controller set-up) and the memory map of [kernel/config/memory_layout.h].
    CSRs are a function from register names to 64-bit values; memory-mapped I/O
    is a small free monad whose reads are answered by the environment. *)
From S2P Require Import Prelude.

(** * kernel/config *)
Definition UART0 : Z := 0x10000000.
Definition CLINT_MTIME : Z := 0x200BFF8.
Definition PLIC_BASE : Z := 0x0c000000.
Definition PLIC_ENABLE (hart_id : Z) : Z := PLIC_BASE + 0x2000 + hart_id * 0x100.
Definition PLIC_PRIORITY_THRESH (hart_id : Z) : Z := PLIC_BASE + 0x200000 + hart_id * 0x2000.
Definition PLIC_CLAIM (hart_id : Z) : Z := PLIC_BASE + 0x200004 + hart_id * 0x2000.
Definition CLINT_MTIMECMP (hart_id : Z) : Z := 0x2004000 + 8 * hart_id.
Definition VIRTIO0 : Z := 0x10001000.
Definition VIRTIO1 : Z := 0x10002000.
Definition VIRTIO2 : Z := 0x10003000.
Definition VIRTIO3 : Z := 0x10004000.
Definition VIRTIO4 : Z := 0x10005000.
Definition KERNEL_BASE : Z := 0x80000000.
Definition MEMORY_END : Z := KERNEL_BASE + 128 * 1024 * 1024.
Definition MAX_SUPPORT_VA : Z := 0x3fffffffff.
Definition PGSIZE : Z := 4096.
Definition CPU_NUM : Z := 1.
Definition MAX_PROCESS_NUM : nat := 64.
Definition TIMER_INTERVAL : Z := 1000000.

(** * riscv_isa.h *)
Definition MPP_OFFSET : Z := 11.
Definition MPP_MASK : Z := u64 (Z.lnot (Z.shiftl 3 MPP_OFFSET)).
Definition MPP_user_mode : Z := 0.
Definition MPP_supvisor_mode : Z := Z.shiftl 1 MPP_OFFSET.
Definition MPP_machine_mode : Z := Z.shiftl 3 MPP_OFFSET.

Definition Sv39 : Z := Z.shiftl 8 60.

Inductive StatusBit := spp | mpie | spie | upie | mie | sie | usie.
#[export] Instance StatusBit_eq_dec : EqDecision StatusBit.
Proof. solve_decision. Defined.
Definition StatusBit_pos (b : StatusBit) : Z :=
  match b with spp => 8 | mpie => 7 | spie => 5 | upie => 4 | mie => 3 | sie => 1 | usie => 0 end.
Definition StatusBit_val (b : StatusBit) : Z := Z.shiftl 1 (StatusBit_pos b).

(** enum class MIE *)
Inductive MIE := USIE | SSIE | MSIE | UTIE | STIE | MTIE | UEIE | SEIE | MEIE.
Definition MIE_val (b : MIE) : Z :=
  Z.shiftl 1 match b with USIE => 0 | SSIE => 1 | MSIE => 3 | UTIE => 4 | STIE => 5 | MTIE => 7 | UEIE => 8 | SEIE => 9 | MEIE => 11 end.
Definition MIE_MTIE : Z := MIE_val MTIE.
Definition MIE_MEIE : Z := MIE_val MEIE.

Definition PMP_R : Z := 1.
Definition PMP_W : Z := 2.
Definition PMP_X : Z := 4.
Definition PMP_TOR : Z := 8.

Definition PTE_MASK : Z := 0x1e.
Definition PTE_V : Z := 1.
Definition PTE_R : Z := 2.
Definition PTE_W : Z := 4.
Definition PTE_X : Z := 8.
Definition PTE_U : Z := 16.

Definition EXCEPTION_MASK : Z := Z.shiftl 1 63.
(** enum class Exception; the first constructor is the source's [none] *)
Inductive exception :=
| no_exception | instruction_address_misaligned | instruction_access_fault | illegal_instruction | breakpoint
| load_address_misaligned | load_access_fault | store_address_misaligned | store_access_fault
| environment_call_from_u_mode | environment_call_from_s_mode | environment_call_from_m_mode
| instruction_page_fault | load_page_fault | store_page_fault.
Definition Exception_val (e : exception) : Z :=
  match e with
  | no_exception => 16 | instruction_address_misaligned => 0 | instruction_access_fault => 1 | illegal_instruction => 2
  | breakpoint => 3 | load_address_misaligned => 4 | load_access_fault => 5 | store_address_misaligned => 6
  | store_access_fault => 7 | environment_call_from_u_mode => 8 | environment_call_from_s_mode => 9
  | environment_call_from_m_mode => 11 | instruction_page_fault => 12 | load_page_fault => 13 | store_page_fault => 15
  end.
Definition Exception_environment_call_from_u_mode : Z := Exception_val environment_call_from_u_mode.
Definition Exception_load_page_fault : Z := Exception_val load_page_fault.
Definition Exception_store_page_fault : Z := Exception_val store_page_fault.
Definition Exception_none : Z := Exception_val no_exception.
(** enum class Interrupt *)
Inductive interrupt := no_interrupt_ | s_software | m_software | s_timer | m_timer | s_external | m_external.
Definition Interrupt_val (i : interrupt) : Z :=
  match i with no_interrupt_ => 0 | s_software => 1 | m_software => 3 | s_timer => 5 | m_timer => 7 | s_external => 9 | m_external => 11 end.
Definition Interrupt_m_timer : Z := Interrupt_val m_timer.
Definition Interrupt_m_external : Z := Interrupt_val m_external.

(** * riscv_reg.h: the CSR file *)
Inductive csr :=
| c_mstatus | c_mie | c_mtvec | c_mepc | c_mscratch | c_mcause | c_mtval | c_mhartid
| c_satp | c_tp | c_a7 | c_pmpaddr (i : Z) | c_pmpcfg0 | c_pmpcfg2.
#[export] Instance csr_eq_dec : EqDecision csr.
Proof. solve_decision. Defined.
Definition csrs : Type := csr → Z.
(** the value in every register is 64 bits wide *)
Definition csrw (r : csr) (v : Z) (σ : csrs) : csrs := λ r', if decide (r = r') then u64 v else σ r'.

(** [GeneralReg] and [ReadOnlyReg] over the [*_op] structs *)
Definition reg_read (r : csr) (σ : csrs) : Z := σ r.
Definition reg_write (r : csr) (v : Z) (σ : csrs) : csrs := csrw r v σ.
(** [write_imm]: the immediate of [csrwi] is five bits, that of [li] is not limited;
    [None]: the assembler refuses *)
Definition csrwi (r : csr) (imm : Z) (σ : csrs) : option csrs := if (0 <=? imm) && (imm <? 32) then Some (csrw r imm σ) else None.
Record reg_op := RegOp { op_write_imm : Z → csrs → option csrs; op_write : Z → csrs → csrs; op_read : csrs → Z }.
Definition csr_op (r : csr) : reg_op := RegOp (csrwi r) (reg_write r) (reg_read r).
Definition a7_op : reg_op := RegOp (λ imm σ, Some (reg_write c_a7 imm σ)) (reg_write c_a7) (reg_read c_a7).
Definition tp_op : reg_op := RegOp (λ imm σ, Some (reg_write c_tp imm σ)) (reg_write c_tp) (reg_read c_tp).
Definition mepc_op : reg_op := csr_op c_mepc.
Definition mstatus_op : reg_op := csr_op c_mstatus.
Definition mscratch_op : reg_op := csr_op c_mscratch.
(** the registers that are only read *)
Definition mhartid_op : csrs → Z := reg_read c_mhartid.
Definition mtval_op : csrs → Z := reg_read c_mtval.

(** [MstatusImpl] and [MieImpl], on the value read by [csrr] *)
Definition set_mpp (mpp v : Z) : Z := Z.lor (Z.land v MPP_MASK) mpp.
Definition read_mpp (v : Z) : Z := Z.land v (u64 (Z.lnot MPP_MASK)).
Definition set_bit (bit v : Z) : Z := Z.lor v bit.
Definition clear_bit (bit v : Z) : Z := Z.land v (u64 (Z.lnot bit)).
Definition read_bit (bit v : Z) : bool := 0 <? Z.land v bit.

Definition mstatus_set_mpp (mpp : Z) (σ : csrs) : csrs := csrw c_mstatus (set_mpp mpp (σ c_mstatus)) σ.
Definition mstatus_set_bit (b : StatusBit) (σ : csrs) : csrs :=
  csrw c_mstatus (set_bit (StatusBit_val b) (σ c_mstatus)) σ.
Definition mstatus_clear_bit (b : StatusBit) (σ : csrs) : csrs :=
  csrw c_mstatus (clear_bit (StatusBit_val b) (σ c_mstatus)) σ.
Definition mie_set_bit (b : Z) (σ : csrs) : csrs := csrw c_mie (set_bit b (σ c_mie)) σ.
Definition mie_clear_bit (b : Z) (σ : csrs) : csrs := csrw c_mie (clear_bit b (σ c_mie)) σ.

Definition mtvec_write_vec (f : Z) (vectored : bool) (σ : csrs) : csrs :=
  csrw c_mtvec (f + (if vectored then 1 else 0)) σ.
(** on a hart whose [mtvec] keeps what is written *)
Definition mtvec_write_vec_verify (f : Z) (vectored : bool) (σ : csrs) : bool * csrs :=
  let v := u64 (f + (if vectored then 1 else 0)) in
  let σ' := csrw c_mtvec v σ in (σ' c_mtvec =? v, σ').
Definition satp_write (mode root_page : Z) (σ : csrs) : csrs :=
  csrw c_satp (Z.lor mode (Z.shiftr root_page 12)) σ.

Definition MAX_PMP_REG : Z := 16.
Definition pmp_addr_write (index v : Z) (σ : csrs) : csrs :=
  if MAX_PMP_REG <=? index then σ else csrw (c_pmpaddr index) v σ.
(** [operator<<] on an enum returns the enum's underlying [uint8_t] *)
Definition pmp_shift (bit n : Z) : Z := u8 (Z.shiftl bit n).
Definition pmp_cfg_write (index bit : Z) (σ : csrs) : csrs :=
  if MAX_PMP_REG <=? index then σ
  else if index <? 8 then csrw c_pmpcfg0 (pmp_shift bit index) σ
  else csrw c_pmpcfg2 (pmp_shift bit (index - 8)) σ.

Definition is_exception (mcause : Z) : bool := negb (nonzero (Z.land mcause EXCEPTION_MASK)).
Definition is_interrupt (mcause : Z) : bool := nonzero (Z.land mcause EXCEPTION_MASK).
(** both [get_exception]/[get_interrupt] of [McauseImpl] and [RegFrame]'s
    [exception]/[interrunpt] keep the low 8 bits of the cause *)
Definition cause_code (mcause : Z) : Z := Z.land mcause (Z.shiftl 1 8 - 1).

(** * Memory-mapped I/O programs *)
Inductive io (A : Type) : Type :=
| IRet (a : A)
| IWrite (width addr v : Z) (k : io A)
| IRead (width addr : Z) (k : Z → io A).
Arguments IRet {A} a.
Arguments IWrite {A} width addr v k.
Arguments IRead {A} width addr k.
Fixpoint io_bind {A B} (m : io A) (f : A → io B) : io B :=
  match m with
  | IRet a => f a
  | IWrite w a v k => IWrite w a v (io_bind k f)
  | IRead w a k => IRead w a (λ v, io_bind (k v) f)
  end.
#[export] Instance io_mret : MRet io := @IRet.
#[export] Instance io_mbind : MBind io := λ A B f m, io_bind m f.
Definition W_Byte (a v : Z) : io () := IWrite 8 a (u8 v) (IRet ()).
Definition R_Byte (a : Z) : io Z := IRead 8 a (λ v, IRet (u8 v)).
Definition W_WORD (a v : Z) : io () := IWrite 32 a (u32 v) (IRet ()).
Definition R_WORD (a : Z) : io Z := IRead 32 a (λ v, IRet (u32 v)).
Definition W_DWORD (a v : Z) : io () := IWrite 64 a (u64 v) (IRet ()).
Definition R_DWORD (a : Z) : io Z := IRead 64 a (λ v, IRet (u64 v)).

(** Running a program against a device with state [D]: [rd] answers a read (and
    may change the device), [wr] receives a write. *)
Fixpoint io_run {A D} (rd : D → Z → Z → Z * D) (wr : D → Z → Z → Z → D) (m : io A) (d : D) : A * D :=
  match m with
  | IRet a => (a, d)
  | IWrite w a v k => io_run rd wr k (wr d w a v)
  | IRead w a k => let '(v, d') := rd d w a in io_run rd wr (k v) d'
  end.
(** The writes a program issues when its reads are answered by [f]. *)
Fixpoint io_trace {A} (f : Z → Z → Z) (m : io A) : list (Z * Z) * A :=
  match m with
  | IRet a => ([], a)
  | IWrite w a v k => let '(t, r) := io_trace f k in ((a, v) :: t, r)
  | IRead w a k => io_trace f (k (f w a))
  end.

(** * riscv_plic.cc *)
Definition MAX_PRIORITY : Z := 7.
Definition MIN_PRIORITY : Z := 0.
Definition irq_NONE : Z := 0.
Definition VIRTIO0_IRQ : Z := 1.
Definition VIRTIO1_IRQ : Z := 2.
Definition VIRTIO2_IRQ : Z := 3.
Definition VIRTIO3_IRQ : Z := 4.
Definition VIRTIO4_IRQ : Z := 5.
Definition UARRT0_IRQ : Z := 10.
Definition set_priority_hander (e priority : Z) : io () :=
  if (MAX_PRIORITY <? priority) || (priority <? MIN_PRIORITY) then mret ()
  else W_WORD (PLIC_BASE + e * 4) priority.
Definition globalinit : io () :=
  set_priority_hander VIRTIO0_IRQ 1 ;; set_priority_hander VIRTIO1_IRQ 1 ;;
  set_priority_hander VIRTIO2_IRQ 1 ;; set_priority_hander VIRTIO3_IRQ 1 ;;
  set_priority_hander VIRTIO4_IRQ 1 ;; set_priority_hander UARRT0_IRQ 1.
Definition enabled_irqs : list Z :=
  [VIRTIO0_IRQ; VIRTIO1_IRQ; VIRTIO2_IRQ; VIRTIO3_IRQ; VIRTIO4_IRQ; UARRT0_IRQ].
(** returns the CSR file with machine external interrupts enabled *)
Definition hartinit (hart_id : Z) (σ : csrs) : io csrs :=
  let enabled_irq := foldl (λ acc i, u32 (Z.lor acc (Z.shiftl 1 i))) 0 enabled_irqs in
  W_WORD (PLIC_ENABLE hart_id) enabled_irq ;;
  W_WORD (PLIC_PRIORITY_THRESH hart_id) 0 ;;
  mret (mie_set_bit MIE_MEIE σ).

(** * Lemmas *)
Lemma set_bit_testbit i v j : 0 ≤ i → 0 ≤ j →
  Z.testbit (set_bit (Z.shiftl 1 i) v) j = if decide (i = j) then true else Z.testbit v j.
Proof. apply testbit_set_bit. Qed.
Lemma clear_bit_testbit i v j : 0 ≤ i < 64 → 0 ≤ j → 0 ≤ v < 2 ^ 64 →
  Z.testbit (clear_bit (Z.shiftl 1 i) v) j = if decide (i = j) then false else Z.testbit v j.
Proof.
  intros Hi Hj Hv. unfold clear_bit. rewrite Z.land_spec, testbit_wrap by lia.
  case_decide as Hj64.
  - rewrite <-testbit_clear_bit, Z.ldiff_spec, Z.lnot_spec by lia. done.
  - rewrite andb_false_r. case_decide; [done|].
    symmetry. apply Z.bits_above_log2; [lia|].
    destruct (decide (v = 0)) as [->|]; [simpl; lia|]. apply Z.log2_lt_pow2; [lia|].
    apply Z.lt_le_trans with (2 ^ 64); [lia|]. apply Z.pow_le_mono_r; lia.
Qed.
Lemma read_bit_testbit i v : 0 ≤ i → 0 ≤ v → read_bit (Z.shiftl 1 i) v = Z.testbit v i.
Proof.
  intros Hi Hv. unfold read_bit. rewrite Z.shiftl_1_l.
  assert (Z.land v (2 ^ i) = if Z.testbit v i then 2 ^ i else 0) as ->.
  { apply Z.bits_inj'. intros j Hj. rewrite Z.land_spec, Z.pow2_bits_eqb by lia.
    destruct (decide (i = j)) as [->|Hne].
    - rewrite Z.eqb_refl, andb_true_r. destruct (Z.testbit v j) eqn:?.
      + by rewrite Z.pow2_bits_true by lia.
      + by rewrite Z.bits_0.
    - replace (i =? j) with false by lia. rewrite andb_false_r.
      destruct (Z.testbit v i); [|by rewrite Z.bits_0].
      rewrite Z.pow2_bits_eqb by lia. lia. }
  destruct (Z.testbit v i); [|done]. assert (0 < 2 ^ i) by lia. lia.
Qed.
Lemma StatusBit_pos_range b : 0 ≤ StatusBit_pos b < 64.
Proof. destruct b; simpl; lia. Qed.
Lemma StatusBit_pos_inj a b : StatusBit_pos a = StatusBit_pos b → a = b.
Proof. destruct a, b; simpl; intros; congruence || lia. Qed.
Lemma csrw_same r v σ : csrw r v σ r = u64 v.
Proof. unfold csrw. by rewrite decide_True. Qed.
Lemma csrw_ne r r' v σ : r ≠ r' → csrw r v σ r' = σ r'.
Proof. intros. unfold csrw. by rewrite decide_False. Qed.


Lemma set_bit_range b v : 0 ≤ v < 2 ^ 64 → 0 ≤ set_bit (StatusBit_val b) v < 2 ^ 64.
Proof.
  intros Hv. apply lor_range; [lia|done|]. unfold StatusBit_val.
  pose proof (StatusBit_pos_range b). rewrite Z.shiftl_1_l. split; [lia|]. apply Z.pow_lt_mono_r; lia.
Qed.
Lemma clear_bit_val_range b v : 0 ≤ v < 2 ^ 64 → 0 ≤ clear_bit (StatusBit_val b) v < 2 ^ 64.
Proof. intros Hv. apply land_range_l; lia. Qed.
Lemma mpp_mask_testbit j : 0 ≤ j → Z.testbit MPP_MASK j = bool_decide (j < 64 ∧ j ≠ 11 ∧ j ≠ 12).
Proof.
  intros Hj. unfold MPP_MASK, MPP_OFFSET. rewrite testbit_wrap by lia. case_decide as H64.
  - rewrite Z.lnot_spec, Z.shiftl_spec by lia.
    destruct (decide (j < 11)); [rewrite Z.testbit_neg_r by lia; symmetry; apply bool_decide_eq_true_2; lia|].
    destruct (decide (j = 11)) as [->|]; [done|]. destruct (decide (j = 12)) as [->|]; [done|].
    rewrite (range_bits 2 3) by lia. symmetry. apply bool_decide_eq_true_2. lia.
  - symmetry. apply bool_decide_eq_false_2. lia.
Qed.

(** * The properties of the register accessors *)

(** [set_bit] and [clear_bit] of [mstatus] change exactly the named bit: reading it
    back gives true, respectively false, every other status bit reads as before,
    the other CSRs are untouched and the register stays a 64-bit value. *)
Theorem mstatus_bit_laws σ b b' :
  0 ≤ σ c_mstatus < 2 ^ 64 →
  let rd σ' := read_bit (StatusBit_val b') (σ' c_mstatus) in
  rd (mstatus_set_bit b σ) = bool_decide (b = b') || rd σ ∧
  rd (mstatus_clear_bit b σ) = negb (bool_decide (b = b')) && rd σ ∧
  (∀ r, r ≠ c_mstatus → mstatus_set_bit b σ r = σ r ∧ mstatus_clear_bit b σ r = σ r) ∧
  0 ≤ mstatus_set_bit b σ c_mstatus < 2 ^ 64 ∧ 0 ≤ mstatus_clear_bit b σ c_mstatus < 2 ^ 64.
Proof.
  intros Hv rd. pose proof (set_bit_range b _ Hv) as Hs. pose proof (clear_bit_val_range b _ Hv) as Hc.
  pose proof (StatusBit_pos_range b). pose proof (StatusBit_pos_range b').
  unfold rd, mstatus_set_bit, mstatus_clear_bit. rewrite !csrw_same, !(wrap_small 64) by done.
  unfold StatusBit_val in *. rewrite !read_bit_testbit by lia.
  rewrite set_bit_testbit, clear_bit_testbit by lia.
  split_and!; [| |intros r Hr; by rewrite !csrw_ne by congruence|lia..].
  all: destruct (decide (b = b')) as [->|Hne]; [by rewrite decide_True, bool_decide_eq_true_2 by done|].
  all: rewrite decide_False by (by intros ?%StatusBit_pos_inj); by rewrite bool_decide_eq_false_2.
Qed.
Lemma mstatus_bit_laws_witness :
  read_bit (StatusBit_val mie) (mstatus_set_bit mie (λ _, 0x1800) c_mstatus) = true.
Proof. destruct (mstatus_bit_laws (λ _, 0x1800) mie mie) as [H _]; [lia|]. exact H. Defined.

(** [set_mpp] then [read_mpp] gives back the privilege mode, for the three modes, and
    leaves every bit outside the two-bit field alone. *)
Theorem mpp_roundtrip mpp v :
  mpp = MPP_user_mode ∨ mpp = MPP_supvisor_mode ∨ mpp = MPP_machine_mode → 0 ≤ v < 2 ^ 64 →
  read_mpp (set_mpp mpp v) = mpp ∧
  ∀ j, 0 ≤ j → j ≠ 11 → j ≠ 12 → Z.testbit (set_mpp mpp v) j = Z.testbit v j.
Proof.
  intros Hm Hv.
  assert (Hbits : ∀ j, 0 ≤ j → j ≠ 11 → j ≠ 12 → Z.testbit mpp j = false).
  { intros j Hj H11 H12. destruct (decide (j < 11)) as [Hlt|Hge].
    - destruct Hm as [->|[->| ->]]; [apply Z.bits_0|apply Z.shiftl_spec_low; unfold MPP_OFFSET; lia..].
    - apply (range_bits 13); [lia|]. destruct Hm as [->|[->| ->]]; by vm_compute. }
  split.
  - apply Z.bits_inj'. intros j Hj. unfold read_mpp, set_mpp.
    rewrite Z.land_spec, Z.lor_spec, Z.land_spec, testbit_wrap, Z.lnot_spec, mpp_mask_testbit by lia.
    destruct (decide (j = 11 ∨ j = 12)) as [Hin|Hout].
    + rewrite bool_decide_eq_false_2, decide_True by lia. by rewrite andb_false_r, andb_true_r.
    + rewrite (Hbits j) by lia. case_decide; [rewrite bool_decide_eq_true_2 by lia|]; by rewrite andb_false_r.
  - intros j Hj H11 H12. unfold set_mpp. rewrite Z.lor_spec, Z.land_spec, mpp_mask_testbit, Hbits by lia.
    destruct (decide (j < 64)).
    + rewrite bool_decide_eq_true_2 by lia. by rewrite andb_true_r, orb_false_r.
    + by rewrite (range_bits 64 v) by lia.
Qed.
Lemma mpp_roundtrip_witness : read_mpp (set_mpp MPP_machine_mode 0x80) = MPP_machine_mode.
Proof. apply (mpp_roundtrip MPP_machine_mode 0x80); [by right; right|lia]. Defined.

(** PLIC set-up: [globalinit] gives priority 1 to the six sources the kernel uses
    and [hartinit] enables exactly those sources for the hart, with threshold 0, and
    turns on machine external interrupts. *)
Theorem plic_setup f hart σ :
  io_trace f globalinit = ((λ e, (PLIC_BASE + e * 4, 1)) <$> enabled_irqs, ()) ∧
  (∃ w, fst (io_trace f (hartinit hart σ)) = [(PLIC_ENABLE hart, w); (PLIC_PRIORITY_THRESH hart, 0)] ∧
     ∀ i, 0 ≤ i < 32 → Z.testbit w i = bool_decide (i ∈ enabled_irqs)) ∧
  snd (io_trace f (hartinit hart σ)) = mie_set_bit MIE_MEIE σ.
Proof.
  split_and!; [done| |done]. exists 0x43e. split; [done|]. intros i Hi.
  assert (i ∈ seqZ 0 32) as Hin by (apply elem_of_seqZ; lia). revert i Hi Hin.
  assert (Forall (λ i, Z.testbit 0x43e i = bool_decide (i ∈ enabled_irqs)) (seqZ 0 32)) as HF.
  { apply (bool_decide_unpack _). by vm_compute. }
  rewrite Forall_forall in HF. auto.
Qed.
