(* ===== verification/Lock.v ===== *)
(** [kernel/lock]: [SpinLock] as a step relation over the threads that use it,
    and [CriticalGuard], the scope guard that turns machine interrupts off and
    restores them.  [HasMstatus] is what a component's state offers to be
    guarded. *)
From S2P Require Import Prelude Riscv.

(** * Interface: a state that holds the hart's [mstatus] *)
Class HasMstatus (S : Type) := {
  get_mstatus : S → Z;
  put_mstatus : Z → S → S;
  get_put_mstatus v s : get_mstatus (put_mstatus v s) = v;
  put_get_mstatus s : put_mstatus (get_mstatus s) s = s;
  put_put_mstatus v w s : put_mstatus v (put_mstatus w s) = put_mstatus v s;
}.

(** * CriticalGuard (critical_guard.cc) *)
Section guard.
Context {S : Type} `{HasMstatus S}.

(** kernel/utils.h *)
Definition global_interrunpt_on : M S () :=
  modify (λ s, put_mstatus (set_bit (StatusBit_val mie) (get_mstatus s)) s).
Definition global_interrunpt_off : M S () :=
  modify (λ s, put_mstatus (clear_bit (StatusBit_val mie) (get_mstatus s)) s).

(** [CPU_NUM] is 1, so [if constexpr (CPU_NUM != 1)] discards the lock: the
    constructor and the destructor touch [mstatus] only. *)
Definition CriticalGuard_ctor : M S bool :=
  is_intr_on ← gets (λ s, read_bit (StatusBit_val mie) (get_mstatus s));
  global_interrunpt_off ;;
  mret is_intr_on.
Definition CriticalGuard_dtor (is_intr_on : bool) : M S () :=
  if is_intr_on then global_interrunpt_on else mret ().

(** a block whose first declaration is a [CriticalGuard] *)
Definition guarded {A} (body : M S A) : M S A :=
  is_intr_on ← CriticalGuard_ctor;
  r ← body;
  CriticalGuard_dtor is_intr_on ;;
  mret r.

(** [mstatus] holds a 64-bit value *)
Definition mstatus_ok (s : S) : Prop := 0 ≤ get_mstatus s < 2 ^ 64.
Definition intr_off (s : S) : Prop := read_bit (StatusBit_val mie) (get_mstatus s) = false.
(** [s] with interrupts off: the state a guarded body starts from *)
Definition masked (s : S) : S := put_mstatus (clear_bit (StatusBit_val mie) (get_mstatus s)) s.
End guard.

(** the smallest guarded state: [mstatus] alone *)
#[refine] Instance Z_HasMstatus : HasMstatus Z :=
  {| get_mstatus := λ v, v; put_mstatus := λ v _, v |}.
Proof. all: done. Defined.

(** [SpinLock::Lock] by the code of one hart, with a bound on the number of tries:
    [held] is the lock's flag and [take] sets it *)
Section spin.
Context {S : Type} (held : S → bool) (take : S → S).
Fixpoint spin_lock (fuel : nat) : M S () :=
  match fuel with
  | O => stop_with OutOfFuel
  | Datatypes.S fuel => was ← gets held; modify take;; if (was : bool) then spin_lock fuel else mret ()
  end.
Context (held_take : ∀ s, held (take s) = true).
Lemma spin_lock_held fuel s : held s = true → spin_lock fuel s = Stop OutOfFuel.
Proof using held_take.
  revert s. induction fuel as [|fuel IH]; intros s Hs; [done|]. cbn [spin_lock]. unfold mbind at 1, M_bind, gets.
  rewrite Hs. rewrite (bind_Ok _ _ _ () (take s)) by done. apply IH, held_take.
Qed.
Lemma spin_lock_free fuel s : held s = false → spin_lock (Datatypes.S fuel) s = Ok ((), take s).
Proof. intros Hs. cbn [spin_lock]. unfold mbind at 1, M_bind, gets. by rewrite Hs. Qed.
Lemma spin_lock_Ok fuel s s' : spin_lock fuel s = Ok ((), s') → s' = take s ∧ held s = false.
Proof using held_take.
  destruct fuel as [|fuel]; [done|]. destruct (held s) eqn:E; intros H.
  - by rewrite spin_lock_held in H.
  - rewrite spin_lock_free in H by done. by injection H as <-.
Qed.
End spin.

(** * SpinLock (spin_lock.cc): threads around one [std::atomic_flag] *)
Inductive pc := Outside | Spinning | Holding.
#[export] Instance pc_eq_dec : EqDecision pc.
Proof. solve_decision. Defined.
Record lock_state := LockState { flag_ : bool; threads : nat → pc }.

Definition set_pc (t : nat) (p : pc) (f : nat → pc) : nat → pc := λ t', if decide (t = t') then p else f t'.
(** one iteration of [while (flag_.test_and_set());]: the flag is set, and the
    loop is left when it was clear *)
Definition test_and_set (st : lock_state) (t : nat) : lock_state :=
  if flag_ st then LockState true (set_pc t Spinning (threads st))
  else LockState true (set_pc t Holding (threads st)).
Definition UnLock (st : lock_state) (t : nat) : lock_state :=
  LockState false (set_pc t Outside (threads st)).

(** what a thread does to the lock: enters [Lock], runs [test_and_set] once, calls [UnLock] *)
Inductive lock_event := EvLock (t : nat) | EvTas (t : nat) | EvUnLock (t : nat).
(** [UnLock] tests nothing: any thread that is not inside [Lock] may call it, whether it
    holds the lock or not *)
Inductive lock_step : lock_state → lock_event → lock_state → Prop :=
| step_call st t : threads st t = Outside → lock_step st (EvLock t) (LockState (flag_ st) (set_pc t Spinning (threads st)))
| step_tas st t : threads st t = Spinning → lock_step st (EvTas t) (test_and_set st t)
| step_unlock st t : threads st t ≠ Spinning → lock_step st (EvUnLock t) (UnLock st t).
Inductive lock_run (ok : lock_state → lock_event → Prop) : lock_state → list lock_event → lock_state → Prop :=
| run_done st : lock_run ok st [] st
| run_step st e st1 es st2 : lock_step st e st1 → ok st e → lock_run ok st1 es st2 → lock_run ok st (e :: es) st2.
(** the discipline of [LockGuard], whose destructor is the only caller of [UnLock] and
    runs after the constructor's [Lock]: a thread unlocks what it holds *)
Definition holder_unlocks (st : lock_state) (e : lock_event) : Prop :=
  match e with EvUnLock t => threads st t = Holding | _ => True end.
(** no discipline at all *)
Definition anyhow (st : lock_state) (e : lock_event) : Prop := True.
Definition lock_init : lock_state := LockState false (λ _, Outside).

Definition lock_inv (st : lock_state) : Prop :=
  (flag_ st = false → ∀ t, threads st t ≠ Holding) ∧
  (∀ t1 t2, threads st t1 = Holding → threads st t2 = Holding → t1 = t2).

(** * Lemmas *)
Lemma clear_bit_range i v : 0 ≤ i < 64 → 0 ≤ v < 2 ^ 64 → 0 ≤ clear_bit (Z.shiftl 1 i) v < 2 ^ 64.
Proof.
  intros Hi Hv. unfold clear_bit. apply land_range_l; lia.
Qed.
Lemma set_after_clear i v : 0 ≤ i < 64 → 0 ≤ v < 2 ^ 64 → Z.testbit v i = true →
  set_bit (Z.shiftl 1 i) (clear_bit (Z.shiftl 1 i) v) = v.
Proof.
  intros Hi Hv Hb. apply Z.bits_inj'. intros j Hj.
  rewrite set_bit_testbit, clear_bit_testbit by lia. repeat case_decide; congruence.
Qed.
Lemma clear_when_clear i v : 0 ≤ i < 64 → 0 ≤ v < 2 ^ 64 → Z.testbit v i = false →
  clear_bit (Z.shiftl 1 i) v = v.
Proof.
  intros Hi Hv Hb. apply Z.bits_inj'. intros j Hj.
  rewrite clear_bit_testbit by lia. case_decide; congruence.
Qed.

Section guard_lemmas.
Context {S : Type} `{HasMstatus S}.

Lemma guarded_unfold {A} (body : M S A) (s : S) :
  guarded body s =
  (r ← body;
   CriticalGuard_dtor (read_bit (StatusBit_val mie) (get_mstatus s)) ;; mret r) (masked s).
Proof. done. Qed.

(** The rule every guarded operation is verified with: a body that leaves
    [mstatus] alone runs with interrupts off and ends with [mstatus] restored. *)
Lemma wp_guarded {A} (body : M S A) (Q : A → S → Prop) (s : S) :
  mstatus_ok s →
  wp body (λ a s', get_mstatus s' = get_mstatus (masked s) ∧ Q a (put_mstatus (get_mstatus s) s')) (masked s) →
  wp (guarded body) Q s.
Proof.
  intros Hok Hwp. unfold wp. rewrite guarded_unfold. fold (wp (S:=S) (A:=A)).
  change (wp (r ← body; CriticalGuard_dtor (read_bit (StatusBit_val mie) (get_mstatus s));; mret r) Q (masked s)).
  apply wp_bind. eapply wp_mono; [exact Hwp|]. intros a s' [Hms HQ].
  assert (Hm : get_mstatus (masked s) = clear_bit (Z.shiftl 1 3) (get_mstatus s)).
  { unfold masked. by rewrite get_put_mstatus. }
  unfold StatusBit_val. simpl StatusBit_pos.
  rewrite read_bit_testbit by (unfold mstatus_ok in Hok; lia).
  destruct (Z.testbit (get_mstatus s) 3) eqn:Hb; unfold CriticalGuard_dtor; wp_steps.
  - unfold global_interrunpt_on. wp_steps. unfold StatusBit_val. simpl StatusBit_pos.
    rewrite Hms, Hm, set_after_clear; [done|lia|exact Hok|done].
  - replace s' with (put_mstatus (get_mstatus s) s'); [done|].
    rewrite <-(put_get_mstatus s') at 2. f_equal.
    rewrite Hms, Hm. symmetry. apply clear_when_clear; [lia|exact Hok|done].
Qed.
(** where the interrupt state does not matter: the guard writes [mstatus] only *)
Lemma wp_ctor_any (Q : bool → S → Prop) (s : S) : (∀ g x, Q g (put_mstatus x s)) → wp CriticalGuard_ctor Q s.
Proof. intros HQ. unfold CriticalGuard_ctor. do 3 wp_step. apply HQ. Qed.
Lemma wp_dtor_any g (Q : () → S → Prop) (s : S) : (∀ x, Q () (put_mstatus x s)) → wp (CriticalGuard_dtor g) Q s.
Proof.
  intros HQ. unfold CriticalGuard_dtor. destruct g.
  - unfold global_interrunpt_on. wp_step. apply HQ.
  - wp_step. specialize (HQ (get_mstatus s)). by rewrite put_get_mstatus in HQ.
Qed.
Lemma wp_guarded_any {A} (body : M S A) (Q : A → S → Prop) (s : S) :
  (∀ x, wp body (λ a s', ∀ y, Q a (put_mstatus y s')) (put_mstatus x s)) → wp (guarded body) Q s.
Proof.
  intros Hwp. unfold guarded. wp_step. apply wp_ctor_any. intros g x. wp_step. eapply wp_mono; [apply Hwp|].
  intros a s' HQ. cbv beta. wp_step. apply wp_dtor_any. intros y. wp_step. apply HQ.
Qed.
Lemma masked_ok (s : S) : mstatus_ok s → mstatus_ok (masked s).
Proof.
  unfold mstatus_ok, masked. rewrite get_put_mstatus. intros Hs.
  unfold StatusBit_val. simpl StatusBit_pos. by apply clear_bit_range.
Qed.
Lemma masked_intr_off (s : S) : mstatus_ok s → intr_off (masked s).
Proof.
  intros Hok. pose proof (masked_ok s Hok) as Hok'. unfold intr_off, mstatus_ok in *.
  unfold StatusBit_val at 1. simpl StatusBit_pos.
  rewrite read_bit_testbit by lia. unfold masked. rewrite get_put_mstatus.
  unfold StatusBit_val. simpl StatusBit_pos. rewrite clear_bit_testbit by lia. done.
Qed.
Lemma put_masked v (s : S) : put_mstatus v (masked s) = put_mstatus v s.
Proof. unfold masked. by rewrite put_put_mstatus. Qed.
End guard_lemmas.

Lemma lock_inv_init : lock_inv lock_init.
Proof. split; done. Qed.
Lemma lock_inv_step st e st' : lock_inv st → holder_unlocks st e → lock_step st e st' → lock_inv st'.
Proof.
  intros [Hf Hu] Hd Hstep. destruct Hstep as [st t Ht|st t Ht|st t Ht]; unfold lock_inv, test_and_set, UnLock, holder_unlocks in *.
  - simpl. split; intros; unfold set_pc in *; repeat case_decide; naive_solver.
  - destruct (flag_ st) eqn:E; simpl; split; intros; unfold set_pc in *;
      repeat case_decide; naive_solver.
  - simpl. split; intros; unfold set_pc in *; repeat case_decide; naive_solver.
Qed.
Lemma lock_inv_run st es st' : lock_inv st → lock_run holder_unlocks st es st' → lock_inv st'.
Proof. intros Hi Hr. induction Hr; eauto using lock_inv_step. Qed.
Lemma set_pc_eq t p f : set_pc t p f t = p.
Proof. unfold set_pc. by case_decide. Qed.
Lemma set_pc_ne t u p f : t ≠ u → set_pc t p f u = f u.
Proof. intros. unfold set_pc. by case_decide. Qed.

(** * The properties of the locks *)

(** C34: The lock excludes exactly as far as its users are disciplined.  When every
    [UnLock] is called by the thread that holds the lock, as [LockGuard] does, at most
    one thread holds it after any sequence of calls, and only while the flag is set.
    [UnLock] itself checks nothing: from any state in which one thread holds the lock and
    another waits, an [UnLock] by a third (as in a [Sleep] that is given a lock its
    caller never took) lets the second in beside the first. *)
Theorem SpinLock_mutual_exclusion :
  (∀ es st t1 t2, lock_run holder_unlocks lock_init es st →
     threads st t1 = Holding → threads st t2 = Holding → t1 = t2 ∧ flag_ st = true) ∧
  (∀ st t u v, threads st t = Holding → threads st u = Outside → threads st v = Spinning →
     ∃ st', lock_run anyhow st [EvUnLock u; EvTas v] st' ∧ threads st' t = Holding ∧ threads st' v = Holding).
Proof.
  split.
  - intros es st t1 t2 Hr H1 H2. destruct (lock_inv_run _ _ _ lock_inv_init Hr) as [Hf Hu].
    split; [by apply Hu|]. destruct (flag_ st); [done|]. by destruct (Hf eq_refl t1).
  - intros st t u v Ht Hu Hv. exists (test_and_set (UnLock st u) v).
    assert (u ≠ v ∧ u ≠ t ∧ v ≠ t) as (Huv & Hut & Hvt) by (split_and!; congruence).
    split; [|split].
    + eapply run_step; [apply step_unlock; congruence|done|].
      eapply run_step; [apply step_tas; cbn; by rewrite set_pc_ne|done|constructor].
    + cbn. by rewrite !set_pc_ne.
    + cbn. by rewrite set_pc_eq.
Qed.
Lemma SpinLock_mutual_exclusion_witness :
  let st := test_and_set (LockState false (set_pc 3 Spinning (λ _, Outside))) 3 in
  lock_run holder_unlocks lock_init [EvLock 3; EvTas 3] st ∧ threads st 3 = Holding ∧ flag_ st = true ∧
  let two := LockState true (set_pc 4 Spinning (threads st)) in
  ∃ st', lock_run anyhow two [EvUnLock 5; EvTas 4] st' ∧ threads st' 3 = Holding ∧ threads st' 4 = Holding.
Proof.
  intros st. assert (Hr : lock_run holder_unlocks lock_init [EvLock 3; EvTas 3] st).
  { eapply run_step; [exact (step_call lock_init 3 eq_refl)|exact I|].
    eapply run_step; [|exact I|constructor]. apply (step_tas (LockState false (set_pc 3 Spinning (λ _, Outside)))). done. }
  split; [exact Hr|]. split; [reflexivity|].
  destruct (proj1 SpinLock_mutual_exclusion _ st 3%nat 3%nat Hr eq_refl eq_refl) as [H1 H2].
  split; [exact H2|]. cbv zeta.
  apply (proj2 SpinLock_mutual_exclusion _ 3%nat 5%nat 4%nat); reflexivity.
Defined.

(** A block guarded by [CriticalGuard] runs with machine interrupts off and, when it
    leaves [mstatus] as it found it, ends with [mstatus] exactly as it was before
    the block (so a guard nested in another does not turn interrupts back on). *)
Theorem CriticalGuard_scope {S A} `{HasMstatus S} (body : M S A) (Q : A → S → Prop) (s : S) :
  mstatus_ok s →
  (∀ s0, intr_off s0 → mstatus_ok s0 → s0 = masked s →
     wp body (λ a s1, get_mstatus s1 = get_mstatus s0 ∧ Q a s1) s0) →
  wp (guarded body) (λ a s', get_mstatus s' = get_mstatus s ∧ ∃ s1, Q a s1 ∧ s' = put_mstatus (get_mstatus s) s1) s.
Proof.
  intros Hok Hb. apply wp_guarded; [done|].
  eapply wp_mono; [apply Hb; [by apply masked_intr_off|by apply masked_ok|done]|].
  intros a s1 [Hm HQ]. split; [done|]. rewrite get_put_mstatus. eauto.
Qed.
Lemma CriticalGuard_scope_witness :
  wp (guarded (guarded (mret 7))) (λ a s', s' = 0x1888) (0x1888 : Z).
Proof.
  eapply wp_mono.
  - apply (CriticalGuard_scope (guarded (mret 7)) (λ a s1, a = 7) (0x1888 : Z)); [by unfold mstatus_ok; simpl|].
    intros s0 Hoff Hok ->. by vm_compute.
  - intros a s' [H _]. exact H.
Defined.
