(* ===== verification/Mem.v ===== *)
(** Physical memory as a finite map from addresses to bytes, with little-endian
    multi-byte accesses, and the routines of [lib/string.cc]: the block
    operations on memory, the C-string operations on the bytes from a pointer
    to the end of the object it points into. *)
From S2P Require Import Prelude.

Abbreviation mem := (gmap Z Z).
(** a byte never written reads as 0; stored values are truncated to [uint8_t] *)
Definition load8 (m : mem) (a : Z) : Z := u8 (default 0 (m !! a)).
Definition store8 (m : mem) (a v : Z) : mem := <[a := u8 v]> m.
Fixpoint load_le (n : nat) (m : mem) (a : Z) : Z :=
  match n with O => 0 | S n => load8 m a + 256 * load_le n m (a + 1) end.
Fixpoint store_le (n : nat) (m : mem) (a v : Z) : mem :=
  match n with O => m | S n => store_le n (store8 m a v) (a + 1) (v `div` 256) end.
Abbreviation load64 := (load_le 8).
Abbreviation store64 := (store_le 8).
Abbreviation load32 := (load_le 4).
Abbreviation store32 := (store_le 4).

(** the [n] bytes at [a] *)
Fixpoint load_bytes (n : nat) (m : mem) (a : Z) : list Z :=
  match n with O => [] | S n => load8 m a :: load_bytes n m (a + 1) end.

(** * Block operations of lib/string.cc *)
Fixpoint memset_loop (n : nat) (i : Z) (m : mem) (c v : Z) : mem :=
  match n with O => m | S n => memset_loop n (i + 1) (store8 m (c + i) v) c v end.
Definition memset (m : mem) (s v size : Z) : mem := memset_loop (Z.to_nat size) 0 m s v.

Fixpoint memcpy_loop (k : nat) (i : Z) (m : mem) (d s : Z) : mem :=
  match k with O => m | S k => memcpy_loop k (i + 1) (store8 m (d + i) (load8 m (s + i))) d s end.
Definition memcpy (m : mem) (dest src n : Z) : mem := memcpy_loop (Z.to_nat n) 0 m dest src.

(** [for (int i = size - 1; i >= 0; --i)]: always from the last byte down *)
Fixpoint memmove_loop (k : nat) (m : mem) (d s : Z) : mem :=
  match k with
  | O => m
  | S k => memmove_loop k (store8 m (d + Z.of_nat k) (load8 m (s + Z.of_nat k))) d s
  end.
Definition memmove (m : mem) (dest src size : Z) : mem :=
  let i := s32 (size - 1) in memmove_loop (Z.to_nat (i + 1)) m dest src.

(** [memcmp] compares the pointers [s] and [d], not the bytes they point to *)
Fixpoint memcmp_loop (k : nat) (s d : Z) : Z :=
  match k with
  | O => 0
  | S k => if d <? s then 1 else if s <? d then -1 else memcmp_loop k s d
  end.
Definition memcmp (m : mem) (ptr1 ptr2 num : Z) : Z := memcmp_loop (Z.to_nat num) ptr1 ptr2.

(** * C strings: [None] when the loop runs past the end of the object *)
Fixpoint strlen (s : list Z) : option nat :=
  match s with
  | [] => None
  | c :: s => if c =? 0 then Some 0%nat else S <$> strlen s
  end.
Fixpoint strcmp_loop (len : nat) (s1 s2 : list Z) : option Z :=
  match len with
  | O => Some 0
  | S len =>
    match s1, s2 with
    | c1 :: s1, c2 :: s2 =>
      if c2 <? c1 then Some 1 else if c1 <? c2 then Some (-1) else strcmp_loop len s1 s2
    | _, _ => None
    end
  end.
Definition strcmp (s1 s2 : list Z) : option Z :=
  len1 ← strlen s1; len2 ← strlen s2;
  if (len2 <? len1)%nat then Some 1
  else if (len1 <? len2)%nat then Some (-1)
  else strcmp_loop len1 s1 s2.
(** the index found, [Some None] for [nullptr] *)
Fixpoint strchr (str : list Z) (c : Z) : option (option nat) :=
  match str with
  | [] => None
  | b :: str =>
    if b =? 0 then Some None
    else if b =? c then Some (Some 0%nat)
    else match strchr str c with
         | Some (Some n) => Some (Some (S n))
         | r => r
         end
  end.

(** the characters of a C string, and a C string for a list of characters *)
Definition cstr (s : list Z) : list Z := s ++ [0].
Definition no_nul (s : list Z) : Prop := Forall (λ c, c ≠ 0) s.

(** * Lemmas: loads and stores *)
Lemma load8_range m a : 0 ≤ load8 m a < 256.
Proof. apply (wrap_range 8). lia. Qed.
Lemma load8_store8 m a b v : load8 (store8 m a v) b = if decide (a = b) then u8 v else load8 m b.
Proof.
  unfold load8, store8. rewrite lookup_insert. case_decide; [|done]. simpl. apply wrap_wrap.
Qed.
Lemma load8_store_le n m a v b :
  load8 (store_le n m a v) b =
    if decide (a ≤ b < a + Z.of_nat n) then u8 (v `div` 256 ^ (b - a)) else load8 m b.
Proof.
  revert m a v. induction n as [|n IH]; intros m a v; cbn [store_le].
  { rewrite decide_False; [done|lia]. }
  rewrite IH, load8_store8. repeat case_decide; try (exfalso; lia); try done.
  - rewrite Z.div_div by lia. do 2 f_equal. rewrite <-(Z.pow_1_r 256) at 1.
    rewrite <-Z.pow_add_r by lia. f_equal. lia.
  - subst. by rewrite Z.sub_diag, Z.pow_0_r, Z.div_1_r.
Qed.
Lemma load_le_agree n m m' a :
  (∀ b, a ≤ b < a + Z.of_nat n → load8 m b = load8 m' b) → load_le n m a = load_le n m' a.
Proof.
  revert a. induction n as [|n IH]; intros a H; [done|]. cbn [load_le].
  rewrite (H a), (IH (a + 1)) by lia || (intros; apply H; lia). done.
Qed.
Lemma load_le_digits n m a v :
  (∀ b, a ≤ b < a + Z.of_nat n → load8 m b = u8 (v `div` 256 ^ (b - a))) →
  load_le n m a = v `mod` 2 ^ (8 * Z.of_nat n).
Proof.
  revert a v. induction n as [|n IH]; intros a v H; cbn [load_le].
  { by rewrite Zmod_1_r. }
  rewrite mod_split_256, (H a), Z.sub_diag, Z.pow_0_r, Z.div_1_r by lia.
  rewrite (IH (a + 1) (v `div` 256)); [done|].
  intros b Hb. rewrite H by lia. rewrite Z.div_div by lia. do 2 f_equal.
  rewrite <-(Z.pow_1_r 256) at 2. rewrite <-Z.pow_add_r by lia. f_equal. lia.
Qed.
Lemma load_store_same n m a v : load_le n (store_le n m a v) a = v `mod` 2 ^ (8 * Z.of_nat n).
Proof.
  apply load_le_digits. intros b Hb. rewrite load8_store_le, decide_True by lia. done.
Qed.
Lemma load_store_ne n k m a b v :
  a + Z.of_nat n ≤ b ∨ b + Z.of_nat k ≤ a → load_le k (store_le n m a v) b = load_le k m b.
Proof.
  intros H. apply load_le_agree. intros c Hc. rewrite load8_store_le, decide_False by lia. done.
Qed.
Lemma load_le_range n m a : 0 ≤ load_le n m a < 2 ^ (8 * Z.of_nat n).
Proof.
  revert a. induction n as [|n IH]; intros a; cbn [load_le]; [simpl; lia|].
  rewrite pow256_S. pose proof (load8_range m a). pose proof (IH (a + 1)). lia.
Qed.
Lemma load64_store64 m a v : load64 (store64 m a v) a = u64 v.
Proof. apply load_store_same. Qed.
Lemma load64_store64_ne m a b v : a + 8 ≤ b ∨ b + 8 ≤ a → load64 (store64 m a v) b = load64 m b.
Proof. intros. apply load_store_ne. lia. Qed.
Lemma length_load_bytes n m a : length (load_bytes n m a) = n.
Proof. revert a. induction n; intros a; simpl; auto. Qed.
Lemma load_bytes_agree n m m' a :
  (∀ b, a ≤ b < a + Z.of_nat n → load8 m b = load8 m' b) → load_bytes n m a = load_bytes n m' a.
Proof.
  revert a. induction n as [|n IH]; intros a H; [done|]. cbn [load_bytes].
  rewrite (H a), (IH (a + 1)) by lia || (intros; apply H; lia). done.
Qed.

(** * Lemmas: block operations *)
Lemma memset_loop_spec n i m c v a :
  load8 (memset_loop n i m c v) a =
    if decide (c + i ≤ a < c + i + Z.of_nat n) then u8 v else load8 m a.
Proof.
  revert i m. induction n as [|n IH]; intros i m; cbn [memset_loop].
  { rewrite decide_False; [done|lia]. }
  rewrite IH, load8_store8. repeat case_decide; (done || lia).
Qed.
Lemma load8_memset m s v size a :
  load8 (memset m s v size) a = if decide (s ≤ a < s + size) then u8 v else load8 m a.
Proof.
  unfold memset. rewrite memset_loop_spec. repeat case_decide; (done || lia).
Qed.
Lemma load_le_memset_ne k m s v size a :
  a + Z.of_nat k ≤ s ∨ s + size ≤ a → load_le k (memset m s v size) a = load_le k m a.
Proof.
  intros. apply load_le_agree. intros b Hb. rewrite load8_memset, decide_False by lia. done.
Qed.
Lemma load_le_memset_0 k m s size a :
  s ≤ a → a + Z.of_nat k ≤ s + size → load_le k (memset m s 0 size) a = 0.
Proof.
  intros. rewrite (load_le_digits _ _ _ 0); [by rewrite Zmod_0_l|].
  intros b Hb. rewrite load8_memset, decide_True by lia. by rewrite Z.div_0_l by lia.
Qed.
Lemma memcpy_loop_spec k i m d s a :
  (d + i + Z.of_nat k ≤ s + i ∨ s + i + Z.of_nat k ≤ d + i ∨ d ≤ s) →
  load8 (memcpy_loop k i m d s) a =
    if decide (d + i ≤ a < d + i + Z.of_nat k) then load8 m (s + (a - d)) else load8 m a.
Proof.
  revert i m. induction k as [|k IH]; intros i m Hd; cbn [memcpy_loop].
  { rewrite decide_False; [done|lia]. }
  rewrite IH by lia. rewrite !load8_store8.
  assert (u8 (load8 m (s + i)) = load8 m (s + i)) as -> by (apply wrap_wrap).
  repeat case_decide; try (done || lia). f_equal. lia.
Qed.
(** the copy is right when the regions are disjoint, or when it moves down *)
Lemma load8_memcpy m d s n a :
  (d + n ≤ s ∨ s + n ≤ d ∨ d ≤ s) →
  load8 (memcpy m d s n) a = if decide (d ≤ a < d + n) then load8 m (s + (a - d)) else load8 m a.
Proof.
  intros Hd. unfold memcpy. destruct (decide (0 ≤ n)).
  - rewrite memcpy_loop_spec by lia. repeat case_decide; (done || lia).
  - replace (Z.to_nat n) with 0%nat by lia. simpl. rewrite decide_False; [done|lia].
Qed.
Lemma memmove_loop_spec k m d s a :
  (s ≤ d ∨ d + Z.of_nat k ≤ s) →
  load8 (memmove_loop k m d s) a =
    if decide (d ≤ a < d + Z.of_nat k) then load8 m (s + (a - d)) else load8 m a.
Proof.
  revert m. induction k as [|k IH]; intros m Hd; cbn [memmove_loop].
  { rewrite decide_False; [done|lia]. }
  rewrite IH by lia. rewrite !load8_store8.
  assert (u8 (load8 m (s + Z.of_nat k)) = load8 m (s + Z.of_nat k)) as -> by (apply wrap_wrap).
  repeat case_decide; try (done || lia). f_equal. lia.
Qed.
Lemma s32_small z : - 2 ^ 31 ≤ z < 2 ^ 31 → s32 z = z.
Proof. intros. unfold swrap. rewrite Z.mod_small; lia. Qed.
Lemma load8_memmove m d s n a :
  0 ≤ n < 2 ^ 31 → (s ≤ d ∨ d + n ≤ s) →
  load8 (memmove m d s n) a = if decide (d ≤ a < d + n) then load8 m (s + (a - d)) else load8 m a.
Proof.
  intros Hn Hd. unfold memmove. rewrite s32_small by lia.
  rewrite memmove_loop_spec by lia. repeat case_decide; (done || lia).
Qed.
Lemma memcmp_loop_pointers k s d : (0 < k)%nat → memcmp_loop k s d = Z.sgn (s - d).
Proof.
  induction k as [|k IH]; intros Hk; [lia|]. cbn [memcmp_loop].
  destruct (d <? s) eqn:?; [symmetry; apply Z.sgn_pos; lia|].
  destruct (s <? d) eqn:?; [symmetry; apply Z.sgn_neg; lia|].
  assert (s = d) as -> by lia. destruct k; [by rewrite Z.sub_diag|]. apply IH. lia.
Qed.

(** * Lemmas: strings *)
Lemma strlen_cstr s r : no_nul s → strlen (s ++ 0 :: r) = Some (length s).
Proof.
  induction 1 as [|c s Hc _ IH]; [done|]. cbn [app strlen length].
  replace (c =? 0) with false by lia. by rewrite IH.
Qed.
Lemma strlen_Some l n :
  strlen l = Some n → ∃ s r, l = s ++ 0 :: r ∧ length s = n ∧ no_nul s.
Proof.
  revert n. induction l as [|c l IH]; intros n; cbn [strlen]; [done|].
  destruct (c =? 0) eqn:Hc.
  - intros [= <-]. exists [], l. assert (c = 0) as -> by lia. split_and!; [done..|constructor].
  - intros (k & Hk & ->)%fmap_Some. destruct (IH k Hk) as (s & r & -> & <- & Hs).
    exists (c :: s), r. split_and!; [done..|]. constructor; [lia|done].
Qed.
Lemma strcmp_loop_refl s r1 r2 : strcmp_loop (length s) (s ++ r1) (s ++ r2) = Some 0.
Proof.
  induction s as [|c s IH]; [done|]. cbn [length app strcmp_loop]. by rewrite Z.ltb_irrefl.
Qed.
Lemma strcmp_loop_total n s1 s2 r1 r2 :
  length s1 = n → length s2 = n →
  is_Some (strcmp_loop n (s1 ++ r1) (s2 ++ r2)) ∧
  (strcmp_loop n (s1 ++ r1) (s2 ++ r2) = Some 0 → s1 = s2).
Proof.
  revert s1 s2. induction n as [|n IH]; intros [|c1 s1] [|c2 s2]; simpl; try done.
  intros [= H1] [= H2]. destruct (IH s1 s2 H1 H2) as [? Heq].
  destruct (c2 <? c1) eqn:?; [done|]. destruct (c1 <? c2) eqn:?; [done|]. split; [done|].
  intros ?. f_equal; [lia|auto].
Qed.
Lemma strcmp_cstr_0 s1 s2 r1 r2 : no_nul s1 → no_nul s2 →
  strcmp (s1 ++ 0 :: r1) (s2 ++ 0 :: r2) = Some 0 ↔ s1 = s2.
Proof.
  intros H1 H2. unfold strcmp. rewrite !strlen_cstr by done. cbn [mbind option_bind].
  destruct (Nat.ltb_spec (length s2) (length s1)).
  { split; [done|]. intros ->. lia. }
  destruct (Nat.ltb_spec (length s1) (length s2)).
  { split; [done|]. intros ->. lia. }
  split.
  - intros H'. apply (strcmp_loop_total (length s1) s1 s2 (0 :: r1) (0 :: r2)); [done|lia|done].
  - intros ->. apply strcmp_loop_refl.
Qed.
Lemma strcmp_defined s1 s2 r1 r2 : no_nul s1 → no_nul s2 →
  is_Some (strcmp (s1 ++ 0 :: r1) (s2 ++ 0 :: r2)).
Proof.
  intros H1 H2. unfold strcmp. rewrite !strlen_cstr by done. cbn [mbind option_bind].
  destruct (Nat.ltb_spec (length s2) (length s1)); [done|].
  destruct (Nat.ltb_spec (length s1) (length s2)); [done|].
  apply strcmp_loop_total; lia.
Qed.

#[global] Arguments load_le : simpl never.
#[global] Arguments store_le : simpl never.
#[global] Arguments memset : simpl never.
#[global] Arguments memcpy : simpl never.
#[global] Arguments wrap : simpl never.

(** * The properties of the block and string routines *)

(** [memmove] is right for disjoint regions and for moves up: afterwards the
    destination holds what the source held and every other byte is as before. *)
Theorem memmove_up m dest src size a :
  0 ≤ size < 2 ^ 31 → (src ≤ dest ∨ dest + size ≤ src) →
  load8 (memmove m dest src size) a =
    if decide (dest ≤ a < dest + size) then load8 m (src + (a - dest)) else load8 m a.
Proof. apply load8_memmove. Qed.
Lemma memmove_up_witness :
  load8 (memmove (store8 (store8 ∅ 10 7) 11 8) 11 10 2) 12 = 8.
Proof. rewrite (memmove_up _ 11 10 2 12); [reflexivity|lia|lia]. Defined.

(** [memcmp] compares the two pointers, whatever they point to: equal buffers at
    different addresses differ, and any buffer equals itself. *)
Theorem memcmp_compares_pointers m ptr1 ptr2 num :
  0 < num → memcmp m ptr1 ptr2 num = Z.sgn (ptr1 - ptr2).
Proof. intros H. apply memcmp_loop_pointers. lia. Qed.
Lemma memcmp_compares_pointers_witness : memcmp ∅ 0x1000 0x2000 8 = -1.
Proof. apply (memcmp_compares_pointers ∅ 0x1000 0x2000 8). lia. Defined.

(** [strcmp] on two terminated strings always returns, and returns 0 exactly when
    the strings are equal up to their terminators. *)
Theorem strcmp_equality s1 s2 r1 r2 : no_nul s1 → no_nul s2 →
  is_Some (strcmp (s1 ++ 0 :: r1) (s2 ++ 0 :: r2)) ∧
  (strcmp (s1 ++ 0 :: r1) (s2 ++ 0 :: r2) = Some 0 ↔ s1 = s2).
Proof. intros H1 H2. split; [by apply strcmp_defined|by apply strcmp_cstr_0]. Qed.
Lemma strcmp_equality_witness : strcmp [104; 105; 0; 9] [104; 105; 0] = Some 0.
Proof. apply (strcmp_equality [104; 105] [104; 105] [9] []); [by repeat constructor..|reflexivity]. Defined.
