(* ===== verification/Printk.v ===== *)
(** Formatted output: [lib/printk.cc] ([prints], [printk_write_num],
    [simple_vsprintf]) and its two clients, the user library's [printf]
    ([lib/printf.cc]) and the kernel's ([kernel/printf.cc]).  Characters are
    bytes as [Z]; a [char*] is the list of the bytes from the pointer to the end
    of its object, so reading past the object is a fault. *)
From Stdlib Require Import Ascii.
From S2P Require Import Prelude Mem.

Definition ch (a : ascii) : Z := Z.of_N (N_of_ascii a).
(** the characters of a literal, without the terminating NUL *)
Fixpoint lit (s : string) : list Z :=
  match s with EmptyString => [] | String a s => ch a :: lit s end.

(** * State *)
(** Where [simple_outputchar] puts a character: the buffer [*str] points into,
    at index [pos], or (for a null [str]) the callback [f], as the sequence of
    the characters it was called with. *)
Inductive sink :=
| Buffer (bytes : list Z) (pos : nat)
| Callback (sent : list Z).
(** A variadic argument: an integer register, or a [char*] with the bytes of
    the object it points to. *)
Inductive va :=
| VInt (z : Z)
| VStr (p : Z) (bytes : list Z).
(** [u] is the union of [simple_vsprintf], as the 64 bits it occupies. *)
Record pf := mk_pf { out : sink; ap : list va; u : Z }.
Abbreviation P := (M pf).

Definition set_out (s : sink) : P () := modify (λ p, mk_pf s (ap p) (u p)).

Definition simple_outputchar (c : Z) : P () :=
  o ← gets out;
  match o with
  | Buffer bytes pos =>
    if (pos <? length bytes)%nat then set_out (Buffer (<[pos := c]> bytes) (S pos))
    else stop_with (Faulted "output buffer")
  | Callback sent => set_out (Callback (sent ++ [c]))
  end.

(** enum flags *)
Definition PAD_ZERO : Z := 1.
Definition PAD_RIGHT : Z := 2.
Definition PREFIX : Z := 4.
Definition has (flags bit : Z) : bool := nonzero (Z.land flags bit).

(** [for (; width > 0; --width) { simple_outputchar(out, padchar, f); ++pc; }] *)
Fixpoint put_pad (width : nat) (padchar pc : Z) : P Z :=
  match width with
  | O => mret pc
  | S width => simple_outputchar padchar;; put_pad width padchar (pc + 1)
  end.
(** [for (; *string; ++string) { simple_outputchar(out, *string, f); ++pc; }] *)
Fixpoint put_str (string : list Z) (pc : Z) : P Z :=
  match string with
  | [] => stop_with (Faulted "string")
  | c :: string => if c =? 0 then mret pc else simple_outputchar c;; put_str string (pc + 1)
  end.
Definition prints (string : list Z) (width flags : Z) : P Z :=
  '(width, padchar) ←
    (if 0 <? width then
       len ← of_option (Faulted "string") (Z.of_nat <$> strlen string);
       let width := if width <=? len then 0 else width - len in
       mret (width, if has flags PAD_ZERO && negb (has flags PAD_RIGHT) then ch "0" else ch " ")
     else mret (width, ch " "));
  let fill := Z.to_nat width in
  if negb (has flags PAD_RIGHT) then
    pc ← put_pad fill padchar 0;
    put_str string pc
  else
    pc ← put_str string 0;
    put_pad fill padchar pc.

Definition PRINT_BUF_LEN : nat := 64.
(** [*--s = c], where [s] is the written tail of [print_buf] *)
Definition push (c : Z) (s : list Z) : P (list Z) :=
  if (length s <? PRINT_BUF_LEN)%nat then mret (u8 c :: s) else stop_with (Faulted "print_buf").
(** [while (u) { t = u % base; *--s = digit; u /= base; }] *)
Fixpoint digit_loop (fuel : nat) (u base letbase : Z) (s : list Z) : P (list Z) :=
  if nonzero u then
    match fuel with
    | O => stop_with OutOfFuel
    | S fuel =>
      let t := u mod base in
      s ← push (if t <? 10 then ch "0" + t else letbase + (t - 10)) s;
      digit_loop fuel (u / base) base letbase s
    end
  else mret s.
Definition printk_write_num (i base : Z) (sign : bool) (width flags letbase : Z) : P Z :=
  if i =? 0 then prints [ch "0"; 0] width flags else
  let neg := sign && (base =? 10) && (i <? 0) in
  let u := if neg then u64 (- i) else u64 i in
  s ← digit_loop PRINT_BUF_LEN u base letbase [0];
  let pad_zero := nonzero width && has flags PAD_ZERO && negb (has flags PAD_RIGHT) in
  '(s, width, pc) ←
    (if neg then
       if pad_zero then simple_outputchar (ch "-");; mret (s, width - 1, 1)
       else s ← push (ch "-") s; mret (s, width, 0)
     else mret (s, width, 0));
  '(s, pc) ←
    (if has flags PREFIX then
       if base =? 8 then
         if pad_zero then simple_outputchar (ch "0");; mret (s, pc + 1)
         else s ← push (ch "0") s; mret (s, pc)
       else if base =? 16 then
         let sub_c := if letbase =? ch "a" then ch "x" else ch "X" in
         if pad_zero then
           simple_outputchar (ch "0");; simple_outputchar sub_c;; mret (s, pc + 2)
         else s ← push sub_c s; s ← push (ch "0") s; mret (s, pc)
       else mret (s, pc)
     else mret (s, pc));
  n ← prints s width flags;
  mret (pc + n).

(** * simple_vsprintf *)
Definition va_arg : P va :=
  l ← gets ap;
  match l with
  | [] => stop_with (Faulted "va_arg")
  | a :: l => modify (λ p, mk_pf (out p) l (u p));; mret a
  end.
Definition va_int : P Z :=
  a ← va_arg; match a with VInt z => mret z | VStr _ _ => stop_with (Faulted "va_arg") end.
Definition va_str : P (Z * list Z) :=
  a ← va_arg; match a with VStr p s => mret (p, s) | VInt _ => stop_with (Faulted "va_arg") end.
(** write the member of [n] bytes of the union: its other bytes stay *)
Definition set_u (n v : Z) : P () :=
  modify (λ p, mk_pf (out p) (ap p) (u p - u p mod 2 ^ (8 * n) + v mod 2 ^ (8 * n))).

(** the digits of a conversion: [u.<member> = va_arg(..)], then
    [printk_write_num] of the member read *)
Definition conv_num (bytes : Z) (read : Z → Z) (base : Z) (sign : bool) (letbase width flags : Z) : P Z :=
  v ← va_int; set_u bytes v;; x ← gets u;
  printk_write_num (s64 (read x)) base sign width flags letbase.

Fixpoint switch {A} (c : Z) (cases : list (ascii * A)) (default : A) : A :=
  match cases with
  | [] => default
  | (a, m) :: cases => if c =? ch a then m else switch c cases default
  end.
Definition deref (format : list Z) : P Z :=
  of_option (Faulted "format") (head format).
(** a case of a switch: the conversion ends at the current character *)
Definition done_at (format : list Z) (m : P Z) : P (list Z * Z) := n ← m; mret (format, n).

(** [%ll_], [%l_], [%hh_], [%h_] *)
Definition conv_ll (format : list Z) (width flags : Z) : P (list Z * Z) :=
  c ← deref format;
  done_at format (switch c
    [("d"%char, conv_num 8 s64 10 true (ch "a") width flags);
     ("u"%char, conv_num 8 u64 10 false (ch "a") width flags);
     ("o"%char, conv_num 8 u64 8 false (ch "a") width flags);
     ("x"%char, conv_num 8 u64 16 false (ch "a") width flags);
     ("X"%char, conv_num 8 u64 16 false (ch "A") width flags)]
    (mret 0)).
Definition conv_l (format : list Z) (width flags : Z) : P (list Z * Z) :=
  c ← deref format;
  if c =? ch "l" then conv_ll (tail format) width flags else
  done_at format (switch c
    [("d"%char, conv_num 8 s64 10 true (ch "a") width flags);
     ("u"%char, conv_num 8 u64 10 false (ch "a") width flags);
     ("o"%char, conv_num 8 u64 8 false (ch "a") width flags);
     ("x"%char, conv_num 8 u64 16 false (ch "a") width flags);
     ("X"%char, conv_num 8 u64 16 false (ch "A") width flags)]
    (mret 0)).
(** the unsigned short forms write [u.hhu]/[u.hu] and print [u.lli] *)
Definition conv_hh (format : list Z) (width flags : Z) : P (list Z * Z) :=
  c ← deref format;
  done_at format (switch c
    [("d"%char, conv_num 1 (swrap 8) 10 true (ch "a") width flags);
     ("u"%char, conv_num 1 s64 10 false (ch "a") width flags);
     ("o"%char, conv_num 1 s64 8 false (ch "a") width flags);
     ("x"%char, conv_num 1 s64 16 false (ch "a") width flags);
     ("X"%char, conv_num 1 s64 16 false (ch "A") width flags)]
    (mret 0)).
Definition conv_h (format : list Z) (width flags : Z) : P (list Z * Z) :=
  c ← deref format;
  if c =? ch "h" then conv_hh (tail format) width flags else
  done_at format (switch c
    [("d"%char, conv_num 2 (swrap 16) 10 true (ch "a") width flags);
     ("u"%char, conv_num 2 s64 10 false (ch "a") width flags);
     ("o"%char, conv_num 2 s64 8 false (ch "a") width flags);
     ("x"%char, conv_num 2 s64 16 false (ch "a") width flags);
     ("X"%char, conv_num 2 s64 16 false (ch "A") width flags)]
    (mret 0)).
Definition conv_c (width flags : Z) : P Z :=
  v ← va_int; set_u 1 v;; x ← gets u; prints [u8 x; 0] width flags.
Definition conv_s (width flags : Z) : P Z :=
  '(p, s) ← va_str; set_u 8 p;;
  prints (if nonzero p then s else lit "(null)" ++ [0]) width flags.
Definition conv (format : list Z) (width flags : Z) : P (list Z * Z) :=
  c ← deref format;
  if c =? ch "l" then conv_l (tail format) width flags else
  if c =? ch "h" then conv_h (tail format) width flags else
  done_at format (switch c
    [("d"%char, conv_num 4 s32 10 true (ch "a") width flags);
     ("u"%char, conv_num 4 u32 10 false (ch "a") width flags);
     ("o"%char, conv_num 4 u32 8 false (ch "a") width flags);
     ("x"%char, conv_num 4 u32 16 false (ch "a") width flags);
     ("X"%char, conv_num 4 u32 16 false (ch "A") width flags);
     ("p"%char, conv_num 8 u64 16 false (ch "a") width flags);
     ("c"%char, conv_c width flags);
     ("s"%char, conv_s width flags)]
    (mret 0)).

(** the flags [-], [#] and [0...] *)
Fixpoint zero_flags (format : list Z) (flags : Z) : list Z * Z :=
  match format with
  | c :: rest => if c =? ch "0" then zero_flags rest (Z.lor flags PAD_ZERO) else (format, flags)
  | [] => ([], flags)
  end.
Definition one_flag (a : ascii) (bit : Z) (format : list Z) (flags : Z) : P (list Z * Z) :=
  c ← deref format;
  mret (if c =? ch a then (tail format, Z.lor flags bit) else (format, flags)).
Definition parse_flags (format : list Z) : P (list Z * Z) :=
  '(format, flags) ← one_flag "-" PAD_RIGHT format 0;
  '(format, flags) ← one_flag "#" PREFIX format flags;
  mret (zero_flags format flags).
Definition is_digit (c : Z) : bool := (ch "0" <=? c) && (c <=? ch "9").
Fixpoint digits_width (format : list Z) (width : Z) : list Z * Z :=
  match format with
  | c :: rest =>
    if is_digit c then digits_width rest (s32 (s32 (width * 10) + (c - ch "0"))) else (format, width)
  | [] => ([], width)
  end.
Definition parse_width (format : list Z) : P (list Z * Z) :=
  c ← deref format;
  if c =? ch "*" then v ← va_int; mret (tail format, s32 v)
  else mret (digits_width format 0).

(** what follows a [%]: where the conversion ends and how much [pc] grows;
    [None] is the [break] out of the loop *)
Definition directive (format : list Z) : P (option (list Z * Z)) :=
  c ← deref format;
  if c =? 0 then mret None
  else if c =? ch "%" then simple_outputchar c;; mret (Some (format, 1))
  else
    '(format, flags) ← parse_flags format;
    '(format, width) ← parse_width format;
    r ← conv format width flags;
    mret (Some r).
Fixpoint vsprintf_loop (fuel : nat) (format : list Z) (pc : Z) : P Z :=
  c ← deref format;
  if c =? 0 then mret pc else
  match fuel with
  | O => stop_with OutOfFuel
  | S fuel =>
    if c =? ch "%" then
      r ← directive (tail format);
      match r with
      | None => mret pc
      | Some (format, n) => vsprintf_loop fuel (tail format) (pc + n)
      end
    else simple_outputchar c;; vsprintf_loop fuel (tail format) (pc + 1)
  end.
(** every iteration moves [format] forward, so its length is enough fuel *)
Definition simple_vsprintf (format : list Z) : P Z :=
  pc ← vsprintf_loop (length format) format 0;
  o ← gets out;
  match o with
  | Buffer bytes pos =>
    if (pos <? length bytes)%nat then set_out (Buffer (<[pos := 0]> bytes) pos);; mret pc
    else stop_with (Faulted "output buffer")
  | Callback _ => mret pc
  end.

(** * The printf functions *)
(** descriptor_def::io::console *)
Definition console : Z := 0.
(** the [syscall::write] calls a program made: descriptor and bytes *)
Abbreviation trace := (list (Z * list Z)).
(** [junk] is what the union holds before its first use *)
Definition printf (junk : Z) (fmt : list Z) (va : list va) : M trace () := λ tr,
  match simple_vsprintf fmt (mk_pf (Buffer (replicate 128 0) 0) va junk) with
  | Ok (_, p) =>
    match out p with
    | Buffer out_str _ =>
      match strlen out_str with
      | Some n => Ok ((), tr ++ [(console, take n out_str)])
      | None => Stop (Faulted "strlen")
      end
    | Callback _ => Stop (Faulted "sink")
    end
  | Stop e => Stop e
  end.
Inductive PrintLevel := info | error.
Definition escape_sequences_start (level : PrintLevel) : list Z :=
  ch "027" :: lit (match level with info => "[33m" | error => "[31m" end) ++ [0].
Definition escape_sequences_end : list Z := ch "027" :: lit "[0m" ++ [0].
(** the second overload; [p] is the (non-null) address of the escape strings *)
Definition printf_level (junk p : Z) (level : PrintLevel) (fmt : list Z) (va : list va) : M trace () :=
  printf junk (lit "%s" ++ [0]) [VStr p (escape_sequences_start level)];;
  printf junk fmt va;;
  printf junk (lit "%s" ++ [0]) [VStr p escape_sequences_end].
(** kernel::printf: the characters given to [driver::Uart::put_char] *)
Definition kernel_printf (junk : Z) (fmt : list Z) (va : list va) : M (list Z) () := λ uart,
  match simple_vsprintf fmt (mk_pf (Callback uart) va junk) with
  | Ok (_, p) =>
    match out p with
    | Callback uart => Ok ((), uart)
    | Buffer _ _ => Stop (Faulted "sink")
    end
  | Stop e => Stop e
  end.

(** * Specification: what is to be printed *)
Definition room (o : sink) (n : nat) : Prop :=
  match o with Buffer bytes pos => (pos + n ≤ length bytes)%nat ∨ n = 0%nat | Callback _ => True end.
#[export] Instance room_dec o n : Decision (room o n).
Proof. destruct o; apply _. Defined.
Definition overflow : stop := Faulted "output buffer".
Definition emit (o : sink) (l : list Z) : sink :=
  match o with
  | Buffer bytes pos => Buffer (splice bytes pos l) (pos + length l)
  | Callback sent => Callback (sent ++ l)
  end.
(** [str] in a field of [width] columns *)
Definition field (str : list Z) (width flags : Z) : list Z :=
  let pad := replicate (Z.to_nat (width - Z.of_nat (length str))) in
  if has flags PAD_RIGHT then str ++ pad (ch " ")
  else pad (if has flags PAD_ZERO then ch "0" else ch " ") ++ str.
Definition digit (letbase t : Z) : Z := if t <? 10 then ch "0" + t else letbase + (t - 10).
(** positional notation, most significant digit first *)
Fixpoint digits (fuel : nat) (base letbase u : Z) : list Z :=
  match fuel with
  | O => []
  | S fuel => if u =? 0 then [] else digits fuel base letbase (u / base) ++ [digit letbase (u mod base)]
  end.
Definition digit_value (letbase c : Z) : Z := if c <? ch "0" + 10 then c - ch "0" else c - letbase + 10.
Definition denote (base letbase : Z) (ds : list Z) : Z :=
  foldl (λ n c, n * base + digit_value letbase c) 0 ds.
Definition prefix (base flags letbase : Z) : list Z :=
  if has flags PREFIX then
    if base =? 8 then lit "0" else
    if base =? 16 then (if letbase =? ch "a" then lit "0x" else lit "0X") else []
  else [].
(** sign, prefix and digits of [i]; with zero padding the sign and prefix come
    before the padding, and only the sign counts towards the width *)
Definition number (i base : Z) (sign : bool) (width flags letbase : Z) : list Z :=
  if i =? 0 then field [ch "0"] width flags else
  let neg := sign && (base =? 10) && (i <? 0) in
  let minus := if neg then [ch "-"] else [] in
  let ds := digits 64 base letbase (if neg then - i else u64 i) in
  let pre := prefix base flags letbase in
  if nonzero width && has flags PAD_ZERO && negb (has flags PAD_RIGHT)
  then minus ++ pre ++ field ds (width - Z.of_nat (length minus)) flags
  else field (pre ++ minus ++ ds) width flags.

(** A computation that only prints [l] and returns [a], or overruns the buffer
    when there is no room for [l]. *)
Definition with_out (s : pf) (o : sink) : pf := mk_pf o (ap s) (u s).
Definition emits {A} (m : P A) (l : list Z) (a : A) : Prop :=
  ∀ s, m s = if decide (room (out s) (length l)) then Ok (a, with_out s (emit (out s) l)) else Stop overflow.

Lemma emit_nil o : emit o [] = o.
Proof. destruct o; simpl; [rewrite splice_nil, Nat.add_0_r|rewrite app_nil_r]; done. Qed.
Lemma room_0 o : room o 0.
Proof. destruct o; simpl; auto. Qed.
Lemma room_app o l l' : room o (length (l ++ l')) ↔ room o (length l) ∧ room (emit o l) (length l').
Proof.
  destruct l as [|c l]; [rewrite emit_nil; simpl; pose proof (room_0 o); tauto|].
  destruct o; simpl; [|done]. rewrite length_app.
  destruct (decide (pos ≤ length bytes)%nat); [rewrite length_splice_ext by lia; simpl; lia|lia].
Qed.
Lemma emit_app o l l' : room o (length (l ++ l')) → emit (emit o l) l' = emit o (l ++ l').
Proof.
  destruct l as [|c l]; [by rewrite emit_nil|].
  destruct o; simpl; rewrite ?length_app; intros H.
  - change (c :: l ++ l') with ((c :: l) ++ l'). rewrite <-(splice_app _ _ (c :: l)) by lia. simpl. f_equal. lia.
  - by rewrite <-app_assoc.
Qed.
Lemma emits_ret {A} (a : A) : emits (mret a) [] a.
Proof. intros [o ap u]. unfold with_out. simpl. rewrite decide_True by apply room_0. by rewrite emit_nil. Qed.
Lemma emits_bind {A B} (m : P A) (f : A → P B) l l' a b :
  emits m l a → emits (f a) l' b → emits (m ≫= f) (l ++ l') b.
Proof.
  intros Hm Hf s. unfold mbind, M_bind. rewrite Hm. pose proof (room_app (out s) l l') as Hr.
  case_decide; [|by rewrite decide_False by tauto].
  rewrite Hf. unfold with_out. simpl. case_decide.
  - rewrite decide_True by tauto. by rewrite emit_app by tauto.
  - by rewrite decide_False by tauto.
Qed.
(** a step that prints nothing *)
Lemma emits_bind_l {A B} (m : P A) (f : A → P B) l a b :
  emits m [] a → emits (f a) l b → emits (m ≫= f) l b.
Proof. apply (emits_bind m f []). Qed.
Lemma emits_fmap {A B} (m : P A) (g : A → B) l a :
  emits m l a → emits (x ← m; mret (g x)) l (g a).
Proof. intros Hm. rewrite <-(app_nil_r l). eapply emits_bind; [exact Hm|apply emits_ret]. Qed.
Lemma emits_outputchar c : emits (simple_outputchar c) [c] ().
Proof.
  intros [[bytes pos|sent] ap u]; unfold simple_outputchar, set_out, with_out; simpl; [|done].
  unfold mbind, M_bind, gets. simpl. destruct (Nat.ltb_spec pos (length bytes)).
  - rewrite decide_True by lia. unfold modify. simpl. unfold splice. simpl. rewrite insert_take_drop by lia.
    by rewrite Nat.add_1_r.
  - by rewrite decide_False by lia.
Qed.
Lemma emits_put_pad n c pc : emits (put_pad n c pc) (replicate n c) (pc + Z.of_nat n).
Proof.
  revert pc. induction n as [|n IH]; intros pc; cbn [put_pad replicate].
  { rewrite Z.add_0_r. apply emits_ret. }
  replace (pc + Z.of_nat (S n)) with (pc + 1 + Z.of_nat n) by lia.
  apply (emits_bind _ _ [c] _ ()); [apply emits_outputchar|apply IH].
Qed.
Lemma emits_put_str str junk pc :
  no_nul str → emits (put_str (str ++ 0 :: junk) pc) str (pc + Z.of_nat (length str)).
Proof.
  intros Hs. revert pc. induction Hs as [|c str Hc _ IH]; intros pc; cbn [put_str app length].
  { rewrite Z.add_0_r. apply emits_ret. }
  replace (c =? 0) with false by lia.
  replace (pc + Z.of_nat (S (length str))) with (pc + 1 + Z.of_nat (length str)) by lia.
  apply (emits_bind _ _ [c] _ ()); [apply emits_outputchar|apply IH].
Qed.
Lemma emits_prints str junk width flags :
  no_nul str →
  emits (prints (str ++ 0 :: junk) width flags) (field str width flags)
        (Z.of_nat (length (field str width flags))).
Proof.
  intros Hs. unfold prints.
  set (w := if 0 <? width then if width <=? Z.of_nat (length str) then 0 else width - Z.of_nat (length str) else width).
  set (c := if (0 <? width) && (has flags PAD_ZERO && negb (has flags PAD_RIGHT)) then ch "0" else ch " ").
  apply (emits_bind_l _ _ _ (w, c)).
  { unfold w, c. destruct (0 <? width); [|apply emits_ret].
    rewrite strlen_cstr by done. simpl. apply (emits_bind_l _ _ _ (Z.of_nat (length str))); apply emits_ret. }
  assert (Z.to_nat w = Z.to_nat (width - Z.of_nat (length str))) as Hw.
  { unfold w. destruct (Z.ltb_spec 0 width), (Z.leb_spec width (Z.of_nat (length str))); lia. }
  unfold field. rewrite Hw. set (n := Z.to_nat _).
  assert (replicate n c = replicate n (if has flags PAD_ZERO && negb (has flags PAD_RIGHT) then ch "0" else ch " ")) as Hc.
  { unfold c, n. destruct (Z.ltb_spec 0 width); [done|]. replace (Z.to_nat _) with 0%nat by lia. done. }
  destruct (has flags PAD_RIGHT) eqn:HR; cbn [negb]; rewrite length_app, length_replicate, Nat2Z.inj_add.
  - rewrite andb_false_r in Hc. rewrite <-Hc.
    apply (emits_bind _ _ _ _ (Z.of_nat (length str))); [by apply (emits_put_str _ _ 0)|apply emits_put_pad].
  - rewrite andb_true_r in Hc. rewrite <-Hc.
    apply (emits_bind _ _ _ _ (Z.of_nat n)); [apply (emits_put_pad _ _ 0)|by apply emits_put_str].
Qed.

(** * Numbers *)
Lemma digits_S fuel base letbase u :
  u ≠ 0 → digits (S fuel) base letbase u = digits fuel base letbase (u / base) ++ [digit letbase (u mod base)].
Proof. intros. cbn [digits]. by replace (u =? 0) with false by lia. Qed.
Lemma digits_0 fuel base letbase : digits fuel base letbase 0 = [].
Proof. by destruct fuel. Qed.
(** more fuel than digits changes nothing *)
Lemma digits_fuel fuel fuel' base letbase u :
  2 ≤ base → 0 ≤ u < 2 ^ Z.of_nat fuel → (fuel ≤ fuel')%nat →
  digits fuel' base letbase u = digits fuel base letbase u.
Proof.
  intros Hb. revert fuel' u. induction fuel as [|fuel IH]; intros fuel' u Hu Hf.
  { assert (u = 0) as -> by (simpl in Hu; lia). by rewrite !digits_0. }
  destruct fuel' as [|fuel']; [lia|]. destruct (decide (u = 0)) as [->|Hn]; [by rewrite !digits_0|].
  rewrite !digits_S by done. rewrite (IH fuel'); [done| |lia].
  rewrite Nat2Z.inj_succ, Z.pow_succ_r in Hu by lia.
  split; [by apply Z.div_pos; lia|]. apply Z.div_lt_upper_bound; [lia|]. nia.
Qed.
Lemma length_digits fuel base letbase u k :
  2 ≤ base → 0 ≤ k → 0 ≤ u < base ^ k → Z.of_nat (length (digits fuel base letbase u)) ≤ k.
Proof.
  intros Hb. revert k u. induction fuel as [|fuel IH]; intros k u Hk Hu; [simpl; lia|].
  destruct (decide (u = 0)) as [->|Hn]; [rewrite digits_0; simpl; lia|].
  rewrite digits_S, length_app by done. simpl.
  assert (k ≠ 0) by (intros ->; simpl in Hu; lia).
  enough (Z.of_nat (length (digits fuel base letbase (u / base))) ≤ k - 1) by lia.
  apply IH; [lia|]. split; [apply Z.div_pos; lia|]. apply Z.div_lt_upper_bound; [lia|].
  replace k with (Z.succ (k - 1)) in Hu by lia. rewrite Z.pow_succ_r in Hu by lia. lia.
Qed.
Lemma emits_push c s : (length s < 64)%nat → emits (push c s) [] (u8 c :: s).
Proof.
  intros. unfold push, PRINT_BUF_LEN. replace (_ <? 64)%nat with true by lia. apply emits_ret.
Qed.
Definition letter (letbase : Z) : Prop := letbase = ch "a" ∨ letbase = ch "A".
Lemma digit_byte letbase t : letter letbase → 0 ≤ t < 16 → 0 < digit letbase t < 256.
Proof.
  unfold digit, letter. change (ch "a") with 97. change (ch "A") with 65. change (ch "0") with 48.
  destruct (Z.ltb_spec t 10); lia.
Qed.
Lemma emits_digit_loop fuel base letbase u s :
  2 ≤ base ≤ 16 → letter letbase → 0 ≤ u < 2 ^ Z.of_nat fuel →
  (length (digits fuel base letbase u) + length s ≤ 64)%nat →
  emits (digit_loop fuel u base letbase s) [] (digits fuel base letbase u ++ s).
Proof.
  intros Hb Hl. revert u s. induction fuel as [|fuel IH]; intros u s Hu Hr.
  { assert (u = 0) as -> by (simpl in Hu; lia). apply emits_ret. }
  destruct (decide (u = 0)) as [->|Hn]; [rewrite digits_0; apply emits_ret|].
  cbn [digit_loop]. replace (nonzero u) with true by (symmetry; by apply nonzero_true).
  rewrite digits_S in Hr |- * by done. rewrite length_app in Hr. simpl in Hr.
  fold (digit letbase (u mod base)). pose proof (Z.mod_pos_bound u base ltac:(lia)).
  eapply emits_bind_l; [apply emits_push; lia|].
  rewrite wrap_small by (pose proof (digit_byte letbase (u mod base) Hl); lia).
  rewrite <-app_assoc. simpl. apply IH; [|simpl; lia].
  rewrite Nat2Z.inj_succ, Z.pow_succ_r in Hu by lia.
  split; [apply Z.div_pos; lia|]. apply Z.div_lt_upper_bound; [lia|]. nia.
Qed.
Lemma digits_no_nul fuel base letbase u : 2 ≤ base ≤ 16 → letter letbase → no_nul (digits fuel base letbase u).
Proof.
  intros Hb Hl. revert u. induction fuel as [|fuel IH]; intros u; cbn [digits]; [constructor|].
  destruct (u =? 0); [constructor|]. apply Forall_app. split; [apply IH|]. constructor; [|constructor].
  pose proof (Z.mod_pos_bound u base ltac:(lia)). pose proof (digit_byte letbase (u mod base) Hl). lia.
Qed.
Lemma denote_app base letbase ds c :
  denote base letbase (ds ++ [c]) = denote base letbase ds * base + digit_value letbase c.
Proof. unfold denote. by rewrite foldl_app. Qed.
Lemma digit_value_digit letbase t : letter letbase → 0 ≤ t < 16 → digit_value letbase (digit letbase t) = t.
Proof.
  unfold digit_value, digit, letter. change (ch "a") with 97. change (ch "A") with 65. change (ch "0") with 48.
  intros ? ?. destruct (Z.ltb_spec t 10) as [|].
  - replace (_ <? _) with true by lia. lia.
  - replace (_ <? _) with false by lia. lia.
Qed.
Lemma denote_digits fuel base letbase u :
  2 ≤ base ≤ 16 → letter letbase → 0 ≤ u < 2 ^ Z.of_nat fuel → denote base letbase (digits fuel base letbase u) = u.
Proof.
  intros Hb Hl. revert u. induction fuel as [|fuel IH]; intros u Hu.
  { assert (u = 0) as -> by (simpl in Hu; lia). by rewrite digits_0. }
  destruct (decide (u = 0)) as [->|Hn]; [by rewrite digits_0|].
  pose proof (Z.mod_pos_bound u base ltac:(lia)).
  rewrite digits_S, denote_app, digit_value_digit by (done || lia). rewrite IH.
  - rewrite Z.mul_comm, <-Z.div_mod by lia. done.
  - rewrite Nat2Z.inj_succ, Z.pow_succ_r in Hu by lia.
    split; [apply Z.div_pos; lia|]. apply Z.div_lt_upper_bound; [lia|]. nia.
Qed.
#[global] Arguments digits : simpl never.
#[global] Arguments digit_loop : simpl never.
Definition num_base (base : Z) : Prop := base = 8 ∨ base = 10 ∨ base = 16.
Lemma length_digits_64 base letbase u :
  num_base base → 0 ≤ u < 2 ^ 64 → (length (digits 64 base letbase u) ≤ 22)%nat.
Proof.
  intros Hb Hu. enough (Z.of_nat (length (digits 64 base letbase u)) ≤ 22) by lia.
  destruct Hb as [->|[->| ->]]; apply length_digits; lia.
Qed.
(** the value of [s] after the sign and the prefix are pushed *)
Lemma emits_prefix pad_zero base flags letbase s pc :
  num_base base → letter letbase → (length s < 40)%nat →
  emits (if has flags PREFIX then
       if base =? 8 then
         if pad_zero : bool then simple_outputchar (ch "0");; mret (s, pc + 1)
         else s ← push (ch "0") s; mret (s, pc)
       else if base =? 16 then
         let sub_c := if letbase =? ch "a" then ch "x" else ch "X" in
         if pad_zero then
           simple_outputchar (ch "0");; simple_outputchar sub_c;; mret (s, pc + 2)
         else s ← push sub_c s; s ← push (ch "0") s; mret (s, pc)
       else mret (s, pc)
     else mret (s, pc))
    (if pad_zero then prefix base flags letbase else [])
    (if pad_zero then (s, pc + Z.of_nat (length (prefix base flags letbase)))
     else (prefix base flags letbase ++ s, pc)).
Proof.
  intros Hb Hl Hs. unfold prefix. destruct (has flags PREFIX).
  2: { destruct pad_zero; simpl; rewrite ?Z.add_0_r; apply emits_ret. }
  assert (∀ c, emits (push c s) [] (u8 c :: s)) as Hp1 by (intros; apply emits_push; lia).
  assert (∀ c c', emits (push c (u8 c' :: s)) [] (u8 c :: u8 c' :: s)) as Hp2
    by (intros; apply emits_push; simpl; lia).
  destruct Hb as [->|[->| ->]]; simpl; [| |set (x := letbase =? ch "a"); destruct x]; destruct pad_zero; simpl;
    rewrite ?Z.add_0_r; try apply emits_ret;
    repeat first [ apply (emits_bind _ _ [_] _ ()); [apply emits_outputchar|]
                 | eapply emits_bind_l; [apply Hp1 || apply Hp2|] | apply emits_ret ].
Qed.
Lemma emits_write_num i base sign width flags letbase :
  num_base base → letter letbase → - 2 ^ 63 ≤ i < 2 ^ 63 →
  emits (printk_write_num i base sign width flags letbase) (number i base sign width flags letbase)
        (Z.of_nat (length (number i base sign width flags letbase))).
Proof.
  intros Hb Hl Hi. unfold printk_write_num, number. destruct (Z.eqb_spec i 0) as [->|Hn].
  { apply (emits_prints [_]). repeat constructor. done. }
  set (neg := sign && (base =? 10) && (i <? 0)). set (v := if neg then u64 (- i) else u64 i).
  assert (v = if neg then - i else u64 i) as Hv.
  { unfold v. destruct neg eqn:E; [|done]. unfold neg in E. apply wrap_small. lia. }
  rewrite <-Hv. assert (0 ≤ v < 2 ^ 64) as Hvr by (unfold v; destruct neg; apply wrap_range; lia).
  assert (2 ≤ base ≤ 16) as Hbr by (destruct Hb; lia).
  pose proof (length_digits_64 base letbase v Hb Hvr) as Hlen.
  pose proof (digits_no_nul 64 base letbase v Hbr Hl) as Hnn. set (ds := digits 64 base letbase v) in *.
  eapply emits_bind_l; [apply (emits_digit_loop 64); [done|done|exact Hvr|fold ds; cbn [length]; lia]|]. fold ds. cbv zeta.
  set (pad_zero := nonzero width && has flags PAD_ZERO && negb (has flags PAD_RIGHT)).
  set (pre := prefix base flags letbase).
  assert (no_nul pre ∧ (length pre ≤ 2)%nat) as [Hpre Hprel].
  { unfold pre, prefix. repeat case_match; split; simpl; repeat constructor; done || lia. }
  set (minus := if neg then [ch "-"] else []).
  assert (no_nul minus ∧ (length minus ≤ 1)%nat) as [Hmin Hminl]
    by (unfold minus; destruct neg; split; simpl; repeat constructor; done || lia).
  destruct pad_zero eqn:Hpz.
  - rewrite !length_app, !Nat2Z.inj_add, Z.add_assoc.
    apply (emits_bind _ _ _ _ (ds ++ [0], width - Z.of_nat (length minus), Z.of_nat (length minus))).
    { unfold minus. destruct neg; simpl; [|rewrite Z.sub_0_r; apply emits_ret].
      apply (emits_bind _ _ [_] [] ()); [apply emits_outputchar|apply emits_ret]. }
    cbv beta iota. eapply emits_bind; [apply (emits_prefix true); [done|done|rewrite length_app; simpl; lia]|].
    cbv iota beta. apply emits_fmap. by apply emits_prints.
  - eapply emits_bind_l with (a := (minus ++ ds ++ [0], width, 0)).
    { unfold minus. destruct neg; [|apply emits_ret].
      eapply emits_bind_l; [apply emits_push; rewrite length_app; cbn [length]; lia|apply emits_ret]. }
    cbv beta iota. eapply emits_bind_l.
    { apply (emits_prefix false); [done|done|]. rewrite !length_app. cbn [length]. lia. }
    cbv iota beta. fold pre. rewrite !app_assoc. apply (emits_fmap _ (λ n, 0 + n)), emits_prints.
    repeat apply Forall_app_2; done.
Qed.

(** [printk_write_num] on any [long long], in base 8, 10 or 16, emits
    exactly sign, prefix, padding and digits as laid out by [number] and returns
    their count; the digits printed for a nonzero value denote its magnitude
    (its two's complement reading when printed unsigned), for every width and
    flags, and the 64-byte buffer is never overrun. *)
Theorem printk_write_num_correct i base sign width flags letbase s :
  num_base base → letter letbase → - 2 ^ 63 ≤ i < 2 ^ 63 →
  room (out s) (length (number i base sign width flags letbase)) →
  printk_write_num i base sign width flags letbase s =
    Ok (Z.of_nat (length (number i base sign width flags letbase)),
        with_out s (emit (out s) (number i base sign width flags letbase))) ∧
  (∃ pre ds post, number i base sign width flags letbase = pre ++ ds ++ post ∧
     denote base letbase ds = (if sign && (base =? 10) then Z.abs i else u64 i)) ∧
  width ≤ Z.of_nat (length (number i base sign width flags letbase)).
Proof.
  intros Hb Hl Hi Hr. split; [rewrite emits_write_num by done; by rewrite decide_True|].
  assert (2 ≤ base ≤ 16) as Hbr by (destruct Hb; lia).
  assert (∀ str w, ∃ pre post, field str w flags = pre ++ str ++ post) as Hf.
  { intros str w. unfold field. destruct (has flags PAD_RIGHT); [exists []|]; eexists; [done|].
    exists []. by rewrite app_nil_r. }
  assert (∀ str w, w ≤ Z.of_nat (length (field str w flags))) as Hw.
  { intros str w. unfold field. destruct (has flags PAD_RIGHT); rewrite length_app, length_replicate; lia. }
  split; unfold number; destruct (Z.eqb_spec i 0) as [->|Hn].
  - destruct (Hf [ch "0"] width) as (pre & post & ->). exists pre, [ch "0"], post. split; [done|].
    unfold wrap. rewrite Zmod_0_l. by destruct (sign && _).
  - set (neg := sign && (base =? 10) && (i <? 0)). set (v := if neg then - i else u64 i).
    assert (0 ≤ v < 2 ^ 64) as Hv.
    { unfold v. destruct neg eqn:E; [unfold neg in E; lia|]. apply wrap_range. lia. }
    assert (v = if sign && (base =? 10) then Z.abs i else u64 i) as <-.
    { unfold v, neg. destruct (sign && _); [|done]. simpl. destruct (Z.ltb_spec i 0); [lia|].
      rewrite wrap_small by lia. lia. }
    set (m := if neg then _ else _). set (p := prefix base flags letbase). destruct (_ && negb _).
    + destruct (Hf (digits 64 base letbase v) (width - Z.of_nat (length m))) as (pre & post & ->).
      exists (m ++ p ++ pre), (digits 64 base letbase v), post. rewrite <-!app_assoc. split; [done|].
      apply denote_digits; [exact Hbr|exact Hl|exact Hv].
    + destruct (Hf (p ++ m ++ digits 64 base letbase v) width) as (pre & post & ->).
      exists (pre ++ p ++ m), (digits 64 base letbase v), post. rewrite <-!app_assoc. split; [done|].
      apply denote_digits; [exact Hbr|exact Hl|exact Hv].
  - apply Hw.
  - destruct (_ && negb _); [|apply Hw]. rewrite !length_app. etransitivity; [|rewrite !Nat2Z.inj_add; apply Z.add_le_mono_l, Z.add_le_mono_l, Hw].
    lia.
Qed.
Lemma printk_write_num_correct_witness :
  printk_write_num (-42) 10 true 6 PAD_ZERO (ch "a") (mk_pf (Callback []) [] 0) =
    Ok (6, mk_pf (Callback (lit "-00042")) [] 0).
Proof.
  destruct (printk_write_num_correct (-42) 10 true 6 PAD_ZERO (ch "a") (mk_pf (Callback []) [] 0)) as [H _].
  - right. by left.
  - by left.
  - lia.
  - exact I.
  - etransitivity; [exact H|]. vm_compute. reflexivity.
Defined.

(** * Format strings as a sequence of items *)
Inductive lmod := Mnone | Ml | Mll.
Inductive nkind := Kd | Ku | Ko | Kx | KX.
Inductive cspec :=
| Num (m : lmod) (k : nkind)
| Hd | HHd | Ptr | Chr | Str.
Inductive fwidth :=
| WDigits (ds : list Z)
| WStar.
Record dir := mk_dir { minus : bool; hash : bool; zeros : nat; fwid : fwidth; spec : cspec }.
Inductive item :=
| Lit (c : Z)
| Percent
| Dir (d : dir).

Definition kind_char (k : nkind) : Z :=
  match k with Kd => ch "d" | Ku => ch "u" | Ko => ch "o" | Kx => ch "x" | KX => ch "X" end.
Definition spec_chars (c : cspec) : list Z :=
  match c with
  | Num m k => match m with Mnone => [] | Ml => lit "l" | Mll => lit "ll" end ++ [kind_char k]
  | Hd => lit "hd" | HHd => lit "hhd" | Ptr => lit "p" | Chr => lit "c" | Str => lit "s"
  end.
Definition width_chars (w : fwidth) : list Z :=
  match w with WDigits ds => (λ d, ch "0" + d) <$> ds | WStar => [ch "*"] end.
Definition flag_chars (a : ascii) (b : bool) : list Z := if b then [ch a] else [].
(** the characters after the [%] *)
Definition dir_chars (d : dir) : list Z :=
  flag_chars "-" (minus d) ++ flag_chars "#" (hash d) ++ replicate (zeros d) (ch "0") ++
  width_chars (fwid d) ++ spec_chars (spec d).
Definition item_chars (i : item) : list Z :=
  match i with Lit c => [c] | Percent => lit "%%" | Dir d => ch "%" :: dir_chars d end.
Definition format_of (items : list item) : list Z := concat (item_chars <$> items) ++ [0].

Definition width_value (ds : list Z) : Z := foldl (λ n d, n * 10 + d) 0 ds.
Definition dir_ok (d : dir) : Prop :=
  match fwid d with
  | WDigits ds => Forall (λ d, 0 ≤ d ≤ 9) ds ∧ head ds ≠ Some 0 ∧ width_value ds < 2 ^ 31
  | WStar => True
  end.
Definition item_ok (i : item) : Prop :=
  match i with Lit c => c ≠ 0 ∧ c ≠ ch "%" | Percent => True | Dir d => dir_ok d end.

Definition dir_flags (d : dir) : Z :=
  let f := if minus d then PAD_RIGHT else 0 in
  let f := if hash d then Z.lor f PREFIX else f in
  if (0 <? zeros d)%nat then Z.lor f PAD_ZERO else f.
Definition mod_width (m : lmod) : Z := match m with Mnone => 32 | _ => 64 end.
(** the text of one conversion of an argument *)
Definition render_arg (c : cspec) (a : va) (width flags : Z) : option (list Z) :=
  match c, a with
  | Num m Kd, VInt z => Some (number (swrap (mod_width m) z) 10 true width flags (ch "a"))
  | Num m Ku, VInt z => Some (number (s64 (wrap (mod_width m) z)) 10 false width flags (ch "a"))
  | Num m Ko, VInt z => Some (number (s64 (wrap (mod_width m) z)) 8 false width flags (ch "a"))
  | Num m Kx, VInt z => Some (number (s64 (wrap (mod_width m) z)) 16 false width flags (ch "a"))
  | Num m KX, VInt z => Some (number (s64 (wrap (mod_width m) z)) 16 false width flags (ch "A"))
  | Hd, VInt z => Some (number (swrap 16 z) 10 true width flags (ch "a"))
  | HHd, VInt z => Some (number (swrap 8 z) 10 true width flags (ch "a"))
  | Ptr, VInt z => Some (number (s64 z) 16 false width flags (ch "a"))
  | Chr, VInt z => Some (field (if u8 z =? 0 then [] else [u8 z]) width flags)
  | Str, VStr p s =>
    if nonzero p then n ← strlen s; Some (field (take n s) width flags)
    else Some (field (lit "(null)") width flags)
  | _, _ => None
  end.
Definition render_dir (d : dir) (args : list va) : option (list Z * list va) :=
  match fwid d, args with
  | WDigits ds, a :: args => o ← render_arg (spec d) a (width_value ds) (dir_flags d); Some (o, args)
  | WStar, VInt w :: a :: args => o ← render_arg (spec d) a (s32 w) (dir_flags d); Some (o, args)
  | _, _ => None
  end.
Definition render_item (i : item) (args : list va) : option (list Z * list va) :=
  match i with
  | Lit c => Some ([c], args)
  | Percent => Some (lit "%", args)
  | Dir d => render_dir d args
  end.
Fixpoint render (items : list item) (args : list va) : option (list Z * list va) :=
  match items with
  | [] => Some ([], args)
  | i :: items =>
    '(o, args) ← render_item i args; '(o', args) ← render items args; Some (o ++ o', args)
  end.

(** A computation that takes its arguments from [args], leaves [args'], prints
    [l] and returns [a]; the union may change. *)
Definition runs {A} (m : P A) (args args' : list va) (l : list Z) (a : A) : Prop :=
  ∀ s, ap s = args →
    if decide (room (out s) (length l)) then ∃ u', m s = Ok (a, mk_pf (emit (out s) l) args' u')
    else m s = Stop overflow.
Lemma runs_emits {A} (m : P A) args l a : emits m l a → runs m args args l a.
Proof. intros Hm s <-. rewrite Hm. case_decide; [|done]. by exists (u s). Qed.
Lemma runs_bind {A B} (m : P A) (f : A → P B) args args' args'' l l' a b :
  runs m args args' l a → runs (f a) args' args'' l' b → runs (m ≫= f) args args'' (l ++ l') b.
Proof.
  intros Hm Hf s Ha. pose proof (room_app (out s) l l') as Hr. specialize (Hm s Ha).
  destruct (decide (room (out s) (length l))).
  - destruct Hm as (u1 & E1). rewrite (bind_Ok _ _ _ _ _ E1).
    specialize (Hf (mk_pf (emit (out s) l) args' u1) eq_refl). simpl in Hf.
    destruct (decide (room (emit (out s) l) (length l'))).
    + rewrite decide_True by tauto. by rewrite <-emit_app by tauto.
    + by rewrite decide_False by tauto.
  - rewrite decide_False by tauto. by apply bind_Stop.
Qed.
Lemma runs_bind_l {A B} (m : P A) (f : A → P B) args args' args'' l a b :
  runs m args args' [] a → runs (f a) args' args'' l b → runs (m ≫= f) args args'' l b.
Proof. apply (runs_bind m f _ _ _ []). Qed.
Lemma runs_ret {A} (a : A) args : runs (mret a) args args [] a.
Proof. apply runs_emits, emits_ret. Qed.
Lemma runs_deref c f args : runs (deref (c :: f)) args args [] c.
Proof. apply runs_emits, emits_ret. Qed.
Lemma runs_va_arg a args : runs va_arg (a :: args) args [] a.
Proof.
  intros s Ha. rewrite decide_True by apply room_0. exists (u s).
  unfold va_arg, mbind, M_bind, gets. rewrite Ha, emit_nil. done.
Qed.
Lemma runs_va_int z args : runs va_int (VInt z :: args) args [] z.
Proof. eapply runs_bind_l; [apply runs_va_arg|apply runs_ret]. Qed.
Lemma runs_set_u {A} n v args args' l (a : A) (f : Z → P A) :
  (∀ x, x mod 2 ^ (8 * n) = v mod 2 ^ (8 * n) → runs (f x) args args' l a) → 0 ≤ n →
  runs (set_u n v;; (x ← gets u; f x)) args args' l a.
Proof.
  intros Hf Hn s Ha. unfold set_u, modify, gets, mbind, M_bind. simpl.
  set (x := u s). refine (Hf _ _ (mk_pf (out s) (ap s) _) Ha). set (k := 2 ^ (8 * n)). assert (0 < k) by (unfold k; lia).
  rewrite <-Zplus_mod_idemp_l, Zminus_mod_idemp_r, Z.sub_diag, Zmod_0_l. simpl. apply Zmod_mod.
Qed.
Lemma wrap_mod_eq w x v : x mod 2 ^ w = v mod 2 ^ w → wrap w x = wrap w v.
Proof. done. Qed.
Lemma swrap_mod_eq w x v : x mod 2 ^ w = v mod 2 ^ w → swrap w x = swrap w v.
Proof. unfold swrap. intros H. rewrite <-Zplus_mod_idemp_l, H, Zplus_mod_idemp_l. done. Qed.
Lemma pow2_half w : 0 < w → 2 ^ w = 2 * 2 ^ (w - 1).
Proof. intros. rewrite <-Z.pow_succ_r by lia. f_equal. lia. Qed.
Lemma swrap_range w z : 0 < w → - 2 ^ (w - 1) ≤ swrap w z < 2 ^ (w - 1).
Proof.
  intros Hw. unfold swrap. rewrite (pow2_half w) by done.
  pose proof (Z.mod_pos_bound (z + 2 ^ (w - 1)) (2 * 2 ^ (w - 1))). lia.
Qed.
Lemma swrap_small w z : 0 < w → - 2 ^ (w - 1) ≤ z < 2 ^ (w - 1) → swrap w z = z.
Proof. intros Hw Hz. unfold swrap. rewrite (pow2_half w), Z.mod_small by lia. lia. Qed.
Lemma runs_conv_num bytes read base sign letbase width flags v args :
  0 ≤ bytes → num_base base → letter letbase →
  (∀ x y, x mod 2 ^ (8 * bytes) = y mod 2 ^ (8 * bytes) → read x = read y) →
  let o := number (s64 (read v)) base sign width flags letbase in
  runs (conv_num bytes read base sign letbase width flags) (VInt v :: args) args o (Z.of_nat (length o)).
Proof.
  intros Hn Hb Hl Hread o. unfold conv_num. eapply runs_bind_l; [apply runs_va_int|].
  apply runs_set_u; [|done]. intros x Hx. rewrite (Hread x v Hx).
  apply runs_emits, emits_write_num; [done..|]. by apply (swrap_range 64).
Qed.

(** ** Parsing a directive *)
Definition starts (f : list Z) (Q : Z → Prop) : Prop := ∃ c r, f = c :: r ∧ Q c.
Lemma runs_one_flag a bit (b : bool) f flags args :
  starts f (λ c, c ≠ ch a) →
  runs (one_flag a bit (flag_chars a b ++ f) flags) args args [] (f, if b then Z.lor flags bit else flags).
Proof.
  intros (c & r & -> & Hc). unfold one_flag, flag_chars. destruct b; simpl.
  - eapply runs_bind_l; [apply runs_deref|]. rewrite Z.eqb_refl. apply runs_ret.
  - eapply runs_bind_l; [apply runs_deref|]. replace (c =? ch a) with false by lia. apply runs_ret.
Qed.
Lemma zero_flags_spec n f flags :
  starts f (λ c, c ≠ ch "0") →
  zero_flags (replicate n (ch "0") ++ f) flags = (f, if (0 <? n)%nat then Z.lor flags PAD_ZERO else flags).
Proof.
  intros (c & r & -> & Hc). revert flags. induction n as [|n IH]; intros flags; cbn [replicate app zero_flags].
  - replace (c =? ch "0") with false by lia. done.
  - rewrite Z.eqb_refl, IH. destruct n; simpl; [done|]. by rewrite <-Z.lor_assoc, Z.lor_diag.
Qed.
Lemma width_mono ds n :
  Forall (λ d, 0 ≤ d ≤ 9) ds → 0 ≤ n → n ≤ foldl (λ n d, n * 10 + d) n ds.
Proof.
  intros Hds. revert n. induction Hds as [|d ds Hd _ IH]; intros n Hn; simpl; [lia|].
  specialize (IH (n * 10 + d)). lia.
Qed.
Lemma digits_width_spec ds f n :
  Forall (λ d, 0 ≤ d ≤ 9) ds → 0 ≤ n → foldl (λ n d, n * 10 + d) n ds < 2 ^ 31 →
  starts f (λ c, is_digit c = false) →
  digits_width (((λ d, ch "0" + d) <$> ds) ++ f) n = (f, foldl (λ n d, n * 10 + d) n ds).
Proof.
  intros Hds Hn Hlt (c & r & -> & Hc). revert n Hn Hlt.
  induction Hds as [|d ds Hd Hds IH]; intros n Hn Hlt; cbn [fmap list_fmap app digits_width foldl].
  { by rewrite Hc. }
  cbn [foldl] in Hlt. pose proof (width_mono ds (n * 10 + d) Hds ltac:(lia)).
  replace (is_digit (ch "0" + d)) with true by (unfold is_digit; change (ch "0") with 48; change (ch "9") with 57; lia).
  rewrite (swrap_small 32 (n * 10)) by lia. replace (ch "0" + d - ch "0") with d by lia.
  rewrite (swrap_small 32) by lia. apply IH; [lia|done].
Qed.
Lemma runs_parse_width w f args :
  match w with WDigits ds => Forall (λ d, 0 ≤ d ≤ 9) ds ∧ width_value ds < 2 ^ 31 | WStar => True end →
  starts f (λ c, is_digit c = false ∧ c ≠ ch "*") →
  match w with
  | WDigits ds => runs (parse_width (width_chars w ++ f)) args args [] (f, width_value ds)
  | WStar => ∀ v, runs (parse_width (width_chars w ++ f)) (VInt v :: args) args [] (f, s32 v)
  end.
Proof.
  intros Hw (c & r & -> & Hc & Hs). destruct w as [ds|]; unfold parse_width, width_chars.
  - destruct Hw as [Hds Hlt]. rewrite (digits_width_spec ds _ 0); [|done|lia|done|by exists c, r].
    destruct Hds as [|d ds Hd Hds]; simpl.
    + eapply runs_bind_l; [apply runs_deref|]. replace (c =? ch "*") with false by lia. apply runs_ret.
    + eapply runs_bind_l; [apply runs_deref|].
      replace (ch "0" + d =? ch "*") with false by (change (ch "0") with 48; change (ch "*") with 42; lia).
      apply runs_ret.
  - intros v. simpl. eapply runs_bind_l; [apply runs_deref|]. rewrite Z.eqb_refl.
    eapply runs_bind_l; [apply runs_va_int|apply runs_ret].
Qed.

Lemma runs_conv_c v width flags args :
  let o := field (if u8 v =? 0 then [] else [u8 v]) width flags in
  runs (conv_c width flags) (VInt v :: args) args o (Z.of_nat (length o)).
Proof.
  intros o. unfold conv_c. eapply runs_bind_l; [apply runs_va_int|]. apply runs_set_u; [|lia].
  intros x Hx. change (u8 x) with (x mod 2 ^ (8 * 1)). rewrite Hx. change (v mod _) with (u8 v).
  apply runs_emits. unfold o. destruct (Z.eqb_spec (u8 v) 0) as [->|Hn].
  - apply (emits_prints [] [0]). constructor.
  - apply (emits_prints [_]). repeat constructor. done.
Qed.
Lemma runs_conv_s p s width flags args o :
  render_arg Str (VStr p s) width flags = Some o →
  runs (conv_s width flags) (VStr p s :: args) args o (Z.of_nat (length o)).
Proof.
  intros Ho. unfold conv_s. eapply runs_bind_l with (a := (p, s)).
  { eapply runs_bind_l; [apply runs_va_arg|apply runs_ret]. }
  assert (runs (prints (if nonzero p then s else lit "(null)" ++ [0]) width flags) args args o (Z.of_nat (length o))) as Hp.
  { simpl in Ho. destruct (nonzero p).
    - destruct (strlen s) as [n|] eqn:E; [|done]. simpl in Ho. injection Ho as <-.
      apply strlen_Some in E as (str & r & -> & <- & Hn). rewrite take_app_length.
      by apply runs_emits, emits_prints.
    - injection Ho as <-. apply runs_emits, (emits_prints (lit "(null)")). repeat constructor; done. }
  intros st Ha. unfold set_u, modify, mbind, M_bind. simpl.
  by apply (Hp (mk_pf (out st) (ap st) _)).
Qed.
Lemma runs_done_at c f (m : P Z) args args' o n :
  runs m args args' o n → runs (done_at (c :: f) m) args args' o (c :: f, n).
Proof.
  intros Hm. unfold done_at. rewrite <-(app_nil_r o). eapply runs_bind; [exact Hm|apply runs_ret].
Qed.
(** [m] converts the argument [a] to [o] and stops on the character before [f] *)
Definition converts (m : P (list Z * Z)) (a : va) (f o : list Z) : Prop :=
  ∀ args, ∃ k, runs m (a :: args) args o (k :: f, Z.of_nat (length o)).
Lemma converts_deref c r g a f o : converts (g c) a f o → converts (x ← deref (c :: r); g x) a f o.
Proof.
  intros Hg args. destruct (Hg args) as [k Hk]. exists k. eapply runs_bind_l; [apply runs_deref|done].
Qed.
Lemma converts_num bytes read value base sign letbase width flags v k f :
  0 ≤ bytes → num_base base → letter letbase →
  (∀ x y, x mod 2 ^ (8 * bytes) = y mod 2 ^ (8 * bytes) → read x = read y) → s64 (read v) = value →
  converts (done_at (k :: f) (conv_num bytes read base sign letbase width flags)) (VInt v) f
    (number value base sign width flags letbase).
Proof. intros ? ? ? ? <- args. exists k. apply runs_done_at. by apply runs_conv_num. Qed.
Lemma s64_swrap w v : 0 < w ≤ 64 → s64 (swrap w v) = swrap w v.
Proof.
  intros Hw. apply swrap_small; [lia|]. pose proof (swrap_range w v).
  pose proof (Z.pow_le_mono_r 2 (w - 1) (64 - 1)). lia.
Qed.
Lemma s64_u64 v : s64 (u64 v) = s64 v.
Proof. apply swrap_mod_eq. apply Zmod_mod. Qed.
Ltac conv_step :=
  apply converts_deref; cbn -[conv_num number done_at conv_c conv_s field conv_l conv_ll conv_h conv_hh].
Lemma converts_conv c a f width flags o :
  render_arg c a width flags = Some o → converts (conv (spec_chars c ++ f) width flags) a f o.
Proof.
  assert (num_base 8 ∧ num_base 10 ∧ num_base 16) as (? & ? & ?) by (unfold num_base; auto).
  assert (letter (ch "a") ∧ letter (ch "A")) as [? ?] by (unfold letter; auto).
  intros Ho. destruct c as [m k| | | | |]; [destruct m, k|..]; destruct a as [v|p s]; try done;
    try (injection Ho as <-); unfold conv; cbn [spec_chars kind_char lit app]; conv_step;
    try (unfold conv_l, conv_h; cbn [tail]; conv_step); try (unfold conv_ll, conv_hh; cbn [tail]; conv_step).
  all: try (apply converts_num; [lia|done|done|by apply wrap_mod_eq || by apply swrap_mod_eq|]; try done; apply s64_swrap || apply s64_u64; lia).
  - intros args. exists (ch "c"). apply (runs_done_at (ch "c")), runs_conv_c.
  - intros args. exists (ch "s"). by apply (runs_done_at (ch "s")), runs_conv_s.
Qed.
Ltac notin := apply (bool_decide_unpack _); vm_compute; exact I.
Ltac codes :=
  change (ch "-") with 45 in *; change (ch "#") with 35 in *; change (ch "0") with 48 in *;
  change (ch "*") with 42 in *; change (ch "%") with 37 in *; change (ch "9") with 57 in *.
Lemma starts_app l f Q : starts l Q → starts (l ++ f) Q.
Proof. intros (c & r & -> & HQ). by exists c, (r ++ f). Qed.
Lemma starts_mono f (Q R : Z → Prop) : starts f Q → (∀ c, Q c → R c) → starts f R.
Proof. intros (c & r & -> & HQ) HR. exists c, r. auto. Qed.
Lemma spec_starts c :
  starts (spec_chars c) (λ c, is_digit c = false ∧ c ∉ [0; ch "%"; ch "-"; ch "#"; ch "0"; ch "*"]).
Proof.
  destruct c as [[] []| | | | |]; eexists _, _; (split; [reflexivity|]); split; try done; notin.
Qed.
Lemma width_starts w f :
  match w with WDigits ds => Forall (λ d, 0 ≤ d ≤ 9) ds ∧ head ds ≠ Some 0 | WStar => True end →
  starts f (λ c, c ∉ [0; ch "%"; ch "-"; ch "#"; ch "0"; ch "*"]) →
  starts (width_chars w ++ f) (λ c, c ∉ [0; ch "%"; ch "-"; ch "#"; ch "0"]).
Proof.
  intros Hw Hf. destruct w as [[|d ds]|]; simpl.
  - eapply starts_mono; [done|]. intros c. cbv beta. rewrite !not_elem_of_cons. naive_solver.
  - destruct Hw as [Hd Hne]. inversion_clear Hd. simpl in Hne. eexists _, _. split; [done|].
    codes. rewrite !not_elem_of_cons. assert (d ≠ 0) by congruence. repeat split; try lia. apply not_elem_of_nil.
  - eexists _, _. split; [done|]. notin.
Qed.
Lemma replicate_starts n f :
  starts f (λ c, c ∉ [0; ch "%"; ch "-"; ch "#"; ch "0"]) →
  starts (replicate n (ch "0") ++ f) (λ c, c ∉ [0; ch "%"; ch "-"; ch "#"]).
Proof.
  intros Hf. destruct n; simpl.
  - eapply starts_mono; [done|]. intros c. cbv beta. rewrite !not_elem_of_cons. naive_solver.
  - eexists _, _. split; [done|]. notin.
Qed.
Lemma flag_starts a b f l :
  starts f (λ c, c ∉ l ++ [ch a]) → ch a ∉ l → starts (flag_chars a b ++ f) (λ c, c ∉ l).
Proof.
  intros Hf Ha. destruct b; [by eexists _, _|]. eapply starts_mono; [done|]. intros c Hc Hin.
  apply Hc, elem_of_app. by left.
Qed.
Lemma runs_directive d f args args' o :
  dir_ok d → render_dir d args = Some (o, args') →
  ∃ k, runs (directive (dir_chars d ++ f)) args args' o (Some (k :: f, Z.of_nat (length o))).
Proof.
  intros Hok Hr.
  assert (∃ a w args0, runs (parse_width (width_chars (fwid d) ++ spec_chars (spec d) ++ f)) args (a :: args0) []
            (spec_chars (spec d) ++ f, w) ∧ args' = args0 ∧ render_arg (spec d) a w (dir_flags d) = Some o)
    as (a & w & args0 & Hw & -> & Ha).
  { assert (starts (spec_chars (spec d) ++ f) (λ c, is_digit c = false ∧ c ≠ ch "*")) as Hs.
    { eapply starts_mono; [apply starts_app, spec_starts|]. intros c. cbv beta. rewrite !not_elem_of_cons. naive_solver. }
    unfold dir_ok in Hok. unfold render_dir in Hr. destruct (fwid d) as [ds|].
    - destruct args as [|a args]; [done|]. destruct (render_arg _ _ _ _) eqn:E; [|done]. injection Hr as <- <-.
      exists a, (width_value ds), args. split; [|done]. apply (runs_parse_width (WDigits ds)); naive_solver.
    - destruct args as [|[w|] [|a args]]; try done. destruct (render_arg _ _ _ _) eqn:E; [|done].
      injection Hr as <- <-. exists a, (s32 w), args. split; [|done]. by apply (runs_parse_width WStar). }
  destruct (converts_conv _ _ f _ _ _ Ha args0) as [k Hk]. exists k.
  assert (starts (width_chars (fwid d) ++ spec_chars (spec d) ++ f) (λ c, c ∉ [0; ch "%"; ch "-"; ch "#"; ch "0"])) as S1.
  { apply width_starts; [unfold dir_ok in Hok; destruct (fwid d); naive_solver|].
    eapply starts_mono; [apply starts_app, spec_starts|]. naive_solver. }
  pose proof (replicate_starts (zeros d) _ S1) as S2.
  pose proof (flag_starts "#" (hash d) _ [0; ch "%"; ch "-"] S2 ltac:(notin)) as S3.
  pose proof (flag_starts "-" (minus d) _ [0; ch "%"] S3 ltac:(notin)) as (c & r & Hc & S4).
  unfold dir_chars. rewrite <-!app_assoc. unfold directive. rewrite Hc.
  eapply runs_bind_l; [apply runs_deref|]. rewrite !not_elem_of_cons in S4.
  replace (c =? 0) with false by lia. replace (c =? ch "%") with false by (symmetry; apply Z.eqb_neq; naive_solver).
  rewrite <-Hc. eapply runs_bind_l with (a := (width_chars (fwid d) ++ spec_chars (spec d) ++ f, dir_flags d)).
  { unfold parse_flags. eapply runs_bind_l.
    { apply runs_one_flag. eapply starts_mono; [exact S3|]. intros x. cbv beta. rewrite !not_elem_of_cons. naive_solver. }
    cbv beta iota. eapply runs_bind_l.
    { apply runs_one_flag. eapply starts_mono; [exact S2|]. intros x. cbv beta. rewrite !not_elem_of_cons. naive_solver. }
    cbv beta iota. rewrite zero_flags_spec.
    { unfold dir_flags. destruct (minus d), (hash d); apply runs_ret. }
    eapply starts_mono; [exact S1|]. intros x. cbv beta. rewrite !not_elem_of_cons. naive_solver. }
  cbv beta iota. eapply runs_bind_l; [exact Hw|]. cbv beta iota.
  rewrite <-(app_nil_r o) at 1. eapply runs_bind; [exact Hk|apply runs_ret].
Qed.

(** ** The whole format *)
Lemma runs_outputchar c args : runs (simple_outputchar c) args args [c] ().
Proof. apply runs_emits, emits_outputchar. Qed.
Lemma runs_loop items : ∀ fuel args args' o pc,
  Forall item_ok items → render items args = Some (o, args') → (length items ≤ fuel)%nat →
  runs (vsprintf_loop fuel (format_of items) pc) args args' o (pc + Z.of_nat (length o)).
Proof.
  unfold format_of. induction items as [|i items IH]; intros fuel args args' o pc Hok Hr Hf.
  { injection Hr as <- <-. rewrite Z.add_0_r. destruct fuel; eapply runs_bind_l; [apply runs_deref|apply runs_ret|apply runs_deref|apply runs_ret]. }
  inversion_clear Hok as [|? ? Hi Hok']. cbn [render] in Hr.
  destruct (render_item i args) as [[o1 args1]|] eqn:E1; [|done]. cbn [mbind option_bind] in Hr.
  destruct (render items args1) as [[o2 args2]|] eqn:E2; [|done]. injection Hr as <- <-.
  destruct fuel as [|fuel]; [simpl in Hf; lia|].
  assert (∀ n, pc + Z.of_nat (length (o1 ++ o2)) = pc + n + Z.of_nat (length o2) ↔ n = Z.of_nat (length o1)) as Hn
    by (intros; rewrite length_app; lia).
  simpl in Hf. destruct i as [c| |d]; cbn [fmap list_fmap item_chars concat app lit].
  - destruct Hi as [Hc0 Hc]. injection E1 as <- <-. cbn [vsprintf_loop]. eapply runs_bind_l; [apply runs_deref|].
    replace (c =? 0) with false by lia. replace (c =? ch "%") with false by lia.
    rewrite (proj2 (Hn 1)) by done. eapply (runs_bind _ _ _ _ _ [c]); [apply runs_outputchar|].
    apply IH; [done|done|lia].
  - injection E1 as <- <-. cbn [vsprintf_loop]. eapply runs_bind_l; [apply runs_deref|]. cbn [Z.eqb ch tail].
    rewrite (proj2 (Hn 1)) by done. eapply (runs_bind _ _ _ _ _ [ch "%"]).
    { unfold directive. eapply runs_bind_l; [apply runs_deref|].
      change (ch "%" =? 0) with false. rewrite Z.eqb_refl. cbn iota.
      apply (runs_bind _ _ _ args _ [_] [] ()); [apply runs_outputchar|apply runs_ret]. }
    cbn [tail]. apply IH; [done|done|lia].
  - rewrite <-app_assoc. destruct (runs_directive d (concat (item_chars <$> items) ++ [0]) _ _ _ Hi E1) as [k Hk].
    cbn [vsprintf_loop]. eapply runs_bind_l; [apply runs_deref|]. cbn [Z.eqb ch tail].
    rewrite (proj2 (Hn (Z.of_nat (length o1)))) by done. eapply runs_bind; [exact Hk|]. cbv beta iota. cbn [tail].
    apply IH; [done|done|lia].
Qed.
Lemma length_format_of items : (length items ≤ length (format_of items))%nat.
Proof.
  unfold format_of. rewrite length_app. cbn [length]. induction items as [|i items IH]; [simpl; lia|].
  rewrite fmap_cons. cbn [length concat].
  rewrite length_app. assert (1 ≤ length (item_chars i))%nat by (destruct i; simpl; lia). lia.
Qed.
(** the NUL after the last character of a buffer *)
Definition terminate (o : sink) : sink :=
  match o with Buffer bytes pos => Buffer (<[pos := 0]> bytes) pos | Callback _ => o end.
Lemma vsprintf_spec items args args' o s :
  Forall item_ok items → render items args = Some (o, args') → ap s = args →
  if decide (room (out s) (S (length o))) then
    ∃ u', simple_vsprintf (format_of items) s =
      Ok (Z.of_nat (length o), mk_pf (terminate (emit (out s) o)) args' u')
  else simple_vsprintf (format_of items) s = Stop overflow.
Proof.
  intros Hok Hr Ha.
  pose proof (runs_loop items (length (format_of items)) args args' o 0 Hok Hr (length_format_of items) s Ha) as Hl.
  unfold simple_vsprintf. destruct (decide (room (out s) (length o))) as [Hro|Hro].
  - destruct Hl as (u' & Hl). rewrite (bind_Ok _ _ _ _ _ Hl). unfold mbind, M_bind, gets. simpl.
    destruct (out s) as [bytes pos|sent]; cbn [terminate emit];
      [cbn [room] in Hro |- *|rewrite decide_True by done; by exists u'].
    destruct (decide (pos + S (length o) ≤ length bytes)%nat).
    + rewrite decide_True by auto. rewrite length_splice by lia. replace (_ <? _)%nat with true by lia.
      by exists u'.
    + rewrite decide_False by lia. destruct o as [|c o].
      * rewrite splice_nil. simpl in *. replace (_ <? _)%nat with false by lia. done.
      * simpl in *. rewrite length_splice by (simpl; lia). replace (_ <? _)%nat with false by lia. done.
  - rewrite decide_False; [by apply bind_Stop|]. destruct (out s); simpl in *; lia.
Qed.

Lemma no_nul_field str width flags : no_nul str → no_nul (field str width flags).
Proof.
  intros Hs. unfold field. destruct (has flags PAD_RIGHT); apply Forall_app_2; try done; apply Forall_replicate; [done|].
  by destruct (has flags PAD_ZERO).
Qed.
Lemma no_nul_number i base sign width flags letbase :
  num_base base → letter letbase → no_nul (number i base sign width flags letbase).
Proof.
  intros Hb Hl. unfold number. destruct (i =? 0); [apply no_nul_field; by constructor|].
  set (neg := sign && _ && _). set (m := if neg then [ch "-"] else []).
  assert (no_nul m) by (unfold m; destruct neg; repeat constructor; done).
  assert (no_nul (prefix base flags letbase)) by (unfold prefix; repeat case_match; repeat constructor; done).
  set (v := if neg then _ else _).
  assert (no_nul (digits 64 base letbase v)) by (apply digits_no_nul; [destruct Hb; lia|done]).
  destruct (_ && negb _); [|by apply no_nul_field; repeat apply Forall_app_2].
  repeat apply Forall_app_2; try done. by apply no_nul_field.
Qed.
Lemma no_nul_render_arg c a width flags o : render_arg c a width flags = Some o → no_nul o.
Proof.
  assert (num_base 8 ∧ num_base 10 ∧ num_base 16) as (? & ? & ?) by (unfold num_base; auto).
  assert (letter (ch "a") ∧ letter (ch "A")) as [? ?] by (unfold letter; auto).
  destruct c as [m []| | | | |], a as [v|p s]; try done; simpl; try (intros [= <-]; by apply no_nul_number).
  - intros [= <-]. apply no_nul_field. destruct (Z.eqb_spec (u8 v) 0); repeat constructor. done.
  - destruct (nonzero p).
    + destruct (strlen s) as [n|] eqn:E; [|done]. intros [= <-].
      apply strlen_Some in E as (str & r & -> & <- & Hn). rewrite take_app_length. by apply no_nul_field.
    + intros [= <-]. apply no_nul_field. repeat constructor; done.
Qed.
Lemma no_nul_render items : ∀ args args' o,
  Forall item_ok items → render items args = Some (o, args') → no_nul o.
Proof.
  induction items as [|i items IH]; intros args args' o Hok Hr; [injection Hr as <- <-; constructor|].
  inversion_clear Hok as [|? ? Hi Hok']. cbn [render] in Hr.
  destruct (render_item i args) as [[o1 args1]|] eqn:E1; [|done]. cbn [mbind option_bind] in Hr.
  destruct (render items args1) as [[o2 args2]|] eqn:E2; [|done]. injection Hr as <- <-.
  apply Forall_app_2; [|by eapply IH]. destruct i as [c| |d].
  - injection E1 as <- <-. destruct Hi. by repeat constructor.
  - injection E1 as <- <-. by repeat constructor.
  - simpl in E1. unfold render_dir in E1.
    destruct (fwid d) as [ds|], args as [|[w|p s] args]; try done; [..|destruct args as [|a args]; [done|]];
      destruct (render_arg _ _ _ _) eqn:E; try done; injection E1 as <- <-; by eapply no_nul_render_arg.
Qed.

(** C31: [simple_vsprintf] implements the abstract formatter: for every format
    string built from literal characters, [%%] and directives with any
    combination of the flags, a width (digits or [*]) and the conversions
    d, u, o, x, X (also with l and ll), hd, hhd, p, c and s, and arguments of
    matching kinds, it prints exactly the rendering of the items, consumes
    exactly their arguments, terminates a buffer with NUL and returns the number
    of characters; it overruns the buffer exactly when the rendering and its NUL
    do not fit. *)
Theorem simple_vsprintf_refines items args args' o s :
  Forall item_ok items → render items args = Some (o, args') → ap s = args →
  if decide (room (out s) (S (length o))) then
    ∃ u', simple_vsprintf (format_of items) s =
      Ok (Z.of_nat (length o), mk_pf (terminate (emit (out s) o)) args' u')
  else simple_vsprintf (format_of items) s = Stop overflow.
Proof. apply vsprintf_spec. Qed.
Definition demo_items : list item :=
  [Lit (ch "p"); Dir (mk_dir false true 1 (WDigits [8]) (Num Ml Kx)); Percent;
   Dir (mk_dir true false 0 WStar Str); Lit (ch "|")].
Lemma simple_vsprintf_refines_witness :
  format_of demo_items = lit "p%#08lx%%%-*s|" ++ [0] ∧
  ∃ u', simple_vsprintf (format_of demo_items)
    (mk_pf (Callback []) [VInt 255; VInt 5; VStr 4096 (lit "ab" ++ [0])] 0) =
  Ok (18, mk_pf (Callback (lit "p0x000000ff%ab   |")) [] u').
Proof.
  split; [reflexivity|].
  pose proof (simple_vsprintf_refines demo_items [VInt 255; VInt 5; VStr 4096 (lit "ab" ++ [0])] []
    (lit "p0x000000ff%ab   |") (mk_pf (Callback []) [VInt 255; VInt 5; VStr 4096 (lit "ab" ++ [0])] 0)) as H.
  apply H.
  - repeat constructor; done.
  - vm_compute. reflexivity.
  - reflexivity.
Defined.

(** a string at the start of a buffer of zeros, and its NUL *)
Lemma cstr_in_buffer o n : (length o < n)%nat →
  <[(0 + length o)%nat := 0]> (splice (replicate n 0) 0 o) = o ++ 0 :: drop (S (length o)) (replicate n 0).
Proof.
  intros Hlt. unfold splice. rewrite take_0. cbn [app Nat.add]. rewrite insert_app_r_alt, Nat.sub_diag by lia. f_equal.
  destruct (drop (length o) (replicate n 0)) as [|z d] eqn:E.
  { apply (f_equal length) in E. rewrite length_drop, length_replicate in E. simpl in E. lia. }
  simpl. f_equal. change d with (drop 1 (z :: d)). rewrite <-E, drop_drop. by rewrite Nat.add_1_r.
Qed.
Lemma printf_run junk items args args' o tr :
  Forall item_ok items → render items args = Some (o, args') →
  printf junk (format_of items) args tr =
    if (length o <? 128)%nat then Ok ((), tr ++ [(console, o)]) else Stop overflow.
Proof.
  intros Hok Hr. pose proof (no_nul_render _ _ _ _ Hok Hr) as Hn. unfold printf.
  set (s0 := mk_pf _ args junk). pose proof (vsprintf_spec items args args' o s0 Hok Hr eq_refl) as H.
  destruct (Nat.ltb_spec (length o) 128) as [Hlt|Hge].
  - rewrite decide_True in H by (simpl; lia). destruct H as (u' & ->). cbn [out terminate emit s0].
    rewrite cstr_in_buffer by lia.
    by rewrite strlen_cstr, take_app_length by done.
  - rewrite decide_False in H by (simpl; lia). by rewrite H.
Qed.
(** The user library's [printf] makes one [write] of exactly the rendered
    text to the console when the text is shorter than its 128-byte buffer, and
    otherwise runs past the end of the buffer. *)
Theorem printf_writes junk items args args' o tr :
  Forall item_ok items → render items args = Some (o, args') →
  printf junk (format_of items) args tr =
    if (length o <? 128)%nat then Ok ((), tr ++ [(console, o)]) else Stop overflow.
Proof. apply printf_run. Qed.
Lemma printf_writes_witness :
  printf 0 (format_of [Dir (mk_dir false false 0 (WDigits []) (Num Mnone Kd)); Lit 10]) [VInt (2 ^ 32 - 7)] [] =
    Ok ((), [(0, lit "-7" ++ [10])]) ∧
  printf 0 (format_of [Dir (mk_dir false false 0 (WDigits [1; 2; 8]) Str)]) [VStr 0 []] [] = Stop overflow.
Proof.
  split.
  - rewrite (printf_writes 0 _ [VInt (2 ^ 32 - 7)] [] (lit "-7" ++ [10]) []); [reflexivity| |vm_compute; reflexivity].
    repeat constructor; done.
  - rewrite (printf_writes 0 _ [VStr 0 []] [] (replicate 122 (ch " ") ++ lit "(null)") []);
      [reflexivity| |vm_compute; reflexivity].
    repeat constructor; done.
Defined.

(** [%hu] (like [%ho], [%hx], [%hX] and the [hh] forms) stores the argument
    in the low bytes of the union but prints all 64 bits of it, so the value of
    an earlier conversion shows through: printing 5 after a long 0x10000 gives
    65541. *)
Theorem short_unsigned_shows_stale_bits (v y : Z) (x : pf) :
  0 ≤ v < 2 ^ 63 → u x = v →
  ap x = [VInt y] → (∃ sent, out x = Callback sent) →
  conv_h (lit "u") 0 0 x =
    Ok ((lit "u", Z.of_nat (length (number (v - v mod 2 ^ 16 + y mod 2 ^ 16) 10 false 0 0 (ch "a")))),
        mk_pf (emit (out x) (number (v - v mod 2 ^ 16 + y mod 2 ^ 16) 10 false 0 0 (ch "a"))) []
              (v - v mod 2 ^ 16 + y mod 2 ^ 16)).
Proof.
  intros Hv Hu Ha [sent Ho]. destruct x as [o a u0]. simpl in *. subst.
  unfold conv_h, deref, done_at, conv_num, va_int, va_arg, set_u, mbind, M_bind, gets, modify. simpl.
  change (2 ^ (8 * 2)) with 65536. change (2 ^ 16) with 65536.
  set (w := v - v mod 65536 + y mod 65536). assert (0 ≤ w < 2 ^ 63) by (unfold w; dlia).
  rewrite !(swrap_small 64 w) by lia. rewrite (emits_write_num w 10 false 0 0 (ch "a")); [|right; by left|by left|lia].
  simpl. done.
Qed.
Lemma short_unsigned_shows_stale_bits_witness :
  conv_h (lit "u") 0 0 (mk_pf (Callback []) [VInt 5] 65536) =
    Ok ((lit "u", 5), mk_pf (Callback (lit "65541")) [] 65541) ∧
  simple_vsprintf (lit "%ld %hu" ++ [0]) (mk_pf (Callback []) [VInt 65536; VInt 5] 0) =
    Ok (11, mk_pf (Callback (lit "65536 65541")) [] 65541).
Proof.
  split; [|vm_compute; reflexivity].
  rewrite (short_unsigned_shows_stale_bits 65536 5 (mk_pf (Callback []) [VInt 5] 65536)); [|lia|done|done|by exists []].
  vm_compute. reflexivity.
Defined.
