(* ===== verification/Stl.v ===== *)
(** The user library's containers: [lib/stl/vector.h], [lib/stringpp.cc] (which
    is a [vector<char>]) and [lib/stl/smart_pointer.h].  A buffer is the list of
    the elements that were really allocated, so a write past it is a fault even
    where [capacity_] says there is room. *)
From Stdlib Require Import Ascii.
From S2P Require Import Prelude Mem Printk.

(** * vector<T> *)
Record vector (A : Type) := mk_vector { size_ : Z; capacity_ : Z; buffer_ : option (list A) }.
Arguments mk_vector {A} _ _ _.
Arguments size_ {A} _.
Arguments capacity_ {A} _.
Arguments buffer_ {A} _.

Section vector.
(** [uninit] is what fresh memory holds; [new_ok n] tells whether the heap has
    room for [n] elements ([operator new] gives null when it has not) *)
Context {A : Type} (uninit : A) (new_ok : Z → bool).
Abbreviation V := (M (vector A)).

Definition new_T (n : Z) : option (list A) := if new_ok n then Some (replicate (Z.to_nat n) uninit) else None.
Definition buf_write (b : option (list A)) (i : Z) (x : A) : res (option (list A)) :=
  match b with
  | Some b => if (Z.to_nat i <? length b)%nat then Ok (Some (<[Z.to_nat i := x]> b)) else Stop (Faulted "vector buffer")
  | None => Stop (Faulted "null buffer")
  end.
Definition buf_read (b : option (list A)) (i : Z) : res A :=
  match b with
  | Some b => match b !! Z.to_nat i with Some x => Ok x | None => Stop (Faulted "vector buffer") end
  | None => Stop (Faulted "null buffer")
  end.
(** [for (uint32_t i = 0; i < size; i++) dst[i] = src(i)] *)
Fixpoint copy_loop (n : nat) (i : Z) (src : Z → res A) (dst : option (list A)) : res (option (list A)) :=
  match n with
  | O => Ok dst
  | S n =>
    match src i with
    | Ok x => match buf_write dst i x with Ok dst => copy_loop n (i + 1) src dst | Stop e => Stop e end
    | Stop e => Stop e
    end
  end.
Definition lift_res {B} (r : res B) : V B := λ s, match r with Ok b => Ok (b, s) | Stop e => Stop e end.
Definition put (v : vector A) : V () := modify (λ _, v).
Definition get : V (vector A) := gets (λ v, v).

Definition vector_empty : vector A := mk_vector 0 0 None.
Definition vector_sized (size : Z) : vector A := mk_vector size size (new_T size).
Definition vector_fill (size : Z) (initial : A) : res (vector A) :=
  match copy_loop (Z.to_nat size) 0 (λ _, Ok initial) (new_T size) with
  | Ok b => Ok (mk_vector size size b)
  | Stop e => Stop e
  end.
(** the copy constructor: the capacity of [v] with room for its size only *)
Definition vector_copy (v : vector A) : res (vector A) :=
  match copy_loop (Z.to_nat (size_ v)) 0 (buf_read (buffer_ v)) (new_T (size_ v)) with
  | Ok b => Ok (mk_vector (size_ v) (capacity_ v) b)
  | Stop e => Stop e
  end.
(** [operator=]: [delete[] buffer_], then as the copy constructor *)
Definition assign (v : vector A) : V () := v' ← lift_res (vector_copy v); put v'.

Definition capacity : V Z := gets capacity_.
Definition size : V Z := gets size_.
Definition empty : V bool := gets (λ v, size_ v =? 0).
Definition front : V A := v ← get; lift_res (buf_read (buffer_ v) 0).
Definition back : V A := v ← get; lift_res (buf_read (buffer_ v) (u32 (size_ v - 1))).
Definition reserve (cap : Z) : V () :=
  v ← get;
  (match buffer_ v with None => put (mk_vector 0 0 None) | Some _ => mret () end);;
  v ← get;
  if cap <=? capacity_ v then mret () else
  b ← lift_res (copy_loop (Z.to_nat (size_ v)) 0 (buf_read (buffer_ v)) (new_T cap));
  put (mk_vector (size_ v) cap b).
Definition push_back (value : A) : V () :=
  v ← get;
  (if capacity_ v <=? size_ v then
     let new_capacity := u32 (capacity_ v * 2) in
     reserve (if new_capacity <? 8 then 8 else new_capacity)
   else mret ());;
  v ← get;
  b ← lift_res (buf_write (buffer_ v) (size_ v) value);
  put (mk_vector (u32 (size_ v + 1)) (capacity_ v) b).
Definition pop_back : V () := modify (λ v, mk_vector (u32 (size_ v - 1)) (capacity_ v) (buffer_ v)).
Definition resize (sz : Z) : V () :=
  reserve sz;; modify (λ v, mk_vector sz (capacity_ v) (buffer_ v)).
(** [operator[]]: the library's bounds check ends the process *)
Definition vector_at (index : Z) : V A :=
  v ← get;
  if size_ v <=? index then stop_with (Exited (-1)) else lift_res (buf_read (buffer_ v) index).
Definition vector_set (index : Z) (x : A) : V () :=
  v ← get;
  if size_ v <=? index then stop_with (Exited (-1)) else
  b ← lift_res (buf_write (buffer_ v) index x);
  put (mk_vector (size_ v) (capacity_ v) b).
Definition clear : V () := put (mk_vector 0 0 None).
(** the elements from [begin()] to [end()] *)
Definition elements : V (list A) :=
  v ← get;
  match buffer_ v with
  | None => if size_ v =? 0 then mret [] else stop_with (Faulted "null buffer")
  | Some b => if (Z.to_nat (size_ v) <=? length b)%nat then mret (take (Z.to_nat (size_ v)) b)
              else stop_with (Faulted "vector buffer")
  end.

(** * Well-formed vectors and the list they hold *)
Record vec_rep (v : vector A) (l : list A) : Prop := {
  vr_size : size_ v = Z.of_nat (length l);
  vr_cap : size_ v ≤ capacity_ v < 2 ^ 32;
  vr_buf : match buffer_ v with
           | Some b => Z.of_nat (length b) = capacity_ v ∧ take (length l) b = l
           | None => l = [] ∧ capacity_ v = 0
           end;
}.

Lemma copy_loop_ok n : ∀ i src (b : list A) l,
  (∀ k x, l !! k = Some x → src (i + Z.of_nat k) = Ok x) → length l = n → 0 ≤ i → (Z.to_nat i + n ≤ length b)%nat →
  copy_loop n i src (Some b) = Ok (Some (splice b (Z.to_nat i) l)).
Proof.
  induction n as [|n IH]; intros i src b l Hs Hl Hi Hb; cbn [copy_loop].
  { destruct l; [|done]. by rewrite splice_nil. }
  destruct l as [|x l]; [done|]. pose proof (Hs 0%nat x eq_refl) as H0.
  rewrite Z.add_0_r in H0. rewrite H0. unfold buf_write. replace (_ <? _)%nat with true by lia.
  rewrite (IH (i + 1) src _ l).
  - do 2 f_equal. rewrite Z2Nat.inj_add by lia. change (Z.to_nat 1) with (length [x]).
    rewrite <-(splice_app b _ [x] l) by lia. f_equal. unfold splice. simpl. rewrite insert_take_drop by lia.
    by rewrite Nat.add_1_r.
  - intros k y Hk. rewrite <-(Hs (S k) y Hk). f_equal. lia.
  - simpl in Hl. lia.
  - lia.
  - rewrite length_insert. lia.
Qed.
Lemma buf_read_ok b l : take (length l) b = l → ∀ (k : nat) x, l !! k = Some x → buf_read (Some b) (0 + Z.of_nat k) = Ok x.
Proof.
  intros Hb k x Hk. unfold buf_read. rewrite Z.add_0_l, Nat2Z.id.
  pose proof (lookup_lt_Some _ _ _ Hk). rewrite <-Hb, lookup_take_lt in Hk by lia. by rewrite Hk.
Qed.
Lemma wp_reserve cap v l (Q : () → vector A → Prop) :
  vec_rep v l → 0 ≤ cap < 2 ^ 32 → (capacity_ v < cap → new_ok cap = true) →
  (∀ v', vec_rep v' l → capacity_ v' = Z.max cap (capacity_ v) →
     buffer_ v' = (if cap <=? capacity_ v then buffer_ v else Some (l ++ replicate (Z.to_nat cap - length l) uninit)) → Q () v') →
  wp (reserve cap) Q v.
Proof.
  intros [Hs Hc Hb] Hcap Hnew HQ. unfold reserve, get, put. do 3 wp_step.
  assert (wp (match buffer_ v with None => modify (λ _, mk_vector 0 0 None) | Some _ => mret () end)
    (λ _ v0, vec_rep v0 l ∧ capacity_ v0 = capacity_ v ∧ buffer_ v0 = buffer_ v ∧ (buffer_ v0 = None → l = [])) v) as H0.
  { destruct (buffer_ v) as [b|] eqn:E; wp_step.
    - split; [constructor; [done|done|by rewrite E]|]. split_and!; [done|done|]. by rewrite E.
    - destruct Hb as [-> Hb]. split; [constructor; simpl; [done|lia|done]|]. split_and!; [by rewrite Hb|done|done]. }
  eapply wp_mono; [exact H0|]. intros [] v0 ([Hs0 Hc0 Hb0] & Hceq & Hbeq & Hnil). do 2 wp_step. rewrite <-Hceq in HQ.
  destruct (Z.leb_spec cap (capacity_ v0)).
  { wp_step. apply HQ; [by constructor|lia|done]. }
  wp_step. unfold new_T. rewrite Hnew by lia. rewrite Hs0, Nat2Z.id.
  destruct (buffer_ v0) as [b|] eqn:E.
  - destruct Hb0 as [Hlb Htk]. rewrite (copy_loop_ok _ 0 _ _ l); [|by apply buf_read_ok|done|lia|].
    2: { rewrite length_replicate. simpl. lia. }
    unfold wp, lift_res. unfold modify. apply HQ; [constructor; simpl|simpl; lia|].
    4: { cbn [buffer_]. unfold splice. cbn [take app Z.to_nat]. by rewrite drop_replicate, Nat.add_0_l. }
    + done.
    + lia.
    + rewrite length_splice by (rewrite length_replicate; lia). rewrite length_replicate. split; [lia|].
      unfold splice. simpl. by rewrite take_app_length.
  - rewrite (Hnil eq_refl) in *. cbn [length copy_loop].
    unfold wp, lift_res, modify. apply HQ; [constructor; simpl|simpl; lia|cbn; by rewrite Nat.sub_0_r].
    + done.
    + lia.
    + rewrite length_replicate. split; [lia|done].
Qed.
Lemma wp_push_back x v l (Q : () → vector A → Prop) :
  vec_rep v l → 2 * capacity_ v < 2 ^ 32 → (∀ n, new_ok n = true) →
  (∀ v', vec_rep v' (l ++ [x]) → capacity_ v' ≤ Z.max 8 (2 * capacity_ v) → Q () v') →
  wp (push_back x) Q v.
Proof.
  intros Hv Hc2 Hnew HQ. pose proof Hv as [Hs Hc Hb]. unfold push_back, get. do 3 wp_step.
  assert (wp (if capacity_ v <=? size_ v then
     reserve (if u32 (capacity_ v * 2) <? 8 then 8 else u32 (capacity_ v * 2)) else mret ())
    (λ _ v0, vec_rep v0 l ∧ size_ v0 < capacity_ v0 ∧ capacity_ v0 ≤ Z.max 8 (2 * capacity_ v)) v) as H0.
  { rewrite (wrap_small 32) by lia. destruct (Z.leb_spec (capacity_ v) (size_ v)).
    - apply (wp_reserve _ v l); [done|destruct (Z.ltb_spec (capacity_ v * 2) 8); lia|by auto|].
      intros v' Hv' Hcap _. split; [done|]. rewrite (vr_size _ _ Hv'), <-Hs.
      destruct (Z.ltb_spec (capacity_ v * 2) 8); lia.
    - wp_step. split; [done|]. lia. }
  eapply wp_mono; [exact H0|]. intros [] v0 ([Hs0 Hc0 Hb0] & Hlt & Hmax). do 2 wp_step.
  destruct (buffer_ v0) as [b|] eqn:E; [|lia]. destruct Hb0 as [Hlb Htk]. wp_step. unfold buf_write.
  rewrite Hs0, Nat2Z.id. replace (_ <? _)%nat with true by lia.
  unfold wp, lift_res, put, modify. apply HQ; [constructor; simpl|done].
  - rewrite length_app, wrap_small by lia. simpl. lia.
  - rewrite wrap_small by lia. lia.
  - rewrite length_insert, length_app. simpl. split; [done|].
    rewrite Nat.add_1_r, (take_S_r _ _ x) by (rewrite list_lookup_insert_eq; [done|lia]).
    by rewrite take_insert_ge, Htk.
Qed.

Lemma wp_resize n v l : vec_rep v l → 0 ≤ n < 2 ^ 32 → (∀ n, new_ok n = true) →
  wp (resize n) (λ _ v', size_ v' = n ∧
     vec_rep v' (take (Z.to_nat n) (l ++ if n <=? capacity_ v then drop (length l) (default [] (buffer_ v))
                                        else replicate (Z.to_nat n) uninit))) v.
Proof.
  intros Hv Hn Hnew. unfold resize. wp_step. apply (wp_reserve _ v l); [done|lia|by auto|].
  intros v' [Hs' Hc' Hb'] Hcap Hbuf. wp_step. split; [done|]. destruct Hv as [Hs Hc Hb].
  assert (match buffer_ v' with Some b => Z.of_nat (length b) = capacity_ v' | None => capacity_ v' = 0 end) as Hlen
    by (destruct (buffer_ v'); tauto).
  revert Hbuf. destruct (Z.leb_spec n (capacity_ v)) as [Hle|Hgt]; intros Hbuf.
  - rewrite <-Hbuf. destruct (buffer_ v') as [b|] eqn:E; cbn [default from_option id].
    + destruct Hb' as [_ Htk]. rewrite <-Htk at 1. rewrite take_drop.
      constructor; cbn [size_ capacity_ buffer_]; rewrite ?length_take, ?E; [lia|lia|]. split; [done|]. f_equal. lia.
    + destruct Hb' as [-> _]. rewrite drop_nil, app_nil_r, take_nil. constructor; cbn; rewrite ?E; [lia|lia|]. split; [done|lia].
  - rewrite Hbuf in Hb', Hlen. destruct Hb' as [_ Htk]. rewrite take_app_ge by lia.
    rewrite take_replicate, Nat.min_l by lia.
    assert (length (l ++ replicate (Z.to_nat n - length l) uninit) = Z.to_nat n) as Hl2 by (rewrite length_app, length_replicate; lia).
    constructor; cbn [size_ capacity_ buffer_]; rewrite ?Hbuf.
    + by rewrite Hl2, Z2Nat.id by lia.
    + lia.
    + split; [done|]. by rewrite take_ge by lia.
Qed.
Lemma vec_rep_len v l : vec_rep v l → size_ v = Z.of_nat (length l).
Proof. by intros []. Qed.
End vector.
Arguments vec_rep {A} v l.

(** * string (stringpp.cc): a vector of characters *)
Section stringpp.
Context (uninit : Z) (new_ok : Z → bool).
Abbreviation str := (vector Z).
Abbreviation Str := (M str).
Let push := push_back uninit new_ok.

(** [while ( *str ) { data_.push_back( *str ); ++str; }] *)
Fixpoint push_cstr (s : list Z) : Str () :=
  match s with
  | [] => stop_with (Faulted "string")
  | c :: s => if c =? 0 then mret () else push c;; push_cstr s
  end.
Fixpoint push_all (l : list Z) : Str () :=
  match l with [] => mret () | c :: l => push c;; push_all l end.
(** [string(const char* )], from the empty vector *)
Definition string_ctor (s : list Z) : Str () := put (@vector_empty Z);; push_cstr s.
(** [string(const string&)]: an empty vector, assigned *)
Definition string_copy (s : str) : Str () := put (@vector_empty Z);; assign uninit new_ok s.
Definition append_string (s : str) : Str () :=
  v ← @get Z;
  reserve uninit new_ok (u32 (size_ v + size_ s));;
  l ← lift_res (match elements s with Ok (l, _) => Ok l | Stop e => Stop e end);
  push_all l.
Definition append_cstr (s : list Z) : Str () :=
  len ← of_option (Faulted "strlen") (strlen s);
  v ← @get Z;
  reserve uninit new_ok (u32 (size_ v + Z.of_nat len));;
  push_cstr s.
Definition append_char (c : Z) : Str () := push c.
Definition string_empty : Str bool := @empty Z.
Definition string_size : Str Z := @size Z.
Definition string_at (pos : Z) : Str Z := @vector_at Z (u32 pos).
(** [operator+]: the state is [this], which is not changed *)
Definition run_new (m : Str ()) : Str str := λ s,
  match m (@vector_empty Z) with Ok (_, v) => Ok (v, s) | Stop e => Stop e end.
Definition string_plus (s : str) : Str str :=
  self ← @get Z; run_new (string_copy self;; append_string s).
Definition string_plus_cstr (s : list Z) : Str str :=
  self ← @get Z; run_new (string_copy self;; append_cstr s).
(** [*data_.end() = '\0'] after [reserve(size + 1)]; the bytes from [begin()] *)
Definition c_str : Str (list Z) :=
  v ← @get Z;
  reserve uninit new_ok (u32 (size_ v + 1));;
  v ← @get Z;
  b ← lift_res (buf_write (buffer_ v) (size_ v) 0);
  put (mk_vector (size_ v) (capacity_ v) b);;
  mret (default [] b).
(** [for (size_t i = pos; i < len; ++i)]: [len] bounds the index *)
Fixpoint substr_loop (n : nat) (i : Z) (self : str) : Str () :=
  match n with
  | O => mret ()
  | S n =>
    c ← lift_res (match vector_at (u32 i) self with Ok (c, _) => Ok c | Stop e => Stop e end);
    append_char c;; substr_loop n (i + 1) self
  end.
Definition substr (pos len : Z) : Str str :=
  self ← @get Z;
  let len := if size_ self <? u64 (len + pos) then u64 (size_ self - pos) else len in
  run_new (substr_loop (Z.to_nat (len - pos)) pos self).

End stringpp.

(** * smart_pointer.h: [unique_ptr], with the pointers deleted so far *)
Record uptr := mk_uptr { ptr_ : Z; deleted : list Z }.
Definition unique_ptr_release : M uptr Z :=
  p ← gets ptr_; modify (λ s, mk_uptr 0 (deleted s));; mret p.
Definition delete_ptr : M uptr () :=
  modify (λ s, mk_uptr (ptr_ s) (if ptr_ s =? 0 then deleted s else deleted s ++ [ptr_ s])).
Definition unique_ptr_reset : M uptr () :=
  p ← gets ptr_;
  if nonzero p then delete_ptr;; modify (λ s, mk_uptr 0 (deleted s)) else mret ().
Definition unique_ptr_dtor : M uptr () := delete_ptr.
(** [operator=(unique_ptr<O>&& p)]: [p] gives up its pointer, then the old
    pointer is deleted; the value is what [p] is left with *)
Definition unique_ptr_assign (p : uptr) : M uptr uptr :=
  match unique_ptr_release p with
  | Ok (q, p) => delete_ptr;; modify (λ s, mk_uptr q (deleted s));; mret p
  | Stop e => stop_with e
  end.
Definition unique_ptr_swap (p : uptr) : M uptr uptr :=
  self ← gets ptr_; modify (λ s, mk_uptr (ptr_ p) (deleted s));; mret (mk_uptr self (deleted p)).

(** * The properties of the containers *)

(** C36: a well-formed [vector] implements a list: [push_back] appends (growing the
    buffer when it is full), [reserve] keeps the elements and makes room, [resize] to any 32-bit
    size keeps the elements that remain and follows them, when it grows, with what the
    buffer held past the end or, when it had to be enlarged, with the fresh memory's
    contents, [pop_back] drops the last element, and [operator[]] reads and
    writes the element at an index in range and ends the process otherwise. *)
Theorem vector_refines_list {A} (uninit : A) new_ok (v : vector A) l :
  (∀ n, new_ok n = true) → vec_rep v l → 2 * capacity_ v < 2 ^ 32 →
  (∀ x, wp (push_back uninit new_ok x) (λ _ v', vec_rep v' (l ++ [x])) v) ∧
  (∀ n, 0 ≤ n < 2 ^ 32 → wp (reserve uninit new_ok n) (λ _ v', vec_rep v' l ∧ n ≤ capacity_ v') v) ∧
  (∀ n, 0 ≤ n < 2 ^ 32 → wp (resize uninit new_ok n) (λ _ v', size_ v' = n ∧
     vec_rep v' (take (Z.to_nat n) (l ++ if n <=? capacity_ v then drop (length l) (default [] (buffer_ v))
                                        else replicate (Z.to_nat n) uninit))) v) ∧
  (l ≠ [] → wp pop_back (λ _ v', vec_rep v' (removelast l)) v) ∧
  (∀ i x, 0 ≤ i → match l !! Z.to_nat i with
     | Some y => vector_at i v = Ok (y, v) ∧ wp (vector_set i x) (λ _ v', vec_rep v' (<[Z.to_nat i := x]> l)) v
     | None => vector_at i v = Stop (Exited (-1)) ∧ vector_set i x v = Stop (Exited (-1))
     end).
Proof.
  intros Hnew Hv Hc2. pose proof Hv as [Hs Hc Hb]. split_and!.
  - intros x. by apply (wp_push_back uninit new_ok x v l).
  - intros n Hn. apply (wp_reserve uninit new_ok n v l); [done|done|by auto|]. intros v' Hv' Hcap _. split; [done|lia].
  - intros n Hn. by apply wp_resize.
  - intros Hne. unfold pop_back. wp_step.
    assert (0 < length l)%nat by (destruct l; [done|simpl; lia]).
    assert (length (removelast l) = length l - 1)%nat as Hlr.
    { rewrite List.removelast_firstn_len, length_take. lia. }
    constructor; simpl.
    + rewrite wrap_small by lia. lia.
    + rewrite wrap_small by lia. lia.
    + destruct (buffer_ v) as [b|]; [|naive_solver]. destruct Hb as [? Htk]. split; [done|].
      rewrite Hlr. rewrite List.removelast_firstn_len.
      transitivity (take (pred (length l)) (take (length l) b)); [|by rewrite Htk]. rewrite take_take. f_equal. lia.
  - intros i x Hi. unfold vector_at, vector_set, get. rewrite !(bind_Ok _ _ _ _ _ (eq_refl : gets _ v = Ok (v, v))).
    destruct (l !! Z.to_nat i) as [y|] eqn:E.
    + pose proof (lookup_lt_Some _ _ _ E). replace (size_ v <=? i) with false by lia.
      destruct (buffer_ v) as [b|] eqn:Eb; [|naive_solver]. destruct Hb as [Hlb Htk].
      assert (b !! Z.to_nat i = Some y) as Hbi by (rewrite <-Htk, lookup_take_lt in E by lia; done).
      split; [unfold lift_res; simpl; by rewrite Hbi|].
      do 2 wp_step. replace (size_ v <=? i) with false by lia. wp_step. rewrite Eb.
      unfold buf_write. replace (_ <? _)%nat with true by lia. unfold wp, lift_res, put, modify.
      constructor; simpl; rewrite ?length_insert; [done|done|]. split; [done|].
      rewrite <-Htk at 2. rewrite take_insert_lt by lia. done.
    + apply lookup_ge_None in E. replace (size_ v <=? i) with true by lia. done.
Qed.
Definition demo_vector : vector Z := mk_vector 2 2 (Some [5; 6]).
Lemma demo_vector_rep : vec_rep demo_vector [5; 6].
Proof. constructor; simpl; lia || done. Qed.
Lemma vector_refines_list_witness :
  wp (push_back 0 (λ _, true) 7) (λ _ v', vec_rep v' [5; 6; 7]) demo_vector ∧
  vector_at 2 demo_vector = Stop (Exited (-1)).
Proof.
  destruct (vector_refines_list 0 (λ _, true) demo_vector [5; 6]) as (Hp & _ & _ & _ & Ha).
  - intros n. reflexivity.
  - exact demo_vector_rep.
  - reflexivity.
  - split; [exact (Hp 7)|]. apply (Ha 2 0). lia.
Defined.

(** The copy of a vector that has spare capacity keeps that capacity but has
    room for its elements only, so the next [push_back] on the copy writes past
    the end of its buffer; [operator+] of [lib::string], which appends to a copy,
    does so for every short string. *)
Theorem vector_copy_overflows {A} (uninit : A) new_ok (v : vector A) l x :
  (∀ n, new_ok n = true) → vec_rep v l → size_ v < capacity_ v →
  ∃ v', vector_copy uninit new_ok v = Ok v' ∧ size_ v' = size_ v ∧ capacity_ v' = capacity_ v ∧ buffer_ v' = Some l ∧
    push_back uninit new_ok x v' = Stop (Faulted "vector buffer").
Proof.
  intros Hnew [Hs Hc Hb] Hlt. destruct (buffer_ v) as [b|] eqn:E; [|lia]. destruct Hb as [Hlb Htk].
  exists (mk_vector (size_ v) (capacity_ v) (Some l)). split_and!; [|done..|].
  - unfold vector_copy, new_T. rewrite Hnew, E, Hs, Nat2Z.id.
    rewrite (copy_loop_ok _ 0 _ _ l); [|by apply buf_read_ok|done|lia|rewrite length_replicate; simpl; lia].
    do 3 f_equal. unfold splice. simpl. rewrite drop_ge by (rewrite length_replicate; lia). apply app_nil_r.
  - unfold push_back, get, put, mbind, M_bind, gets. simpl. replace (capacity_ v <=? size_ v) with false by lia.
    simpl. unfold lift_res, buf_write. rewrite Hs, Nat2Z.id, Nat.ltb_irrefl. done.
Qed.
Lemma vector_copy_overflows_witness :
  (∃ v', vector_copy 0 (λ _, true) (mk_vector 2 8 (Some [97; 98; 0; 0; 0; 0; 0; 0])) = Ok v' ∧
    push_back 0 (λ _, true) 99 v' = Stop (Faulted "vector buffer")) ∧
  (string_ctor 0 (λ _, true) (lit "ab" ++ [0]);; string_plus_cstr 0 (λ _, true) (lit "c" ++ [0])) vector_empty =
    Stop (Faulted "vector buffer").
Proof.
  split; [|vm_compute; reflexivity].
  destruct (vector_copy_overflows 0 (λ _, true) (mk_vector 2 8 (Some [97; 98; 0; 0; 0; 0; 0; 0])) [97; 98] 99)
    as (v' & H1 & _ & _ & _ & H2).
  - intros n. reflexivity.
  - constructor; simpl; lia || done.
  - reflexivity.
  - exists v'. split; [exact H1|exact H2].
Defined.
