(* ===== verification/LibUtils.v ===== *)
(** Small library routines: [lib/common.cc] ([SplitString], which the shell uses
    to cut a command line into arguments) and [lib/math_utils.cc] (the Internet
    checksum of the network driver). *)
From S2P Require Import Prelude Mem.

(** * lib/common.cc
    [str] is the list of bytes from the pointer to the end of its object; [vec]
    is the caller's [char vec[][32]], a list of rows. *)
(** [while ( *str && *str == dim) ++str] *)
Fixpoint skip_dim (dim : Z) (str : list Z) : res (list Z) :=
  match str with
  | [] => Stop (Faulted "read past the string")
  | c :: r => if nonzero c && (c =? dim) then skip_dim dim r else Ok str
  end.
(** [while ( *str && *str != dim) ++str]: the bytes stepped over and the rest *)
Fixpoint scan_word (dim : Z) (str : list Z) : res (list Z * list Z) :=
  match str with
  | [] => Stop (Faulted "read past the string")
  | c :: r =>
    if nonzero c && negb (c =? dim) then
      match scan_word dim r with Ok (w, r) => Ok (c :: w, r) | Stop e => Stop e end
    else Ok ([], str)
  end.
Definition max_level : Z := 16.

Fixpoint split_loop (fuel : nat) (dim : Z) (str : list Z) (split_level : Z) (vec : list (list Z)) :
    res (Z * list (list Z)) :=
  match fuel with
  | O => Stop OutOfFuel
  | S fuel =>
    match skip_dim dim str with
    | Stop e => Stop e
    | Ok str =>
      if negb (nonzero (default 0 (head str))) then Ok (split_level, vec)
      else if split_level =? max_level then Ok (-1, vec)
      else
        match scan_word dim str with
        | Stop e => Stop e
        | Ok (w, str) =>
          if 32 <? Z.of_nat (length w) + 1 then Ok (-1, vec)
          else
            match vec !! Z.to_nat split_level with
            | None => Stop (Faulted "vec[split_level]")
            | Some row =>
              split_loop fuel dim str (split_level + 1)
                (<[Z.to_nat split_level := splice (splice row 0 w) (length w) [0]]> vec)
            end
        end
    end
  end.
Definition SplitString (str : list Z) (vec : list (list Z)) (dim : Z) : res (Z * list (list Z)) :=
  split_loop (S (length str)) dim str 0 vec.

(** * lib/math_utils.cc *)
(** [while (nleft > 1) { sum += *w++; nleft -= 2; }] *)
Fixpoint cksum_loop (w : list Z) (nleft sum : Z) {struct w} : res (list Z * Z * Z) :=
  if 1 <? nleft then
    match w with
    | b0 :: b1 :: w => cksum_loop w (nleft - 2) (u32 (sum + (b0 + 256 * b1)))
    | _ => Stop (Faulted "read past the buffer")
    end
  else Ok (w, nleft, sum).
Definition in_cksum (addr : list Z) (len : Z) : res Z :=
  match cksum_loop addr len 0 with
  | Stop e => Stop e
  | Ok (w, nleft, sum) =>
    match (if nleft =? 1 then
             match w with b :: _ => Ok (u32 (sum + b)) | [] => Stop (Faulted "read past the buffer") end
           else Ok sum) with
    | Stop e => Stop e
    | Ok sum =>
      let sum := u32 (Z.land sum 0xffff + Z.shiftr sum 16) in
      let sum := u32 (sum + Z.shiftr sum 16) in
      Ok (u16 (Z.lnot sum))
    end
  end.

(** * The reference: split at every delimiter and drop the empty pieces *)
Fixpoint split_on (dim : Z) (s : list Z) : list (list Z) :=
  match s with
  | [] => [[]]
  | c :: s =>
    if c =? dim then [] :: split_on dim s
    else match split_on dim s with p :: ps => (c :: p) :: ps | [] => [[c]] end
  end.
Definition words (dim : Z) (s : list Z) : list (list Z) := filter (λ w, w ≠ []) (split_on dim s).
(** the rows after the words have been stored from row [k] on *)
Fixpoint store_words (k : nat) (ws : list (list Z)) (vec : list (list Z)) : list (list Z) :=
  match ws with
  | [] => vec
  | w :: ws => store_words (S k) ws (<[k := splice (default [] (vec !! k)) 0 (w ++ [0])]> vec)
  end.
(** how many of the words fit in [n] rows of 32 bytes, in order *)
Fixpoint fitting (n : nat) (ws : list (list Z)) : list (list Z) :=
  match n, ws with
  | S n, w :: ws => if (length w <? 32)%nat then w :: fitting n ws else []
  | _, _ => []
  end.
(** the words of [s] that a delimiter follows *)
Definition complete (dim : Z) (s : list Z) : list (list Z) := filter (λ w, w ≠ []) (removelast (split_on dim s)).
(** the words of a text without terminator are cut before its end is noticed: a word too
    long or a seventeenth word begins before the text is used up *)
Definition gives_up (n : nat) (dim : Z) (s : list Z) : Prop :=
  fitting n (complete dim s) ≠ complete dim s ∨ (length (complete dim s) = n ∧ complete dim s ≠ words dim s).
#[export] Instance gives_up_dec n dim s : Decision (gives_up n dim s).
Proof. unfold gives_up. apply _. Defined.
(** the 16-bit words of a byte string, little-endian, the last one padded *)
Fixpoint sum16 (l : list Z) : Z :=
  match l with
  | b0 :: b1 :: l => b0 + 256 * b1 + sum16 l
  | [b] => b
  | [] => 0
  end.
(** the ones'-complement fold of the code *)
Definition fold16 (s : Z) : Z :=
  let s := u32 (Z.land s 0xffff + Z.shiftr s 16) in u32 (s + Z.shiftr s 16).

(** * Lemmas *)
Lemma skip_dim_words dim s r : no_nul s → ∃ s', no_nul s' ∧ skip_dim dim (s ++ 0 :: r) = Ok (s' ++ 0 :: r) ∧
  words dim s' = words dim s ∧ (length s' ≤ length s)%nat ∧ match s' with [] => True | c :: _ => c ≠ dim end.
Proof.
  induction 1 as [|c s Hc Hs IH].
  { exists []. split; [by constructor|]. by repeat split. }
  cbn [app skip_dim]. destruct (Z.eqb_spec c dim) as [->|Hne].
  - rewrite (proj2 (nonzero_true _)) by done. destruct IH as (s' & H1 & H2 & H3 & H4 & H5).
    exists s'. split; [done|]. split; [done|]. cbn [andb length]. split; [|split; [lia|done]].
    rewrite H3. unfold words. cbn [split_on]. by rewrite Z.eqb_refl.
  - rewrite andb_false_r. exists (c :: s). split; [by constructor|]. split; [done|].
    split; [done|]. split; [done|]. done.
Qed.
Lemma scan_word_split dim s r : no_nul s → ∃ w s' ps, no_nul s' ∧
  scan_word dim (s ++ 0 :: r) = Ok (w, s' ++ 0 :: r) ∧ s = w ++ s' ∧ split_on dim s = w :: ps ∧
  words dim s' = filter (λ w, w ≠ []) ps.
Proof.
  induction 1 as [|c s Hc Hs IH].
  { exists [], [], []. split; [by constructor|]; by repeat split. }
  cbn [app scan_word split_on]. destruct (Z.eqb_spec c dim) as [->|Hne].
  - exists [], (dim :: s), (split_on dim s). rewrite andb_false_r. split; [by constructor|].
    unfold words. cbn [split_on]. rewrite Z.eqb_refl. by repeat split.
  - destruct IH as (w & s' & ps & Hn & E & -> & Ep & Hw). rewrite E, Ep, (proj2 (nonzero_true _)) by done.
    exists (c :: w), s', ps. by repeat split.
Qed.
Lemma split_loop_words dim r fuel s k vec :
  no_nul s → (length s < fuel)%nat → (k ≤ 16)%nat → length vec = 16%nat →
  let ws := words dim s in let fs := fitting (16 - k) ws in
  split_loop fuel dim (s ++ 0 :: r) (Z.of_nat k) vec =
  Ok (if decide (fs = ws) then Z.of_nat (k + length ws) else -1, store_words k fs vec).
Proof.
  revert s k vec. induction fuel as [|fuel IH]; intros s k vec Hs Hf Hk Hv; [lia|]. cbv zeta.
  cbn [split_loop]. destruct (skip_dim_words dim s r Hs) as (s1 & Hs1 & -> & <- & Hlen & Hhd).
  destruct s1 as [|c s1].
  { cbn. rewrite decide_True by (by destruct (16 - k)%nat). rewrite Nat.add_0_r. by destruct (16 - k)%nat. }
  cbn [app head default from_option]. inversion Hs1 as [|? ? Hc _]; subst.
  unfold id. rewrite (proj2 (nonzero_true c)) by done. cbn [negb].
  destruct (scan_word_split dim (c :: s1) r Hs1) as (w & s' & ps & Hn & E & Ecs & Ep & Hw).
  cbn [app] in E. assert (w ≠ []) as Hw0.
  { intros ->. cbn [split_on] in Ep. rewrite (proj2 (Z.eqb_neq c dim)) in Ep by done.
    by destruct (split_on dim s1). }
  assert (words dim (c :: s1) = w :: words dim s') as ->.
  { unfold words at 1. rewrite Ep, filter_cons_True by done. by rewrite Hw. }
  destruct (decide (k = 16%nat)) as [->|Hk16].
  { by rewrite Z.eqb_refl. }
  rewrite (proj2 (Z.eqb_neq (Z.of_nat k) max_level)) by (unfold max_level; lia).
  rewrite E. replace (16 - k)%nat with (S (16 - S k)) by lia. cbn [fitting].
  destruct (Nat.ltb_spec (length w) 32).
  - replace (32 <? Z.of_nat (length w) + 1) with false by lia. rewrite Nat2Z.id.
    destruct (lookup_lt_is_Some_2 vec k) as [row Erow]; [lia|]. rewrite Erow.
    replace (Z.of_nat k + 1) with (Z.of_nat (S k)) by lia.
    assert (length (c :: s1) = length w + length s')%nat by (rewrite Ecs; apply length_app).
    assert (0 < length w)%nat by (destruct w; [done|cbn; lia]).
    rewrite IH; [|done|cbn in *; lia|lia|by rewrite length_insert].
    cbv zeta. cbn [store_words length]. rewrite Erow. cbn [default from_option id].
    rewrite (splice_app row 0 w [0] ltac:(lia) : splice _ (length w) _ = _). f_equal. f_equal.
    destruct (decide (_ = _)) as [->|Hne]; [rewrite decide_True by done; lia|].
    rewrite decide_False; [done|]. intros [= ?]. done.
  - by replace (32 <? Z.of_nat (length w) + 1) with true by lia.
Qed.
Lemma length_store_words k ws vec : length (store_words k ws vec) = length vec.
Proof. revert k vec. induction ws; intros k vec; cbn; [done|]. by rewrite IHws, length_insert. Qed.
Lemma store_words_ne ws : ∀ k vec i, (i < k ∨ k + length ws ≤ i)%nat → store_words k ws vec !! i = vec !! i.
Proof.
  induction ws as [|w ws IH]; intros k vec i Hi; [done|]. cbn in *. rewrite IH by lia.
  apply list_lookup_insert_ne. lia.
Qed.
Lemma store_words_eq ws : ∀ k vec i w, ws !! i = Some w → (k + length ws ≤ length vec)%nat →
  ∃ row, vec !! (k + i)%nat = Some row ∧ store_words k ws vec !! (k + i)%nat = Some (splice row 0 (w ++ [0])).
Proof.
  induction ws as [|w0 ws IH]; intros k vec i w Hi Hl; [done|]. cbn in *. destruct i as [|i].
  - injection Hi as ->. rewrite Nat.add_0_r. destruct (lookup_lt_is_Some_2 vec k) as [row E]; [lia|].
    exists row. split; [done|]. rewrite store_words_ne by lia. rewrite E. apply list_lookup_insert_eq. lia.
  - destruct (IH (S k) (<[k:=splice (default [] (vec !! k)) 0 (w0 ++ [0])]> vec) i w Hi) as (row & E1 & E2).
    { rewrite length_insert. lia. }
    rewrite list_lookup_insert_ne in E1 by lia. exists row. by rewrite <-Nat.add_succ_comm.
Qed.
Lemma fitting_short n ws i w : fitting n ws !! i = Some w → (length w < 32)%nat.
Proof.
  revert ws i. induction n as [|n IH]; intros [|w0 ws] i; cbn [fitting]; rewrite ?lookup_nil; try done.
  intros H. destruct (Nat.ltb_spec (length w0) 32); [destruct i; cbn in H; [by injection H as ->|by eapply IH]|by rewrite lookup_nil in H].
Qed.
Lemma length_fitting n ws : (length (fitting n ws) ≤ n)%nat.
Proof. revert ws. induction n; intros [|w ws]; cbn; try lia. case_match; cbn; [specialize (IHn ws)|]; lia. Qed.

(** the checksum loop adds the 16-bit words *)
Lemma sum16_range l : Forall (λ b, 0 ≤ b < 256) l → 0 ≤ sum16 l ≤ 65535 * ((Z.of_nat (length l) + 1) / 2).
Proof.
  remember (length l) as n eqn:Hn. revert l Hn. induction n as [n IH] using lt_wf_ind. intros [|b0 [|b1 l]] -> H.
  - cbn. dlia.
  - inversion H; subst. cbn. dlia.
  - apply Forall_cons in H as [H0 H']; apply Forall_cons in H' as [H1 H2]. cbn [sum16].
    specialize (IH (length l) ltac:(cbn; lia) l eq_refl H2). cbn [length]. dlia.
Qed.
Lemma cksum_loop_sum l sum :
  Forall (λ b, 0 ≤ b < 256) l → 0 ≤ sum → sum + sum16 l < 2 ^ 32 →
  ∃ w sum', cksum_loop l (Z.of_nat (length l)) sum = Ok (w, Z.of_nat (length w), sum') ∧
    (length w ≤ 1)%nat ∧ sum' + sum16 w = sum + sum16 l ∧ Forall (λ b, 0 ≤ b < 256) w ∧ 0 ≤ sum'.
Proof.
  remember (length l) as n eqn:Hn. revert l sum Hn. induction n as [n IH] using lt_wf_ind.
  intros [|b0 [|b1 l]] sum -> H Hs Hb.
  - exists [], sum. cbn. by repeat split; try lia.
  - exists [b0], sum. cbn. by repeat split; try lia.
  - apply Forall_cons in H as [H0 H']; apply Forall_cons in H' as [H1 H2]. cbn [sum16] in Hb.
    pose proof (sum16_range l H2). cbn [cksum_loop length].
    replace (1 <? Z.of_nat (S (S (length l)))) with true by lia.
    replace (Z.of_nat (S (S (length l))) - 2) with (Z.of_nat (length l)) by lia.
    rewrite wrap_small by lia.
    destruct (IH (length l) ltac:(cbn; lia) l (sum + (b0 + 256 * b1)) eq_refl H2) as (w & sum' & E & Hw); [lia|lia|].
    exists w, sum'. cbn [sum16]. rewrite E. split; [done|]. intuition lia.
Qed.
Lemma in_cksum_fold l :
  Forall (λ b, 0 ≤ b < 256) l → sum16 l < 2 ^ 32 →
  in_cksum l (Z.of_nat (length l)) = Ok (u16 (Z.lnot (fold16 (sum16 l)))).
Proof.
  intros H Hb. unfold in_cksum. pose proof (sum16_range l H).
  destruct (cksum_loop_sum l 0 H) as (w & sum & -> & Hw & Es & Hwb & Hs); [lia|lia|].
  destruct w as [|b [|]]; cbn in Hw, Es |- *; [| |lia].
  - unfold fold16. by replace (sum16 l) with sum by lia.
  - rewrite wrap_small by lia. unfold fold16. by replace (sum16 l) with (sum + b) by lia.
Qed.
Lemma fold16_spec s : 0 ≤ s < 2 ^ 32 → ∃ f, 0 ≤ f < 65536 ∧ u16 (Z.lnot (fold16 s)) = 65535 - f ∧
  f mod 65535 = s mod 65535 ∧ (f = 0 ↔ s = 0).
Proof.
  intros Hs. unfold fold16.
  rewrite (Z.land_ones s 16 ltac:(lia) : Z.land s 0xffff = _), Z.shiftr_div_pow2 by lia.
  change (2 ^ 16) with 65536. set (t := s mod 65536 + s / 65536).
  assert (t mod 65535 = s mod 65535) as Hm.
  { subst t. replace (s mod 65536 + s / 65536) with (s + - (s / 65536) * 65535) by dlia. apply Z_mod_plus_full. }
  assert (0 ≤ t < 131071 ∧ (t = 0 ↔ s = 0)) as (Ht & H0) by (subst t; dlia).
  clearbody t. rewrite (wrap_small 32 t) by lia. rewrite Z.shiftr_div_pow2 by lia. change (2 ^ 16) with 65536.
  destruct (decide (t < 65536)).
  - rewrite (Z.div_small t), Z.add_0_r, (wrap_small 32 t) by lia. exists t.
    replace (Z.lnot t) with (65535 - t + -1 * 65536) by (unfold Z.lnot; lia).
    unfold wrap. change (2 ^ 16) with 65536. rewrite Z_mod_plus_full, Z.mod_small by lia. by repeat split; try lia.
  - replace (t / 65536) with 1 by dlia. rewrite (wrap_small 32 (t + 1)) by lia. exists (t - 65535).
    replace (Z.lnot (t + 1)) with (65535 - (t - 65535) + -2 * 65536) by (unfold Z.lnot; lia).
    unfold wrap. change (2 ^ 16) with 65536. rewrite Z_mod_plus_full, Z.mod_small by lia.
    split; [lia|]. split; [done|]. split; [|lia]. rewrite <-Hm.
    replace (t - 65535) with (t + -1 * 65535) by lia. apply Z_mod_plus_full.
Qed.
Lemma no_nul_words dim s : no_nul s → Forall no_nul (words dim s).
Proof.
  intros Hs. assert (Forall no_nul (split_on dim s)) as H.
  { induction Hs as [|c s Hc Hs IH]; cbn [split_on]; [by repeat constructor|]. destruct (c =? dim); [by constructor; [constructor|]|].
    destruct (split_on dim s) as [|w ws]; [by repeat constructor|]. apply Forall_cons in IH as [H1 H2]. constructor; [by constructor|done]. }
  unfold words. apply Forall_forall. intros w Hw. apply list_elem_of_filter in Hw as [_ Hw]. by eapply Forall_forall in H.
Qed.
Lemma sum16_app l1 l2 : Nat.Even (length l1) → sum16 (l1 ++ l2) = sum16 l1 + sum16 l2.
Proof.
  intros [k Hk]. revert l1 Hk. induction k as [|k IH]; intros [|b0 [|b1 l1]] Hk; cbn in Hk; try lia.
  - done.
  - cbn [app sum16]. rewrite IH by lia. lia.
Qed.

Lemma SplitString_rows s r vec dim :
  no_nul s → length vec = 16%nat → Forall (λ row, length row = 32%nat) vec →
  let ws := words dim s in
  let fs := fitting 16 ws in
  ∃ vec', SplitString (s ++ 0 :: r) vec dim = Ok (if decide (fs = ws) then Z.of_nat (length ws) else -1, vec') ∧
    length vec' = 16%nat ∧
    (∀ i w, fs !! i = Some w → ∃ row, vec' !! i = Some row ∧ take (S (length w)) row = w ++ [0] ∧ length row = 32%nat) ∧
    (∀ i, (length fs ≤ i)%nat → vec' !! i = vec !! i).
Proof.
  intros Hs Hv Hrow ws fs. exists (store_words 0 fs vec). split.
  { unfold SplitString. apply (split_loop_words dim r (S (length (s ++ 0 :: r))) s 0 vec Hs); [|lia|done].
    rewrite length_app. cbn. lia. }
  pose proof (length_fitting 16 ws : length fs ≤ 16)%nat as Hfs.
  split; [by rewrite length_store_words|]. split; [|intros i Hi; apply store_words_ne; lia].
  intros i w Hi. destruct (store_words_eq fs 0 vec i w Hi) as (row & E1 & E2); [lia|].
  exists (splice row 0 (w ++ [0])). split; [done|].
  assert (length row = 32%nat) by (by eapply Forall_lookup_1 in Hrow; [|exact E1]).
  pose proof (fitting_short _ _ _ _ Hi). split.
  - rewrite <-(splice_same row 0 (w ++ [0])) at 2 by (rewrite length_app; cbn; lia).
    rewrite drop_0, length_app. f_equal. cbn. lia.
  - rewrite length_splice; [done|]. rewrite length_app. cbn. lia.
Qed.

(** * Properties *)
(** ** A text that fills its object *)
Lemma split_on_cons dim s : ∃ p ps, split_on dim s = p :: ps.
Proof. destruct s as [|c s]; cbn; [by eexists _, _|]. case_match; [by eexists _, _|]. case_match; by eexists _, _. Qed.
Lemma split_on_app dim w t : dim ∉ w → split_on dim (w ++ dim :: t) = w :: split_on dim t.
Proof.
  induction w as [|c w IH]; intros Hw; cbn [app split_on]; [by rewrite Z.eqb_refl|].
  apply not_elem_of_cons in Hw as [Hc Hw]. rewrite (proj2 (Z.eqb_neq c dim)) by done. by rewrite IH.
Qed.
Lemma split_on_none dim w : dim ∉ w → split_on dim w = [w].
Proof.
  induction w as [|c w IH]; intros Hw; cbn [split_on]; [done|].
  apply not_elem_of_cons in Hw as [Hc Hw]. rewrite (proj2 (Z.eqb_neq c dim)) by done. by rewrite IH.
Qed.
Lemma complete_delimiter dim s : complete dim (dim :: s) = complete dim s ∧ words dim (dim :: s) = words dim s.
Proof.
  unfold complete, words. cbn [split_on]. rewrite Z.eqb_refl. destruct (split_on_cons dim s) as (p & ps & ->). by split.
Qed.
Lemma complete_word dim w t : dim ∉ w → w ≠ [] →
  complete dim (w ++ dim :: t) = w :: complete dim t ∧ words dim (w ++ dim :: t) = w :: words dim t.
Proof.
  intros Hw Hne. unfold complete, words. rewrite split_on_app by done. destruct (split_on_cons dim t) as (p & ps & E).
  assert (removelast (w :: split_on dim t) = w :: removelast (split_on dim t)) as -> by by rewrite E.
  by rewrite !filter_cons_True by done.
Qed.
Lemma skip_dim_open dim s : no_nul s →
  (skip_dim dim s = Stop (Faulted "read past the string") ∧ words dim s = [] ∧ complete dim s = []) ∨
  ∃ c s', skip_dim dim s = Ok (c :: s') ∧ c ≠ dim ∧ no_nul (c :: s') ∧ words dim (c :: s') = words dim s ∧
    complete dim (c :: s') = complete dim s ∧ (length (c :: s') ≤ length s)%nat.
Proof.
  induction 1 as [|c s Hc Hs IH]; [by left|]. cbn [skip_dim]. destruct (Z.eqb_spec c dim) as [->|Hne].
  - rewrite (proj2 (nonzero_true _)) by done. cbn [andb]. destruct (complete_delimiter dim s) as [-> ->].
    destruct IH as [|(c & s' & H)]; [by left|]. right. exists c, s'. cbn [length] in *. intuition lia.
  - rewrite andb_false_r. right. exists c, s. split_and!; try done. by constructor.
Qed.
Lemma scan_word_open dim w t : no_nul w → dim ∉ w → scan_word dim (w ++ dim :: t) = Ok (w, dim :: t).
Proof.
  induction 1 as [|c w Hc Hw IH]; intros Hd; cbn [app scan_word]; [by rewrite Z.eqb_refl, andb_false_r|].
  apply not_elem_of_cons in Hd as [Hne Hd]. rewrite (proj2 (nonzero_true _)), (proj2 (Z.eqb_neq c dim)) by done. cbn. by rewrite IH.
Qed.
Lemma scan_word_end dim w : no_nul w → dim ∉ w → scan_word dim w = Stop (Faulted "read past the string").
Proof.
  induction 1 as [|c w Hc Hw IH]; intros Hd; cbn [scan_word]; [done|].
  apply not_elem_of_cons in Hd as [Hne Hd]. rewrite (proj2 (nonzero_true _)), (proj2 (Z.eqb_neq c dim)) by done. cbn. by rewrite IH.
Qed.
Lemma split_loop_open dim fuel : ∀ s k vec, no_nul s → (length s < fuel)%nat → (k ≤ 16)%nat → length vec = 16%nat →
  if decide (gives_up (16 - k) dim s) then ∃ vec', split_loop fuel dim s (Z.of_nat k) vec = Ok (-1, vec')
  else split_loop fuel dim s (Z.of_nat k) vec = Stop (Faulted "read past the string").
Proof.
  induction fuel as [|fuel IH]; intros s k vec Hs Hf Hk Hv; [lia|]. cbn [split_loop].
  destruct (skip_dim_open dim s Hs) as [(-> & Ew & Ec)|(c & s1 & -> & Hc & Hs1 & Ew & Ec & Hlen)].
  { rewrite decide_False; [done|]. unfold gives_up. rewrite Ew, Ec. destruct (16 - k)%nat; cbn; tauto. }
  inversion Hs1 as [|? ? Hc0 _]; subst. cbn [head default from_option id]. rewrite (proj2 (nonzero_true c)) by done. cbn [negb].
  destruct (decide (dim ∈ c :: s1)) as [Hin|Hout].
  - apply list_elem_of_split_l in Hin as (w & t & E & Hw). assert (w ≠ []) as Hne by (intros ->; injection E as -> _; done).
    rewrite E in *. clear E. destruct (complete_word dim w t Hw Hne) as [Ecw Eww]. rewrite Ecw in Ec. rewrite Eww in Ew.
    apply Forall_app in Hs1 as [Hnw Ht]. destruct (decide (k = 16%nat)) as [->|Hk16].
    { change (Z.of_nat 16 =? max_level) with true. cbv iota. rewrite decide_True; [by eexists|]. left. by rewrite <-Ec. }
    rewrite (proj2 (Z.eqb_neq (Z.of_nat k) max_level)) by (unfold max_level; lia). rewrite scan_word_open by done.
    replace (16 - k)%nat with (S (16 - S k)) by lia. destruct (Nat.ltb_spec (length w) 32) as [Hlt|Hge].
    + replace (32 <? Z.of_nat (length w) + 1) with false by lia. rewrite Nat2Z.id.
      destruct (lookup_lt_is_Some_2 vec k) as [row Erow]; [lia|]. rewrite Erow. replace (Z.of_nat k + 1) with (Z.of_nat (S k)) by lia.
      assert (0 < length w)%nat by (destruct w; [done|cbn; lia]). rewrite length_app in Hlen. cbn [length] in Hlen.
      specialize (IH (dim :: t) (S k) (<[k:=splice (splice row 0 w) (length w) [0]]> vec) Ht ltac:(cbn; lia) ltac:(lia) ltac:(by rewrite length_insert)).
      destruct (complete_delimiter dim t) as [Et1 Et2].
      assert (gives_up (16 - S k) dim (dim :: t) ↔ gives_up (S (16 - S k)) dim s) as Hiff.
      { unfold gives_up. rewrite Et1, Et2, <-Ec, <-Ew. cbn [fitting length]. rewrite (proj2 (Nat.ltb_lt _ _) Hlt).
        split; (intros [Hg|[Hg1 Hg2]]; [left; congruence|right; split; [lia|congruence]]). }
      destruct (decide (gives_up (16 - S k) dim (dim :: t))); [rewrite decide_True by by apply Hiff|rewrite decide_False by by rewrite <-Hiff]; exact IH.
    + replace (32 <? Z.of_nat (length w) + 1) with true by lia. rewrite decide_True; [by eexists|]. left.
      rewrite <-Ec. cbn [fitting]. by rewrite (proj2 (Nat.ltb_ge _ _) Hge).
  - assert (complete dim (c :: s1) = [] ∧ words dim (c :: s1) = [c :: s1]) as [Ec1 Ew1] by (unfold complete, words; by rewrite split_on_none).
    rewrite Ec1 in Ec. rewrite Ew1 in Ew. destruct (decide (k = 16%nat)) as [->|Hk16].
    { change (Z.of_nat 16 =? max_level) with true. cbv iota. rewrite decide_True; [by eexists|]. right. by rewrite <-Ec, <-Ew. }
    rewrite (proj2 (Z.eqb_neq (Z.of_nat k) max_level)) by (unfold max_level; lia). rewrite scan_word_end by done.
    rewrite decide_False; [done|]. unfold gives_up. rewrite <-Ec, <-Ew. replace (16 - k)%nat with (S (16 - S k)) by lia. cbn. intros [?|[? _]]; done.
Qed.
Lemma SplitString_open s vec dim : no_nul s → length vec = 16%nat →
  if decide (gives_up 16 dim s) then ∃ vec', SplitString s vec dim = Ok (-1, vec')
  else SplitString s vec dim = Stop (Faulted "read past the string").
Proof. intros Hs Hv. apply (split_loop_open dim (S (length s)) s 0 vec Hs); [lia|lia|done]. Qed.

(** C37: [SplitString] cuts the text at the delimiter, drops empty pieces and
    stores each word as a terminated string in its own row; it returns the number of
    words, or -1 when there are more than 16 or one does not fit in 32 bytes (the
    words before that one are stored); the other rows keep their contents *)
Theorem SplitString_words s r vec dim :
  no_nul s → length vec = 16%nat → Forall (λ row, length row = 32%nat) vec →
  let ws := words dim s in
  let fs := fitting 16 ws in
  ∃ vec', SplitString (s ++ 0 :: r) vec dim = Ok (if decide (fs = ws) then Z.of_nat (length ws) else -1, vec') ∧
    length vec' = 16%nat ∧
    (∀ i w, fs !! i = Some w → ∃ row, vec' !! i = Some row ∧ take (S (length w)) row = w ++ [0] ∧ length row = 32%nat) ∧
    (∀ i, (length fs ≤ i)%nat → vec' !! i = vec !! i).
Proof. apply SplitString_rows. Qed.
(** ["ls  -a"] split at spaces *)
Lemma SplitString_words_witness :
  let vec := replicate 16 (replicate 32 0) in
  ∃ vec', SplitString ([108; 115; 32; 32; 45; 97] ++ 0 :: [7]) vec 32 = Ok (2, vec') ∧ length vec' = 16%nat ∧
    (∀ i w, [[108; 115]; [45; 97]] !! i = Some w →
       ∃ row, vec' !! i = Some row ∧ take (S (length w)) row = w ++ [0] ∧ length row = 32%nat) ∧
    (∀ i, (2 ≤ i)%nat → vec' !! i = vec !! i).
Proof.
  apply (SplitString_words [108; 115; 32; 32; 45; 97] [7] (replicate 16 (replicate 32 0)) 32).
  - repeat constructor; discriminate.
  - reflexivity.
  - by apply Forall_replicate.
Defined.

(** A packet whose checksum field, at an even offset, holds [in_cksum] of the
    packet with that field zero is accepted: [in_cksum] of the whole is 0, for
    packets of up to 128 KiB *)
Theorem in_cksum_verifies l1 l2 :
  let data c := l1 ++ le_bytes 2 c ++ l2 in
  Forall (λ b, 0 ≤ b < 256) (l1 ++ l2) → Nat.Even (length l1) → Z.of_nat (length (l1 ++ l2)) + 2 ≤ 131072 →
  ∃ c, in_cksum (data 0) (Z.of_nat (length (data 0))) = Ok c ∧ 0 ≤ c < 2 ^ 16 ∧
    in_cksum (data c) (Z.of_nat (length (data c))) = Ok 0.
Proof.
  intros data Hb He Hlen. apply Forall_app in Hb as [Hb1 Hb2].
  assert (∀ c, Forall (λ b, 0 ≤ b < 256) (data c)) as Hb.
  { intros c. apply Forall_app. split; [done|]. apply Forall_app. split; [apply le_bytes_range|done]. }
  assert (∀ c, 0 ≤ c < 2 ^ 16 → sum16 (data c) = c + (sum16 l1 + sum16 l2)) as Hsum.
  { intros c Hc. unfold data. rewrite sum16_app by done. cbn [le_bytes app sum16]. dlia. }
  assert (∀ c, sum16 (data c) < 2 ^ 32 ∧ 0 ≤ sum16 (data c)) as Hmax.
  { intros c. pose proof (sum16_range _ (Hb c)) as Hr. unfold data in Hr at 3.
    rewrite !length_app in *. rewrite length_le_bytes in Hr. dlia. }
  destruct (Hmax 0) as [Hmx0 Hmn0]. destruct (fold16_spec (sum16 (data 0))) as (f & Hf & Ef & Hm & Hz); [lia|].
  exists (65535 - f). rewrite !in_cksum_fold by (by apply Hmax || apply Hb). split; [by rewrite Ef|]. split; [lia|].
  destruct (Hmax (65535 - f)).
  destruct (fold16_spec (sum16 (data (65535 - f)))) as (g & Hg & -> & Hm' & Hz'); [lia|].
  rewrite Hsum in Hm', Hz' by lia. rewrite Hsum in Hm, Hz by lia. f_equal.
  set (T := sum16 l1 + sum16 l2) in *.
  assert (g mod 65535 = 0) as Hg0.
  { rewrite Hm', <-Zplus_mod_idemp_r. replace (T mod 65535) with ((0 + T) mod 65535) by done.
    rewrite <-Hm, Zplus_mod_idemp_r. by replace (65535 - f + f) with (1 * 65535) by lia. }
  assert (g ≠ 0); [|dlia]. intros Hg'. apply Hz' in Hg'. rewrite Hsum in Hmn0 by lia. fold T in Hmn0. lia.
Qed.
Lemma in_cksum_verifies_witness :
  ∃ c, in_cksum [69; 0; 0; 0; 3] 5 = Ok c ∧ 0 ≤ c < 2 ^ 16 ∧ in_cksum (69 :: 0 :: le_bytes 2 c ++ [3]) 5 = Ok 0.
Proof.
  apply (in_cksum_verifies [69; 0] [3]).
  - repeat constructor; lia.
  - by exists 1%nat.
  - cbn. lia.
Defined.
