(* ===== verification/MemoryList.v ===== *)
(** [kernel/virtual_memory.h], first half: [MemoryChunk] and [MemoryList], the
    doubly linked list of free pages whose nodes live in the free pages
    themselves.  The state of the [VirtualMemory] singleton is declared here; the
    representation predicate [list_rep] relates the nodes in memory to the
    sequence of free pages. *)
From S2P Require Import Prelude Riscv Lock Mem.

Record MemoryList := MkMemoryList { head_ : Z; tail_ : Z; size_ : Z }.

(** [vm_self] is the address of the [memory_list_] member, what [this] is in a
    [MemoryList] method; [vm_mstatus] is the hart's [mstatus]. *)
Record vmstate := VmState {
  vm_mem : mem;
  memory_list_ : MemoryList;
  bit_map_ : list Z;
  has_init_ : bool;
  vm_mstatus : Z;
  vm_self : Z;
}.
Definition set_mem (m : mem) (s : vmstate) : vmstate :=
  VmState m (memory_list_ s) (bit_map_ s) (has_init_ s) (vm_mstatus s) (vm_self s).
Definition set_list (l : MemoryList) (s : vmstate) : vmstate :=
  VmState (vm_mem s) l (bit_map_ s) (has_init_ s) (vm_mstatus s) (vm_self s).
Definition set_bit_map (b : list Z) (s : vmstate) : vmstate :=
  VmState (vm_mem s) (memory_list_ s) b (has_init_ s) (vm_mstatus s) (vm_self s).
Definition set_has_init (b : bool) (s : vmstate) : vmstate :=
  VmState (vm_mem s) (memory_list_ s) (bit_map_ s) b (vm_mstatus s) (vm_self s).
Definition set_vm_mstatus (v : Z) (s : vmstate) : vmstate :=
  VmState (vm_mem s) (memory_list_ s) (bit_map_ s) (has_init_ s) v (vm_self s).
#[export, refine] Instance vm_HasMstatus : HasMstatus vmstate :=
  {| get_mstatus := vm_mstatus; put_mstatus := set_vm_mstatus |}.
Proof. all: by intros; repeat match goal with s : vmstate |- _ => destruct s end. Defined.

(** Pointers the kernel may dereference: those into RAM. *)
Definition ram_ok (a n : Z) : bool := (KERNEL_BASE <=? a) && (a + n <=? MEMORY_END).
Definition ld64 (a : Z) : M vmstate Z := λ s,
  if ram_ok a 8 then Ok (load64 (vm_mem s) a, s) else Stop (Faulted "load").
Definition st64 (a v : Z) : M vmstate () := λ s,
  if ram_ok a 8 then Ok ((), set_mem (store64 (vm_mem s) a v) s) else Stop (Faulted "store").
Definition vm_memset (a v n : Z) : M vmstate () := λ s,
  if ram_ok a n then Ok ((), set_mem (memset (vm_mem s) a v n) s) else Stop (Faulted "memset").

(** * MemoryChunk and MemoryList *)
Definition next (chunk : Z) : Z := chunk.
Definition previous (chunk : Z) : Z := chunk + 8.
Definition identify (chunk : Z) : Z := chunk + 16.

Definition get_head : M vmstate Z := gets (λ s, head_ (memory_list_ s)).
Definition get_tail : M vmstate Z := gets (λ s, tail_ (memory_list_ s)).
Definition put_head (h : Z) : M vmstate () :=
  modify (λ s, set_list (MkMemoryList h (tail_ (memory_list_ s)) (size_ (memory_list_ s))) s).
Definition put_tail (t : Z) : M vmstate () :=
  modify (λ s, set_list (MkMemoryList (head_ (memory_list_ s)) t (size_ (memory_list_ s))) s).
Definition add_size (d : Z) : M vmstate () :=
  modify (λ s, set_list (MkMemoryList (head_ (memory_list_ s)) (tail_ (memory_list_ s))
                                      (u64 (size_ (memory_list_ s) + d))) s).

Definition Push (chunk : Z) : M vmstate () :=
  h ← get_head;
  st64 (next chunk) h ;;
  st64 (previous chunk) 0 ;;
  this ← gets vm_self;
  st64 (identify chunk) this ;;
  h ← get_head;
  (if h =? 0 then put_tail chunk else st64 (previous h) chunk) ;;
  put_head chunk ;;
  add_size 1.

Definition Pop : M vmstate Z :=
  t ← get_head;
  if t =? 0 then mret 0 else
  n ← ld64 (next t);
  put_head n ;;
  add_size (-1) ;;
  (if n =? 0 then put_tail 0 else st64 (previous n) 0) ;;
  mret t.

(** the unlinking at the previous side, the last part of [Erase] *)
Definition Erase_prev (chunk : Z) : M vmstate bool :=
  p ← ld64 (previous chunk);
  if p =? 0 then
    h ← get_head;
    if negb (chunk =? h) then mret false else
    n ← ld64 (next chunk);
    put_head n ;; add_size (-1) ;; mret true
  else
    n ← ld64 (next chunk);
    st64 (next p) n ;; add_size (-1) ;; mret true.
Definition Erase (chunk : Z) : M vmstate bool :=
  this ← gets vm_self;
  id ← ld64 (identify chunk);
  n ← ld64 (next chunk);
  p ← ld64 (previous chunk);
  if negb (id =? this) || ((n =? 0) && (p =? 0)) then mret false else
  if n =? 0 then
    t ← get_tail;
    if negb (chunk =? t) then mret false else
    put_tail p ;; Erase_prev chunk
  else
    st64 (previous n) p ;; Erase_prev chunk.

Definition Size : M vmstate Z := gets (λ s, size_ (memory_list_ s)).

(** * Representation *)
Definition page_ok (p : Z) : Prop := p `mod` PGSIZE = 0 ∧ KERNEL_BASE ≤ p ∧ p + PGSIZE ≤ MEMORY_END.
Definition hdd (d : Z) (l : list Z) : Z := match l with [] => d | a :: _ => a end.
Definition lastd (d : Z) (l : list Z) : Z := match last l with Some a => a | None => d end.
(** the nodes of [l], in order, linked between [prev] and [nxt] *)
Fixpoint seg (m : mem) (self prev : Z) (l : list Z) (nxt : Z) : Prop :=
  match l with
  | [] => True
  | a :: r =>
    load64 m (next a) = hdd nxt r ∧ load64 m (previous a) = prev ∧
    load64 m (identify a) = self ∧ seg m self a r nxt
  end.
Record list_rep (s : vmstate) (l : list Z) : Prop := {
  rep_seg : seg (vm_mem s) (vm_self s) 0 l 0;
  rep_head : head_ (memory_list_ s) = hdd 0 l;
  rep_tail : tail_ (memory_list_ s) = lastd 0 l;
  rep_size : size_ (memory_list_ s) = Z.of_nat (length l);
  rep_pages : Forall page_ok l;
  rep_nodup : NoDup l;
  rep_self : 0 < vm_self s < 2 ^ 64;
  rep_len : Z.of_nat (length l) < 2 ^ 63;
}.

(** Everything but the nodes of the list is left alone: the other fields, and the
    memory outside [pages]. *)
Definition same_rest (s s' : vmstate) : Prop :=
  bit_map_ s' = bit_map_ s ∧ has_init_ s' = has_init_ s ∧ vm_mstatus s' = vm_mstatus s ∧ vm_self s' = vm_self s.
Definition mem_frame (pages : list Z) (s s' : vmstate) : Prop :=
  ∀ b, (∀ p, p ∈ pages → b < p ∨ p + PGSIZE ≤ b) → load8 (vm_mem s') b = load8 (vm_mem s) b.

(** * Lemmas *)
Lemma wp_ld64 a Q s : ram_ok a 8 = true → Q (load64 (vm_mem s) a) s → wp (ld64 a) Q s.
Proof. intros Ha HQ. unfold wp, ld64. by rewrite Ha. Qed.
Lemma wp_st64 a v Q s : ram_ok a 8 = true → Q () (set_mem (store64 (vm_mem s) a v) s) → wp (st64 a v) Q s.
Proof. intros Ha HQ. unfold wp, st64. by rewrite Ha. Qed.
Lemma wp_vm_memset a v n Q s :
  ram_ok a n = true → Q () (set_mem (memset (vm_mem s) a v n) s) → wp (vm_memset a v n) Q s.
Proof. intros Ha HQ. unfold wp, vm_memset. by rewrite Ha. Qed.

Lemma page_ok_range p : page_ok p → KERNEL_BASE ≤ p ∧ p + 4096 ≤ MEMORY_END.
Proof. unfold page_ok, PGSIZE. lia. Qed.
Lemma page_ok_nz p : page_ok p → p ≠ 0.
Proof. intros [_ [H _]] ->. unfold KERNEL_BASE in H. lia. Qed.
Lemma page_ok_64 p : page_ok p → 0 < p < 2 ^ 32.
Proof. unfold page_ok, PGSIZE, MEMORY_END, KERNEL_BASE. lia. Qed.
Lemma pages_apart p q : page_ok p → page_ok q → p ≠ q → p + 4096 ≤ q ∨ q + 4096 ≤ p.
Proof.
  unfold page_ok, PGSIZE. intros (Hp & _) (Hq & _) Hne.
  apply Z.mod_divide in Hp as [a ->]; [|lia]. apply Z.mod_divide in Hq as [b ->]; [|lia]. lia.
Qed.
Lemma ram_ok_page p o n : page_ok p → 0 ≤ o → o + n ≤ 4096 → ram_ok (p + o) n = true.
Proof. intros Hp ? ?. apply page_ok_range in Hp. unfold ram_ok. lia. Qed.
Lemma ram_ok_page0 p n : page_ok p → n ≤ 4096 → ram_ok p n = true.
Proof. intros Hp ?. apply page_ok_range in Hp. unfold ram_ok. lia. Qed.

Lemma hdd_app d l1 l2 : hdd d (l1 ++ l2) = hdd (hdd d l2) l1.
Proof. by destruct l1. Qed.
Lemma lastd_cons d a l : lastd d (a :: l) = lastd a l.
Proof. unfold lastd. rewrite last_cons. by destruct (last l). Qed.
Lemma lastd_app d l1 l2 : lastd d (l1 ++ l2) = lastd (lastd d l1) l2.
Proof.
  unfold lastd. rewrite last_app. by destruct (last l2).
Qed.
Lemma seg_app m self prev l1 l2 nxt :
  seg m self prev (l1 ++ l2) nxt ↔
  seg m self prev l1 (hdd nxt l2) ∧ seg m self (lastd prev l1) l2 nxt.
Proof.
  revert prev. induction l1 as [|a l1 IH]; intros prev; cbn [app seg].
  { unfold lastd. simpl. naive_solver. }
  rewrite IH, lastd_cons, hdd_app. naive_solver.
Qed.
(** only the 24 bytes of each node matter *)
Lemma seg_agree m m' self prev l nxt :
  (∀ a, a ∈ l → ∀ b, a ≤ b < a + 24 → load8 m b = load8 m' b) →
  seg m self prev l nxt → seg m' self prev l nxt.
Proof.
  revert prev. induction l as [|a l IH]; intros prev Hag; cbn [seg]; [done|].
  assert (∀ o, 0 ≤ o ≤ 16 → load64 m' (a + o) = load64 m (a + o)) as Ho.
  { intros o Hoo. symmetry. apply load_le_agree. intros b Hb. apply (Hag a); [left|lia]. }
  unfold next, previous, identify.
  rewrite <-(Ho 8), <-(Ho 16), <-(Z.add_0_r a) at 1 by lia. rewrite <-(Ho 0) by lia. rewrite Z.add_0_r.
  intros (-> & -> & -> & Hs). split_and!; [done..|]. apply IH; [|done].
  intros c Hc. apply Hag. by right.
Qed.
Lemma seg_store64 m self prev l nxt a v :
  Forall page_ok l → (∀ p, p ∈ l → a + 8 ≤ p ∨ p + 24 ≤ a) →
  seg m self prev l nxt → seg (store64 m a v) self prev l nxt.
Proof.
  intros Hl Ha. apply seg_agree. intros p Hp b Hb.
  rewrite load8_store_le, decide_False; [done|]. specialize (Ha p Hp). lia.
Qed.
Lemma page_apart_in p l a : page_ok p → Forall page_ok l → p ∉ l → p ≤ a → a + 8 ≤ p + 4096 →
  ∀ q, q ∈ l → a + 8 ≤ q ∨ q + 24 ≤ a.
Proof.
  intros Hp Hl Hni Ha Hb q Hq. assert (page_ok q) by (rewrite Forall_forall in Hl; auto).
  destruct (pages_apart p q); [done..| |lia|lia]. by intros ->.
Qed.

Lemma mem_frame_store pages p a v s :
  p ∈ pages → p ≤ a → a + 8 ≤ p + 4096 → mem_frame pages s (set_mem (store64 (vm_mem s) a v) s).
Proof.
  intros Hp Ha Hb b Hf. simpl. rewrite load8_store_le, decide_False; [done|].
  specialize (Hf p Hp). unfold PGSIZE in Hf. lia.
Qed.
Lemma mem_frame_refl pages s : mem_frame pages s s.
Proof. done. Qed.
Lemma mem_frame_trans pages s1 s2 s3 :
  mem_frame pages s1 s2 → mem_frame pages s2 s3 → mem_frame pages s1 s3.
Proof. intros H1 H2 b Hb. by rewrite H2, H1. Qed.
Lemma mem_frame_mono ps qs s s' : (∀ p, p ∈ ps → p ∈ qs) → mem_frame ps s s' → mem_frame qs s s'.
Proof. intros Hs H b Hb. apply H. auto. Qed.

(** what an operation on the list is proved to do *)
Definition list_post (pages : list Z) (s : vmstate) (l : list Z) (s' : vmstate) : Prop :=
  list_rep s' l ∧ same_rest s s' ∧ mem_frame pages s s'.

Ltac vm_simpl :=
  cbn [vm_mem memory_list_ bit_map_ has_init_ vm_mstatus vm_self head_ tail_ size_
       set_mem set_list set_bit_map set_has_init set_vm_mstatus] in *.

Lemma Push_spec s l c :
  list_rep s l → page_ok c → c ∉ l → Z.of_nat (S (length l)) < 2 ^ 63 →
  wp (Push c) (λ _, list_post (c :: l) s (c :: l)) s.
Proof.
  intros [Hseg Hh Ht Hsz Hp Hnd Hself Hlen] Hc Hni Hl.
  assert (Hr : ∀ o, 0 ≤ o → o + 8 ≤ 4096 → ram_ok (c + o) 8 = true) by (intros; apply ram_ok_page; lia || done).
  assert (Hc0 : ram_ok c 8 = true) by (by apply ram_ok_page0).
  pose proof (page_ok_64 c Hc) as Hc64.
  assert (Hseg3 : ∀ m, seg m (vm_self s) 0 l 0 → seg (store64 (store64 (store64 m c (hdd 0 l)) (c + 8) 0)
    (c + 16) (vm_self s)) (vm_self s) 0 l 0).
  { intros m Hm. do 3 (apply seg_store64; [done|eapply page_apart_in; [exact Hc|done..|lia|lia]|]). done. }
  unfold Push, get_head, put_head, put_tail, add_size, next, previous, identify.
  wp_steps. apply wp_st64; [done|]. wp_steps. apply wp_st64; [apply Hr; lia|].
  wp_steps. apply wp_st64; [apply Hr; lia|]. wp_steps. vm_simpl. rewrite Hh.
  destruct l as [|a r]; [cbn [hdd] in *; rewrite Z.eqb_refl|].
  - wp_steps. vm_simpl. split_and!; [constructor; vm_simpl|done|].
    + split_and!; [| | |done]; unfold next, previous, identify.
      * rewrite !load64_store64_ne by lia. rewrite load64_store64. apply wrap_small. unfold hdd; simpl; lia.
      * rewrite load64_store64_ne by lia. rewrite load64_store64. done.
      * rewrite load64_store64. apply wrap_small. lia.
    + done.
    + done.
    + rewrite Hsz. simpl. done.
    + by apply Forall_singleton.
    + apply NoDup_singleton.
    + done.
    + done.
    + intros b Hb. vm_simpl. specialize (Hb c ltac:(left)). unfold PGSIZE in Hb.
      rewrite !load8_store_le, !decide_False by lia. done.
  - assert (Ha : page_ok a) by (by inversion Hp). pose proof (page_ok_64 a Ha) as Ha64.
    assert (Hca : c ≠ a) by (intros ->; apply Hni; left).
    destruct (pages_apart c a) as [Hap|Hap]; [done..| |].
    all: cbn [hdd] in *; replace (a =? 0) with false by lia.
    all: wp_steps; apply wp_st64; [by apply ram_ok_page|]; wp_steps; vm_simpl.
    all: specialize (Hseg3 _ Hseg); destruct Hseg3 as (Hn & Hpr & Hid & Hs).
    all: unfold next, previous, identify in *.
    all: split_and!; [constructor; vm_simpl|done|].
    all: try done.
    all: try (rewrite Hsz, wrap_small; cbn [length] in *; lia).
    all: try (by constructor).
    all: try (rewrite Ht; by rewrite !lastd_cons).
    all: try (intros b Hb; vm_simpl; pose proof (Hb c ltac:(left)) as Hb1;
      pose proof (Hb a ltac:(right; left)) as Hb2; unfold PGSIZE in *;
      rewrite !load8_store_le, !decide_False by lia; done).
    all: cbn [seg hdd]; unfold next, previous, identify.
    all: assert (Hr' : seg (store64 (store64 (store64 (store64 (vm_mem s) c a) (c + 8) 0) (c + 16) (vm_self s))
      (a + 8) c) (vm_self s) a r 0) by
      (apply seg_store64; [by inversion Hp| |exact Hs];
       apply (page_apart_in a); [done|by inversion Hp|by inversion Hnd|lia|lia]).
    all: split_and!; [..|exact Hr'].
    all: repeat first [rewrite load64_store64 | rewrite load64_store64_ne by lia].
    all: try (apply wrap_small; lia); try done.
    all: rewrite ?load64_store64_ne in Hn, Hid by lia; done.
Qed.

Lemma seg_set_prev m self p b l nxt v :
  Forall page_ok (b :: l) → NoDup (b :: l) → 0 ≤ v < 2 ^ 64 →
  seg m self p (b :: l) nxt → seg (store64 m (previous b) v) self v (b :: l) nxt.
Proof.
  unfold previous. intros [Hb Hl]%Forall_cons [Hni Hnd]%NoDup_cons Hv (Hn & Hp & Hid & Hs).
  cbn [seg]. unfold next, previous, identify in *.
  rewrite load64_store64, !load64_store64_ne by lia. split_and!; [done|by apply wrap_small|done|].
  apply seg_store64; [done| |done]. apply (page_apart_in b); [done..|lia|lia].
Qed.
Lemma seg_set_next m self p l a nxt v :
  Forall page_ok (l ++ [a]) → NoDup (l ++ [a]) → 0 ≤ v < 2 ^ 64 →
  seg m self p (l ++ [a]) nxt → seg (store64 m (next a) v) self p (l ++ [a]) v.
Proof.
  unfold next. intros [Hl [Ha _]%Forall_cons]%Forall_app (Hnd & Hni & _)%NoDup_app Hv.
  rewrite !seg_app. cbn [seg hdd]. unfold next, previous, identify.
  intros (Hs & Hn & Hp & Hid & _). rewrite load64_store64, !load64_store64_ne by lia.
  split_and!; [|by apply wrap_small|done..].
  apply seg_store64; [done| |done].
  apply (page_apart_in a); [exact Ha|exact Hl| |lia|lia].
  intros Hin. apply (Hni a Hin). by left.
Qed.
(** what the node of a listed page holds *)
Lemma rep_node s l1 x l2 :
  list_rep s (l1 ++ x :: l2) →
  page_ok x ∧ load64 (vm_mem s) (next x) = hdd 0 l2 ∧ load64 (vm_mem s) (previous x) = lastd 0 l1 ∧
  load64 (vm_mem s) (identify x) = vm_self s.
Proof.
  intros [Hseg _ _ _ Hp _ _ _]. rewrite seg_app in Hseg. destruct Hseg as (_ & Hn & Hpr & Hid & _).
  apply Forall_app in Hp as [_ [Hx _]%Forall_cons]. done.
Qed.
Lemma seg_remove_store m self prev l1 x l2 nxt :
  seg m self prev (l1 ++ x :: l2) nxt →
  seg m self prev l1 x ∧ seg m self x l2 nxt.
Proof. rewrite seg_app. cbn [seg hdd]. naive_solver. Qed.

Lemma Pop_empty s : list_rep s [] → Pop s = Ok (0, s).
Proof. intros Hr. unfold Pop, get_head, mbind, M_bind, gets. by rewrite (rep_head _ _ Hr). Qed.
Lemma Pop_spec s a l :
  list_rep s (a :: l) → wp Pop (λ t s', t = a ∧ list_post (a :: l) s l s') s.
Proof.
  intros Hrep. pose proof (rep_node s [] a l Hrep) as (Ha & Hn & _).
  destruct Hrep as [Hseg Hh Ht Hsz Hp Hnd Hself Hlen]. pose proof (page_ok_64 a Ha).
  apply (seg_remove_store _ _ _ []) in Hseg as [_ Hseg].
  apply Forall_cons in Hp as [_ Hp]. apply NoDup_cons in Hnd as [Hni Hnd].
  unfold Pop, get_head, put_head, add_size, put_tail. wp_steps. rewrite Hh. cbn [hdd].
  replace (a =? 0) with false by lia. wp_steps. apply wp_ld64; [by apply ram_ok_page0|]. wp_steps.
  rewrite Hn. vm_simpl. cbn [length] in *.
  assert (Hdec : u64 (size_ (memory_list_ s) + -1) = Z.of_nat (length l)).
  { rewrite Hsz, wrap_small by lia. lia. }
  destruct l as [|b l]; cbn [hdd].
  - rewrite Z.eqb_refl. wp_steps. vm_simpl. split; [done|]. split_and!; [by constructor|done|done].
  - pose proof (Forall_inv Hp) as Hb. pose proof (page_ok_64 b Hb).
    replace (b =? 0) with false by lia. wp_steps.
    apply wp_st64; [by apply ram_ok_page|]. wp_steps. vm_simpl. split; [done|]. split_and!; [|done|].
    + constructor; vm_simpl; try done.
      * eapply seg_set_prev; [done..|lia|exact Hseg].
      * cbn [length] in *. lia.
    + intros c Hc. vm_simpl. specialize (Hc b ltac:(right; left)). unfold PGSIZE, previous in *.
      rewrite load8_store_le, decide_False by lia. done.
Qed.

Lemma Erase_only s x : list_rep s [x] → Erase x s = Ok (false, s).
Proof.
  intros Hrep. pose proof (rep_node s [] x [] Hrep) as (Hx & Hn & Hp & Hid).
  unfold Erase, mbind, M_bind, gets, ld64.
  assert (∀ o, 0 ≤ o ≤ 16 → ram_ok (x + o) 8 = true) as Hr by (intros; apply ram_ok_page; lia || done).
  unfold next, previous, identify in *. rewrite (Hr 16), (Hr 8), (ram_ok_page0 x 8), Hn, Hp, Hid by lia || done.
  cbn [hdd]. by rewrite Z.eqb_refl.
Qed.

(** the tail of [Erase] once the next side is unlinked *)
Lemma Erase_prev_spec s x l1 n Q :
  page_ok x → load64 (vm_mem s) (next x) = n → load64 (vm_mem s) (previous x) = lastd 0 l1 →
  (l1 = [] → head_ (memory_list_ s) = x) → Forall page_ok l1 →
  (let s1 := match l1 with
             | [] => set_list (MkMemoryList n (tail_ (memory_list_ s)) (size_ (memory_list_ s))) s
             | _ => set_mem (store64 (vm_mem s) (next (lastd 0 l1)) n) s
             end in
   Q true (set_list (MkMemoryList (head_ (memory_list_ s1)) (tail_ (memory_list_ s1))
                       (u64 (size_ (memory_list_ s1) + -1))) s1)) →
  wp (Erase_prev x) Q s.
Proof.
  intros Hx Hn Hp Hh Hl HQ. unfold Erase_prev, get_head, put_head, add_size.
  wp_steps. apply wp_ld64; [by apply ram_ok_page|]. rewrite Hp.
  destruct (decide (l1 = [])) as [->|Hne].
  - cbn [lastd last] in *. cbn [Z.eqb]. wp_steps. rewrite Hh, Z.eqb_refl by done. cbn [negb]. wp_steps.
    apply wp_ld64; [by apply ram_ok_page0|]. rewrite Hn. wp_steps. exact HQ.
  - assert (page_ok (lastd 0 l1)) as Hlast.
    { destruct l1 as [|b r] using rev_ind; [done|]. rewrite lastd_app. cbn. 
      apply Forall_app in Hl as [_ [? _]%Forall_cons]. done. }
    pose proof (page_ok_64 _ Hlast). replace (lastd 0 l1 =? 0) with false by lia.
    wp_steps. apply wp_ld64; [by apply ram_ok_page0|]. rewrite Hn. wp_steps.
    apply wp_st64; [by apply ram_ok_page0|]. wp_steps. by destruct l1.
Qed.

(** unlinking the node [x] of [l1 ++ x :: l2] when it is not the only one *)
Lemma NoDup_mid {A} (l1 : list A) x l2 :
  NoDup (l1 ++ x :: l2) → NoDup (l1 ++ l2) ∧ x ∉ l1 ++ l2 ∧ NoDup l1 ∧ NoDup l2.
Proof.
  rewrite <-Permutation_middle. intros [Hx Hnd]%NoDup_cons. apply NoDup_app in Hnd as H'.
  naive_solver.
Qed.
Lemma Forall_mid {A} (P : A → Prop) l1 x l2 :
  Forall P (l1 ++ x :: l2) → P x ∧ Forall P l1 ∧ Forall P l2.
Proof. intros [? [? ?]%Forall_cons]%Forall_app. done. Qed.
Lemma hdd_page l : Forall page_ok l → l ≠ [] → page_ok (hdd 0 l) ∧ hdd 0 l ∈ l.
Proof. destruct l; [done|]. intros [? _]%Forall_cons _. split; [done|left]. Qed.
Lemma lastd_page l : Forall page_ok l → l ≠ [] → page_ok (lastd 0 l) ∧ lastd 0 l ∈ l.
Proof.
  destruct l as [|b r _] using rev_ind; [done|]. intros [_ [? _]%Forall_cons]%Forall_app _.
  rewrite lastd_app. cbn. split; [done|]. apply elem_of_app. right. left.
Qed.
(** the two stores of [Erase] relink the segments *)
Lemma seg_unlink m self prev l1 x l2 nxt :
  Forall page_ok (l1 ++ x :: l2) → NoDup (l1 ++ x :: l2) → l1 ≠ [] → l2 ≠ [] →
  seg m self prev (l1 ++ x :: l2) nxt →
  seg (store64 (store64 m (previous (hdd 0 l2)) (lastd 0 l1)) (next (lastd 0 l1)) (hdd 0 l2))
    self prev (l1 ++ l2) nxt.
Proof.
  intros Hp Hnd H1 H2 Hs. apply seg_remove_store in Hs as [Hs1 Hs2].
  apply NoDup_mid in Hnd as (Hnd & _ & Hnd1 & Hnd2). apply Forall_mid in Hp as (_ & Hp1 & Hp2).
  destruct (lastd_page l1 Hp1 H1) as [Hl Hli]. destruct (hdd_page l2 Hp2 H2) as [Hh Hhi].
  pose proof (page_ok_64 _ Hl). pose proof (page_ok_64 _ Hh).
  apply NoDup_app in Hnd as (_ & Hdis & _).
  apply seg_app. split.
  - destruct l1 as [|b r _] using rev_ind; [done|].
    rewrite lastd_app in *. cbn [lastd last] in *.
    destruct l2 as [|c r2]; [done|]. cbn [hdd] in *.
    apply (seg_set_next _ _ _ r b x); [done|done|lia|].
    apply seg_store64; [done| |exact Hs1]. unfold previous.
    apply (page_apart_in c); [done|done| |lia|lia]. intros Hin. apply (Hdis c Hin Hhi).
  - destruct l2 as [|c r2]; [done|]. cbn [hdd] in *.
    assert (lastd prev l1 = lastd 0 l1) as ->.
    { destruct l1 as [|b r _] using rev_ind; [done|]. by rewrite !lastd_app. }
    apply seg_store64; [done| |].
    + unfold next. apply (page_apart_in (lastd 0 l1)); [done|done| |lia|lia]. intros Hin. by apply (Hdis _ Hli).
    + eapply seg_set_prev; [done|done|lia|exact Hs2].
Qed.
Lemma lastd_nil_eq d d' l : l ≠ [] → lastd d l = lastd d' l.
Proof. destruct l as [|b r _] using rev_ind; [done|]. by rewrite !lastd_app. Qed.
Lemma hdd_app_ne d l1 l2 : l1 ≠ [] → hdd d (l1 ++ l2) = hdd d l1.
Proof. by destruct l1. Qed.
(** a store to one field of a listed node other than [x] *)
Lemma load64_other m x q o o' v :
  page_ok x → page_ok q → x ≠ q → 0 ≤ o ≤ 16 → 0 ≤ o' ≤ 16 →
  load64 (store64 m (q + o') v) (x + o) = load64 m (x + o).
Proof. intros Hx Hq Hne Ho Ho'. apply load64_store64_ne. destruct (pages_apart x q); lia || done. Qed.

Lemma Erase_spec s l1 x l2 :
  list_rep s (l1 ++ x :: l2) → l1 ++ l2 ≠ [] →
  wp (Erase x) (λ r s', r = true ∧ list_post (l1 ++ x :: l2) s (l1 ++ l2) s') s.
Proof.
  intros Hrep Hne. destruct (rep_node s l1 x l2 Hrep) as (Hx & Hn & Hp & Hid).
  destruct Hrep as [Hseg Hh Ht Hsz Hpages Hnd Hself Hlen]. pose proof (page_ok_64 _ Hx).
  pose proof (Forall_mid _ _ _ _ Hpages) as (_ & Hp1 & Hp2).
  pose proof (NoDup_mid _ _ _ Hnd) as (Hnd' & Hxni & Hnd1 & Hnd2).
  assert (Hpp : Forall page_ok (l1 ++ l2)) by (apply Forall_app; done).
  assert (Hlen' : u64 (size_ (memory_list_ s) + -1) = Z.of_nat (length (l1 ++ l2))).
  { rewrite Hsz, !length_app in *. cbn [length] in *. rewrite wrap_small; lia. }
  assert (Hlt : Z.of_nat (length (l1 ++ l2)) < 2 ^ 63) by (rewrite length_app in *; cbn [length] in *; lia).
  assert (Hr : ∀ o, 0 ≤ o ≤ 16 → ram_ok (x + o) 8 = true) by (intros; apply ram_ok_page; lia || done).
  unfold Erase. wp_steps. apply wp_ld64; [apply Hr; lia|]. wp_steps.
  apply wp_ld64; [by apply ram_ok_page0|]. wp_steps. apply wp_ld64; [apply Hr; lia|].
  rewrite Hn, Hp, Hid, Z.eqb_refl. cbn [negb orb].
  destruct (decide (l2 = [])) as [->|H2].
  - rewrite app_nil_r in *. pose proof (lastd_page l1 Hp1 Hne) as [Hlp Hli].
    pose proof (page_ok_64 _ Hlp). cbn [hdd]. replace (lastd 0 l1 =? 0) with false by lia.
    cbn [Z.eqb andb]. unfold get_tail, put_tail. wp_steps. rewrite Ht, lastd_app, Z.eqb_refl.
    cbn [negb]. wp_steps. apply (Erase_prev_spec _ _ l1 0); try done.
    destruct l1 as [|b r]; [done|]. set (l1 := b :: r) in *. vm_simpl. split; [done|].
    split_and!; [constructor; vm_simpl; try done|done|].
    + destruct l1 as [|b' r' _] using rev_ind; [done|]. rewrite lastd_app. cbn [lastd last].
      apply seg_app in Hseg as [Hseg _]. by apply (seg_set_next _ _ _ _ _ x).
    + intros c Hc. vm_simpl. specialize (Hc (lastd 0 l1) ltac:(set_solver)).
      unfold PGSIZE, next in *. rewrite load8_store_le, decide_False by lia. done.
  - pose proof (hdd_page l2 Hp2 H2) as [Hhp Hhi]. pose proof (page_ok_64 _ Hhp).
    replace (hdd 0 l2 =? 0) with false by lia. cbn [andb]. wp_steps.
    assert (x ≠ hdd 0 l2) as Hxh by (intros Heq; apply Hxni; rewrite Heq; set_solver).
    apply wp_st64; [by apply ram_ok_page|].
    assert (Ho : ∀ o, 0 ≤ o ≤ 16 → load64 (store64 (vm_mem s) (hdd 0 l2 + 8) (lastd 0 l1)) (x + o)
      = load64 (vm_mem s) (x + o)) by (intros; apply load64_other; lia || done).
    apply (Erase_prev_spec _ _ l1 (hdd 0 l2)); vm_simpl; try done.
    + unfold next, previous in *. rewrite <-(Z.add_0_r x), Ho by lia. by rewrite Z.add_0_r.
    + unfold previous in *. rewrite Ho by lia. done.
    + intros ->. by rewrite Hh.
    + destruct (decide (l1 = [])) as [->|H1].
      * split; [done|]. split_and!; [constructor; vm_simpl; try done|done|].
        -- destruct l2 as [|c r2]; [done|]. cbn [hdd app] in *. destruct Hseg as (_ & _ & _ & Hseg).
           eapply seg_set_prev; [done|done|cbn; lia|exact Hseg].
        -- rewrite Ht. cbn [app]. rewrite lastd_cons. by apply lastd_nil_eq.
        -- intros c Hc. vm_simpl. specialize (Hc (hdd 0 l2) ltac:(set_solver)).
           unfold PGSIZE, previous in *. rewrite load8_store_le, decide_False by lia. done.
      * pose proof (lastd_page l1 Hp1 H1) as [Hlp Hli]. pose proof (page_ok_64 _ Hlp).
        destruct l1 as [|b r]; [done|]. set (l1 := b :: r) in *. split; [done|].
        split_and!; [constructor; vm_simpl; try done|done|].
        -- by apply (seg_unlink _ _ _ _ x).
        -- rewrite Ht, !lastd_app, lastd_cons. by apply lastd_nil_eq.
        -- intros c Hc. vm_simpl. pose proof (Hc (hdd 0 l2) ltac:(set_solver)).
           pose proof (Hc (lastd 0 l1) ltac:(set_solver)). unfold PGSIZE, previous, next in *.
           rewrite !load8_store_le, !decide_False by lia. done.
Qed.

(** * The property of the list *)
(** a list of three pages, built by [Push] *)
Definition ml_empty : vmstate := VmState ∅ (MkMemoryList 0 0 0) [] true 0 0x80010000.
Definition ml_pages : list Z := [0x80200000; 0x80100000; 0x80300000].
Lemma ml_demo : ∃ s, list_rep s ml_pages.
Proof.
  assert (Hp : ∀ n, 0 < n < 8 → page_ok (KERNEL_BASE + n * 0x100000)).
  { intros n Hn. unfold page_ok, KERNEL_BASE, PGSIZE, MEMORY_END, KERNEL_BASE. dlia. }
  assert (list_rep ml_empty []) as H0 by (constructor; done || constructor).
  eapply (Push_spec _ _ 0x80300000), wp_ok in H0 as (? & s1 & _ & H1 & _); [|apply (Hp 3); lia|set_solver|done].
  eapply (Push_spec _ _ 0x80100000), wp_ok in H1 as (? & s2 & _ & H2 & _); [|apply (Hp 1); lia|set_solver|done].
  eapply (Push_spec _ _ 0x80200000), wp_ok in H2 as (? & s3 & _ & H3 & _); [|apply (Hp 2); lia|set_solver|done].
  by exists s3.
Qed.

(** C25: [MemoryList] implements a sequence of pages: [Push] prepends, [Pop] takes the
    head (null when empty), and [Erase] unlinks a node anywhere in the list, all
    writing only inside the pages of the list; but [Erase] refuses the node of a
    one-element list, which stays in it. *)
Theorem MemoryList_refines_list s l1 x l2 :
  list_rep s (l1 ++ x :: l2) →
  wp Pop (λ t s', t = hdd x l1 ∧ list_post (l1 ++ x :: l2) s (tail (l1 ++ [x]) ++ l2) s') s ∧
  (if decide (l1 ++ l2 = []) then Erase x s = Ok (false, s)
   else wp (Erase x) (λ r s', r = true ∧ list_post (l1 ++ x :: l2) s (l1 ++ l2) s' ∧
     wp (Push x) (λ _, list_post (x :: l1 ++ l2) s' (x :: l1 ++ l2)) s') s).
Proof.
  intros Hrep. split.
  - destruct l1 as [|a l1]; cbn [app hdd tail] in *.
    + by apply Pop_spec.
    + rewrite <-app_assoc. by apply Pop_spec.
  - case_decide as Hd.
    + apply app_nil in Hd as [-> ->]. by apply Erase_only.
    + pose proof (rep_pages _ _ Hrep) as (Hx & _)%Forall_mid. pose proof (rep_nodup _ _ Hrep) as (_ & Hni & _)%NoDup_mid.
      pose proof (rep_len _ _ Hrep) as Hlen. rewrite !length_app in Hlen. cbn [length] in Hlen.
      eapply wp_mono; [by apply Erase_spec|]. intros r s' (-> & Hpost). split_and!; [done..|].
      apply Push_spec; [apply Hpost|done|done|]. rewrite length_app. lia.
Qed.
Lemma MemoryList_refines_list_witness : ∃ s, list_rep s ml_pages ∧
  wp (Erase 0x80100000) (λ r s', r = true ∧ list_post ml_pages s [0x80200000; 0x80300000] s' ∧
    wp (Push 0x80100000) (λ _, list_post ([0x80100000; 0x80200000; 0x80300000]) s'
      ([0x80100000; 0x80200000; 0x80300000])) s') s.
Proof.
  destruct ml_demo as (s & Hs). exists s. split; [exact Hs|].
  exact (proj2 (MemoryList_refines_list s [0x80200000] 0x80100000 [0x80300000] Hs)).
Defined.
