(* ===== verification/VirtualMemory.v ===== *)
(** [kernel/virtual_memory.cc] and the second half of its header: the physical
    page allocator (free list and bitmap), the Sv39 page-table walk and the
    mapping operations, proved against two ghost descriptions: [vm_inv s fl]
    (the free pages, in list order) and [pt_rep s root T] (the page-table pages,
    by their path from the root). *)
From S2P Require Import Prelude Riscv Lock Mem MemoryList.

(** * Allocation *)
Inductive BitMapAction := alloc | free.
Definition bit_map_size : nat := Z.to_nat ((MEMORY_END - KERNEL_BASE) / PGSIZE / 8).
Definition page_index (pa : Z) : Z := u64 (pa - KERNEL_BASE) / PGSIZE.
Definition UpdateBitMap (m : Z) (action : BitMapAction) : M vmstate () :=
  let i := page_index m in
  bm ← gets bit_map_;
  b ← of_option (Faulted "bit_map_") (bm !! Z.to_nat (i / 8));
  let bit := Z.shiftl 1 (i mod 8) in
  let b' := match action with
            | alloc => u8 (Z.lor b bit)
            | free => u8 (Z.land b (u32 (Z.lnot bit)))
            end in
  modify (set_bit_map (<[Z.to_nat (i / 8) := b']> bm)).

Definition AddrCastUp (addr : Z) : Z := Z.land (u64 (addr + PGSIZE - 1)) (u64 (Z.lnot (PGSIZE - 1))).
Definition AddrCastDown (addr : Z) : Z := Z.land addr (u64 (Z.lnot (PGSIZE - 1))).

(** [memory_beg] is the linker symbol after the kernel image *)
Definition Init (memory_beg : Z) : M vmstate bool :=
  h ← gets has_init_;
  if (h : bool) then mret false else
  modify (set_has_init true) ;;
  let beg := memory_beg in
  if negb (beg mod PGSIZE =? 0) then mret false else
  for_u64_ beg MEMORY_END PGSIZE Push ;;
  modify (set_bit_map (replicate bit_map_size 0)) ;;
  for_u64_ KERNEL_BASE beg PGSIZE (λ i, UpdateBitMap i alloc) ;;
  mret true.
Definition HasInit : M vmstate bool := gets has_init_.
Definition GetFreePageSize : M vmstate Z := Size.

Definition Alloc : M vmstate Z :=
  guarded (
    t ← Pop;
    vm_memset t 0 PGSIZE ;;
    UpdateBitMap t alloc ;;
    mret t).

(** the test of the inner loop of [AllocContinuousPage]: byte [k] and, when the
    mask reaches it, byte [k - 1] of the bitmap; [*(it + 1)] at [k = 0] is out of
    bounds.  The source multiplies the mask where it means to mask it. *)
Definition run_free (bm : list Z) (k : nat) (t_mask : Z) : M vmstate bool :=
  b ← of_option (Faulted "bit_map_") (bm !! k);
  if negb (Z.land b (Z.shiftr t_mask 8) =? 0) then mret false
  else if Z.land t_mask 0xff =? 0 then mret true
  else
    b' ← of_option (Faulted "bit_map_[-1]") (match k with O => None | S k => bm !! k end);
    mret (Z.land b' (t_mask * 0xff) =? 0).
Fixpoint take_run (n : nat) (m : Z) : M vmstate () :=
  match n with
  | O => mret ()
  | S n =>
    UpdateBitMap m alloc ;;
    Erase m ;;
    vm_memset m 0 PGSIZE ;;
    take_run n (u64 (m + PGSIZE))
  end.
(** [i] counts 0 .. 7; [rest] is the iterations that remain *)
Fixpoint scan_byte (n mask : Z) (k : nat) (rest : nat) (i : Z) : M vmstate (option Z) :=
  match rest with
  | O => mret None
  | S rest =>
    bm ← gets bit_map_;
    f ← run_free bm k (Z.shiftr mask i);
    if (f : bool) then
      let m := u64 ((Z.of_nat k * 8 + 8 - n - i) * PGSIZE + KERNEL_BASE) in
      take_run (Z.to_nat n) m ;; mret (Some m)
    else scan_byte n mask k rest (i + 1)
  end.
(** the bytes of the bitmap from the last one down: [k] bytes remain *)
Fixpoint scan_bytes (n mask : Z) (k : nat) : M vmstate Z :=
  match k with
  | O => mret 0
  | S k =>
    r ← scan_byte n mask k 8 0;
    match r with Some p => mret p | None => scan_bytes n mask k end
  end.
Definition max_page_num : Z := 8.
Definition AllocContinuousPage (n : Z) : M vmstate Z :=
  guarded (
    if max_page_num <? n then mret 0 else
    let mask := u16 (Z.shiftl (Z.shiftl 1 n - 1) (2 * max_page_num - n)) in
    scan_bytes n mask bit_map_size).

Definition FreePage_pa (pa : Z) : M vmstate () :=
  if pa =? 0 then stop_with (Panicked "Error: Got empty page when trying to free") else
  guarded (Push pa ;; UpdateBitMap pa free).
Fixpoint FreePage_list (pa_list : list Z) : M vmstate () :=
  match pa_list with
  | [] => mret ()
  | pa :: pa_list => FreePage_pa pa ;; FreePage_list pa_list
  end.

Definition GetUserSpVa : Z := AddrCastDown MAX_SUPPORT_VA.

(** * Page tables *)
Definition pte_target (e : Z) : Z := Z.land (u64 (Z.shiftl e 2)) (u64 (0xfffffffffff * PGSIZE)).
Definition pte_V (e : Z) : bool := nonzero (Z.land e PTE_V).
Definition vpn (va i : Z) : Z := Z.land (Z.shiftr va (12 + i * 9)) 0x1ff.

(** the loop [for (int i = 2; i > (3 - level); --i)], [k] iterations; [None] is
    the early [return nullptr] *)
Fixpoint GetPTE_walk (k : nat) (pte va i : Z) (need_alloc : bool) : M vmstate (option Z) :=
  match k with
  | O => mret (Some pte)
  | S k =>
    let sub_pte := pte + 8 * vpn va i in
    e ← ld64 sub_pte;
    if negb (pte_V e) then
      if negb need_alloc then mret None else
      page ← Alloc;
      if page =? 0 then mret None else
      st64 sub_pte (Z.shiftr page 2) ;;
      e ← ld64 sub_pte;
      st64 sub_pte (Z.lor e PTE_V) ;;
      e ← ld64 sub_pte;
      GetPTE_walk k (pte_target e) va (i - 1) need_alloc
    else GetPTE_walk k (pte_target e) va (i - 1) need_alloc
  end.
Definition GetPTE (root_page va : Z) (need_alloc : bool) (level : Z) : M vmstate Z :=
  if root_page =? 0 then mret 0 else
  if (level <? 1) || (3 <? level) then mret 0 else
  let va := if negb (va mod PGSIZE =? 0) then AddrCastDown va else va in
  r ← GetPTE_walk (Z.to_nat (level - 1)) root_page va 2 need_alloc;
  match r with
  | None => mret 0
  | Some pte => mret (pte + 8 * vpn va (3 - level))
  end.

Definition MapPage (root_page va pa privilege : Z) : M vmstate bool :=
  if root_page =? 0 then mret false else
  if MEMORY_END <? pa then mret false else
  if MAX_SUPPORT_VA <? va then mret false else
  if negb (root_page mod PGSIZE =? 0) || negb (va mod PGSIZE =? 0) || negb (pa mod PGSIZE =? 0)
  then mret false else
  pte ← GetPTE root_page va true 3;
  if pte =? 0 then mret false else
  st64 pte (Z.shiftr pa 2) ;;
  e ← ld64 pte;
  st64 pte (Z.lor e PTE_V) ;;
  e ← ld64 pte;
  st64 pte (Z.lor e privilege) ;;
  mret true.

Definition FreePage (root_page va level : Z) : M vmstate () :=
  let va := if negb (va mod PGSIZE =? 0) then AddrCastDown va else va in
  pte ← GetPTE root_page va false level;
  if pte =? 0 then mret () else
  e ← ld64 pte;
  if negb (pte_V e) then mret () else
  let t := pte_target e in
  guarded (
    Push t ;;
    UpdateBitMap t free ;;
    st64 pte 0).

Definition FreeMemory (root_page va_beg va_end level : Z) : M vmstate () :=
  let va_beg := AddrCastDown va_beg in
  let va_end := AddrCastUp va_end in
  for_u64_ va_beg va_end PGSIZE (λ i, FreePage root_page i level).

Definition MapMemory (root_page va_beg va_end privilege : Z) : M vmstate bool :=
  let va_beg := AddrCastDown va_beg in
  let va_end := AddrCastUp va_end in
  r ← for_u64 va_beg va_end PGSIZE (λ i,
    page ← Alloc;
    if page =? 0 then FreeMemory root_page va_beg i 3 ;; mret (Some false) else
    ok ← MapPage root_page i page privilege;
    if (ok : bool) then mret None
    else FreeMemory root_page va_beg i 3 ;; mret (Some false));
  mret (default true r).

Fixpoint MapMemory_pa_loop (k : nat) (i root_page va pa privilege : Z) : M vmstate bool :=
  match k with
  | O => mret true
  | S k =>
    ok ← MapPage root_page va pa privilege;
    if (ok : bool) then MapMemory_pa_loop k (i + 1) root_page (u64 (va + PGSIZE)) (u64 (pa + PGSIZE)) privilege
    else FreeMemory root_page (u64 (va - i * PGSIZE)) va 3 ;; mret false
  end.
Definition MapMemory_pa (root_page va pa size privilege : Z) : M vmstate bool :=
  if negb (va mod PGSIZE =? pa mod PGSIZE) then mret false else
  let va := AddrCastDown va in
  let pa := AddrCastDown pa in
  let size := size / PGSIZE + (if 0 <? size mod PGSIZE then 1 else 0) in
  MapMemory_pa_loop (Z.to_nat size) 0 root_page va pa privilege.

(** the physical address, and the privilege [*output_privi] receives *)
Definition VAToPA (root_page va : Z) : M vmstate (Z * option Z) :=
  let remain := va mod PGSIZE in
  pte ← GetPTE root_page va false 3;
  if pte =? 0 then mret (0, None) else
  e ← ld64 pte;
  if negb (pte_V e) then mret (0, None) else
  mret (u64 (pte_target e + remain), Some (Z.land e PTE_MASK)).

(** * The allocator's invariant *)
Definition bm_bit (bm : list Z) (p : Z) : bool :=
  Z.testbit (default 0 (bm !! Z.to_nat (page_index p / 8))) (page_index p mod 8).
(** the bitmap marks exactly the pages that are not in the free list *)
Record vm_inv (s : vmstate) (fl : list Z) : Prop := {
  inv_list : list_rep s fl;
  inv_bm_len : length (bit_map_ s) = bit_map_size;
  inv_bm_range : Forall (λ b, 0 ≤ b < 256) (bit_map_ s);
  inv_bm : ∀ p, page_ok p → bm_bit (bit_map_ s) p = negb (bool_decide (p ∈ fl));
  inv_mstatus : mstatus_ok s;
}.
Definition page_zero (m : mem) (p : Z) : Prop := ∀ a, p ≤ a < p + PGSIZE → load8 m a = 0.
(** memory outside [pages], [has_init_], [mstatus] and the address of the list
    are unchanged *)
Definition vm_post (pages : list Z) (s s' : vmstate) : Prop :=
  mem_frame pages s s' ∧ has_init_ s' = has_init_ s ∧ vm_mstatus s' = vm_mstatus s ∧ vm_self s' = vm_self s.

(** * Page tables: the pages of the tree, by their path of indices from the root *)
Abbreviation ptree := (gmap (list Z) Z).
Record pt_rep (s : vmstate) (fl : list Z) (root : Z) (T : ptree) : Prop := {
  pt_root : T !! [] = Some root;
  pt_page : ∀ k p, T !! k = Some p → page_ok p ∧ p ∉ fl;
  pt_inj : ∀ k1 k2 p, T !! k1 = Some p → T !! k2 = Some p → k1 = k2;
  pt_closed : ∀ k i, is_Some (T !! (k ++ [i])) → is_Some (T !! k);
  pt_node : ∀ k p i, T !! k = Some p → (length k < 2)%nat → 0 ≤ i < 512 →
    match T !! (k ++ [i]) with
    | Some q => pte_V (load64 (vm_mem s) (p + 8 * i)) = true ∧ pte_target (load64 (vm_mem s) (p + 8 * i)) = q
    | None => pte_V (load64 (vm_mem s) (p + 8 * i)) = false
    end;
}.
Definition pt_pages (T : ptree) : list Z := (map_to_list T).*2.
(** the leaf entry of [va], and the abstract map a page table denotes: the page
    and the privilege bits [va] is mapped to *)
Definition leaf_pte (m : mem) (T : ptree) (va : Z) : option Z :=
  p ← T !! [vpn va 2; vpn va 1]; Some (load64 m (p + 8 * vpn va 0)).
Definition translate (m : mem) (T : ptree) (va : Z) : option (Z * Z) :=
  e ← leaf_pte m T va;
  if pte_V e then Some (pte_target e, Z.land e PTE_MASK) else None.
(** the indices of [va] at the levels [i], [i - 1], ..., [n] of them *)
Fixpoint vpns (va i : Z) (n : nat) : list Z :=
  match n with O => [] | S n => vpn va i :: vpns va (i - 1) n end.
(** what growing a page table preserves *)
Record pt_ext (root : Z) (s : vmstate) (fl : list Z) (T : ptree) (s' : vmstate) (fl' : list Z) (T' : ptree) : Prop := {
  ext_inv : vm_inv s' fl';
  ext_rep : pt_rep s' fl' root T';
  ext_sub : T ⊆ T';
  ext_used : ∃ used, fl = used ++ fl' ∧ (∀ k p, T' !! k = Some p → T !! k = Some p ∨ p ∈ used);
  ext_translate : ∀ va, translate (vm_mem s') T' va = translate (vm_mem s) T va;
  ext_post : vm_post (fl ++ pt_pages T) s s';
}.

Definition same_page (va va' : Z) : Prop :=
  vpn va 2 = vpn va' 2 ∧ vpn va 1 = vpn va' 1 ∧ vpn va 0 = vpn va' 0.
#[export] Instance same_page_dec va va' : Decision (same_page va va').
Proof. unfold same_page. apply _. Defined.
(** an operation that changes the mapping of one page: [v] is its new mapping *)
Record pt_upd (root va : Z) (v : option (Z * Z))
    (s : vmstate) (fl : list Z) (T : ptree) (s' : vmstate) (fl' : list Z) (T' : ptree) : Prop := {
  upd_inv : vm_inv s' fl';
  upd_rep : pt_rep s' fl' root T';
  upd_translate : ∀ va', translate (vm_mem s') T' va' =
    if decide (same_page va va') then v else translate (vm_mem s) T va';
}.
(** [ps] are the pages the addresses from [b] up are mapped to, with privilege [f] *)
Definition range_map (b f : Z) (ps : list Z) (old : Z → option (Z * Z)) (va : Z) : option (Z * Z) :=
  match (if b <=? va then ps !! Z.to_nat ((va - b) / PGSIZE) else None) with
  | Some p => Some (p, f)
  | None => old va
  end.
(** a page that holds data: not free and not part of the page table *)
Definition data_page (fl : list Z) (T : ptree) (p : Z) : Prop := page_ok p ∧ p ∉ fl ∧ p ∉ pt_pages T.

(** the state after [MapMemory] has mapped the pages [ps] from [b] up *)
Record range_mapped (root b f : Z) (ps : list Z) (s : vmstate) (fl : list Z) (T : ptree)
    (s' : vmstate) (fl' : list Z) (T' : ptree) : Prop := {
  rm_inv : vm_inv s' fl';
  rm_rep : pt_rep s' fl' root T';
  rm_translate : ∀ va, 0 ≤ va < 2 ^ 39 →
    translate (vm_mem s') T' va = range_map b f ps (translate (vm_mem s) T) va;
  rm_nodup : NoDup ps;
  rm_pages : ∀ p, p ∈ ps → p ∈ fl ∧ data_page fl' T' p ∧ page_zero (vm_mem s') p;
  rm_len : (length fl ≤ length fl' + 3 * length ps)%nat;
  rm_used : ∃ used, fl = used ++ fl';
  rm_sub : ∀ p, p ∈ fl' ++ pt_pages T' → p ∈ fl ++ pt_pages T;
  rm_post : vm_post (fl ++ pt_pages T) s s';
}.

(** * Lemmas: the bitmap *)
Lemma page_index_range p : page_ok p → 0 ≤ page_index p < 32768.
Proof.
  unfold page_ok, page_index, PGSIZE, MEMORY_END, KERNEL_BASE. intros (_ & ? & ?).
  rewrite wrap_small by lia. dlia.
Qed.
Lemma page_index_addr p : page_ok p → p = KERNEL_BASE + page_index p * PGSIZE.
Proof.
  unfold page_ok, page_index, PGSIZE, MEMORY_END, KERNEL_BASE. intros (? & ? & ?).
  rewrite wrap_small by lia. dlia.
Qed.
Lemma page_index_inj p q : page_ok p → page_ok q → page_index p = page_index q → p = q.
Proof. intros Hp Hq H. rewrite (page_index_addr p), (page_index_addr q), H; done. Qed.
Lemma bit_map_size_val : bit_map_size = 4096%nat.
Proof. done. Qed.

Lemma UpdateBitMap_spec p action s (Q : () → vmstate → Prop) :
  page_ok p → length (bit_map_ s) = bit_map_size → Forall (λ b, 0 ≤ b < 256) (bit_map_ s) →
  (∀ bm', length bm' = bit_map_size → Forall (λ b, 0 ≤ b < 256) bm' →
    (∀ q, page_ok q → bm_bit bm' q =
      if decide (p = q) then (match action with alloc => true | free => false end)
      else bm_bit (bit_map_ s) q) →
    Q () (set_bit_map bm' s)) →
  wp (UpdateBitMap p action) Q s.
Proof.
  intros Hp Hlen Hr HQ. pose proof (page_index_range p Hp) as Hi. unfold UpdateBitMap.
  set (i := page_index p) in *. wp_steps.
  destruct (lookup_lt_is_Some_2 (bit_map_ s) (Z.to_nat (i / 8))) as [b Hb].
  { rewrite Hlen, bit_map_size_val. dlia. }
  rewrite Hb. cbn [of_option]. wp_steps.
  pose proof (proj1 (Forall_lookup _ _) Hr _ _ Hb) as Hbr. cbv beta in Hbr.
  assert (0 ≤ i mod 8 < 8) as Hm by dlia.
  apply HQ.
  - by rewrite length_insert.
  - apply Forall_insert; [done|]. destruct action; apply (wrap_range 8); lia.
  - intros q Hq. pose proof (page_index_range q Hq) as Hiq. unfold bm_bit.
    destruct (decide (page_index q / 8 = i / 8)) as [Hsame|Hdiff].
    + rewrite Hsame, list_lookup_insert, decide_True by (split; [done|rewrite Hlen, bit_map_size_val; dlia]).
      rewrite Hb. cbn [default from_option id].
      assert (Hpq : i mod 8 = page_index q mod 8 ↔ p = q).
      { split; [|by intros ->]. intros. apply page_index_inj; [done..|]. fold i. dlia. }
      assert (0 ≤ page_index q mod 8 < 8) by dlia. destruct action.
      * rewrite testbit_wrap, decide_True, testbit_set_bit by lia. repeat case_decide; done || (exfalso; tauto).
      * rewrite testbit_wrap, decide_True, Z.land_spec, testbit_wrap, decide_True by lia.
        rewrite Z.lnot_spec, <-Z.ldiff_spec, testbit_clear_bit by lia.
        repeat case_decide; done || (exfalso; tauto).
    + rewrite list_lookup_insert_ne by dlia. rewrite decide_False; [done|].
      intros ->. by apply Hdiff.
Qed.

(** * Lemmas: the allocator *)
Lemma pages_bounded l : Forall page_ok l → NoDup l → Z.of_nat (length l) ≤ 32768.
Proof.
  intros Hl Hnd. rewrite <-(length_map page_index l).
  apply (Z.le_trans _ (Z.of_nat (length (seqZ 0 32768)))); [|by rewrite length_seqZ].
  apply inj_le, submseteq_length. apply NoDup_submseteq.
  - apply NoDup_fmap_2_strong; [|done]. intros x y Hx Hy. rewrite Forall_forall in Hl.
    apply page_index_inj; auto.
  - intros i (p & -> & Hp)%list_elem_of_fmap. apply elem_of_seqZ. rewrite Forall_forall in Hl.
    pose proof (page_index_range p (Hl p Hp)). lia.
Qed.
Lemma inv_pages s fl : vm_inv s fl → Forall page_ok fl ∧ NoDup fl ∧ Z.of_nat (length fl) ≤ 32768.
Proof.
  intros [[_ _ _ _ Hp Hnd _ _] _ _ _ _]. split_and!; [done..|]. by apply pages_bounded.
Qed.
Lemma list_rep_mstatus v s fl : list_rep s fl → list_rep (put_mstatus v s) fl.
Proof. intros []. by constructor. Qed.
Lemma list_rep_bit_map b s fl : list_rep s fl → list_rep (set_bit_map b s) fl.
Proof. intros []. by constructor. Qed.
Lemma vm_post_refl pages s : vm_post pages s s.
Proof. done. Qed.
Lemma vm_post_trans pages s1 s2 s3 : vm_post pages s1 s2 → vm_post pages s2 s3 → vm_post pages s1 s3.
Proof. intros (? & ? & ? & ?) (? & ? & ? & ?). split_and!; [by eapply mem_frame_trans|congruence..]. Qed.
Lemma vm_post_mono ps qs s s' : (∀ p, p ∈ ps → p ∈ qs) → vm_post ps s s' → vm_post qs s s'.
Proof. intros H (? & ? & ? & ?). split_and!; [by eapply mem_frame_mono|done..]. Qed.
(** the representation only depends on the pages of the list *)
Lemma list_rep_store s fl m' :
  list_rep s fl → (∀ p a, p ∈ fl → p ≤ a < p + 24 → load8 m' a = load8 (vm_mem s) a) →
  list_rep (set_mem m' s) fl.
Proof.
  intros [] Hm. constructor; try done. simpl. eapply seg_agree; [|done].
  intros p Hp b Hb. symmetry. eauto.
Qed.
Lemma page_apart_byte p q a : page_ok p → page_ok q → p ≠ q → q ≤ a < q + 4096 → a < p ∨ p + 4096 ≤ a.
Proof. intros Hp Hq Hne Ha. destruct (pages_apart p q); [done..|lia|lia]. Qed.

Lemma Alloc_spec s p fl :
  vm_inv s (p :: fl) →
  wp Alloc (λ t s', t = p ∧ vm_inv s' fl ∧ page_zero (vm_mem s') p ∧ vm_post (p :: fl) s s') s.
Proof.
  intros Hinv. pose proof (inv_pages _ _ Hinv) as ([Hp Hpl]%Forall_cons & [Hni Hnd]%NoDup_cons & _).
  destruct Hinv as [Hlist Hlen Hr Hbm Hms]. apply wp_guarded; [done|].
  apply wp_bind. eapply wp_mono; [by eapply Pop_spec, list_rep_mstatus|].
  intros t s1 (-> & Hl1 & (Hb1 & Hh1 & Hm1 & Hs1) & Hf1). apply wp_bind.
  apply wp_vm_memset; [by apply ram_ok_page0|]. apply wp_bind. simpl in Hb1.
  apply UpdateBitMap_spec; [done|by simpl; rewrite Hb1|by simpl; rewrite Hb1|].
  intros bm' Hlen' Hr' Hbm'. apply wp_ret. simpl. split; [done|]. split; [done|]. split; [constructor|split].
  - apply list_rep_mstatus, list_rep_bit_map. apply list_rep_store; [done|].
    intros q a Hq Ha. rewrite load8_memset, decide_False; [done|]. unfold PGSIZE.
    rewrite Forall_forall in Hpl. destruct (pages_apart p q); [done|auto|by intros ->|lia|lia].
  - done.
  - done.
  - intros q Hq. cbn. rewrite Hbm' by done. simpl. rewrite Hb1, Hbm by done. case_decide as Hpq.
    + subst q. by rewrite bool_decide_eq_false_2.
    + do 2 f_equal. apply bool_decide_ext. rewrite elem_of_cons. naive_solver.
  - done.
  - intros a Ha. cbn. rewrite load8_memset, decide_True; [done|]. unfold PGSIZE in *. lia.
  - split_and!; [|done..]. intros b Hb. cbn. rewrite load8_memset, decide_False.
    + by apply Hf1.
    + specialize (Hb p ltac:(left)). unfold PGSIZE in *. lia.
Qed.

Lemma vm_inv_mstatus v s fl : 0 ≤ v < 2 ^ 64 → vm_inv s fl → vm_inv (put_mstatus v s) fl.
Proof. intros Hv []. constructor; try done. by apply list_rep_mstatus. Qed.
Lemma vm_inv_masked s fl : vm_inv s fl → vm_inv (masked s) fl.
Proof. intros Hi. apply vm_inv_mstatus; [|done]. exact (masked_ok s (inv_mstatus _ _ Hi)). Qed.
(** [Push(t); UpdateBitMap(t, free)], as in both overloads of [FreePage] *)
Lemma wp_push_free s fl p :
  vm_inv s fl → page_ok p → p ∉ fl →
  wp (Push p) (λ _, wp (UpdateBitMap p free) (λ _ s', vm_inv s' (p :: fl) ∧ vm_post (p :: fl) s s')) s.
Proof.
  intros Hinv Hp Hni. pose proof (inv_pages _ _ Hinv) as (Hpl & Hnd & Hlb).
  destruct Hinv as [Hlist Hlen Hr Hbm Hms].
  eapply wp_mono; [apply (Push_spec s fl); [done..|lia]|].
  intros [] s1 (Hl1 & (Hb1 & Hh1 & Hm1 & Hs1) & Hf1).
  apply UpdateBitMap_spec; [done|by rewrite Hb1|by rewrite Hb1|]. rewrite Hb1.
  intros bm' Hlen' Hr' Hbm'. split; [|by split_and!]. constructor; try done.
  - by apply list_rep_bit_map.
  - intros q Hq. cbn. rewrite Hbm' by done. case_decide as Hpq.
    + subst q. rewrite bool_decide_eq_true_2; [done|left].
    + rewrite Hbm by done. do 2 f_equal. apply bool_decide_ext. rewrite elem_of_cons. naive_solver.
  - unfold mstatus_ok in *. cbn in *. by rewrite Hm1.
Qed.
Lemma FreePage_pa_ok s fl p :
  vm_inv s fl → page_ok p → p ∉ fl →
  wp (FreePage_pa p) (λ _ s', vm_inv s' (p :: fl) ∧ vm_post (p :: fl) s s') s.
Proof.
  intros Hinv Hp Hni. unfold FreePage_pa. pose proof (page_ok_nz p Hp).
  replace (p =? 0) with false by lia. pose proof (inv_mstatus _ _ Hinv).
  apply wp_guarded; [done|]. apply wp_bind. pose proof (vm_inv_masked _ _ Hinv).
  eapply wp_mono; [by apply wp_push_free|]. intros [] s1 Hw. eapply wp_mono; [exact Hw|].
  intros [] s' (Hi & Hf & ? & ? & ?). split; [done|]. split; [by apply vm_inv_mstatus|by split_and!].
Qed.

(** * Lemmas: page-table entries *)
Lemma pte_mask_testbit j : 0 ≤ j →
  Z.testbit (u64 (0xfffffffffff * PGSIZE)) j = bool_decide (12 ≤ j < 56).
Proof.
  intros Hj. change (u64 (0xfffffffffff * PGSIZE)) with (Z.shiftl (Z.ones 44) 12).
  rewrite Z.shiftl_spec by lia. destruct (decide (12 ≤ j)).
  - rewrite Z.testbit_ones_nonneg by lia.
    destruct (decide (j < 56)); [rewrite bool_decide_eq_true_2 by lia|rewrite bool_decide_eq_false_2 by lia]; lia.
  - rewrite Z.testbit_neg_r by lia. symmetry. apply bool_decide_eq_false_2. lia.
Qed.
Lemma aligned_bits pa j : pa mod PGSIZE = 0 → 0 ≤ j < 12 → Z.testbit pa j = false.
Proof.
  intros Ha Hj. rewrite <-(Z.mod_pow2_bits_low pa 12 j) by lia. change (2 ^ 12) with PGSIZE.
  by rewrite Ha, Z.bits_0.
Qed.
Lemma pte_target_make pa f :
  0 ≤ pa < 2 ^ 56 → pa mod PGSIZE = 0 → 0 ≤ f < 1024 → pte_target (Z.lor (Z.shiftr pa 2) f) = pa.
Proof.
  intros Hpa Hal Hf. unfold pte_target. apply Z.bits_inj'. intros j Hj.
  rewrite Z.land_spec, pte_mask_testbit, testbit_wrap by lia.
  case_bool_decide as Hj2.
  - rewrite andb_true_r, decide_True by lia. rewrite Z.shiftl_spec, Z.lor_spec, Z.shiftr_spec by lia.
    rewrite (range_bits 10 f) by lia. rewrite orb_false_r. f_equal. lia.
  - rewrite andb_false_r. symmetry. destruct (decide (j < 12)).
    + apply aligned_bits; [done|lia].
    + apply (range_bits 56); lia.
Qed.
Lemma pte_V_testbit e : 0 ≤ e → pte_V e = Z.testbit e 0.
Proof.
  intros He. unfold pte_V, PTE_V, nonzero. change 1 with (Z.ones 1). rewrite Z.land_ones by lia.
  rewrite Z.bit0_eqb. change (2 ^ 1) with 2.
  pose proof (Z.mod_pos_bound e 2 ltac:(lia)). lia.
Qed.

(** * Lemmas: growing and reading a page table *)
Lemma vpn_range va i : 0 ≤ vpn va i < 512.
Proof.
  unfold vpn. change 0x1ff with (Z.ones 9). rewrite Z.land_ones by lia. apply Z.mod_pos_bound. lia.
Qed.
Lemma vm_inv_store s fl m' :
  vm_inv s fl → (∀ q a, q ∈ fl → q ≤ a < q + 24 → load8 m' a = load8 (vm_mem s) a) →
  vm_inv (set_mem m' s) fl.
Proof. intros [] Hm. constructor; try done. by apply list_rep_store. Qed.
Lemma load64_page m m' p i :
  (∀ a, p ≤ a < p + 4096 → load8 m' a = load8 m a) → 0 ≤ i < 512 →
  load64 m' (p + 8 * i) = load64 m (p + 8 * i).
Proof. intros H Hi. apply load_le_agree. intros b Hb. apply H. lia. Qed.
Lemma pt_pages_elem T p : p ∈ pt_pages T ↔ ∃ k, T !! k = Some p.
Proof.
  unfold pt_pages. rewrite list_elem_of_fmap. split.
  - intros ((k & v) & -> & H%elem_of_map_to_list). eauto.
  - intros (k & H). exists (k, p). by rewrite elem_of_map_to_list.
Qed.
Lemma pt_rep_shrink s fl q root T : pt_rep s (q :: fl) root T → pt_rep s fl root T.
Proof.
  intros []. constructor; try done. intros k p Hk.
  destruct (pt_page0 k p Hk) as [? ?]. split; [done|]. set_solver.
Qed.
Lemma pt_rep_free s fl q root T : pt_rep s fl root T → q ∉ pt_pages T → pt_rep s (q :: fl) root T.
Proof.
  intros [] Hq. constructor; try done. intros k p Hk. destruct (pt_page0 k p Hk) as [? ?].
  split; [done|]. apply not_elem_of_cons. split; [|done]. intros ->. apply Hq. unfold pt_pages.
  apply list_elem_of_fmap. exists (k, q). split; [done|]. by apply elem_of_map_to_list.
Qed.
(** only the bytes of the tree's inner pages matter to [pt_rep] *)
Lemma pt_rep_mem s s' fl root T :
  pt_rep s fl root T →
  (∀ k p a, T !! k = Some p → (length k < 2)%nat → p ≤ a < p + 4096 →
     load8 (vm_mem s') a = load8 (vm_mem s) a) →
  pt_rep s' fl root T.
Proof.
  intros [] Hm. constructor; try done. intros k p i Hk Hl Hi.
  rewrite (load64_page (vm_mem s)) by eauto. by apply pt_node0.
Qed.
Lemma translate_mem m m' T va :
  (∀ k p a, T !! k = Some p → length k = 2%nat → p ≤ a < p + 4096 → load8 m' a = load8 m a) →
  translate m' T va = translate m T va.
Proof.
  intros Hm. unfold translate, leaf_pte. destruct (T !! [vpn va 2; vpn va 1]) as [p|] eqn:E; [|done].
  simpl. rewrite (load64_page m m' p); [done| |apply vpn_range]. intros a Ha. eapply Hm; eauto.
Qed.

Lemma load64_page_zero m q j : page_zero m q → 0 ≤ j < 512 → load64 m (q + 8 * j) = 0.
Proof.
  intros Hz Hj. rewrite <-(load_le_memset_0 8 m q 4096 (q + 8 * j)) by lia.
  apply (load64_page (memset m q 0 4096)); [|done]. intros a Ha.
  rewrite load8_memset, decide_True by lia. rewrite wrap_0. apply Hz. unfold PGSIZE. lia.
Qed.

(** ** A new page [q] hung at index [i] of the inner page [p] at [path] *)
Section grow.
Context (root : Z) (s s1 : vmstate) (q : Z) (fl : list Z) (T : ptree) (path : list Z) (p i : Z) (m3 : mem).
Hypothesis Hinv : vm_inv s (q :: fl).
Hypothesis Hpt : pt_rep s (q :: fl) root T.
Hypothesis Hpath : T !! path = Some p.
Hypothesis Hlen : (length path < 2)%nat.
Hypothesis Hi : 0 ≤ i < 512.
Hypothesis Hnone : T !! (path ++ [i]) = None.
Hypothesis Hinv1 : vm_inv s1 fl.
Hypothesis Hz : page_zero (vm_mem s1) q.
Hypothesis Hpost : vm_post (q :: fl) s s1.
Hypothesis HV : pte_V (load64 m3 (p + 8 * i)) = true.
Hypothesis Htgt : pte_target (load64 m3 (p + 8 * i)) = q.
Hypothesis Hm3 : ∀ b, b < p + 8 * i ∨ p + 8 * i + 8 ≤ b → load8 m3 b = load8 (vm_mem s1) b.

Lemma grow_fl : page_ok q ∧ q ∉ fl ∧ ∀ x, x ∈ fl → page_ok x.
Proof.
  destruct (inv_pages _ _ Hinv) as ([Hq Hfl]%Forall_cons & [Hqni _]%NoDup_cons & _).
  rewrite Forall_forall in Hfl. done.
Qed.
Lemma grow_p : page_ok p ∧ p ∉ q :: fl.
Proof. exact (pt_page _ _ _ _ Hpt _ _ Hpath). Qed.
(** allocated pages keep their bytes, but for the entry itself *)
Lemma grow_other r a :
  page_ok r → r ∉ q :: fl → r ≤ a < r + 4096 → a < p + 8 * i ∨ p + 8 * i + 8 ≤ a →
  load8 m3 a = load8 (vm_mem s) a.
Proof.
  intros Hr Hrni Ha Hne. rewrite Hm3 by done. apply Hpost. intros x Hx. unfold PGSIZE.
  destruct grow_fl as (Hq & _ & Hfl). apply (page_apart_byte _ r); [|done| |lia].
  - apply elem_of_cons in Hx as [->|Hx]; auto.
  - by intros ->.
Qed.
Lemma grow_zero : page_zero m3 q.
Proof.
  intros a Ha. unfold PGSIZE in Ha. rewrite Hm3; [apply Hz; unfold PGSIZE; lia|].
  destruct grow_fl as (Hq & _), grow_p as [Hp Hpni].
  destruct (pages_apart p q); [done..| |lia|lia]. intros ->. apply Hpni. left.
Qed.
Lemma grow_pages k r a :
  T !! k = Some r → k ≠ path → r ≤ a < r + 4096 → load8 m3 a = load8 (vm_mem s) a.
Proof.
  intros Hk Hne Ha. destruct (pt_page _ _ _ _ Hpt _ _ Hk) as [Hr Hrni], grow_p as [Hp _].
  apply (grow_other r); [done..|].
  destruct (pages_apart p r); [done|done| |lia|lia]. intros ->. apply Hne. by eapply pt_inj.
Qed.
Lemma grow_fresh k : T !! k ≠ Some q.
Proof. intros Hk. apply (pt_page _ _ _ _ Hpt k q Hk). left. Qed.
Lemma grow_snoc k j : k ++ [j] = path ++ [i] → k = path ∧ j = i.
Proof. intros [Hk [= ->]]%app_inj_2; done. Qed.

Lemma grow_node k r j :
  <[path ++ [i] := q]> T !! k = Some r → (length k < 2)%nat → 0 ≤ j < 512 →
  match <[path ++ [i] := q]> T !! (k ++ [j]) with
  | Some q' => pte_V (load64 m3 (r + 8 * j)) = true ∧ pte_target (load64 m3 (r + 8 * j)) = q'
  | None => pte_V (load64 m3 (r + 8 * j)) = false
  end.
Proof.
  rewrite lookup_insert. case_decide as Hd.
  - intros [= <-] _ Hj. rewrite lookup_insert_ne.
    2:{ rewrite <-Hd. intros Heq%(f_equal length). rewrite !length_app in Heq. simpl in Heq. lia. }
    destruct (T !! (k ++ [j])) eqn:E.
    + destruct (pt_closed _ _ _ _ Hpt k j) as [? ?]; [by rewrite E|congruence].
    + by rewrite load64_page_zero by (done || apply grow_zero).
  - intros Hk Hlk Hj. rewrite lookup_insert. pose proof (pt_node _ _ _ _ Hpt k r j Hk Hlk Hj) as Hn.
    case_decide as Hd2.
    + symmetry in Hd2. apply grow_snoc in Hd2 as [-> ->]. rewrite Hpath in Hk. by injection Hk as <-.
    + destruct (decide (k = path)) as [->|Hne].
      * rewrite Hpath in Hk. injection Hk as <-. assert (j ≠ i) by congruence. destruct grow_p as [Hp Hpni].
        assert (load64 m3 (p + 8 * j) = load64 (vm_mem s) (p + 8 * j)) as ->; [|done].
        apply load_le_agree. intros b Hb. apply (grow_other p); [done..|lia|lia].
      * rewrite (load64_page (vm_mem s) m3); [done| |done]. intros a. by apply (grow_pages k).
Qed.
Lemma grow_rep : pt_rep (set_mem m3 s1) fl root (<[path ++ [i] := q]> T).
Proof.
  destruct grow_fl as (Hq & Hqni & _). pose proof Hpt as [Hroot Hpage Hinj Hcl _]. constructor; cbn.
  - rewrite lookup_insert_ne; [done|]. by destruct path.
  - intros k r. rewrite lookup_insert. case_decide; [by intros [= <-]|].
    intros Hk. destruct (Hpage k r Hk). set_solver.
  - intros k1 k2 r. rewrite !lookup_insert. repeat case_decide; intros H1 H2; try congruence; try by eapply Hinj.
    all: match goal with H : T !! ?k = Some _ |- _ => exfalso; apply (grow_fresh k); congruence end.
  - intros k j. rewrite !lookup_insert. case_decide as Hd1.
    + intros _. symmetry in Hd1. apply grow_snoc in Hd1 as [-> _]. case_decide; eauto.
    + intros ?%Hcl. case_decide; eauto.
  - apply grow_node.
Qed.
Lemma grow_translate va : translate m3 (<[path ++ [i] := q]> T) va = translate (vm_mem s) T va.
Proof.
  unfold translate, leaf_pte. rewrite lookup_insert. case_decide as Hd.
  - rewrite <-Hd, Hnone. simpl. by rewrite load64_page_zero by (apply grow_zero || apply vpn_range).
  - destruct (T !! [vpn va 2; vpn va 1]) as [r|] eqn:E; [|done]. simpl.
    rewrite (load64_page (vm_mem s) m3 r); [done| |apply vpn_range]. intros a Ha.
    eapply grow_pages; [exact E| |done]. intros Heq. rewrite <-Heq in Hlen. simpl in Hlen. lia.
Qed.
Lemma pt_grow : pt_ext root s (q :: fl) T (set_mem m3 s1) fl (<[path ++ [i] := q]> T).
Proof.
  destruct grow_fl as (Hq & Hqni & Hfl), grow_p as [Hp Hpni]. constructor.
  - apply vm_inv_store; [done|]. intros x a Hx Ha. apply Hm3.
    destruct (pages_apart p x); [done|auto| |lia|lia]. intros ->. apply Hpni. by right.
  - apply grow_rep.
  - by apply insert_subseteq.
  - exists [q]. split; [done|]. intros k r. rewrite lookup_insert.
    case_decide; [intros [= <-]; right; left|by left].
  - apply grow_translate.
  - destruct Hpost as (Hfr & Hh & Hms & Hs). split_and!; [|done..].
    intros b Hb. cbn. rewrite Hm3.
    + apply Hfr. intros x Hx. apply Hb. set_solver.
    + destruct (Hb p); [|lia|unfold PGSIZE in *; lia].
      apply elem_of_app. right. apply pt_pages_elem. eauto.
Qed.
End grow.

(** ** Composition of growth steps *)
Lemma pt_ext_refl root s fl T : vm_inv s fl → pt_rep s fl root T → pt_ext root s fl T s fl T.
Proof.
  intros Hi Hp. constructor; try done. exists []. split; [done|]. by left.
Qed.
Lemma ext_pages root s fl T s' fl' T' p :
  pt_ext root s fl T s' fl' T' → p ∈ fl' ++ pt_pages T' → p ∈ fl ++ pt_pages T.
Proof.
  intros [_ _ _ (used & -> & Hu) _ _] [Hp|(k & Hk)%pt_pages_elem]%elem_of_app; [set_solver|].
  destruct (Hu k p Hk) as [Hk'|Hk']; [|set_solver].
  apply elem_of_app. right. apply pt_pages_elem. eauto.
Qed.
Lemma pt_ext_trans root s fl T s1 fl1 T1 s2 fl2 T2 :
  pt_ext root s fl T s1 fl1 T1 → pt_ext root s1 fl1 T1 s2 fl2 T2 → pt_ext root s fl T s2 fl2 T2.
Proof.
  intros H1 H2.
  assert (Hpg : ∀ p, p ∈ fl1 ++ pt_pages T1 → p ∈ fl ++ pt_pages T) by (intros p; by eapply ext_pages).
  destruct H1 as [_ _ Hs1 (u1 & -> & Hu1) Ht1 Hp1], H2 as [Hi2 Hr2 Hs2 (u2 & -> & Hu2) Ht2 Hp2].
  constructor; try done.
  - by etrans.
  - exists (u1 ++ u2). rewrite app_assoc. split; [done|]. intros k p Hk.
    destruct (Hu2 k p Hk) as [Hk'|]; [|set_solver]. destruct (Hu1 k p Hk'); set_solver.
  - intros va. by rewrite Ht2.
  - eapply vm_post_trans; [done|]. eapply vm_post_mono; [|done]. done.
Qed.
Lemma load64_store64_same m a v : 0 ≤ v < 2 ^ 64 → load64 (store64 m a v) a = v.
Proof. intros. rewrite load64_store64. by apply wrap_small. Qed.
Lemma load8_store64_ne m a v b : b < a ∨ a + 8 ≤ b → load8 (store64 m a v) b = load8 m b.
Proof. intros. rewrite load8_store_le, decide_False by lia. done. Qed.
(** the entry [page >> 2 | f] *)
Definition mk_pte (pa f : Z) : Z := Z.lor (Z.shiftr pa 2) f.
Lemma shiftr2_range pa : 0 ≤ pa < 2 ^ 56 → 0 ≤ Z.shiftr pa 2 < 2 ^ 54.
Proof. intros. rewrite Z.shiftr_div_pow2 by lia. change (2 ^ 2) with 4. dlia. Qed.
Lemma mk_pte_range pa f : 0 ≤ pa < 2 ^ 56 → 0 ≤ f < 1024 → 0 ≤ mk_pte pa f < 2 ^ 64.
Proof.
  intros Hpa Hf. pose proof (shiftr2_range pa Hpa). unfold mk_pte.
  pose proof (lor_range 54 (Z.shiftr pa 2) f). lia.
Qed.
Lemma pte_V_mk pa f : Z.testbit f 0 = true → pte_V (mk_pte pa f) = true.
Proof.
  intros Hf. unfold pte_V, PTE_V. apply nonzero_true. intros H0.
  apply (f_equal (λ z, Z.testbit z 0)) in H0. unfold mk_pte in H0.
  rewrite Z.land_spec, Z.lor_spec, Hf, orb_true_r in H0. done.
Qed.
Lemma page_ok_pte p : page_ok p → 0 ≤ p < 2 ^ 56 ∧ p mod PGSIZE = 0.
Proof. intros Hp. pose proof (page_ok_64 p Hp). destruct Hp. split; [lia|done]. Qed.

Lemma wp_walk_alloc n path pte i s fl T root va :
  vm_inv s fl → pt_rep s fl root T → T !! path = Some pte → (length path + n ≤ 2)%nat → (n ≤ length fl)%nat →
  wp (GetPTE_walk n pte va i true) (λ r s', ∃ q fl' T', r = Some q ∧
    T' !! (path ++ vpns va i n) = Some q ∧ pt_ext root s fl T s' fl' T' ∧ (length fl ≤ length fl' + n)%nat) s.
Proof.
  revert path pte i s fl T. induction n as [|n IH]; intros path pte i s fl T Hinv Hpt Hpath Hlen Hfl; cbn [GetPTE_walk vpns].
  { apply wp_ret. exists pte, fl, T. rewrite app_nil_r. split_and!; [done..|by apply pt_ext_refl|lia]. }
  destruct (pt_page _ _ _ _ Hpt _ _ Hpath) as [Hp Hpni].
  pose proof (vpn_range va i) as Hv. set (j := vpn va i) in *.
  assert (Hram : ram_ok (pte + 8 * j) 8 = true) by (apply ram_ok_page; [done|lia..]).
  pose proof (pt_node _ _ _ _ Hpt path pte j Hpath ltac:(lia) Hv) as Hnode.
  apply wp_bind, wp_ld64; [done|].
  destruct (T !! (path ++ [j])) as [q|] eqn:Hq.
  - destruct Hnode as [-> ->]. cbn [negb].
    eapply wp_mono; [apply (IH (path ++ [j])); [done..|rewrite length_app; simpl; lia|lia]|].
    intros r s' (q' & fl' & T' & -> & HT' & Hext & Hl). rewrite <-app_assoc in HT'.
    exists q', fl', T'. split_and!; [done..|lia].
  - rewrite Hnode. cbn [negb]. destruct fl as [|q fl]; [simpl in Hfl; lia|].
    apply wp_bind. eapply wp_mono; [by apply Alloc_spec|].
    intros ? s1 (-> & Hinv1 & Hz & Hpost).
    pose proof (inv_pages _ _ Hinv) as ([Hqp _]%Forall_cons & _ & _).
    destruct (page_ok_pte q Hqp) as [Hq56 Hqal]. pose proof (shiftr2_range q Hq56).
    replace (q =? 0) with false by (pose proof (page_ok_nz q Hqp); lia).
    wp_steps. apply wp_st64; [done|]. apply wp_bind, wp_ld64; [done|]. vm_simpl.
    rewrite load64_store64_same by lia. apply wp_bind, wp_st64; [done|]. apply wp_bind, wp_ld64; [done|]. vm_simpl.
    pose proof (mk_pte_range q PTE_V Hq56 ltac:(done)) as Hmk. unfold mk_pte in Hmk.
    rewrite load64_store64_same by done. rewrite pte_target_make by done.
    set (s2 := set_mem _ (set_mem _ s1)).
    assert (Hext : pt_ext root s (q :: fl) T s2 fl (<[path ++ [j] := q]> T)).
    { apply (pt_grow root s s1 q fl T path pte j); try done; [lia|..].
      - rewrite load64_store64_same by done. by apply (pte_V_mk q PTE_V).
      - rewrite load64_store64_same by done. by apply pte_target_make.
      - intros b Hb. by rewrite !load8_store64_ne. }
    eapply wp_mono; [apply (IH (path ++ [j]) q (i - 1) s2 fl (<[path ++ [j] := q]> T))|].
    + apply Hext.
    + apply Hext.
    + by rewrite lookup_insert_eq.
    + rewrite length_app. simpl. lia.
    + simpl in Hfl. lia.
    + intros r s' (q' & fl' & T' & -> & HT' & Hext' & Hl). rewrite <-app_assoc in HT'.
      exists q', fl', T'. split_and!; [done..|by eapply pt_ext_trans|simpl; lia].
Qed.

(** ** Reading *)
Lemma walk_find n path pte i s fl T root va :
  pt_rep s fl root T → T !! path = Some pte → (length path + n ≤ 2)%nat →
  GetPTE_walk n pte va i false s = Ok (T !! (path ++ vpns va i n), s).
Proof.
  revert path pte i. induction n as [|n IH]; intros path pte i Hpt Hpath Hlen; cbn [GetPTE_walk vpns].
  { by rewrite app_nil_r, Hpath. }
  destruct (pt_page _ _ _ _ Hpt _ _ Hpath) as [Hp Hpni].
  pose proof (vpn_range va i) as Hv. set (j := vpn va i) in *.
  pose proof (pt_node _ _ _ _ Hpt path pte j Hpath ltac:(lia) Hv) as Hnode.
  erewrite bind_Ok by (unfold ld64; rewrite ram_ok_page; [done|done|lia..]).
  change (path ++ j :: vpns va (i - 1) n) with (path ++ [j] ++ vpns va (i - 1) n). rewrite app_assoc.
  destruct (T !! (path ++ [j])) as [q|] eqn:Hq.
  - destruct Hnode as [-> ->]. cbn [negb]. apply IH; [done..|]. rewrite length_app. simpl. lia.
  - rewrite Hnode. cbn [negb].
    assert (Hnone : ∀ l, T !! ((path ++ [j]) ++ l) = None).
    { intros l. induction l as [|x l IHl] using rev_ind; [by rewrite app_nil_r|].
      destruct (T !! ((path ++ [j]) ++ l ++ [x])) eqn:E; [|done]. rewrite app_assoc in E.
      destruct (pt_closed _ _ _ _ Hpt _ _ (mk_is_Some _ _ E)) as [? ?]. congruence. }
    by rewrite Hnone.
Qed.
Lemma AddrCastDown_spec va : 0 ≤ va < 2 ^ 64 → AddrCastDown va = va - va mod PGSIZE.
Proof.
  intros Hva. unfold AddrCastDown. change (u64 (Z.lnot (PGSIZE - 1))) with (Z.shiftl (Z.ones 52) 12).
  replace (va - va mod PGSIZE) with (Z.shiftl (va / PGSIZE) 12).
  2:{ rewrite Z.shiftl_mul_pow2 by lia. change (2 ^ 12) with PGSIZE. unfold PGSIZE. dlia. }
  apply Z.bits_inj'. intros j Hj. rewrite Z.land_spec. destruct (decide (j < 12)).
  - rewrite !Z.shiftl_spec_low by lia. apply andb_false_r.
  - rewrite !Z.shiftl_spec by lia. change PGSIZE with (2 ^ 12).
    rewrite Z.div_pow2_bits by lia. rewrite Z.testbit_ones_nonneg by lia.
    replace (j - 12 + 12) with j by lia. destruct (decide (j < 64)).
    + replace (j - 12 <? 52) with true by lia. apply andb_true_r.
    + rewrite (range_bits 64 va) by lia. done.
Qed.
Lemma vpn_div va i : 0 ≤ i → vpn va i = (va / 2 ^ (12 + i * 9)) mod 512.
Proof.
  intros Hi. unfold vpn. change 0x1ff with (Z.ones 9). rewrite Z.land_ones, Z.shiftr_div_pow2 by lia. done.
Qed.
Lemma vpn_AddrCastDown va i : 0 ≤ va < 2 ^ 64 → 0 ≤ i → vpn (AddrCastDown va) i = vpn va i.
Proof.
  intros Hva Hi. rewrite AddrCastDown_spec, !vpn_div by lia. f_equal.
  rewrite !Z.pow_add_r, <-!Z.div_div by lia. f_equal. unfold PGSIZE. change (2 ^ 12) with 4096. dlia.
Qed.
(** the alignment [GetPTE] and [FreePage] start with *)
Lemma align_vpn va i : 0 ≤ va < 2 ^ 64 → 0 ≤ i →
  vpn (if negb (va mod PGSIZE =? 0) then AddrCastDown va else va) i = vpn va i.
Proof. intros. destruct (negb _); [by apply vpn_AddrCastDown|done]. Qed.
(** [va]s with the same three indices are in the same page *)
Lemma vpn_inj va va' : 0 ≤ va < 2 ^ 39 → 0 ≤ va' < 2 ^ 39 →
  vpn va 2 = vpn va' 2 → vpn va 1 = vpn va' 1 → vpn va 0 = vpn va' 0 → va / PGSIZE = va' / PGSIZE.
Proof.
  intros Hva Hva'. rewrite !vpn_div by lia. unfold PGSIZE.
  change (2 ^ (12 + 2 * 9)) with 1073741824. change (2 ^ (12 + 1 * 9)) with 2097152.
  change (2 ^ (12 + 0 * 9)) with 4096. intros. dlia.
Qed.

Lemma GetPTE_find s fl T root va :
  pt_rep s fl root T → 0 ≤ va < 2 ^ 64 →
  GetPTE root va false 3 s =
    Ok (match T !! [vpn va 2; vpn va 1] with Some q => q + 8 * vpn va 0 | None => 0 end, s).
Proof.
  intros Hpt Hva. destruct (pt_page _ _ _ _ Hpt _ _ (pt_root _ _ _ _ Hpt)) as [Hr _].
  unfold GetPTE. replace (root =? 0) with false by (pose proof (page_ok_nz _ Hr); lia).
  cbn [Z.ltb Z.compare orb Pos.compare Pos.compare_cont].
  erewrite bind_Ok by (eapply (walk_find _ []); [done|apply Hpt|simpl; lia]).
  change (Z.to_nat (3 - 1)) with 2%nat. cbn [app vpns]. change (2 - 1) with 1.
  rewrite !align_vpn by lia. by destruct (T !! _).
Qed.
Lemma leaf_ram s fl T root va q :
  pt_rep s fl root T → T !! [vpn va 2; vpn va 1] = Some q →
  page_ok q ∧ q ∉ fl ∧ ram_ok (q + 8 * vpn va 0) 8 = true ∧ q + 8 * vpn va 0 ≠ 0.
Proof.
  intros Hpt Hq. destruct (pt_page _ _ _ _ Hpt _ _ Hq) as [Hqp Hqf]. pose proof (vpn_range va 0).
  pose proof (page_ok_64 q Hqp). split_and!; [done..| |lia]. apply ram_ok_page; [done|lia..].
Qed.
Lemma pte_target_range e : 0 ≤ pte_target e < 2 ^ 56.
Proof. unfold pte_target. apply land_range_r; [lia|]. by vm_compute. Qed.
Lemma VAToPA_ok s fl T root va :
  pt_rep s fl root T → 0 ≤ va < 2 ^ 64 →
  VAToPA root va s = Ok (match translate (vm_mem s) T va with
                         | Some (p, f) => (p + va mod PGSIZE, Some f)
                         | None => (0, None)
                         end, s).
Proof.
  intros Hpt Hva. unfold VAToPA. erewrite bind_Ok by by eapply GetPTE_find.
  unfold translate, leaf_pte. destruct (T !! [vpn va 2; vpn va 1]) as [q|] eqn:Hq; [|done].
  destruct (leaf_ram _ _ _ _ va q Hpt Hq) as (_ & _ & Hram & Hnz).
  replace (q + 8 * vpn va 0 =? 0) with false by lia.
  erewrite bind_Ok by (unfold ld64; by rewrite Hram). cbn.
  destruct (pte_V _); [|done]. cbn. rewrite wrap_small; [done|].
  pose proof (pte_target_range (load64 (vm_mem s) (q + 8 * vpn va 0))).
  assert (0 ≤ va mod PGSIZE < 4096) by (apply Z.mod_pos_bound; done). lia.
Qed.

(** ** Writing a leaf entry *)
Definition decode (e : Z) : option (Z * Z) :=
  if pte_V e then Some (pte_target e, Z.land e PTE_MASK) else None.
Section leaf.
Context (root : Z) (s : vmstate) (fl : list Z) (T : ptree) (va q : Z) (m3 : mem).
Hypothesis Hinv : vm_inv s fl.
Hypothesis Hpt : pt_rep s fl root T.
Hypothesis Hq : T !! [vpn va 2; vpn va 1] = Some q.
Let a := q + 8 * vpn va 0.
Hypothesis Hm3 : ∀ b, b < a ∨ a + 8 ≤ b → load8 m3 b = load8 (vm_mem s) b.

Lemma leaf_other p b : page_ok p → p ≠ q → p ≤ b < p + 4096 → load8 m3 b = load8 (vm_mem s) b.
Proof.
  intros Hp Hne Hb. apply Hm3. unfold a. destruct (leaf_ram _ _ _ _ _ _ Hpt Hq) as (Hqp & _).
  pose proof (vpn_range va 0). destruct (pages_apart p q); [done..|lia|lia].
Qed.
Lemma leaf_inv : vm_inv (set_mem m3 s) fl.
Proof.
  destruct (leaf_ram _ _ _ _ _ _ Hpt Hq) as (Hqp & Hqf & _).
  apply vm_inv_store; [done|]. intros p b Hp Hb.
  destruct (inv_pages _ _ Hinv) as (Hfl & _). rewrite Forall_forall in Hfl.
  apply (leaf_other p); [auto|by intros ->|lia].
Qed.
Lemma leaf_rep : pt_rep (set_mem m3 s) fl root T.
Proof.
  eapply pt_rep_mem; [done|]. intros k p b Hk Hl Hb. destruct (pt_page _ _ _ _ Hpt _ _ Hk) as [Hp _].
  apply (leaf_other p); [done| |done]. intros ->.
  pose proof (pt_inj _ _ _ _ Hpt _ _ _ Hk Hq) as ->. simpl in Hl. lia.
Qed.
Lemma leaf_translate va' :
  translate m3 T va' = if decide (same_page va va') then decode (load64 m3 a) else translate (vm_mem s) T va'.
Proof.
  unfold translate, leaf_pte. case_decide as Hs.
  - destruct Hs as (<- & <- & <-). by rewrite Hq.
  - destruct (T !! [vpn va' 2; vpn va' 1]) as [p|] eqn:Hp; [|done]. simpl.
    assert (load64 m3 (p + 8 * vpn va' 0) = load64 (vm_mem s) (p + 8 * vpn va' 0)) as ->; [|done].
    pose proof (vpn_range va' 0). apply load_le_agree. intros b Hb.
    destruct (decide (p = q)) as [->|Hne].
    + apply Hm3. unfold a. pose proof (pt_inj _ _ _ _ Hpt _ _ _ Hp Hq) as [= H2 H1].
      assert (vpn va 0 ≠ vpn va' 0) by (intros H0; by apply Hs). lia.
    + destruct (pt_page _ _ _ _ Hpt _ _ Hp). apply (leaf_other p); [done..|lia].
Qed.
Lemma leaf_post : vm_post (pt_pages T) s (set_mem m3 s).
Proof.
  split_and!; [|done..]. intros b Hb. apply Hm3. pose proof (vpn_range va 0).
  destruct (Hb q); unfold a, PGSIZE in *; [apply pt_pages_elem; eauto|lia|lia].
Qed.
End leaf.

Lemma lor_land_mask pa f :
  0 ≤ pa < 2 ^ 56 → pa mod PGSIZE = 0 → Z.land (mk_pte pa f) PTE_MASK = Z.land f PTE_MASK.
Proof.
  intros Hpa Hal. apply Z.bits_inj'. intros j Hj. unfold mk_pte.
  rewrite !Z.land_spec, Z.lor_spec, Z.shiftr_spec by lia. destruct (decide (j < 10)).
  - by rewrite aligned_bits by (done || lia).
  - rewrite (range_bits 5 PTE_MASK) by (done || lia). by rewrite !andb_false_r.
Qed.
Lemma decode_mk pa f :
  0 ≤ pa < 2 ^ 56 → pa mod PGSIZE = 0 → 0 ≤ f < 1024 →
  decode (mk_pte pa (Z.lor PTE_V f)) = Some (pa, Z.land f PTE_MASK).
Proof.
  intros Hpa Hal Hf. unfold decode.
  assert (0 ≤ Z.lor PTE_V f < 1024) by (by apply (lor_range 10)).
  rewrite pte_V_mk, lor_land_mask by (done || by rewrite Z.lor_spec).
  unfold mk_pte. rewrite pte_target_make by done. do 2 f_equal.
  rewrite Z.land_lor_distr_l. done.
Qed.

Lemma wp_MapPage root va pa privilege s fl T :
  vm_inv s fl → pt_rep s fl root T → (2 ≤ length fl)%nat →
  0 ≤ va ≤ MAX_SUPPORT_VA → va mod PGSIZE = 0 → 0 ≤ pa ≤ MEMORY_END → pa mod PGSIZE = 0 →
  0 ≤ privilege < 1024 →
  wp (MapPage root va pa privilege) (λ r s', r = true ∧ ∃ fl' T',
    pt_upd root va (Some (pa, Z.land privilege PTE_MASK)) s fl T s' fl' T' ∧
    vm_post (fl ++ pt_pages T) s s' ∧ (length fl ≤ length fl' + 2)%nat ∧
    (∀ p, p ∈ fl' ++ pt_pages T' → p ∈ fl ++ pt_pages T) ∧ (∃ used, fl = used ++ fl')) s.
Proof.
  intros Hinv Hpt Hfl Hva Hval Hpa Hpal Hpriv.
  destruct (pt_page _ _ _ _ Hpt _ _ (pt_root _ _ _ _ Hpt)) as [Hr _].
  unfold MapPage. replace (root =? 0) with false by (pose proof (page_ok_nz _ Hr); lia).
  replace (MEMORY_END <? pa) with false by lia. replace (MAX_SUPPORT_VA <? va) with false by lia.
  rewrite (proj1 Hr), Hval, Hpal. cbn [Z.eqb negb orb].
  apply wp_bind. unfold GetPTE. replace (root =? 0) with false by (pose proof (page_ok_nz _ Hr); lia).
  rewrite Hval. cbn [Z.eqb negb orb Z.ltb Z.compare Pos.compare Pos.compare_cont].
  apply wp_bind. eapply wp_mono; [eapply (wp_walk_alloc 2 []); try done; apply Hpt|].
  intros r s1 (q & fl1 & T1 & -> & Hq & Hext & Hl). apply wp_ret. cbn [app vpns] in Hq.
  change (2 - 1) with 1 in Hq. change (3 - 3) with 0.
  destruct (leaf_ram _ _ _ _ va q (ext_rep _ _ _ _ _ _ _ Hext) Hq) as (Hqp & Hqf & Hram & Hnz).
  replace (q + 8 * vpn va 0 =? 0) with false by lia.
  assert (Hpa56 : 0 ≤ pa < 2 ^ 56) by (unfold MEMORY_END, KERNEL_BASE in Hpa; lia).
  pose proof (shiftr2_range pa Hpa56). set (a := q + 8 * vpn va 0) in *.
  pose proof (mk_pte_range pa PTE_V Hpa56 ltac:(done)) as Hmk1.
  assert (Hf : 0 ≤ Z.lor PTE_V privilege < 1024) by (by apply (lor_range 10)).
  pose proof (mk_pte_range pa (Z.lor PTE_V privilege) Hpa56 Hf) as Hmk2. unfold mk_pte in *.
  apply wp_bind, wp_st64; [done|]. apply wp_bind, wp_ld64; [done|]. vm_simpl.
  rewrite load64_store64_same by lia. apply wp_bind, wp_st64; [done|]. apply wp_bind, wp_ld64; [done|]. vm_simpl.
  rewrite load64_store64_same by lia. apply wp_bind, wp_st64; [done|]. apply wp_ret. vm_simpl.
  rewrite <-Z.lor_assoc. set (m3 := store64 (store64 _ _ _) _ _). change (set_mem m3 _) with (set_mem m3 s1).
  assert (Hm3 : ∀ b, b < a ∨ a + 8 ≤ b → load8 m3 b = load8 (vm_mem s1) b).
  { intros b Hb. unfold m3. by rewrite !load8_store64_ne. }
  assert (Hl3 : load64 m3 a = mk_pte pa (Z.lor PTE_V privilege)) by (by apply load64_store64_same).
  pose proof Hext as [Hi1 Hr1 _ (used & Hused & _) Ht1 Hp1].
  split; [done|]. exists fl1, T1. split; [|split_and!].
  - constructor; [by eapply leaf_inv|by eapply leaf_rep|]. intros va'. cbn.
    rewrite (leaf_translate root s1 fl1 T1 va q m3); [|done..]. fold a. rewrite Hl3, decode_mk, Ht1 by done. done.
  - eapply vm_post_trans; [done|]. eapply vm_post_mono; [|by eapply (leaf_post s1)].
    intros p Hp. eapply ext_pages; [exact Hext|]. set_solver.
  - lia.
  - intros p Hp. by eapply ext_pages.
  - by exists used.
Qed.

(** ** Unmapping *)
Lemma translate_leaf m T va p f : translate m T va = Some (p, f) →
  ∃ q, T !! [vpn va 2; vpn va 1] = Some q ∧ pte_V (load64 m (q + 8 * vpn va 0)) = true ∧
    pte_target (load64 m (q + 8 * vpn va 0)) = p.
Proof.
  unfold translate, leaf_pte. destruct (T !! _) as [q|]; simpl; [|done].
  destruct (pte_V _) eqn:?; [|done]. naive_solver.
Qed.
Lemma pt_rep_mstatus v s fl root T : pt_rep s fl root T → pt_rep (put_mstatus v s) fl root T.
Proof. intros []. by constructor. Qed.
(** pages outside [pages] keep their bytes *)
Lemma post_page pages s s' p : vm_post pages s s' → Forall page_ok pages → page_ok p → p ∉ pages →
  ∀ a, p ≤ a < p + 4096 → load8 (vm_mem s') a = load8 (vm_mem s) a.
Proof.
  intros (Hf & _) Hps Hp Hni a Ha. apply Hf. intros r Hr. rewrite Forall_forall in Hps.
  apply (page_apart_byte r p); [auto|done|by intros ->|lia].
Qed.
Lemma pt_pages_ok s fl root T : pt_rep s fl root T → Forall page_ok (pt_pages T).
Proof.
  intros Hpt. apply Forall_forall. intros p (k & Hk)%pt_pages_elem. by eapply pt_page.
Qed.
Lemma wp_FreePage root va s fl T p f :
  vm_inv s fl → pt_rep s fl root T → 0 ≤ va < 2 ^ 64 →
  translate (vm_mem s) T va = Some (p, f) → data_page fl T p →
  wp (FreePage root va 3) (λ _ s', pt_upd root va None s fl T s' (p :: fl) T ∧
    vm_post (p :: fl ++ pt_pages T) s s') s.
Proof.
  intros Hinv Hpt Hva Htr (Hp & Hpf & Hpt').
  destruct (translate_leaf _ _ _ _ _ Htr) as (q & Hq & HV & Htgt).
  destruct (leaf_ram _ _ _ _ va q Hpt Hq) as (Hqp & Hqf & Hram & Hnz).
  pose proof (inv_pages _ _ Hinv) as (Hfl & _).
  unfold FreePage. apply wp_bind, wp_ok. eexists _, s. split.
  { apply (GetPTE_find _ _ _ _ _ Hpt). destruct (negb _); [|done].
    rewrite AddrCastDown_spec by done. unfold PGSIZE. dlia. }
  rewrite !align_vpn by lia. rewrite Hq. replace (q + 8 * vpn va 0 =? 0) with false by lia.
  apply wp_bind, wp_ld64; [done|]. rewrite HV, Htgt. cbn [negb].
  apply wp_guarded; [apply Hinv|]. apply wp_bind. pose proof (vm_inv_masked _ _ Hinv).
  eapply wp_mono; [by apply wp_push_free|]. intros [] s1 Hw. apply wp_bind.
  eapply wp_mono; [exact Hw|]. intros [] s2 (Hi2 & Hpost). apply wp_st64; [done|].
  assert (Hpt2 : pt_rep s2 (p :: fl) root T).
  { destruct Hpt as [Hroot Hpage Hinj Hcl Hnode].
    apply (pt_rep_mem s); [constructor; try done|].
    - intros k r Hk. destruct (Hpage k r Hk). split; [done|]. intros [->|]%elem_of_cons; [|done].
      apply Hpt', pt_pages_elem. eauto.
    - intros k r a Hk _. destruct (Hpage k r Hk).
      intros Ha. refine (post_page (p :: fl) (masked s) s2 r Hpost _ _ _ a Ha); [by constructor|done|].
      intros [->|]%elem_of_cons; [|done]. apply Hpt', pt_pages_elem. eauto. }
  set (a := q + 8 * vpn va 0) in *. set (m3 := store64 (vm_mem s2) a 0).
  assert (Hm3 : ∀ b, b < a ∨ a + 8 ≤ b → load8 m3 b = load8 (vm_mem s2) b) by (intros; by apply load8_store64_ne).
  pose proof Hpost as (Hf & Hh & Hms & Hs). split; [done|]. split.
  - constructor.
    + apply vm_inv_mstatus; [apply Hinv|]. by eapply leaf_inv.
    + apply pt_rep_mstatus. by eapply leaf_rep.
    + intros va'. transitivity (translate m3 T va'); [done|]. rewrite (leaf_translate root s2 (p :: fl) T va q m3) by done.
      fold a. assert (load64 m3 a = 0) as -> by (apply load64_store64_same; lia). case_decide; [done|].
      apply translate_mem. intros k r b Hk _ Hb. destruct (pt_page _ _ _ _ Hpt2 _ _ Hk) as [Hr Hrni].
      refine (post_page (p :: fl) (masked s) s2 r Hpost _ Hr Hrni b Hb). by constructor.
  - split_and!; [|done..]. intros b Hb. transitivity (load8 m3 b); [done|]. rewrite Hm3.
    + apply (Hf b). intros r Hr. apply Hb. set_solver.
    + pose proof (vpn_range va 0). destruct (Hb q); unfold a, PGSIZE in *; [|lia|lia].
      apply elem_of_cons. right. apply elem_of_app. right. apply pt_pages_elem. eauto.
Qed.

(** ** Ranges *)
Lemma page_zero_post pages s s' p : vm_post pages s s' → Forall page_ok pages → page_ok p → p ∉ pages →
  page_zero (vm_mem s) p → page_zero (vm_mem s') p.
Proof. intros Hp Hf Hpk Hni Hz a Ha. rewrite (post_page pages s s' p); [by apply Hz|done..]. Qed.
Lemma post_rep root s s' p fl T :
  vm_inv s (p :: fl) → vm_post (p :: fl) s s' → pt_rep s (p :: fl) root T →
  pt_rep s' fl root T ∧ ∀ va, translate (vm_mem s') T va = translate (vm_mem s) T va.
Proof.
  intros Hinv Hpost Hpt. pose proof (inv_pages _ _ Hinv) as (Hfl & _).
  assert (Hm : ∀ k r a, T !! k = Some r → r ≤ a < r + 4096 → load8 (vm_mem s') a = load8 (vm_mem s) a).
  { intros k r a Hk. destruct (pt_page _ _ _ _ Hpt k r Hk). by apply (post_page (p :: fl)). }
  split.
  - eapply pt_rep_mem; [by eapply pt_rep_shrink|]. eauto.
  - intros va. apply translate_mem. eauto.
Qed.
Lemma Alloc_rep root s p fl T :
  vm_inv s (p :: fl) → pt_rep s (p :: fl) root T →
  wp Alloc (λ t s', t = p ∧ vm_inv s' fl ∧ pt_rep s' fl root T ∧ page_zero (vm_mem s') p ∧
    (∀ va, translate (vm_mem s') T va = translate (vm_mem s) T va) ∧ vm_post (p :: fl) s s') s.
Proof.
  intros Hinv Hpt. eapply wp_mono; [by apply Alloc_spec|]. intros t s' (-> & Hi & Hz & Hpost).
  destruct (post_rep root s s' p fl T) as [Hr Ht]; [done..|]. by split_and!.
Qed.
Lemma same_page_range b j va : b mod PGSIZE = 0 → 0 ≤ b + j * PGSIZE < 2 ^ 39 → 0 ≤ va < 2 ^ 39 →
  same_page (b + j * PGSIZE) va ↔ (va - b) / PGSIZE = j.
Proof.
  intros Hb Hj Hva. split.
  - intros (H2 & H1 & H0). pose proof (vpn_inj _ _ Hj Hva H2 H1 H0) as H. unfold PGSIZE in *. dlia.
  - intros <-. unfold same_page. rewrite !vpn_div by lia. unfold PGSIZE in *.
    assert ((b + (va - b) / 4096 * 4096) / 4096 = va / 4096) as H by dlia.
    assert (∀ i, 0 ≤ i → (b + (va - b) / 4096 * 4096) / 2 ^ (12 + i) = va / 2 ^ (12 + i)) as Hdiv.
    { intros i Hi. rewrite !Z.pow_add_r, <-!Z.div_div by lia. change (2 ^ 12) with 4096. by rewrite H. }
    by rewrite !Hdiv.
Qed.
Lemma range_map_snoc b f ps p old va :
  b mod PGSIZE = 0 → 0 ≤ b → b + Z.of_nat (length ps) * PGSIZE < 2 ^ 39 → 0 ≤ va < 2 ^ 39 →
  range_map b f (ps ++ [p]) old va =
  if decide (same_page (b + Z.of_nat (length ps) * PGSIZE) va) then Some (p, f) else range_map b f ps old va.
Proof.
  intros Hb Hb0 Hlt Hva. unfold range_map. case_decide as Hs.
  - rewrite same_page_range in Hs by (done || unfold PGSIZE in *; lia).
    replace (b <=? va) with true by (unfold PGSIZE in *; dlia).
    rewrite lookup_app_r by lia. rewrite Hs, Nat2Z.id, Nat.sub_diag. done.
  - rewrite same_page_range in Hs by (done || unfold PGSIZE in *; lia).
    destruct (Z.leb_spec b va); [|done].
    assert (0 ≤ (va - b) / PGSIZE) by (unfold PGSIZE; dlia).
    destruct (decide (Z.to_nat ((va - b) / PGSIZE) < length ps)%nat).
    + by rewrite lookup_app_l.
    + rewrite lookup_app_r by lia. rewrite (lookup_ge_None_2 [p]), (lookup_ge_None_2 ps) by (simpl; lia). done.
Qed.

Lemma data_page_sub fl T fl' T' p :
  data_page fl T p → (∀ q, q ∈ fl' ++ pt_pages T' → q ∈ fl ++ pt_pages T) → data_page fl' T' p.
Proof.
  intros (Hp & Hf & HT) Hsub. split; [done|].
  assert (p ∉ fl' ++ pt_pages T') as Hni; [|by apply not_elem_of_app in Hni].
  intros Hin%Hsub. apply elem_of_app in Hin. naive_solver.
Qed.
Lemma data_page_out fl T p : data_page fl T p → p ∉ fl ++ pt_pages T.
Proof. intros (_ & Hf & HT). by apply not_elem_of_app. Qed.
Lemma data_page_cons q fl T p : data_page (q :: fl) T p → data_page fl T p.
Proof. intros (Hp & [Hq Hf]%not_elem_of_cons & HT). done. Qed.

Lemma MapMemory_step root b priv ps s fl T s1 fl1 T1 :
  b mod PGSIZE = 0 → 0 ≤ b → b + Z.of_nat (length ps) * PGSIZE ≤ MAX_SUPPORT_VA → 0 ≤ priv < 1024 →
  range_mapped root b (Z.land priv PTE_MASK) ps s fl T s1 fl1 T1 → (3 ≤ length fl1)%nat →
  wp (page ← Alloc;
      if page =? 0 then FreeMemory root b (b + Z.of_nat (length ps) * PGSIZE) 3 ;; mret (Some false) else
      ok ← MapPage root (b + Z.of_nat (length ps) * PGSIZE) page priv;
      if (ok : bool) then mret None
      else FreeMemory root b (b + Z.of_nat (length ps) * PGSIZE) 3 ;; mret (Some false))
    (λ r s2, r = None ∧ ∃ p fl2 T2,
       range_mapped root b (Z.land priv PTE_MASK) (ps ++ [p]) s fl T s2 fl2 T2) s1.
Proof.
  intros Hb Hb0 Hva Hpriv [Hinv Hpt Htr Hnd Hps Hlen (u & Hu) Hsub Hpost] Hfl.
  destruct fl1 as [|p fl1]; [simpl in Hfl; lia|].
  pose proof (inv_pages _ _ Hinv) as (Hflp & [Hpni _]%NoDup_cons & _).
  pose proof Hflp as [Hp Hflp']%Forall_cons. destruct (page_ok_pte p Hp) as [_ Hpal].
  assert (HpT : p ∉ pt_pages T1).
  { intros (k & Hk)%pt_pages_elem. apply (pt_page _ _ _ _ Hpt k p Hk). left. }
  apply wp_bind. eapply wp_mono; [by eapply Alloc_rep|].
  intros t s2 (-> & Hinv2 & Hpt2 & Hz & Htr2 & Hpost2).
  pose proof (page_ok_64 p Hp). replace (p =? 0) with false by lia.
  assert (p ≤ MEMORY_END) by (pose proof (page_ok_range p Hp); lia).
  apply wp_bind. eapply wp_mono; [eapply (wp_MapPage root _ p priv s2 fl1 T1); try done|].
  { simpl in Hfl. lia. }
  { unfold PGSIZE in *. lia. }
  { unfold PGSIZE in *. dlia. }
  { lia. }
  intros r s3 (-> & fl3 & T3 & [Hinv3 Hpt3 Htr3] & Hpost3 & Hlen3 & Hsub3 & (used & Hused)).
  apply wp_ret. split; [done|]. exists p, fl3, T3.
  pose proof (pt_pages_ok _ _ _ _ Hpt) as HTok.
  assert (Hpg1 : Forall page_ok (fl1 ++ pt_pages T1)) by (by apply Forall_app).
  constructor; try done.
  - intros va Hvar. rewrite Htr3, range_map_snoc by (done || unfold MAX_SUPPORT_VA, PGSIZE in *; lia).
    case_decide; [done|]. by rewrite Htr2, Htr.
  - apply NoDup_app. split_and!; [done| |apply NoDup_singleton].
    intros x Hx ->%list_elem_of_singleton. destruct (Hps p Hx) as (_ & (_ & Hn & _) & _). apply Hn. left.
  - intros x [Hx| ->%list_elem_of_singleton]%elem_of_app.
    + destruct (Hps x Hx) as (Hxf & Hxd & Hxz). pose proof (data_page_cons _ _ _ _ Hxd) as Hxd1.
      split_and!; [done|by eapply data_page_sub|].
      eapply page_zero_post; [exact Hpost3|done|apply Hxd|by apply data_page_out|].
      eapply page_zero_post; [exact Hpost2|done|apply Hxd|apply Hxd|done].
    + split_and!; [|by eapply (data_page_sub fl1 T1)|].
      * rewrite Hu. apply elem_of_app. right. left.
      * eapply page_zero_post; [exact Hpost3|done|done|by apply not_elem_of_app|done].
  - rewrite length_app. cbn [length] in *. lia.
  - exists (u ++ p :: used). rewrite <-app_assoc. simpl. by rewrite <-Hused.
  - intros x Hx%Hsub3. apply Hsub. by right.
  - eapply vm_post_trans; [exact Hpost|]. eapply vm_post_trans; (eapply vm_post_mono; [|done]);
      intros x Hx; apply Hsub; [|by right]. apply elem_of_app. by left.
Qed.

Lemma AddrCastUp_spec va : 0 ≤ va → va + PGSIZE ≤ 2 ^ 64 →
  AddrCastUp va = (va + PGSIZE - 1) / PGSIZE * PGSIZE.
Proof.
  intros H0 H1. unfold AddrCastUp. unfold PGSIZE in H1. rewrite wrap_small by (unfold PGSIZE; lia).
  fold (AddrCastDown (va + PGSIZE - 1)). rewrite AddrCastDown_spec by (unfold PGSIZE; lia).
  unfold PGSIZE. dlia.
Qed.
(** the pages an address range touches *)
Definition range_base (va_beg : Z) : Z := va_beg - va_beg mod PGSIZE.
Definition range_pages (va_beg va_end : Z) : nat :=
  Z.to_nat ((va_end + PGSIZE - 1) / PGSIZE - va_beg / PGSIZE).
Lemma range_base_ok va : 0 ≤ va → range_base va mod PGSIZE = 0 ∧ 0 ≤ range_base va ≤ va.
Proof. intros H. unfold range_base, PGSIZE. dlia. Qed.
Lemma range_mapped_0 root b f s fl T :
  vm_inv s fl → pt_rep s fl root T → range_mapped root b f [] s fl T s fl T.
Proof.
  intros Hi Hp. constructor; try done.
  - intros va _. unfold range_map. by destruct (b <=? va).
  - constructor.
  - intros p Hin. by apply elem_of_nil in Hin.
  - simpl. lia.
  - by exists [].
Qed.
(** the bounds of the loops over an address range *)
Lemma range_bounds va_beg va_end :
  0 ≤ va_beg ≤ va_end → va_end ≤ MAX_SUPPORT_VA →
  AddrCastDown va_beg = range_base va_beg ∧
  AddrCastUp va_end = range_base va_beg + Z.of_nat (range_pages va_beg va_end) * PGSIZE ∧
  AddrCastUp va_end ≤ MAX_SUPPORT_VA + 1.
Proof.
  unfold MAX_SUPPORT_VA. intros Hb He. rewrite AddrCastDown_spec by lia.
  rewrite AddrCastUp_spec by (unfold PGSIZE; lia). unfold range_base, range_pages, PGSIZE.
  split_and!; [done|dlia|dlia].
Qed.
Lemma wp_MapMemory root va_beg va_end priv s fl T :
  vm_inv s fl → pt_rep s fl root T → 0 ≤ va_beg ≤ va_end → va_end ≤ MAX_SUPPORT_VA → 0 ≤ priv < 1024 →
  (3 * range_pages va_beg va_end ≤ length fl)%nat →
  wp (MapMemory root va_beg va_end priv) (λ r s', r = true ∧ ∃ ps fl' T',
    length ps = range_pages va_beg va_end ∧
    range_mapped root (range_base va_beg) (Z.land priv PTE_MASK) ps s fl T s' fl' T') s.
Proof.
  intros Hinv Hpt Hb He Hpriv Hfl. destruct (range_bounds va_beg va_end Hb He) as (Hdn & Hup & Hmax).
  destruct (range_base_ok va_beg (proj1 Hb)) as [Hal Hrb].
  unfold MapMemory. cbv zeta. rewrite Hdn, Hup in *.
  set (b := range_base va_beg) in *. set (n := range_pages va_beg va_end) in *.
  apply wp_bind. unfold MAX_SUPPORT_VA, PGSIZE in Hmax.
  apply (wp_for_u64 (λ j s', ∃ ps fl' T', length ps = j ∧
    range_mapped root b (Z.land priv PTE_MASK) ps s fl T s' fl' T')).
  - done.
  - unfold PGSIZE. lia.
  - lia.
  - exists [], fl, T. split; [done|]. by apply range_mapped_0.
  - intros j s1 Hj (ps & fl1 & T1 & <- & Hrm). eapply wp_mono.
    + eapply (MapMemory_step root b priv ps s fl T s1 fl1 T1); try done.
      * lia.
      * unfold MAX_SUPPORT_VA, PGSIZE in *. lia.
      * pose proof (rm_len _ _ _ _ _ _ _ _ _ _ Hrm). unfold PGSIZE in Hj. lia.
    + intros r s2 (-> & p & fl2 & T2 & Hrm2). exists (ps ++ [p]), fl2, T2.
      split; [|done]. rewrite length_app. simpl. lia.
  - intros j s1 Hj Hjs (ps & fl1 & T1 & <- & Hrm). apply wp_ret. split; [done|].
    exists ps, fl1, T1. split; [|done]. unfold PGSIZE in *. destruct Hjs; lia.
Qed.

(** [FreeMemory] on a range whose pages are mapped to the data pages [ps] *)
Lemma FreeMemory_step root b f ps s fl T j s1 :
  b mod PGSIZE = 0 → 0 ≤ b → b + Z.of_nat (length ps) * PGSIZE < 2 ^ 39 → (j < length ps)%nat →
  NoDup ps → (∀ p, p ∈ ps → data_page fl T p) →
  (∀ i p, ps !! i = Some p → translate (vm_mem s) T (b + Z.of_nat i * PGSIZE) = Some (p, f)) →
  (vm_inv s1 (rev (take j ps) ++ fl) ∧ pt_rep s1 (rev (take j ps) ++ fl) root T ∧
   ∀ va, 0 ≤ va < 2 ^ 39 → translate (vm_mem s1) T va =
     if decide (b ≤ va < b + Z.of_nat j * PGSIZE) then None else translate (vm_mem s) T va) →
  wp (FreePage root (b + Z.of_nat j * PGSIZE) 3) (λ _ s2,
   vm_inv s2 (rev (take (S j) ps) ++ fl) ∧ pt_rep s2 (rev (take (S j) ps) ++ fl) root T ∧
   ∀ va, 0 ≤ va < 2 ^ 39 → translate (vm_mem s2) T va =
     if decide (b ≤ va < b + Z.of_nat (S j) * PGSIZE) then None else translate (vm_mem s) T va) s1.
Proof.
  intros Hb Hb0 Hlt Hj Hnd Hd Htr (Hi & Hp & Ht).
  destruct (lookup_lt_is_Some_2 ps j Hj) as [p Hpj].
  assert (Hva : 0 ≤ b + Z.of_nat j * PGSIZE < 2 ^ 39) by (unfold PGSIZE in *; lia).
  assert (Hnew : p ∉ rev (take j ps)).
  { intros Hin%list_elem_of_In%in_rev%list_elem_of_In.
    apply elem_of_take in Hin as (k & Hk & Hkj). pose proof (NoDup_lookup _ _ _ _ Hnd Hk Hpj). lia. }
  eapply wp_mono; [eapply (wp_FreePage root _ s1 _ T p f); try done|].
  - unfold PGSIZE in *. lia.
  - rewrite Ht, decide_False by (unfold PGSIZE in *; lia).
    by apply Htr.
  - destruct (Hd p) as (? & ? & ?); [by eapply list_elem_of_lookup_2|]. split_and!; [done| |done].
    by apply not_elem_of_app.
  - intros [] s2 ([Hi2 Hp2 Ht2] & _).
    assert (Htake : rev (take (S j) ps) ++ fl = p :: rev (take j ps) ++ fl).
    { rewrite (take_S_r _ _ _ Hpj), rev_app_distr. done. }
    rewrite Htake. split_and!; [done..|]. intros va Hvar. rewrite Ht2, Ht by done.
    pose proof (same_page_range b (Z.of_nat j) va Hb Hva Hvar) as Hsp.
    destruct (decide (same_page _ _)) as [Hs|Hs].
    + rewrite decide_True; [done|]. apply Hsp in Hs. unfold PGSIZE in *. dlia.
    + assert ((va - b) / PGSIZE ≠ Z.of_nat j) by tauto.
      repeat case_decide; try done; unfold PGSIZE in *; exfalso; dlia.
Qed.
Lemma wp_FreeMemory root va_beg va_end f ps s fl T :
  vm_inv s fl → pt_rep s fl root T → 0 ≤ va_beg ≤ va_end → va_end ≤ MAX_SUPPORT_VA →
  length ps = range_pages va_beg va_end → NoDup ps → (∀ p, p ∈ ps → data_page fl T p) →
  (∀ i p, ps !! i = Some p → translate (vm_mem s) T (range_base va_beg + Z.of_nat i * PGSIZE) = Some (p, f)) →
  wp (FreeMemory root va_beg va_end 3) (λ _ s',
    vm_inv s' (rev ps ++ fl) ∧ pt_rep s' (rev ps ++ fl) root T ∧
    ∀ va, 0 ≤ va < 2 ^ 39 → translate (vm_mem s') T va =
      if decide (va_beg / PGSIZE ≤ va / PGSIZE < (va_end + PGSIZE - 1) / PGSIZE) then None
      else translate (vm_mem s) T va) s.
Proof.
  intros Hinv Hpt Hb He Hlen Hnd Hd Htr. destruct (range_bounds va_beg va_end Hb He) as (Hdn & Hup & Hmax).
  destruct (range_base_ok va_beg (proj1 Hb)) as [Hal Hrb].
  unfold FreeMemory. cbv zeta. rewrite Hdn, Hup in *. rewrite <-Hlen in *.
  assert (Hpg : ∀ va, 0 ≤ va → (va_beg / PGSIZE ≤ va / PGSIZE < (va_end + PGSIZE - 1) / PGSIZE) ↔
    range_base va_beg ≤ va < range_base va_beg + Z.of_nat (length ps) * PGSIZE).
  { intros va Hva. rewrite Hlen. unfold range_base, range_pages, PGSIZE. dlia. }
  set (b := range_base va_beg) in *. unfold MAX_SUPPORT_VA, PGSIZE in Hmax.
  apply (wp_for_u64_ (λ j s1, vm_inv s1 (rev (take j ps) ++ fl) ∧ pt_rep s1 (rev (take j ps) ++ fl) root T ∧
   ∀ va, 0 ≤ va < 2 ^ 39 → translate (vm_mem s1) T va =
     if decide (b ≤ va < b + Z.of_nat j * PGSIZE) then None else translate (vm_mem s) T va)).
  - done.
  - unfold PGSIZE. lia.
  - lia.
  - simpl. split_and!; [done..|]. intros va Hva. rewrite decide_False by lia. done.
  - intros j s1 Hj HI. apply (FreeMemory_step root b f ps s fl T j s1); try done.
    + lia.
    + unfold PGSIZE. lia.
    + unfold PGSIZE in Hj. lia.
  - intros j s1 Hj Hjs (Hi & Hp & Ht).
    assert (j = length ps) as -> by (unfold PGSIZE in *; destruct Hjs; lia).
    rewrite firstn_all in *. split_and!; [done..|]. intros va Hva. rewrite Ht by done.
    apply decide_ext. symmetry. apply Hpg. lia.
Qed.

(** ** Initialisation *)
(** the free list [Init] builds: the pages from [beg] up, last one first *)
Definition boot_pages (beg : Z) (n : nat) : list Z := rev (map (λ j, beg + Z.of_nat j * PGSIZE) (seq 0 n)).
Lemma boot_pages_S beg n : boot_pages beg (S n) = (beg + Z.of_nat n * PGSIZE) :: boot_pages beg n.
Proof. unfold boot_pages. rewrite seq_S, map_app, rev_app_distr. done. Qed.
Lemma elem_of_boot_pages beg n p :
  p ∈ boot_pages beg n ↔ ∃ j, (j < n)%nat ∧ p = beg + Z.of_nat j * PGSIZE.
Proof.
  unfold boot_pages. rewrite list_elem_of_In, <-in_rev, in_map_iff. split.
  - intros (j & <- & Hj%in_seq). exists j. split; [lia|done].
  - intros (j & Hj & ->). exists j. split; [done|]. apply in_seq. lia.
Qed.
(** [VirtualMemory]'s members before [Init] *)
Record vm_boot (s : vmstate) : Prop := {
  boot_init : has_init_ s = false;
  boot_list : memory_list_ s = MkMemoryList 0 0 0;
  boot_self : 0 < vm_self s < 2 ^ 64;
  boot_mstatus : mstatus_ok s;
}.
Lemma bm_bit_zero p : bm_bit (replicate bit_map_size 0) p = false.
Proof.
  unfold bm_bit. destruct (replicate _ _ !! _) as [b|] eqn:E; simpl; [|apply Z.bits_0].
  apply lookup_replicate in E as [-> _]. apply Z.bits_0.
Qed.
(** the second loop of [Init] *)
Lemma wp_mark_kernel beg s (Q : vmstate → Prop) :
  beg mod PGSIZE = 0 → KERNEL_BASE ≤ beg ≤ MEMORY_END → bit_map_ s = replicate bit_map_size 0 →
  (∀ bm, length bm = bit_map_size → Forall (λ b, 0 ≤ b < 256) bm →
     (∀ p, page_ok p → bm_bit bm p = bool_decide (p < beg)) → Q (set_bit_map bm s)) →
  wp (for_u64_ KERNEL_BASE beg PGSIZE (λ i, UpdateBitMap i alloc)) (λ _, Q) s.
Proof.
  intros Hal Hb Hbm HQ.
  apply (wp_for_u64_ (λ j s1, ∃ bm, s1 = set_bit_map bm s ∧ length bm = bit_map_size ∧
    Forall (λ b, 0 ≤ b < 256) bm ∧ ∀ p, page_ok p → bm_bit bm p = bool_decide (p < KERNEL_BASE + Z.of_nat j * PGSIZE))).
  - done.
  - unfold KERNEL_BASE, MEMORY_END, PGSIZE in *. unfold KERNEL_BASE in *. lia.
  - done.
  - exists (bit_map_ s). split; [by destruct s|]. rewrite Hbm. split_and!.
    + apply length_replicate.
    + apply Forall_replicate. lia.
    + intros p Hp. rewrite bm_bit_zero. symmetry. apply bool_decide_eq_false_2.
      pose proof (page_ok_range p Hp). lia.
  - intros j s1 Hj (bm & -> & Hlen & Hr & Hbits).
    assert (Hpj : page_ok (KERNEL_BASE + Z.of_nat j * PGSIZE)).
    { unfold page_ok, MEMORY_END, KERNEL_BASE, PGSIZE in *. dlia. }
    apply UpdateBitMap_spec; [done..|]. intros bm' Hlen' Hr' Hbits'. exists bm'. split; [by destruct s|].
    split_and!; [done..|]. intros p Hp. rewrite Hbits', Hbits by done. simpl.
    destruct Hp as (Hpal & _), Hpj as (Hjal & _). unfold PGSIZE, KERNEL_BASE in *.
    case_decide; [subst; symmetry; apply bool_decide_eq_true_2; lia|]. apply bool_decide_ext. dlia.
  - intros j s1 Hj Hjs (bm & -> & Hlen & Hr & Hbits). apply HQ; [done..|]. intros p Hp.
    rewrite Hbits by done. apply bool_decide_ext. pose proof (page_ok_range p Hp).
    destruct Hjs as [->|]; [unfold KERNEL_BASE in *; lia|].
    destruct Hp as (Hpal & _). unfold PGSIZE, KERNEL_BASE in *. dlia.
Qed.
Lemma wp_Init beg s n :
  vm_boot s → beg mod PGSIZE = 0 → KERNEL_BASE ≤ beg ≤ MEMORY_END → beg + Z.of_nat n * PGSIZE = MEMORY_END →
  wp (Init beg) (λ r s', r = true ∧ vm_inv s' (boot_pages beg n) ∧ has_init_ s' = true ∧
    vm_mstatus s' = vm_mstatus s ∧ vm_self s' = vm_self s) s.
Proof.
  intros [Hi Hl Hs Hms] Hal Hb Hn. unfold Init. wp_steps. rewrite Hi. wp_steps. rewrite Hal. cbn [Z.eqb negb].
  apply wp_bind.
  apply (wp_for_u64_ (λ j s1, list_rep s1 (boot_pages beg j) ∧ (j ≤ n)%nat ∧ has_init_ s1 = true ∧
    vm_mstatus s1 = vm_mstatus s ∧ vm_self s1 = vm_self s)).
  - done.
  - by unfold PGSIZE.
  - unfold KERNEL_BASE in Hb. lia.
  - split_and!; try done; [|lia]. constructor; cbn; rewrite ?Hl; try done; constructor.
  - intros j s1 Hj (Hrep & Hjn & Hr). unfold PGSIZE in *.
    eapply wp_mono; [apply (Push_spec s1 (boot_pages beg j)); [done| | |]|].
    + unfold page_ok, PGSIZE. dlia.
    + rewrite elem_of_boot_pages. unfold PGSIZE. intros (k & ? & ?). lia.
    + unfold boot_pages. rewrite length_rev, length_map, length_seq. unfold MEMORY_END, KERNEL_BASE in *. lia.
    + intros [] s2 (Hrep2 & (_ & Hh2 & Hm2 & Hs2) & _). rewrite boot_pages_S. unfold PGSIZE.
      rewrite Hh2, Hm2, Hs2. split_and!; [done|lia|apply Hr..].
  - intros j s1 Hj Hjs (Hrep & Hjn & Hi1 & Hm1 & Hs1).
    assert (j = n) as -> by (unfold PGSIZE in *; lia). wp_steps.
    apply wp_mark_kernel; [done..|]. intros bm Hlen Hr Hbits. apply wp_ret.
    split; [done|]. split; [|by vm_simpl]. constructor; try done.
    + by apply list_rep_bit_map, list_rep_bit_map.
    + intros p Hp. cbn. rewrite Hbits by done. rewrite <-bool_decide_not. apply bool_decide_ext.
      rewrite elem_of_boot_pages. destruct Hp as (Hpal & Hp1 & Hp2). unfold PGSIZE in *. split.
      * intros Hlt (k & _ & ->). lia.
      * intros Hni. destruct (decide (p < beg)); [done|]. exfalso. apply Hni.
        exists (Z.to_nat ((p - beg) / 4096)). dlia.
    + unfold mstatus_ok in *. cbn in *. by rewrite Hm1.
Qed.

(** ** Contiguous pages *)
Lemma land_0_testbit b m j : Z.land b m = 0 → Z.testbit m j = true → Z.testbit b j = false.
Proof.
  intros H Hm. apply (f_equal (λ z, Z.testbit z j)) in H.
  rewrite Z.land_spec, Hm, andb_true_r, Z.bits_0 in H. done.
Qed.
Definition run_mask (n : Z) : Z := u16 (Z.shiftl (Z.shiftl 1 n - 1) (2 * max_page_num - n)).
Lemma bm_bit_page bm p : bm_bit bm p = bit_at bm (page_index p).
Proof. done. Qed.
(** [run_free] tests the bits of the run, for runs of one or two pages *)
Lemma run_free_sound bm k n i s :
  n = 1 ∨ n = 2 → 0 ≤ i < 8 → (k < length bm)%nat → (k = 0%nat → bm !! 0%nat = Some 255) →
  ∃ r, run_free bm k (Z.shiftr (run_mask n) i) s = Ok (r, s) ∧
    (r = true → ∀ d, 0 ≤ d < n → 0 ≤ 8 * Z.of_nat k + 8 - n - i ∧ bit_at bm (8 * Z.of_nat k + 8 - n - i + d) = false).
Proof.
  intros Hn Hi Hk H0. destruct (lookup_lt_is_Some_2 bm k Hk) as [b Hb].
  assert (Hprev : k = 0%nat ∧ b = 255 ∨ ∃ k' b', k = S k' ∧ bm !! k' = Some b').
  { destruct k as [|k']; [left; rewrite H0 in Hb by done; naive_solver|right].
    destruct (lookup_lt_is_Some_2 bm k') as [b' Hb']; [lia|]. eauto. }
  assert (Hbits : ∀ j, 0 ≤ j < 8 → bit_at bm (8 * Z.of_nat k + j) = Z.testbit b j) by (intros; by apply bit_at_byte).
  unfold run_free. erewrite bind_Ok by (rewrite Hb; done). cbv beta.
  assert (Hcase : i = 0 ∨ i = 1 ∨ i = 2 ∨ i = 3 ∨ i = 4 ∨ i = 5 ∨ i = 6 ∨ i = 7) by lia.
  destruct (Z.land b (Z.shiftr (Z.shiftr (run_mask n) i) 8) =? 0) eqn:E1; cbn [negb].
  2:{ eexists. split; [reflexivity|discriminate]. }
  apply Z.eqb_eq in E1.
  destruct (Z.land (Z.shiftr (run_mask n) i) 0xff =? 0) eqn:E2.
  - eexists. split; [done|]. intros _ d Hd.
    assert (n = 2 → i ≠ 7) by (intros -> ->; done).
    replace (8 * Z.of_nat k + 8 - n - i + d) with (8 * Z.of_nat k + (8 - n - i + d)) by lia.
    rewrite Hbits by lia. split; [lia|]. apply (land_0_testbit _ _ _ E1).
    assert (Hd' : d = 0 ∨ d = 1) by lia.
    destruct Hn as [->| ->], Hd' as [->| ->]; try lia; repeat destruct Hcase as [->|Hcase]; subst; done || lia.
  - assert (n = 2 ∧ i = 7) as [-> ->].
    { destruct Hn as [->| ->]; repeat destruct Hcase as [->|Hcase]; subst; done. }
    destruct Hprev as [[-> ->]|(k' & b' & -> & Hb')]; [done|]. erewrite bind_Ok by (rewrite Hb'; done).
    eexists. split; [done|]. intros E3%Z.eqb_eq d Hd.
    assert (Hd' : d = 0 ∨ d = 1) by lia. split; [lia|]. destruct Hd' as [->| ->].
    + replace (8 * Z.of_nat (S k') + 8 - 2 - 7 + 0) with (8 * Z.of_nat k' + 7) by lia.
      rewrite (bit_at_byte _ _ _ b') by (done || lia). by apply (land_0_testbit _ _ _ E3).
    + replace (8 * Z.of_nat (S k') + 8 - 2 - 7 + 1) with (8 * Z.of_nat (S k') + 0) by lia.
      rewrite Hbits by lia. by apply (land_0_testbit _ _ _ E1).
Qed.
Lemma wp_take_one s x fl (K : M vmstate ()) Q :
  vm_inv s fl → x ∈ fl → (2 ≤ length fl)%nat →
  (∀ s' fl', fl ≡ₚ x :: fl' → vm_inv s' fl' → page_zero (vm_mem s') x → vm_post fl s s' → wp K Q s') →
  wp (UpdateBitMap x alloc ;; Erase x ;; vm_memset x 0 PGSIZE ;; K) Q s.
Proof.
  intros Hinv (l1 & l2 & ->)%list_elem_of_split Hlen HK.
  pose proof (inv_pages _ _ Hinv) as (Hpl & Hnd & _).
  destruct Hinv as [Hlist Hbl Hr Hbm Hms].
  pose proof (Forall_mid _ _ _ _ Hpl) as (Hx & Hp1 & Hp2).
  pose proof (NoDup_mid _ _ _ Hnd) as (Hnd' & Hxni & _).
  assert (Hne : l1 ++ l2 ≠ []).
  { intros E. rewrite length_app in Hlen. cbn [length] in Hlen. apply (f_equal length) in E.
    rewrite length_app in E. cbn [length] in E. lia. }
  apply wp_bind, UpdateBitMap_spec; [done..|]. intros bm' Hbl' Hr' Hbm'. apply wp_bind.
  eapply wp_mono; [apply Erase_spec; [by apply list_rep_bit_map|done]|].
  intros r s1 (_ & Hl1 & (Hb1 & Hh1 & Hm1 & Hs1) & Hf1). cbn in *. apply wp_bind.
  apply wp_vm_memset; [by apply ram_ok_page0|].
  assert (Hpm : l1 ++ x :: l2 ≡ₚ x :: l1 ++ l2) by (symmetry; apply Permutation_middle).
  apply (HK _ (l1 ++ l2)); [done|constructor|..].
  - apply list_rep_store; [done|]. intros q a Hq Ha. rewrite load8_memset, decide_False; [done|].
    assert (page_ok q) by (rewrite Forall_app, !Forall_forall in *; apply elem_of_app in Hq; naive_solver).
    unfold PGSIZE. destruct (pages_apart x q); [done|done|by intros ->|lia|lia].
  - cbn. by rewrite Hb1.
  - cbn. by rewrite Hb1.
  - intros q Hq. cbn. rewrite Hb1, Hbm' by done. case_decide as Hxq.
    + subst q. by rewrite bool_decide_eq_false_2.
    + rewrite Hbm by done. do 2 f_equal. apply bool_decide_ext. rewrite Hpm, elem_of_cons. naive_solver.
  - unfold mstatus_ok in *. cbn in *. by rewrite Hm1.
  - intros a Ha. cbn. rewrite load8_memset, decide_True; [done|]. unfold PGSIZE in *. lia.
  - split_and!; [|done..]. intros b Hb. cbn. rewrite load8_memset, decide_False; [by apply Hf1|].
    specialize (Hb x). unfold PGSIZE in *.
    destruct Hb; [apply elem_of_app; right; left|lia|lia].
Qed.
(** the run of [n] pages from [m] up *)
Definition run_pages (m : Z) (n : nat) : list Z := map (λ j, m + Z.of_nat j * PGSIZE) (seq 0 n).
Lemma run_pages_S m n : run_pages m (S n) = m :: run_pages (m + PGSIZE) n.
Proof.
  unfold run_pages. cbn [seq map]. f_equal; [lia|]. rewrite <-seq_shift, map_map.
  apply map_ext. intros j. lia.
Qed.
Lemma wp_take_run n s m fl :
  vm_inv s fl → (∀ p, p ∈ run_pages m n → p ∈ fl) → (n < length fl)%nat →
  wp (take_run n m) (λ _ s', ∃ fl', fl ≡ₚ run_pages m n ++ fl' ∧ vm_inv s' fl' ∧
    (∀ p, p ∈ run_pages m n → page_zero (vm_mem s') p) ∧ vm_post fl s s') s.
Proof.
  revert s m fl. induction n as [|n IH]; intros s m fl Hinv Hrun Hlen; cbn [take_run].
  { apply wp_ret. exists fl. split_and!; [done|done|intros p Hp; by apply elem_of_nil in Hp|done]. }
  rewrite run_pages_S in *. assert (Hm : m ∈ fl) by (apply Hrun; left).
  apply (wp_take_one s m fl); [done|done|lia|]. intros s1 fl1 Hperm Hinv1 Hz Hpost.
  pose proof (inv_pages _ _ Hinv) as (Hfl & _). rewrite Forall_forall in Hfl.
  pose proof (page_ok_range m (Hfl m Hm)).
  assert (Hout : ∀ p, p ∈ run_pages (m + PGSIZE) n → p ≠ m).
  { unfold run_pages. intros p Hp ->. apply list_elem_of_fmap in Hp as (j & Hj & _). unfold PGSIZE in Hj. lia. }
  rewrite wrap_small by (unfold PGSIZE, MEMORY_END, KERNEL_BASE in *; lia).
  eapply wp_mono; [apply (IH s1 (m + PGSIZE) fl1 Hinv1)|].
  - intros p Hp. assert (p ∈ m :: fl1) as [->|]%elem_of_cons by (rewrite <-Hperm; apply Hrun; by right); [|done].
    by destruct (Hout m).
  - apply Permutation_length in Hperm. cbn [length] in Hperm. lia.
  - intros [] s2 (fl2 & Hperm2 & Hinv2 & Hz2 & Hpost2). exists fl2.
    pose proof (inv_pages _ _ Hinv1) as (Hfl1 & _). split_and!.
    + rewrite Hperm, Hperm2. done.
    + done.
    + intros p [->|Hp]%elem_of_cons; [|by apply Hz2].
      apply (page_zero_post fl1 s1); [done|done|by apply Hfl| |done].
      pose proof (inv_pages _ _ Hinv) as (_ & Hnd & _). rewrite Hperm in Hnd. by apply NoDup_cons in Hnd as [? _].
    + eapply vm_post_trans; [exact Hpost|]. eapply vm_post_mono; [|exact Hpost2].
      intros p Hp. rewrite Hperm. by right.
Qed.

(** what [AllocContinuousPage] gives: nothing changed, or a run of free pages
    taken and zeroed *)
Definition run_result (n : nat) (s : vmstate) (fl : list Z) (r : option Z) (s' : vmstate) : Prop :=
  match r with
  | None => s' = s
  | Some m => (∀ p, p ∈ run_pages m n → p ∈ fl) ∧ ∃ fl', fl ≡ₚ run_pages m n ++ fl' ∧ vm_inv s' fl' ∧
      (∀ p, p ∈ run_pages m n → page_zero (vm_mem s') p) ∧ vm_post fl s s'
  end.
Lemma idx_free s fl idx :
  vm_inv s fl → 0 ≤ idx < 32768 → bit_at (bit_map_ s) idx = false → KERNEL_BASE + idx * PGSIZE ∈ fl.
Proof.
  intros Hinv Hi Hb. assert (Hp : page_ok (KERNEL_BASE + idx * PGSIZE)).
  { unfold page_ok, KERNEL_BASE, PGSIZE, MEMORY_END in *. unfold KERNEL_BASE. dlia. }
  pose proof (inv_bm _ _ Hinv _ Hp) as H. rewrite bm_bit_page in H.
  assert (page_index (KERNEL_BASE + idx * PGSIZE) = idx) as Heq.
  { unfold page_index, KERNEL_BASE, PGSIZE. rewrite wrap_small by lia. dlia. }
  rewrite Heq, Hb in H. symmetry in H. apply negb_false_iff, bool_decide_eq_true in H. done.
Qed.
Lemma wp_scan_byte s fl n k rest i :
  vm_inv s fl → n = 1 ∨ n = 2 → (Z.to_nat n < length fl)%nat → bit_map_ s !! 0%nat = Some 255 →
  (k < bit_map_size)%nat → 0 ≤ i → i + Z.of_nat rest = 8 →
  wp (scan_byte n (run_mask n) k rest i) (run_result (Z.to_nat n) s fl) s.
Proof.
  intros Hinv Hn Hlen H0 Hk. revert i. induction rest as [|rest IH]; intros i Hi Hir; cbn [scan_byte].
  { by apply wp_ret. }
  wp_steps. destruct (run_free_sound (bit_map_ s) k n i s) as (r & Hr & Hfree);
    [done|lia|by rewrite (inv_bm_len _ _ Hinv)|by intros ->|].
  apply wp_ok. exists r, s. split; [exact Hr|]. destruct r; [|apply IH; lia].
  assert (Hk' : Z.of_nat k < 4096) by (rewrite bit_map_size_val in Hk; lia).
  specialize (Hfree eq_refl). destruct (Hfree 0 ltac:(lia)) as [Hpos _].
  set (idx := 8 * Z.of_nat k + 8 - n - i) in *.
  rewrite wrap_small by (unfold PGSIZE, KERNEL_BASE; lia).
  replace ((Z.of_nat k * 8 + 8 - n - i) * PGSIZE + KERNEL_BASE) with (KERNEL_BASE + idx * PGSIZE) by (unfold idx; lia).
  assert (Hrun : ∀ p, p ∈ run_pages (KERNEL_BASE + idx * PGSIZE) (Z.to_nat n) → p ∈ fl).
  { unfold run_pages. intros p (j & -> & Hj)%list_elem_of_fmap. apply elem_of_seq in Hj.
    replace (KERNEL_BASE + idx * PGSIZE + Z.of_nat j * PGSIZE) with (KERNEL_BASE + (idx + Z.of_nat j) * PGSIZE) by lia.
    apply (idx_free s); [done|lia|]. apply Hfree. lia. }
  wp_steps. eapply wp_mono; [by apply wp_take_run|]. intros [] s' H. apply wp_ret. by split.
Qed.
Lemma wp_scan_bytes s fl n k :
  vm_inv s fl → n = 1 ∨ n = 2 → (Z.to_nat n < length fl)%nat → bit_map_ s !! 0%nat = Some 255 →
  (k ≤ bit_map_size)%nat →
  wp (scan_bytes n (run_mask n) k) (λ r, run_result (Z.to_nat n) s fl (if r =? 0 then None else Some r)) s.
Proof.
  intros Hinv Hn Hlen H0. induction k as [|k IH]; intros Hk; cbn [scan_bytes]; [by apply wp_ret|].
  apply wp_bind. eapply wp_mono; [apply (wp_scan_byte s fl); done || lia|].
  intros [m|] s' H; cbn [run_result] in H; [|subst s'; apply IH; lia].
  apply wp_ret. assert (m ∈ fl) as Hm.
  { apply H. unfold run_pages. apply list_elem_of_fmap. exists 0%nat. split; [lia|]. apply elem_of_seq. lia. }
  destruct (inv_pages _ _ Hinv) as (Hfl & _). rewrite Forall_forall in Hfl. pose proof (page_ok_nz _ (Hfl _ Hm)).
  by replace (m =? 0) with false by lia.
Qed.

(** a fresh zeroed page is an empty page table *)
Lemma pt_rep_new s fl p : page_ok p → p ∉ fl → page_zero (vm_mem s) p → pt_rep s fl p {[ [] := p ]}.
Proof.
  intros Hp Hni Hz. constructor.
  - by rewrite lookup_singleton_eq.
  - intros k q [<- <-]%lookup_singleton_Some. done.
  - by intros k1 k2 q [<- <-]%lookup_singleton_Some [<- _]%lookup_singleton_Some.
  - intros k i [q [Hk _]%lookup_singleton_Some]. by destruct k.
  - intros k q i [<- <-]%lookup_singleton_Some _ Hi. rewrite lookup_singleton_ne by done.
    by rewrite load64_page_zero.
Qed.

(** * A concrete machine: 16 free pages, then one of them made a page table *)
Definition demo_beg : Z := MEMORY_END - 16 * PGSIZE.
Definition demo_boot : vmstate := VmState ∅ (MkMemoryList 0 0 0) [] false 0x1888 0x80010000.
Definition state_of {S A} (m : M S A) (s : S) : S := match m s with Ok (_, s') => s' | Stop _ => s end.
Lemma wp_state_of {S A} (m : M S A) (Q : A → S → Prop) s : wp m Q s → ∃ a, m s = Ok (a, state_of m s) ∧ Q a (state_of m s).
Proof. unfold wp, state_of. destruct (m s) as [[a s']|]; [|done]. eauto. Qed.
Definition demo_vm : vmstate := state_of (Init demo_beg) demo_boot.
Definition demo_root : Z := demo_beg + 15 * PGSIZE.
Definition demo_free : list Z := boot_pages demo_beg 15.
Definition demo_pt : vmstate := state_of Alloc demo_vm.
Definition demo_T : ptree := {[ [] := demo_root ]}.
Lemma demo_boot_ok : vm_boot demo_boot.
Proof. by constructor. Qed.
Lemma demo_vm_inv : vm_inv demo_vm (demo_root :: demo_free).
Proof.
  destruct (wp_state_of (Init demo_beg) _ _ (wp_Init demo_beg demo_boot 16 demo_boot_ok eq_refl ltac:(done) eq_refl))
    as (a & _ & _ & H & _).
  exact H.
Qed.
Lemma demo_pt_inv : vm_inv demo_pt demo_free ∧ pt_rep demo_pt demo_free demo_root demo_T.
Proof.
  destruct (wp_state_of Alloc _ _ (Alloc_spec _ _ _ demo_vm_inv)) as (a & _ & _ & H & Hz & _).
  split; [exact H|]. pose proof (inv_pages _ _ demo_vm_inv) as ([Hp _]%Forall_cons & [Hni _]%NoDup_cons & _).
  by apply pt_rep_new.
Qed.

Lemma first_byte_full s fl :
  vm_inv s fl → (∀ p, p ∈ fl → KERNEL_BASE + 8 * PGSIZE ≤ p) → bit_map_ s !! 0%nat = Some 255.
Proof.
  intros Hinv Hfl. destruct (lookup_lt_is_Some_2 (bit_map_ s) 0) as [b Hb].
  { rewrite (inv_bm_len _ _ Hinv), bit_map_size_val. lia. }
  pose proof (proj1 (Forall_lookup _ _) (inv_bm_range _ _ Hinv) _ _ Hb) as Hr. cbv beta in Hr.
  assert (∀ j, 0 ≤ j < 8 → Z.testbit b j = true) as Hbits.
  { intros j Hj. rewrite <-(bit_at_byte _ 0 j b Hb Hj).
    destruct (bit_at (bit_map_ s) (8 * Z.of_nat 0 + j)) eqn:E; [done|].
    apply (idx_free s fl) in E; [|done|lia]. apply Hfl in E. unfold PGSIZE in *. lia. }
  rewrite Hb. f_equal. change 255 with (Z.ones 8). apply Z.bits_inj'. intros j Hj.
  rewrite Z.testbit_ones_nonneg by lia. destruct (Z.ltb_spec j 8); [apply Hbits; lia|].
  apply (range_bits 8); lia.
Qed.
Lemma demo_free_high p : p ∈ demo_root :: demo_free → KERNEL_BASE + 8 * PGSIZE ≤ p.
Proof.
  change (demo_root :: demo_free) with (boot_pages demo_beg 16).
  intros (j & Hj & ->)%elem_of_boot_pages. unfold demo_beg, MEMORY_END, KERNEL_BASE, PGSIZE. lia.
Qed.

Lemma wp_AllocContinuousPage s fl n :
  vm_inv s fl → n = 1 ∨ n = 2 → (Z.to_nat n < length fl)%nat → bit_map_ s !! 0%nat = Some 255 →
  wp (AllocContinuousPage n) (λ r, run_result (Z.to_nat n) s fl (if r =? 0 then None else Some r)) s.
Proof.
  intros Hinv Hn Hlen H0. pose proof (vm_inv_masked _ _ Hinv) as Hinv'.
  apply wp_guarded; [apply Hinv|]. replace (max_page_num <? n) with false by (unfold max_page_num; lia).
  fold (run_mask n). eapply wp_mono; [by apply wp_scan_bytes|].
  intros r s'. cbv beta. destruct (r =? 0); cbn [run_result]; intros H.
  - rewrite H. split; [done|]. rewrite put_masked. by destruct s.
  - destruct H as (Hrun & fl' & Hp & Hi & Hz & (Hf & Hh & Hms & Hs)). split; [done|]. split; [done|].
    exists fl'. split_and!; [done| |done|by split_and!]. by apply vm_inv_mstatus; [apply Hinv|].
Qed.

(** ** A run that is free is found *)
Lemma run_free_state bm k t s r s' : run_free bm k t s = Ok (r, s') → s' = s.
Proof.
  unfold run_free, mbind, M_bind, of_option, stop_with, mret, M_ret. repeat case_match; naive_solver.
Qed.
Lemma scan_byte_none n mask k rest : ∀ i s s', scan_byte n mask k rest i s = Ok (None, s') →
  s' = s ∧ ∀ j, i ≤ j < i + Z.of_nat rest → run_free (bit_map_ s) k (Z.shiftr mask j) s ≠ Ok (true, s).
Proof.
  induction rest as [|rest IH]; intros i s s' E; cbn [scan_byte] in E.
  { injection E as <-. split; [done|lia]. }
  apply bind_inv in E as (bm & s1 & [= <- <-] & E). apply bind_inv in E as (f & s1 & E1 & E).
  pose proof (run_free_state _ _ _ _ _ _ E1) as ->. destruct f.
  { cbv zeta in E. apply bind_inv in E as (? & ? & _ & E). discriminate E. }
  apply IH in E as [-> H]. split; [done|]. intros j Hj. destruct (decide (j = i)) as [->|]; [by rewrite E1|apply H; lia].
Qed.
Lemma scan_byte_some n mask k rest : 0 ≤ n ≤ 2 → Z.of_nat k < 4096 → ∀ i s m s', 0 ≤ i → i + Z.of_nat rest = 8 →
  scan_byte n mask k rest i s = Ok (Some m, s') → m ≠ 0.
Proof.
  intros Hn Hk. induction rest as [|rest IH]; intros i s m s' Hi Hr E; cbn [scan_byte] in E; [discriminate E|].
  apply bind_inv in E as (bm & s1 & _ & E). apply bind_inv in E as (f & s2 & _ & E). destruct f; [|apply IH in E; [done|lia|lia]].
  cbv zeta in E. apply bind_inv in E as (? & ? & _ & E). injection E as <- _.
  rewrite wrap_small by (unfold PGSIZE, KERNEL_BASE; lia). unfold PGSIZE, KERNEL_BASE. lia.
Qed.
Lemma scan_bytes_none n mask k : 0 ≤ n ≤ 2 → Z.of_nat k ≤ 4096 → ∀ s s', scan_bytes n mask k s = Ok (0, s') →
  ∀ k' j, (k' < k)%nat → 0 ≤ j < 8 → run_free (bit_map_ s) k' (Z.shiftr mask j) s ≠ Ok (true, s).
Proof.
  intros Hn. induction k as [|k IH]; intros Hk s s' E k' j Hk' Hj; [lia|]. cbn [scan_bytes] in E.
  apply bind_inv in E as ([m|] & s1 & E1 & E).
  - apply scan_byte_some in E1; [|lia..]. by injection E.
  - apply scan_byte_none in E1 as [-> H]. destruct (decide (k' = k)) as [->|]; [apply H; lia|].
    apply (IH ltac:(lia) _ _ E); lia.
Qed.
Lemma AllocContinuousPage_finds s fl n k j :
  vm_inv s fl → n = 1 ∨ n = 2 → (Z.to_nat n < length fl)%nat → bit_map_ s !! 0%nat = Some 255 →
  (k < bit_map_size)%nat → 0 ≤ j < 8 → (∀ s1, run_free (bit_map_ s) k (Z.shiftr (run_mask n) j) s1 = Ok (true, s1)) →
  ∃ r s', AllocContinuousPage n s = Ok (r, s') ∧ r ≠ 0.
Proof.
  intros Hinv Hn Hl H0 Hk Hj Hf. destruct (proj1 (wp_ok _ _ _) (wp_AllocContinuousPage s fl n Hinv Hn Hl H0)) as (r & s' & E & _).
  exists r, s'. split; [done|]. intros ->. unfold AllocContinuousPage in E. rewrite guarded_unfold in E.
  apply bind_inv in E as (x & s1 & E & E'). replace (max_page_num <? n) with false in E by (unfold max_page_num; lia). fold (run_mask n) in E.
  assert (x = 0) as -> by (apply bind_inv in E' as (? & ? & _ & E'); injection E' as -> _; done).
  pose proof bit_map_size_val. refine (scan_bytes_none n (run_mask n) bit_map_size _ _ _ _ E k j _ _ (Hf (masked s))); lia.
Qed.

(** one page: any free page will do *)
Lemma AllocContinuousPage_1_finds s fl p : vm_inv s fl → p ∈ fl → (1 < length fl)%nat → bit_map_ s !! 0%nat = Some 255 →
  ∃ r s', AllocContinuousPage 1 s = Ok (r, s') ∧ r ≠ 0.
Proof.
  intros Hinv Hp Hl H0. destruct (inv_pages _ _ Hinv) as (Hfl & _). pose proof (proj1 (Forall_forall _ _) Hfl _ Hp) as Hok.
  pose proof (inv_bm _ _ Hinv _ Hok) as Hb. rewrite bool_decide_eq_true_2, bm_bit_page in Hb by done. cbn [negb] in Hb.
  assert (0 ≤ page_index p < 32768) as Hi.
  { pose proof Hok as (_ & H1 & H2). unfold page_index, MEMORY_END, KERNEL_BASE, PGSIZE in *. rewrite wrap_small by lia. dlia. }
  set (idx := page_index p) in *. pose proof bit_map_size_val as Hsz. pose proof (inv_bm_len _ _ Hinv) as Hlen.
  destruct (lookup_lt_is_Some_2 (bit_map_ s) (Z.to_nat (idx / 8))) as [b Eb]; [dlia|].
  replace idx with (8 * Z.of_nat (Z.to_nat (idx / 8)) + idx mod 8) in Hb by dlia. rewrite (bit_at_byte _ _ _ b Eb) in Hb by dlia.
  apply (AllocContinuousPage_finds s fl 1 (Z.to_nat (idx / 8)) (7 - idx mod 8) Hinv); [by left|lia|done|dlia|dlia|].
  intros s1. unfold run_free. rewrite Eb. erewrite bind_Ok by done. cbv beta.
  assert (Z.land b (Z.shiftr (Z.shiftr (run_mask 1) (7 - idx mod 8)) 8) = 0 ∧ Z.land (Z.shiftr (run_mask 1) (7 - idx mod 8)) 0xff = 0) as [-> ->]; [|done].
  set (j := idx mod 8) in *. assert (0 ≤ j < 8) as Hj by (unfold j; dlia). clearbody j.
  assert (Z.shiftr (Z.shiftr (run_mask 1) (7 - j)) 8 = 2 ^ j ∧ Z.land (Z.shiftr (run_mask 1) (7 - j)) 0xff = 0) as [-> E2].
  { assert (j = 0 ∨ j = 1 ∨ j = 2 ∨ j = 3 ∨ j = 4 ∨ j = 5 ∨ j = 6 ∨ j = 7) as Hc by lia.
    repeat destruct Hc as [-> |Hc]; subst; done. }
  split; [|done]. apply Z.bits_inj'. intros i Hi'. rewrite Z.land_spec, Z.bits_0, Z.pow2_bits_eqb by lia.
  destruct (Z.eqb_spec j i) as [<-|]; [by rewrite Hb|apply andb_false_r].
Qed.
(** two pages: the last two of memory *)
Lemma AllocContinuousPage_2_finds s fl : vm_inv s fl → (∀ d, 0 ≤ d < 2 → MEMORY_END - (d + 1) * PGSIZE ∈ fl) → (2 < length fl)%nat →
  bit_map_ s !! 0%nat = Some 255 → ∃ r s', AllocContinuousPage 2 s = Ok (r, s') ∧ r ≠ 0.
Proof.
  intros Hinv Hp Hl H0. destruct (inv_pages _ _ Hinv) as (Hfl & _). pose proof bit_map_size_val as Hsz. pose proof (inv_bm_len _ _ Hinv) as Hlen.
  destruct (lookup_lt_is_Some_2 (bit_map_ s) 4095) as [b Eb]; [lia|].
  assert (∀ d, 0 ≤ d < 2 → Z.testbit b (7 - d) = false) as Hb.
  { intros d Hd. rewrite <-(bit_at_byte _ 4095 _ b Eb) by lia.
    pose proof (proj1 (Forall_forall _ _) Hfl _ (Hp d Hd)) as Hok. pose proof (inv_bm _ _ Hinv _ Hok) as H.
    rewrite bool_decide_eq_true_2, bm_bit_page in H by auto. cbn [negb] in H. rewrite <-H. f_equal.
    unfold page_index, MEMORY_END, KERNEL_BASE, PGSIZE. rewrite wrap_small by lia. dlia. }
  apply (AllocContinuousPage_finds s fl 2 4095 0 Hinv); [by right|lia|done|lia|lia|].
  intros s1. unfold run_free. rewrite Eb. erewrite bind_Ok by done. cbv beta. rewrite Z.shiftr_0_r.
  assert (Z.land b (Z.shiftr (run_mask 2) 8) = 0) as ->; [|done]. change (Z.shiftr (run_mask 2) 8) with (Z.lor (2 ^ 6) (2 ^ 7)).
  apply Z.bits_inj'. intros i Hi. rewrite Z.land_spec, Z.lor_spec, Z.bits_0, !Z.pow2_bits_eqb by lia.
  destruct (Z.eqb_spec 6 i) as [<-|]; [by rewrite (Hb 1 ltac:(lia) : Z.testbit b 6 = false)|]. destruct (Z.eqb_spec 7 i) as [<-|]; [by rewrite (Hb 0 ltac:(lia) : Z.testbit b 7 = false)|apply andb_false_r].
Qed.

(** * The properties of the allocator and of the page tables *)

(** [Init], on a page-aligned kernel end, succeeds and establishes the allocator's
    invariant with exactly the pages from there to the end of RAM free. *)
Theorem Init_correct beg s n :
  vm_boot s → beg mod PGSIZE = 0 → KERNEL_BASE ≤ beg ≤ MEMORY_END → beg + Z.of_nat n * PGSIZE = MEMORY_END →
  wp (Init beg) (λ r s', r = true ∧ vm_inv s' (boot_pages beg n) ∧ has_init_ s' = true ∧
    Init beg s' = Ok (false, s')) s.
Proof.
  intros. eapply wp_mono; [by apply wp_Init|]. intros r s' (-> & Hi & Hh & _).
  split_and!; [done..|]. unfold Init. erewrite bind_Ok by done. by rewrite Hh.
Qed.
Lemma Init_correct_witness :
  wp (Init demo_beg) (λ r s', r = true ∧ vm_inv s' (boot_pages demo_beg 16) ∧ has_init_ s' = true ∧
    Init demo_beg s' = Ok (false, s')) demo_boot.
Proof. apply (Init_correct demo_beg demo_boot 16); [by constructor|done|done|done]. Defined.

(** C26: [Alloc] takes the head of the free list, zeroes that page and marks it in the
    bitmap; no other byte of memory outside the free pages changes, [mstatus] is
    restored and the invariant is kept.  With no free page left it zeroes the null
    page: it faults instead of returning the null its callers test for. *)
Theorem Alloc_correct s fl :
  vm_inv s fl →
  match fl with
  | p :: fl' => wp Alloc (λ t s', t = p ∧ vm_inv s' fl' ∧ page_zero (vm_mem s') p ∧ vm_post fl s s') s
  | [] => Alloc s = Stop (Faulted "memset")
  end.
Proof.
  intros Hinv. destruct fl as [|p fl]; [|by apply Alloc_spec].
  unfold Alloc. rewrite guarded_unfold. apply bind_Stop.
  erewrite bind_Ok by (apply Pop_empty, (inv_list _ _ (vm_inv_masked _ _ Hinv))). done.
Qed.
Lemma Alloc_correct_witness :
  vm_inv demo_vm (demo_root :: demo_free) ∧
  wp Alloc (λ t s', t = demo_root ∧ vm_inv s' demo_free ∧ page_zero (vm_mem s') demo_root ∧
    vm_post (demo_root :: demo_free) demo_vm s') demo_vm.
Proof. split; [exact demo_vm_inv|exact (Alloc_correct demo_vm (demo_root :: demo_free) demo_vm_inv)]. Defined.

(** For runs of one or two pages (two is what the virtqueues ask for)
    [AllocContinuousPage] returns null and changes nothing, or returns pages that were
    all free, zeroed and removed from the free list; it never runs off the bitmap
    as long as the kernel's own first eight pages are marked. *)
Theorem AllocContinuousPage_run s fl n :
  vm_inv s fl → n = 1 ∨ n = 2 → (Z.to_nat n < length fl)%nat → bit_map_ s !! 0%nat = Some 255 →
  wp (AllocContinuousPage n) (λ r s',
    if r =? 0 then s' = s else
    (∀ p, p ∈ run_pages r (Z.to_nat n) → p ∈ fl) ∧ ∃ fl', fl ≡ₚ run_pages r (Z.to_nat n) ++ fl' ∧
      vm_inv s' fl' ∧ (∀ p, p ∈ run_pages r (Z.to_nat n) → page_zero (vm_mem s') p) ∧ vm_post fl s s') s.
Proof.
  intros Hinv Hn Hlen H0. eapply wp_mono; [by apply wp_AllocContinuousPage|].
  intros r s'. cbv beta. destruct (r =? 0); cbn [run_result]; intros H; exact H.
Qed.

Lemma AllocContinuousPage_run_witness :
  vm_inv demo_vm (demo_root :: demo_free) ∧ bit_map_ demo_vm !! 0%nat = Some 255 ∧
  wp (AllocContinuousPage 2) (λ r s',
    if r =? 0 then s' = demo_vm else
    (∀ p, p ∈ run_pages r 2 → p ∈ demo_root :: demo_free) ∧ ∃ fl', demo_root :: demo_free ≡ₚ run_pages r 2 ++ fl' ∧
      vm_inv s' fl' ∧ (∀ p, p ∈ run_pages r 2 → page_zero (vm_mem s') p) ∧
      vm_post (demo_root :: demo_free) demo_vm s') demo_vm.
Proof.
  pose proof (first_byte_full _ _ demo_vm_inv demo_free_high) as H0.
  split; [exact demo_vm_inv|]. split; [exact H0|].
  apply (AllocContinuousPage_run demo_vm (demo_root :: demo_free) 2 demo_vm_inv); [by right|simpl; lia|exact H0].
Defined.

(** [FreePage(pa)] puts an allocated page back: the invariant holds with the page at
    the head of the free list and nothing outside the free pages changes, so an
    [Alloc] that follows returns that page. *)
Theorem FreePage_then_Alloc s fl p :
  vm_inv s fl → page_ok p → p ∉ fl →
  wp (FreePage_pa p) (λ _ s1, vm_inv s1 (p :: fl) ∧ vm_post (p :: fl) s s1 ∧
    wp Alloc (λ t s2, t = p ∧ vm_inv s2 fl ∧ page_zero (vm_mem s2) p) s1) s.
Proof.
  intros Hinv Hp Hni. eapply wp_mono; [by apply FreePage_pa_ok|]. intros _ s1 [Hi Hpost].
  split_and!; [done..|]. eapply wp_mono; [by apply Alloc_spec|]. naive_solver.
Qed.
Lemma FreePage_then_Alloc_witness :
  wp (FreePage_pa demo_root) (λ _ s1, vm_inv s1 (demo_root :: demo_free) ∧
    vm_post (demo_root :: demo_free) demo_pt s1 ∧
    wp Alloc (λ t s2, t = demo_root ∧ vm_inv s2 demo_free ∧ page_zero (vm_mem s2) demo_root) s1) demo_pt.
Proof.
  destruct (inv_pages _ _ demo_vm_inv) as ([Hp _]%Forall_cons & [Hni _]%NoDup_cons & _).
  apply (FreePage_then_Alloc demo_pt demo_free demo_root); [apply demo_pt_inv|exact Hp|exact Hni].
Defined.

(** C1: [MapPage] on a valid page table with two free pages for inner tables succeeds:
    afterwards [VAToPA] sends every address of that page to [pa] with the page
    offset and the requested privilege, and every other address where it went before. *)
Theorem MapPage_VAToPA root va pa privilege s fl T :
  vm_inv s fl → pt_rep s fl root T → (2 ≤ length fl)%nat →
  0 ≤ va ≤ MAX_SUPPORT_VA → va mod PGSIZE = 0 → 0 ≤ pa ≤ MEMORY_END → pa mod PGSIZE = 0 →
  0 ≤ privilege < 1024 →
  wp (MapPage root va pa privilege) (λ r s', r = true ∧
    (∃ fl' T', vm_inv s' fl' ∧ pt_rep s' fl' root T' ∧ vm_post (fl ++ pt_pages T) s s') ∧
    ∀ va', 0 ≤ va' < 2 ^ 39 →
      VAToPA root va' s' =
        if decide (va' / PGSIZE = va / PGSIZE)
        then Ok ((pa + va' mod PGSIZE, Some (Z.land privilege PTE_MASK)), s')
        else Ok (match VAToPA root va' s with Ok (r, _) => r | Stop _ => (0, None) end, s')) s.
Proof.
  intros Hinv Hpt Hlen Hva Hval Hpa Hpal Hpriv. eapply wp_mono; [by apply wp_MapPage|].
  intros r s' (-> & fl' & T' & [Hi Hr Ht] & Hpost & _). split_and!; [done|eauto 10|].
  intros va' Hva'. rewrite (VAToPA_ok s' fl' T') by (done || lia). rewrite (VAToPA_ok s fl T) by (done || lia).
  rewrite Ht. assert (same_page va va' ↔ va' / PGSIZE = va / PGSIZE) as Hsame.
  { pose proof (same_page_range va 0 va' Hval) as H. rewrite Z.mul_0_l, Z.add_0_r in H.
    unfold MAX_SUPPORT_VA in Hva. rewrite H by lia. unfold PGSIZE in *. dlia. }
  destruct (decide (same_page va va')), (decide (va' / PGSIZE = va / PGSIZE)); tauto || done.
Qed.
Lemma MapPage_VAToPA_witness :
  vm_inv demo_pt demo_free ∧ pt_rep demo_pt demo_free demo_root demo_T ∧
  wp (MapPage demo_root 0x3000 KERNEL_BASE (Z.lor PTE_R PTE_U)) (λ r s', r = true ∧
    VAToPA demo_root 0x3456 s' = Ok ((0x80000456, Some 0x12), s')) demo_pt.
Proof.
  destruct demo_pt_inv as [Hi Hp]. split; [exact Hi|]. split; [exact Hp|].
  assert (Hlen : (2 ≤ length demo_free)%nat) by (simpl; lia).
  eapply wp_mono; [apply (MapPage_VAToPA demo_root 0x3000 KERNEL_BASE (Z.lor PTE_R PTE_U) demo_pt demo_free demo_T Hi Hp Hlen)|];
    [done..|].
  intros r s' (-> & _ & H). split; [done|]. rewrite (H 0x3456) by lia. reflexivity.
Defined.

(** [MapPage] refuses a null or unaligned root, an unaligned or too large address,
    returning false with nothing changed. *)
Theorem MapPage_refuses root va pa privilege s :
  root = 0 ∨ MEMORY_END < pa ∨ MAX_SUPPORT_VA < va ∨
  root mod PGSIZE ≠ 0 ∨ va mod PGSIZE ≠ 0 ∨ pa mod PGSIZE ≠ 0 →
  MapPage root va pa privilege s = Ok (false, s).
Proof.
  intros H. unfold MapPage. destruct (Z.eqb_spec root 0); [done|].
  destruct (Z.ltb_spec MEMORY_END pa); [done|]. destruct (Z.ltb_spec MAX_SUPPORT_VA va); [done|].
  replace (negb (root mod PGSIZE =? 0) || negb (va mod PGSIZE =? 0) || negb (pa mod PGSIZE =? 0)) with true; [done|].
  lia.
Qed.
Lemma MapPage_refuses_witness : MapPage demo_root 0x123 KERNEL_BASE 2 demo_boot = Ok (false, demo_boot).
Proof. apply (MapPage_refuses demo_root 0x123 KERNEL_BASE 2 demo_boot). do 4 right. left. done. Defined.

(** C2: [MapMemory] with enough free pages maps every page of the range, each to its own
    zeroed page taken from the free list and not part of any table, with the
    requested privilege; addresses outside the range translate as before. *)
Theorem MapMemory_correct root va_beg va_end priv s fl T :
  vm_inv s fl → pt_rep s fl root T → 0 ≤ va_beg ≤ va_end → va_end ≤ MAX_SUPPORT_VA → 0 ≤ priv < 1024 →
  (3 * range_pages va_beg va_end ≤ length fl)%nat →
  wp (MapMemory root va_beg va_end priv) (λ r s', r = true ∧ ∃ ps fl' T',
    length ps = range_pages va_beg va_end ∧
    range_mapped root (range_base va_beg) (Z.land priv PTE_MASK) ps s fl T s' fl' T') s.
Proof. apply wp_MapMemory. Qed.
Lemma MapMemory_correct_witness :
  wp (MapMemory demo_root 0x1800 0x4001 6) (λ r s', r = true ∧ ∃ ps fl' T', length ps = 4%nat ∧
    range_mapped demo_root 0x1000 6 ps demo_pt demo_free demo_T s' fl' T') demo_pt.
Proof.
  destruct demo_pt_inv as [Hi Hp].
  apply (MapMemory_correct demo_root 0x1800 0x4001 6 demo_pt demo_free demo_T Hi Hp); [lia|done|lia|].
  vm_compute. lia.
Defined.

(** C24: freeing a range that [MapMemory] mapped over unmapped addresses restores the
    translation of every address and gives all the data pages back. *)
Theorem MapMemory_FreeMemory root va_beg va_end priv s fl T :
  vm_inv s fl → pt_rep s fl root T → 0 ≤ va_beg ≤ va_end → va_end ≤ MAX_SUPPORT_VA → 0 ≤ priv < 1024 →
  (3 * range_pages va_beg va_end ≤ length fl)%nat →
  (∀ va, 0 ≤ va → va_beg / PGSIZE ≤ va / PGSIZE < (va_end + PGSIZE - 1) / PGSIZE → translate (vm_mem s) T va = None) →
  wp (MapMemory root va_beg va_end priv ;; FreeMemory root va_beg va_end 3) (λ _ s', ∃ ps tables fl' T',
    length ps = range_pages va_beg va_end ∧ fl ≡ₚ ps ++ tables ++ fl' ∧
    vm_inv s' (rev ps ++ fl') ∧ pt_rep s' (rev ps ++ fl') root T' ∧
    ∀ va, 0 ≤ va < 2 ^ 39 → translate (vm_mem s') T' va = translate (vm_mem s) T va) s.
Proof.
  intros Hinv Hpt Hb He Hpriv Hlen Hun. apply wp_bind. eapply wp_mono; [by apply wp_MapMemory|].
  intros r s1 (-> & ps & fl1 & T1 & Hps & Hrm). pose proof Hrm as [Hi1 Hr1 Ht1 Hnd Hpg _ (used & Hu) _ _].
  destruct (range_bounds va_beg va_end Hb He) as (_ & Hup & Hmax). unfold MAX_SUPPORT_VA in *.
  destruct (range_base_ok va_beg (proj1 Hb)) as [Hal Hrb].
  eapply wp_mono.
  - apply (wp_FreeMemory root va_beg va_end (Z.land priv PTE_MASK) ps s1 fl1 T1); try done.
    + intros p Hp. by apply Hpg.
    + intros i p Hip. pose proof (lookup_lt_Some _ _ _ Hip). rewrite Hps in *. unfold PGSIZE in *.
      rewrite Ht1 by lia. unfold range_map. replace (_ <=? _) with true by (unfold PGSIZE; lia).
      replace (Z.to_nat _) with i by (unfold PGSIZE; dlia). by rewrite Hip.
  - intros _ s2 (Hi2 & Hr2 & Ht2).
    assert (∃ tables, used ≡ₚ ps ++ tables) as [tables Htab].
    { apply submseteq_Permutation. apply NoDup_submseteq; [done|]. intros p Hp.
      destruct (Hpg p Hp) as (Hin & (_ & Hni & _) & _). rewrite Hu in Hin. apply elem_of_app in Hin. naive_solver. }
    exists ps, tables, fl1, T1. split_and!; [done| |done|done|].
    { rewrite Hu, Htab, app_assoc. done. }
    intros va Hva. rewrite Ht2 by done. case_decide as Hin; [symmetry; apply Hun; [lia|done]|].
    rewrite Ht1 by done. unfold range_map. destruct (Z.leb_spec (range_base va_beg) va); [|done].
    rewrite lookup_ge_None_2; [done|]. rewrite Hps. unfold range_pages, range_base, PGSIZE in *. dlia.
Qed.
Lemma demo_unmapped va : translate (vm_mem demo_pt) demo_T va = None.
Proof. unfold translate, leaf_pte, demo_T. by rewrite lookup_singleton_ne. Qed.
Lemma MapMemory_FreeMemory_witness :
  wp (MapMemory demo_root 0x1800 0x4001 6 ;; FreeMemory demo_root 0x1800 0x4001 3) (λ _ s', ∃ ps tables fl' T',
    length ps = 4%nat ∧ demo_free ≡ₚ ps ++ tables ++ fl' ∧
    vm_inv s' (rev ps ++ fl') ∧ pt_rep s' (rev ps ++ fl') demo_root T' ∧
    ∀ va, 0 ≤ va < 2 ^ 39 → translate (vm_mem s') T' va = translate (vm_mem demo_pt) demo_T va) demo_pt.
Proof.
  destruct demo_pt_inv as [Hi Hp].
  apply (MapMemory_FreeMemory demo_root 0x1800 0x4001 6 demo_pt demo_free demo_T Hi Hp); [lia|done|lia| |].
  - vm_compute. lia.
  - intros va _ _. apply demo_unmapped.
Defined.
