(* ===== verification/Malloc.v ===== *)
(** The user library's allocator, [lib/memory.cc]: a ring of free blocks in address
    order, first fit, coalescing on [free], growing with [sbrk].  Headers live in
    the heap at their addresses; a header that nobody made is no header.  [sbrk] is
    the system call as [ProcessTask::ExpandMemory] answers it, whose success
    depends on the memory left, a parameter. *)
From S2P Require Import Prelude Riscv Lock Mem MemoryList VirtualMemory.

(** * State *)
Record Header := MkHeader { h_next : Z; h_size : Z; h_data : Z }.
Definition sizeof_Header : Z := 24.
(** the headers in memory, the member [free_list] and the end of the process's
    highest region *)
Record heap := Heap { hdrs : gmap Z Header; free_list : Z; brk : Z }.

Section malloc.
(** the address of the member [base] of the one [MemManager] *)
Context (base : Z).
(** whether [MapMemory] finds the pages *)
Context (available : Z → Z → bool).

Definition hdr (p : Z) : M heap Header := s ← gets hdrs; of_option (Faulted "Header") (s !! p).
Definition put_hdr (p : Z) (h : Header) : M heap () := modify (λ s, Heap (<[p := h]> (hdrs s)) (free_list s) (brk s)).
Definition set_next (p v : Z) : M heap () := h ← hdr p; put_hdr p (MkHeader v (h_size h) (h_data h)).
Definition set_size (p v : Z) : M heap () := h ← hdr p; put_hdr p (MkHeader (h_next h) (u32 v) (h_data h)).
Definition set_free_list (p : Z) : M heap () := modify (λ s, Heap (hdrs s) p (brk s)).
(** pointer arithmetic on [Header*] *)
Definition plus (p n : Z) : Z := p + sizeof_Header * n.

(** the constructor, in a process whose regions end at [brk0] *)
Definition MemManager (brk0 : Z) : heap := Heap {[base := MkHeader base 1 0]} base brk0.

(** [sys_sbrk] returns the address as an [int] *)
Definition sbrk (bytes : Z) : M heap Z := λ s,
  let a := AddrCastUp (brk s) in
  if bytes =? 0 then Ok (0, s)
  else if available (brk s) bytes then Ok (u64 (s32 a), Heap (hdrs s) (free_list s) (a + bytes))
  else Ok (0, s).
(** [next] keeps what the memory holds *)
Definition make_header (addr size : Z) : M heap Z :=
  m ← gets hdrs;
  put_hdr addr (MkHeader (default 0 (h_next <$> m !! addr)) size (plus addr 1));; mret addr.

(** the loop of [FreeBlock] *)
Fixpoint find_place (fuel : nat) (block p : Z) : M heap Z :=
  match fuel with
  | O => stop_with OutOfFuel
  | S fuel =>
    h ← hdr p;
    if (p <? block) && (block <? h_next h) then mret p
    else if (h_next h <=? p) && ((p <? block) || (block <? h_next h)) then mret p
    else find_place fuel block (h_next h)
  end.
(** the second half of [FreeBlock], from the first merge on *)
Definition merge_next (block p : Z) : M heap () :=
  hp ← hdr p;
  hb ← hdr block;
  if plus block (h_size hb) =? h_next hp then
    hn ← hdr (h_next hp);
    set_size block (h_size hb + h_size hn);;
    set_next block (h_next hn)
  else set_next block (h_next hp).
Definition merge_previous (block p : Z) : M heap () :=
  hp ← hdr p;
  if plus p (h_size hp) =? block then
    hb ← hdr block;
    set_size p (h_size hp + h_size hb);;
    set_next p (h_next hb)
  else set_next p block.
Definition FreeBlock (fuel : nat) (block : Z) : M heap () :=
  p ← gets free_list;
  p ← find_place fuel block p;
  merge_next block p;;
  merge_previous block p;;
  set_free_list p.
Definition GrowHeader (fuel : nat) (unites : Z) : M heap bool :=
  let unites_per_3_page := 3 * PGSIZE / sizeof_Header in
  let unites := if unites <? unites_per_3_page then unites_per_3_page else unites in
  addr ← sbrk (u32 (unites * sizeof_Header));
  if addr =? 0 then mret false
  else header ← make_header addr unites; FreeBlock fuel header;; mret true.
(** a block that fits, [p] with the block [pre_p] before it *)
Definition take_block (unites pre_p p : Z) : M heap Z :=
  h ← hdr p;
  if h_size h =? unites then
    set_next pre_p (h_next h);; set_free_list pre_p;; h ← hdr p; mret (h_data h)
  else
    set_size p (h_size h - unites);; set_free_list p;;
    let p := plus p (h_size h - unites) in
    make_header p unites;; h ← hdr p; mret (h_data h).
Fixpoint find_fit (fuel : nat) (unites pre_p p : Z) : M heap Z :=
  match fuel with
  | O => stop_with OutOfFuel
  | S fuel =>
    h ← hdr p;
    if unites <=? h_size h then take_block unites pre_p p
    else
      fl ← gets free_list;
      if p =? fl then
        ok ← GrowHeader fuel unites;
        if negb ok then mret 0 else p ← gets free_list; h ← hdr p; find_fit fuel unites p (h_next h)
      else find_fit fuel unites p (h_next h)
  end.
Definition FindFirstFitBlock (fuel : nat) (unites : Z) : M heap Z :=
  pre_p ← gets free_list; h ← hdr pre_p; find_fit fuel unites pre_p (h_next h).

Definition units_of (bytes : Z) : Z := u32 ((bytes + sizeof_Header - 1) / sizeof_Header + 1).
Definition malloc (fuel : nat) (bytes : Z) : M heap Z := FindFirstFitBlock fuel (units_of bytes).
Definition free (fuel : nat) (addr : Z) : M heap () :=
  if addr =? 0 then stop_with (Exited (-1))
  else
    let header := plus addr (-1) in
    h ← hdr header;
    if negb (h_data h =? addr) || (h_size h =? 0) then stop_with (Exited (-1)) else FreeBlock fuel header.
Definition operator_new (fuel : nat) (size : Z) : M heap Z := malloc fuel (u32 size).
Definition operator_delete (fuel : nat) (addr : Z) : M heap () := free fuel addr.
End malloc.

(** * Specification: the blocks of the heap in address order, each with its
    address, its size in units of a header and whether it is free *)
Abbreviation block := (Z * Z)%type.
(** the free blocks, or the others *)
Fixpoint sel (t : bool) (B : list (block * bool)) : list block :=
  match B with [] => [] | (x, t') :: B => if Bool.eqb t t' then x :: sel t B else sel t B end.
(** blocks between [lo] and [hi], none over another *)
Fixpoint chain (lo : Z) (l : list block) (hi : Z) : Prop :=
  match l with [] => lo ≤ hi | (a, n) :: l => lo ≤ a ∧ 1 ≤ n ∧ chain (a + 24 * n) l hi end.
Definition first (nxt : Z) (l : list block) : Z := match l with [] => nxt | (a, _) :: _ => a end.
(** the headers of [l] in memory, linked in order and then to [nxt] *)
Fixpoint ring (m : gmap Z Header) (l : list block) (nxt : Z) : Prop :=
  match l with
  | [] => True
  | (a, n) :: l => (∃ d, m !! a = Some (MkHeader (first nxt l) n d)) ∧ ring m l nxt
  end.
Definition block_ok (m : gmap Z Header) (b : block * bool) : Prop :=
  ∃ nx, m !! b.1.1 = Some (MkHeader nx b.1.2 (b.1.1 + 24)).
(** [base] is followed by the member [free_list] and lies below the heap *)
Record heap_ok (base : Z) (B : list (block * bool)) (s : heap) : Prop := {
  ok_base : 0 < base;
  ok_chain : chain (base + 32) B.*1 (brk s);
  ok_ring : ring (hdrs s) ((base, 1) :: sel true B) base;
  ok_blocks : Forall (block_ok (hdrs s)) B;
  ok_free_list : ∃ n, (free_list s, n) ∈ (base, 1) :: sel true B;
  ok_brk : brk s < 2 ^ 31;
}.

(** Coalescing, on the blocks: a block of [n] units at [b] that becomes free between
    [B1] and [B2] swallows a free block that begins where it ends, and is swallowed by a
    free block that ends where it begins *)
Definition join_next (b n : Z) (B2 : list (block * bool)) : Z * list (block * bool) :=
  match B2 with
  | ((a, m), true) :: R => if a =? b + 24 * n then (n + m, R) else (n, B2)
  | _ => (n, B2)
  end.
Definition join_previous (B1 : list (block * bool)) (b n : Z) (B2 : list (block * bool)) : list (block * bool) :=
  match last B1 with
  | Some ((a, m), true) => if a + 24 * m =? b then removelast B1 ++ ((a, m + n), true) :: B2 else B1 ++ ((b, n), true) :: B2
  | _ => B1 ++ ((b, n), true) :: B2
  end.
Definition released (B1 : list (block * bool)) (b n : Z) (B2 : list (block * bool)) : list (block * bool) :=
  let '(n2, B2') := join_next b n B2 in join_previous B1 b n2 B2'.
(** no free block begins where another ends *)
Definition gap (x y : option (block * bool)) : Prop :=
  match x, y with Some ((a, m), true), Some ((b, _), true) => a + 24 * m ≠ b | _, _ => True end.
Fixpoint coalesced (B : list (block * bool)) : Prop :=
  match B with [] => True | x :: B => gap (Some x) (head B) ∧ coalesced B end.

(** * Lemmas *)
(** ** Lists of blocks *)
Lemma coalesced_app B1 B2 : coalesced (B1 ++ B2) ↔ coalesced B1 ∧ gap (last B1) (head B2) ∧ coalesced B2.
Proof.
  induction B1 as [|x B1 IH]; cbn [app coalesced]; [cbn; tauto|]. rewrite IH. destruct B1 as [|y B1]; [cbn; destruct x as [[] []]; cbn; tauto|].
  rewrite last_cons_cons. cbn [app head]. tauto.
Qed.
Lemma released_coalesced B1 b n B2 : coalesced (B1 ++ ((b, n), false) :: B2) → coalesced (released B1 b n B2).
Proof.
  rewrite coalesced_app. cbn [coalesced head]. intros (H1 & _ & _ & H2). unfold released.
  destruct (join_next b n B2) as [n2 B2'] eqn:E. assert (coalesced B2' ∧ gap (Some ((b, n2), true)) (head B2')) as [H2' Hg].
  { unfold join_next in E. destruct B2 as [|[[a m] []] R]; [by injection E as <- <-| |by injection E as <- <-].
    destruct (Z.eqb_spec a (b + 24 * n)) as [->|Hne]; injection E as <- <-; cbn in H2.
    - split; [apply H2|]. destruct H2 as [Hg _]. unfold gap in *. destruct (head R) as [[[c k] []]|]; [lia|done..].
    - split; [done|cbn; lia]. }
  assert (gap (last B1) (Some ((b, n2), true)) → coalesced (B1 ++ ((b, n2), true) :: B2')) as Hplain.
  { intros Hl. apply coalesced_app. by cbn [coalesced head]. }
  unfold join_previous. destruct (last B1) as [[[a m] []]|] eqn:El; [|by apply Hplain..].
  destruct (Z.eqb_spec (a + 24 * m) b) as [Heq|Hne]; [|by apply Hplain].
  apply last_Some in El as [B1' ->]. rewrite removelast_last. apply coalesced_app in H1 as (H1 & Hg1 & _).
  apply coalesced_app. cbn [coalesced head] in *. split; [done|]. split; [|split; [|done]].
  - unfold gap in *. by destruct (last B1') as [[[] []]|].
  - unfold gap in *. destruct (head B2') as [[[c k] []]|]; [lia|done..].
Qed.
Lemma sel_app t B1 B2 : sel t (B1 ++ B2) = sel t B1 ++ sel t B2.
Proof. induction B1 as [|[x t'] B1 IH]; cbn; [done|]. destruct (Bool.eqb t t'); cbn; by rewrite IH. Qed.
Lemma sel_split t B : ∀ P x R, sel t B = P ++ x :: R →
  ∃ B1 B2, B = B1 ++ (x, t) :: B2 ∧ sel t B1 = P ∧ sel t B2 = R.
Proof.
  induction B as [|[y t'] B IH]; intros P x R E; cbn in E; [by destruct P|].
  destruct (Bool.eqb t t') eqn:Et.
  - apply Bool.eqb_prop in Et as <-. destruct P as [|z P]; injection E as -> E.
    + by exists [], B.
    + destruct (IH P x R E) as (B1 & B2 & -> & <- & <-). exists ((z, t) :: B1), B2. cbn. by rewrite Bool.eqb_reflx.
  - destruct (IH P x R E) as (B1 & B2 & -> & <- & <-). exists ((y, t') :: B1), B2. cbn. by rewrite Et.
Qed.
Lemma sel_in t B x : x ∈ sel t B → (x, t) ∈ B.
Proof. intros (P & R & E)%list_elem_of_split. destruct (sel_split t B P x R E) as (? & ? & -> & _). set_solver. Qed.
Lemma chain_le l : ∀ lo hi, chain lo l hi → lo ≤ hi.
Proof. induction l as [|[a n] l IH]; intros lo hi; cbn; [done|]. intros (? & ? & H%IH). lia. Qed.
Lemma chain_app l1 l2 : ∀ lo hi, chain lo (l1 ++ l2) hi ↔ ∃ mid, chain lo l1 mid ∧ chain mid l2 hi.
Proof.
  induction l1 as [|[a n] l1 IH]; intros lo hi; cbn.
  - split; [intros H; by exists lo|]. intros (mid & H1 & H2). destruct l2 as [|[a n] l2]; cbn in *; [lia|]. intuition lia.
  - rewrite IH. split.
    + intros (? & ? & mid & ? & ?). by exists mid.
    + intros (mid & (? & ? & ?) & ?). split; [done|]. split; [done|]. by exists mid.
Qed.
Lemma chain_weaken l lo lo' hi hi' : lo' ≤ lo → hi ≤ hi' → chain lo l hi → chain lo' l hi'.
Proof. revert lo lo'. induction l as [|[a n] l IH]; intros lo lo' H1 H2; cbn; [lia|]. intros (? & ? & ?). split_and!; [lia..|by eapply IH]. Qed.
Lemma chain_in l : ∀ lo hi a n, chain lo l hi → (a, n) ∈ l → lo ≤ a ∧ 1 ≤ n ∧ a + 24 * n ≤ hi.
Proof.
  intros lo hi a n H (l1 & l2 & ->)%list_elem_of_split. apply chain_app in H as (mid & H1%chain_le & H2). cbn in H2.
  destruct H2 as (? & ? & H2%chain_le). lia.
Qed.
Lemma chain_sel t B : ∀ lo hi, chain lo B.*1 hi → chain lo (sel t B) hi.
Proof.
  induction B as [|[[a n] t'] B IH]; intros lo hi; cbn; [done|]. intros (? & ? & H%IH). destruct (Bool.eqb t t'); cbn; [done|].
  by eapply chain_weaken; [| |exact H]; lia.
Qed.
Lemma chain_tight l lo hi : chain lo l hi → hi ≤ lo → l = [].
Proof. destruct l as [|[a n] l]; [done|]. cbn. intros (? & ? & H%chain_le). lia. Qed.
Lemma chain_order l : ∀ lo hi i j x y, chain lo l hi → l !! i = Some x → l !! j = Some y → (i < j)%nat → x.1 + 24 * x.2 ≤ y.1.
Proof.
  intros lo hi i j [a n] [b m] H Hi Hj Hij. cbn. rewrite <-(take_drop_middle l i (a, n) Hi) in H.
  apply chain_app in H as (mid & _ & H). cbn in H. destruct H as (? & ? & H).
  apply (chain_in _ _ _ b m) in H; [lia|]. apply list_elem_of_lookup. exists (j - S i)%nat. rewrite lookup_drop. by replace (S i + (j - S i))%nat with j by lia.
Qed.
Lemma first_app nxt l1 l2 : first nxt (l1 ++ l2) = first (first nxt l2) l1.
Proof. by destruct l1 as [|[]]. Qed.
Lemma ring_app m l1 l2 : ∀ nxt, ring m (l1 ++ l2) nxt ↔ ring m l1 (first nxt l2) ∧ ring m l2 nxt.
Proof. induction l1 as [|[a n] l1 IH]; intros nxt; cbn; [tauto|]. rewrite IH, first_app. tauto. Qed.
Lemma ring_insert_ne m a h l nxt : a ∉ l.*1 → ring m l nxt → ring (<[a := h]> m) l nxt.
Proof.
  induction l as [|[b n] l IH]; cbn; [done|]. intros [Hn Hl]%not_elem_of_cons [(d & E) H]. split; [|by apply IH].
  exists d. by rewrite lookup_insert_ne.
Qed.
Lemma ring_lookup m l : ∀ nxt k a n, ring m l nxt → l !! k = Some (a, n) →
  ∃ d, m !! a = Some (MkHeader (first nxt (drop (S k) l)) n d).
Proof.
  intros nxt k a n H E. rewrite <-(take_drop_middle l k (a, n) E) in H. apply ring_app in H as [_ H]. apply H.
Qed.
Lemma block_ok_insert_ne m a h B : (∀ b, b ∈ B → b.1.1 ≠ a) → Forall (block_ok m) B → Forall (block_ok (<[a := h]> m)) B.
Proof.
  intros Hn. rewrite !Forall_forall. intros H b Hb. destruct (H b Hb) as (nx & E). exists nx. rewrite lookup_insert_ne; [done|].
  intros ->. by apply (Hn b Hb).
Qed.
(** addresses outside a chain *)
Lemma chain_notin l lo hi b : chain lo l hi → b < lo ∨ hi ≤ b → b ∉ l.*1.
Proof.
  intros H Hb ([a n] & -> & Hin)%list_elem_of_fmap. pose proof (chain_in _ _ _ _ _ H Hin). cbn in Hb. lia.
Qed.

(** ** Reading and writing headers *)
Lemma hdr_run p h s : hdrs s !! p = Some h → hdr p s = Ok (h, s).
Proof. intros E. unfold hdr, gets, mbind, M_bind. by rewrite E. Qed.
Lemma set_next_run p v h s : hdrs s !! p = Some h →
  set_next p v s = Ok ((), Heap (<[p := MkHeader v (h_size h) (h_data h)]> (hdrs s)) (free_list s) (brk s)).
Proof. intros E. unfold set_next. by rewrite (bind_Ok _ _ _ _ _ (hdr_run _ _ _ E)). Qed.
Lemma set_size_run p v h s : hdrs s !! p = Some h →
  set_size p v s = Ok ((), Heap (<[p := MkHeader (h_next h) (u32 v) (h_data h)]> (hdrs s)) (free_list s) (brk s)).
Proof. intros E. unfold set_size. by rewrite (bind_Ok _ _ _ _ _ (hdr_run _ _ _ E)). Qed.

(** ** Walking the ring: [dist N k j] steps lead from index [k] to index [j] *)
Definition dist (N k j : nat) : nat := if (k <=? j)%nat then (j - k)%nat else (N - k + j)%nat.
Definition succ_of (N k : nat) : nat := if (S k <? N)%nat then S k else O.
Lemma dist_succ N k j : (k < N)%nat → (j < N)%nat → k ≠ j → dist N k j = S (dist N (succ_of N k) j).
Proof. intros Hk Hj Hn. unfold dist, succ_of. destruct (Nat.ltb_spec (S k) N), (Nat.leb_spec k j); case_match; lia. Qed.
Lemma dist_lt N k j : (k < N)%nat → (j < N)%nat → (dist N k j < N)%nat.
Proof. intros Hk Hj. unfold dist. destruct (Nat.leb_spec k j); lia. Qed.
Lemma dist_same N k : dist N k k = 0%nat.
Proof. unfold dist. rewrite Nat.leb_refl. lia. Qed.
Lemma dist_0 N k j : (k < N)%nat → (j < N)%nat → dist N k j = 0%nat → k = j.
Proof. intros Hk Hj. unfold dist. destruct (Nat.leb_spec k j); lia. Qed.
(** the successor of a block in a ring is the block at the next index *)
Lemma ring_succ m F k a n : ring m F (first 0 F) → F !! k = Some (a, n) →
  ∃ d a' n', m !! a = Some (MkHeader a' n d) ∧ F !! succ_of (length F) k = Some (a', n').
Proof.
  intros H E. destruct (ring_lookup _ _ _ _ _ _ H E) as (d & Em). exists d. unfold succ_of.
  destruct (Nat.ltb_spec (S k) (length F)) as [Hlt|Hge].
  - destruct (F !! S k) as [[a' n']|] eqn:E'; [|apply lookup_ge_None in E'; lia]. exists a', n'. split; [|done].
    by rewrite (drop_S _ _ _ E') in Em.
  - rewrite drop_ge in Em by lia. destruct F as [|[a' n'] F]; [done|]. exists a', n'. by split.
Qed.

Section find_place.
Context (m : gmap Z Header) (F : list block) (b : Z) (j : nat).
Context (Hring : ring m F (first 0 F)).
Context (Hsorted : ∀ i k x y, F !! i = Some x → F !! k = Some y → (i < k)%nat → x.1 < y.1).
Context (Hj : (j < length F)%nat) (Hlow : ∀ i x, F !! i = Some x → (i ≤ j)%nat → x.1 < b).
Context (Hhigh : ∀ i x, F !! i = Some x → (j < i)%nat → b < x.1).
Lemma find_place_run s : hdrs s = m → ∀ fuel k a n, F !! k = Some (a, n) → (dist (length F) k j < fuel)%nat →
  ∃ p, find_place fuel b a s = Ok (p.1, s) ∧ F !! j = Some p.
Proof using Hring Hsorted Hj Hlow Hhigh.
  intros Es. induction fuel as [|fuel IH]; intros k a n Ek Hd; [lia|]. cbn [find_place].
  destruct (ring_succ m F k a n Hring Ek) as (d & a' & n' & Em & Ek'). pose proof (lookup_lt_Some _ _ _ Ek) as Hk.
  rewrite (bind_Ok _ _ _ _ _ (hdr_run a _ s ltac:(by rewrite Es))). cbn [h_next].
  destruct (F !! 0%nat) as [[a0 n0]|] eqn:E0; [|apply lookup_ge_None in E0; lia].
  pose proof (Hlow 0%nat _ E0 ltac:(lia)) as H0. cbn in H0.
  assert (Hstep : k ≠ j → ∃ p, find_place fuel b a' s = Ok (p.1, s) ∧ F !! j = Some p).
  { intros Hn. apply (IH (succ_of (length F) k) a' n'); [done|]. pose proof (dist_succ (length F) k j Hk Hj Hn). lia. }
  unfold succ_of in Ek'. destruct (Nat.ltb_spec (S k) (length F)) as [Hlt|Hge].
  - pose proof (Hsorted k (S k) _ _ Ek Ek' ltac:(lia)) as Hs. cbn in Hs. replace (a' <=? a) with false by lia. cbn [andb].
    destruct (lt_eq_lt_dec k j) as [[Hkj| ->]|Hkj].
    + pose proof (Hlow (S k) _ Ek' ltac:(lia)) as Hl. cbn in Hl. replace (b <? a') with false by lia. rewrite andb_false_r. apply Hstep. lia.
    + pose proof (Hlow j _ Ek ltac:(lia)). pose proof (Hhigh (S j) _ Ek' ltac:(lia)). cbn in *.
      replace ((a <? b) && (b <? a')) with true by lia. by exists (a, n).
    + pose proof (Hhigh k _ Ek ltac:(lia)) as Hh. cbn in Hh. replace (a <? b) with false by lia. cbn [andb]. apply Hstep. lia.
  - rewrite E0 in Ek'. injection Ek' as <- <-. replace (b <? a0) with false by lia. rewrite andb_false_r, orb_false_r.
    assert (a0 ≤ a) as Hle.
    { destruct (decide (k = 0%nat)) as [-> |]; [rewrite E0 in Ek; injection Ek as -> ->; lia|].
      pose proof (Hsorted 0%nat k _ _ E0 Ek ltac:(lia)) as Hs. cbn in Hs. lia. }
    replace (a0 <=? a) with true by lia. cbn [andb]. destruct (decide (k = j)) as [-> |Hn].
    + pose proof (Hlow j _ Ek ltac:(lia)) as Hl. cbn in Hl. replace (a <? b) with true by lia. by exists (a, n).
    + pose proof (Hhigh k _ Ek ltac:(lia)) as Hh. cbn in Hh. replace (a <? b) with false by lia. by apply Hstep.
Qed.
End find_place.

(** ** Coalescing *)
Section coalesce.
Context (base : Z).
Lemma ok_mid B1 b n t B2 s : heap_ok base (B1 ++ ((b, n), t) :: B2) s →
  ∃ mid, chain (base + 32) B1.*1 mid ∧ mid ≤ b ∧ 1 ≤ n ∧ chain (b + 24 * n) B2.*1 (brk s).
Proof. intros H. pose proof (ok_chain _ _ _ H) as Hc. rewrite fmap_app in Hc. apply chain_app in Hc as (mid & H1 & H2 & H3 & H4). by exists mid. Qed.
Lemma ok_above B1 b n t B2 s : heap_ok base (B1 ++ ((b, n), t) :: B2) s → base + 32 ≤ b.
Proof. intros H. destruct (ok_mid _ _ _ _ _ _ H) as (mid & H1%chain_le & H2 & _). lia. Qed.
Lemma merge_next_run s B1 b n B2 P pl np : heap_ok base (B1 ++ ((b, n), false) :: B2) s →
  (base, 1) :: sel true B1 = P ++ [(pl, np)] →
  ∃ n2 B2', merge_next b pl s =
      Ok ((), Heap (<[b := MkHeader (first base (sel true B2')) n2 (b + 24)]> (hdrs s)) (free_list s) (brk s)) ∧
    chain (b + 24 * n2) B2'.*1 (brk s) ∧ n ≤ n2 ∧ sel false B2' = sel false B2 ∧ (length B2' ≤ length B2)%nat ∧
    ring (hdrs s) (sel true B2') base ∧ Forall (block_ok (hdrs s)) B2' ∧ join_next b n B2 = (n2, B2').
Proof.
  intros Hok HP. pose proof (ok_base _ _ _ Hok) as Hbase. pose proof (ok_above _ _ _ _ _ _ Hok) as Hab. pose proof (ok_ring _ _ _ Hok) as Hr.
  rewrite sel_app in Hr. cbn [sel Bool.eqb] in Hr. rewrite app_comm_cons, HP in Hr. apply ring_app in Hr as [Hr1 Hr2].
  apply ring_app in Hr1 as [_ [(dp & Ep) _]]. cbn [first] in Ep.
  pose proof (ok_blocks _ _ _ Hok) as Hb. apply Forall_app in Hb as [_ [(nx & Eb) Hb2]%Forall_cons]. cbn in Eb.
  destruct (ok_mid _ _ _ _ _ _ Hok) as (mid & _ & _ & Hn & Hc). pose proof (ok_brk _ _ _ Hok) as Hbrk.
  unfold merge_next. rewrite (bind_Ok _ _ _ _ _ (hdr_run _ _ _ Ep)), (bind_Ok _ _ _ _ _ (hdr_run _ _ _ Eb)). cbn [h_size h_next].
  destruct (Z.eqb_spec (plus b n) (first base (sel true B2))) as [E|Hne].
  2: { exists n, B2. erewrite set_next_run by exact Eb. split; [done|]. split_and!; [done|lia|done|lia|done|done|].
       unfold join_next, plus, sizeof_Header in *. destruct B2 as [|[[a m] []] R]; [done| |done]. cbn in Hne. by rewrite (proj2 (Z.eqb_neq _ _)) by lia. }
  unfold plus, sizeof_Header in E. destruct (sel true B2) as [|[a2 m2] R] eqn:ES; cbn [first] in E; [lia|].
  destruct (sel_split true B2 [] _ _ ES) as (Ba & Bb & EB & Ea & ER). rewrite EB, fmap_app in Hc.
  apply chain_app in Hc as (mid2 & Hc1 & Hc2 & Hm2 & Hc3). apply chain_tight in Hc1; [|lia]. apply fmap_nil_inv in Hc1 as ->. cbn in EB. subst B2.
  exists (n + m2), Bb. cbn in Hr2. destruct Hr2 as [(d2 & E2) Hr2]. rewrite (bind_Ok _ _ _ _ _ (hdr_run _ _ _ E2)). cbn [h_size h_next].
  pose proof (chain_le _ _ _ Hc3). rewrite (bind_Ok _ _ _ _ _ (set_size_run _ _ _ _ Eb)). cbn [h_next h_data].
  rewrite (wrap_small 32) by lia. erewrite set_next_run by (cbn [hdrs]; by rewrite lookup_insert_eq).
  cbn [hdrs free_list brk h_size h_data]. rewrite insert_insert_eq. subst R a2. split; [done|].
  split_and!; [|lia|done|cbn; lia|done|by apply Forall_cons in Hb2 as [_ ?]|cbn; by rewrite Z.eqb_refl].
  by replace (b + 24 * (n + m2)) with (b + 24 * n + 24 * m2) by lia.
Qed.
Lemma merge_previous_run s m fl B1 b n2 B2' P pl np mid :
  let s1 := Heap (<[b := MkHeader (first base (sel true B2')) n2 (b + 24)]> m) fl (brk s) in
  0 < base → brk s < 2 ^ 31 → (base, 1) :: sel true B1 = P ++ [(pl, np)] →
  chain (base + 32) B1.*1 mid → mid ≤ b → 1 ≤ n2 → chain (b + 24 * n2) B2'.*1 (brk s) →
  (∃ nx, ring m ((base, 1) :: sel true B1) nx) → Forall (block_ok m) B1 →
  ring m (sel true B2') base → Forall (block_ok m) B2' →
  ∃ B' m', merge_previous b pl s1 = Ok ((), Heap m' fl (brk s)) ∧ heap_ok base B' (Heap m' pl (brk s)) ∧
    sel false B' = sel false B1 ++ sel false B2' ∧ (∃ x, x ∈ sel true B' ∧ n2 ≤ x.2) ∧
    (length B' ≤ S (length B1 + length B2'))%nat ∧ B' = join_previous B1 b n2 B2'.
Proof.
  intros s1 Hbase Hbrk HP H1 Hmid Hn H2 (nx & Hr1) Hb1 Hr2 Hb2. pose proof (chain_le _ _ _ H1). pose proof (chain_le _ _ _ H2) as H2le.
  assert (Hpl : pl < b).
  { assert ((pl, np) ∈ (base, 1) :: sel true B1) as Hin by (rewrite HP; set_solver).
    apply elem_of_cons in Hin as [[= -> ->]|Hin]; [lia|]. pose proof (chain_in _ _ _ _ _ (chain_sel _ _ _ _ H1) Hin). lia. }
  pose proof Hr1 as Hr1'. rewrite HP in Hr1'. apply ring_app in Hr1' as [HrP [(dp & Ep) _]]. cbn [first] in HrP, Ep.
  assert (HPn : pl ∉ P.*1 ∧ b ∉ P.*1).
  { assert (chain base (P ++ [(pl, np)]) mid) as Hc. { rewrite <-HP. cbn. split_and!; [lia..|]. eapply chain_weaken, chain_sel, H1; lia. }
    apply chain_app in Hc as (m1 & Hc1 & Hc2 & Hc3 & Hc4). split; eapply chain_notin; [exact Hc1|by right|exact Hc1|right; lia]. }
  assert (Hb1n : ∀ x, x ∈ B1 → x.1.1 < b ∧ base + 32 ≤ x.1.1).
  { intros [[a k] t] Hx. apply (list_elem_of_fmap_2 fst) in Hx. pose proof (chain_in _ _ _ _ _ H1 Hx). cbn. lia. }
  assert (Hb2n : ∀ x, x ∈ B2' → b < x.1.1).
  { intros [[a k] t] Hx. apply (list_elem_of_fmap_2 fst) in Hx. pose proof (chain_in _ _ _ _ _ H2 Hx). cbn. lia. }
  assert (Hr2n : ∀ a, a ≤ b → a ∉ (sel true B2').*1).
  { intros a Ha. eapply chain_notin; [apply chain_sel; exact H2|]. left. lia. }
  assert (hdrs s1 !! pl = Some (MkHeader nx np dp)) as Ep1 by (cbn; rewrite lookup_insert_ne by lia; exact Ep).
  unfold merge_previous. rewrite (bind_Ok _ _ _ _ _ (hdr_run _ _ _ Ep1)). cbn [h_size].
  destruct (Z.eqb_spec (plus pl np) b) as [E|Hsep]; unfold plus, sizeof_Header in *.
  - (* into the block before *)
    destruct P as [|p0 P']; [injection HP; intros; subst; lia|]. injection HP as <- HP.
    destruct (sel_split true B1 P' _ _ HP) as (B1a & B1b & -> & EP & EPb). rewrite fmap_app in H1.
    apply chain_app in H1 as (m1 & H1a & H1b & H1c & H1d). pose proof (chain_le _ _ _ H1a). apply chain_tight in H1d; [|lia]. apply fmap_nil_inv in H1d as ->.
    erewrite (bind_Ok (hdr b)) by (apply hdr_run; cbn; apply lookup_insert_eq). cbn [h_size h_next].
    rewrite (bind_Ok _ _ _ _ _ (set_size_run _ _ _ _ Ep1)). cbn [h_next h_data]. rewrite (wrap_small 32) by lia.
    erewrite set_next_run by (cbn [hdrs]; by rewrite lookup_insert_eq). cbn [hdrs free_list brk h_size h_data]. rewrite insert_insert_eq.
    apply Forall_app in Hb1 as [Hb1a [(nxp & Eok) _]%Forall_cons]. cbn in Eok. rewrite Ep in Eok. injection Eok as -> ->.
    exists (B1a ++ ((pl, np + n2), true) :: B2'). eexists. split; [reflexivity|]. split; [|split_and!].
    + split; [done| | | | |done].
      * cbn [brk]. rewrite fmap_app. apply chain_app. exists m1. cbn. split_and!; [done..|lia|]. by replace (pl + 24 * (np + n2)) with (b + 24 * n2) by lia.
      * cbn [hdrs]. rewrite sel_app, EP. cbn [sel Bool.eqb]. rewrite app_comm_cons. apply ring_app. cbn [first]. split.
        -- apply ring_insert_ne; [apply HPn|]. subst s1. cbn [hdrs]. apply ring_insert_ne; [apply HPn|done].
        -- cbn. split; [eexists; apply lookup_insert_eq|]. apply ring_insert_ne; [apply Hr2n; lia|]. apply ring_insert_ne; [apply Hr2n; lia|done].
      * cbn [hdrs]. apply Forall_app. split; [|constructor; [eexists; cbn; apply lookup_insert_eq|]].
        -- apply block_ok_insert_ne; [|apply block_ok_insert_ne; [|done]]; intros [[a k] t] Hx.
           ++ apply (list_elem_of_fmap_2 fst) in Hx. pose proof (chain_in _ _ _ _ _ H1a Hx). cbn. lia.
           ++ destruct (Hb1n ((a, k), t)); [set_solver|cbn in *; lia].
        -- apply block_ok_insert_ne; [|apply block_ok_insert_ne; [|done]]; intros x Hx; specialize (Hb2n x Hx); lia.
      * exists (np + n2). cbn [free_list]. rewrite sel_app. cbn. set_solver.
    + rewrite !sel_app. cbn. by rewrite app_nil_r.
    + exists (pl, np + n2). rewrite sel_app. cbn. split; [set_solver|lia].
    + rewrite !length_app. cbn. lia.
    + unfold join_previous. rewrite last_snoc, removelast_last, E, Z.eqb_refl. done.
  - (* a block of its own *)
    erewrite set_next_run by exact Ep1. cbn [hdrs free_list brk h_size h_data].
    exists (B1 ++ ((b, n2), true) :: B2'). eexists. split; [reflexivity|]. split; [|split_and!].
    + split; [done| | | | |done].
      * cbn [brk]. rewrite fmap_app. apply chain_app. exists mid. cbn. by split_and!.
      * cbn [hdrs]. rewrite sel_app. cbn [sel Bool.eqb]. rewrite app_comm_cons, HP, <-app_assoc. apply ring_app. cbn [first app]. split.
        -- apply ring_insert_ne; [apply HPn|]. subst s1. cbn [hdrs]. apply ring_insert_ne; [apply HPn|done].
        -- cbn. split; [eexists; apply lookup_insert_eq|]. split; [eexists; rewrite lookup_insert_ne by lia; apply lookup_insert_eq|].
           apply ring_insert_ne; [apply Hr2n; lia|]. apply ring_insert_ne; [apply Hr2n; lia|done].
      * cbn [hdrs]. apply Forall_app. split; [|constructor].
        -- (* [pl] may be one of them *)
           apply Forall_forall. intros [[a k] t] Hx. rewrite Forall_forall in Hb1. destruct (Hb1 _ Hx) as (nx' & Ex). cbn in Ex.
           destruct (Hb1n _ Hx) as [Hlt _]. cbn in Hlt. unfold block_ok. cbn. destruct (decide (a = pl)) as [-> |Hne].
           ++ rewrite lookup_insert_eq. rewrite Ep in Ex. injection Ex as -> -> ->. by eexists.
           ++ rewrite lookup_insert_ne by done. rewrite lookup_insert_ne by lia. by eexists.
        -- eexists. cbn. rewrite lookup_insert_ne by lia. apply lookup_insert_eq.
        -- apply block_ok_insert_ne; [|apply block_ok_insert_ne; [|done]]; intros x Hx; specialize (Hb2n x Hx); lia.
      * exists np. cbn [free_list]. rewrite sel_app. cbn [sel Bool.eqb]. rewrite app_comm_cons, HP. set_solver.
    + rewrite !sel_app. by cbn.
    + exists (b, n2). rewrite sel_app. cbn. split; [set_solver|lia].
    + rewrite !length_app. cbn. lia.
    + unfold join_previous. destruct (last B1) as [[[a k] []]|] eqn:El; [|done..]. apply last_Some in El as [B1a ->].
      rewrite sel_app in HP. cbn [sel Bool.eqb] in HP. rewrite app_comm_cons in HP. apply app_inj_tail in HP as [_ [= -> ->]].
      by rewrite (proj2 (Z.eqb_neq _ _)).
Qed.
(** the free blocks, [base] first, are sorted *)
Lemma frees_sorted B s i k x y : heap_ok base B s →
  ((base, 1) :: sel true B) !! i = Some x → ((base, 1) :: sel true B) !! k = Some y → (i < k)%nat → x.1 + 24 * x.2 ≤ y.1 ∧ 1 ≤ x.2.
Proof.
  intros Hok Hx Hy Hik. assert (chain base ((base, 1) :: sel true B) (brk s)) as Hc.
  { cbn. split_and!; [lia..|]. eapply chain_weaken, chain_sel, ok_chain, Hok; lia. }
  split; [by eapply chain_order|]. destruct x as [a n]. by apply (chain_in _ _ _ a n Hc), list_elem_of_lookup_2 with i.
Qed.
Lemma FreeBlock_run s B1 b n B2 fuel : heap_ok base (B1 ++ ((b, n), false) :: B2) s → (S (length B1 + length B2) ≤ fuel)%nat →
  ∃ B' s', FreeBlock fuel b s = Ok ((), s') ∧ heap_ok base B' s' ∧ brk s' = brk s ∧
    sel false B' = sel false B1 ++ sel false B2 ∧ (∃ x, x ∈ sel true B' ∧ n ≤ x.2) ∧ (length B' ≤ S (length B1 + length B2))%nat ∧
    B' = released B1 b n B2.
Proof.
  intros Hok Hf. set (B := B1 ++ ((b, n), false) :: B2) in *. set (F := (base, 1) :: sel true B).
  assert (HF : F = ((base, 1) :: sel true B1) ++ sel true B2) by (subst F B; by rewrite sel_app).
  destruct (ok_free_list _ _ _ Hok) as (nf & (k & Ek)%list_elem_of_lookup). fold F in Ek.
  destruct (exists_last (l := (base, 1) :: sel true B1) ltac:(done)) as (P & [pl np] & HP).
  destruct (ok_mid _ _ _ _ _ _ Hok) as (mid & H1 & Hmid & Hn & H2). pose proof (ok_base _ _ _ Hok) as Hbase.
  assert (Hlow : ∀ x, x ∈ (base, 1) :: sel true B1 → x.1 < b).
  { pose proof (chain_le _ _ _ H1). intros [a m] [[= -> ->]|Hx]%elem_of_cons; cbn; [lia|].
    pose proof (chain_in _ _ _ _ _ (chain_sel _ _ _ _ H1) Hx). lia. }
  assert (Hhigh : ∀ x, x ∈ sel true B2 → b < x.1).
  { intros [a m] Hx. pose proof (chain_in _ _ _ _ _ (chain_sel _ _ _ _ H2) Hx). cbn. lia. }
  assert (length (sel true B) ≤ length B1 + length B2)%nat as HlenF.
  { assert (∀ t l, (length (sel t l) ≤ length l)%nat) as Hs. { intros t l. induction l as [|[y t'] l IH]; cbn; [lia|]. destruct (Bool.eqb t t'); cbn; lia. }
    subst B. rewrite sel_app, length_app. cbn [sel Bool.eqb]. pose proof (Hs true B1). pose proof (Hs true B2). lia. }
  destruct (find_place_run (hdrs s) F b (length (sel true B1)) (ok_ring _ _ _ Hok)) with (s := s) (fuel := fuel) (k := k) (a := free_list s) (n := nf)
    as ([p' n'] & Efind & Ep').
  - intros i i' x y Hx Hy Hii. destruct (frees_sorted _ _ _ _ _ _ Hok Hx Hy Hii). lia.
  - rewrite HF, length_app. cbn. lia.
  - intros i x Hx Hi. apply Hlow. rewrite HF, lookup_app_l in Hx by (cbn; lia). by eapply list_elem_of_lookup_2.
  - intros i x Hx Hi. apply Hhigh. rewrite HF, lookup_app_r in Hx by (cbn; lia). by eapply list_elem_of_lookup_2.
  - done.
  - exact Ek.
  - pose proof (dist_lt (length F) k (length (sel true B1)) ltac:(by eapply lookup_lt_Some) ltac:(rewrite HF, length_app; cbn; lia)).
    assert (length F = S (length (sel true B))) by done. lia.
  - assert ((p', n') = (pl, np)) as [= -> ->].
    { rewrite HF, lookup_app_l, HP in Ep' by (cbn; lia). assert (length (sel true B1) = length P) as El.
      { apply (f_equal length) in HP. rewrite length_app in HP. cbn in HP. lia. }
      rewrite El, list_lookup_middle in Ep' by done. by injection Ep' as <- <-. }
    unfold FreeBlock. rewrite (bind_Ok (gets _) _ _ (free_list s) s) by done. rewrite (bind_Ok _ _ _ _ _ Efind). cbn [fst].
    destruct (merge_next_run s B1 b n B2 P pl np Hok HP) as (n2 & B2' & E1 & Hc2 & Hn2 & Es2 & Hl2 & Hr2 & Hb2 & Ej).
    rewrite (bind_Ok _ _ _ _ _ E1). pose proof (ok_ring _ _ _ Hok) as Hr. fold F in Hr. rewrite HF in Hr. apply ring_app in Hr as [Hr1 _].
    pose proof (ok_blocks _ _ _ Hok) as Hb. apply Forall_app in Hb as [Hb1 _].
    destruct (merge_previous_run s (hdrs s) (free_list s) B1 b n2 B2' P pl np mid) as (B' & m' & E2 & Hok' & Es & (x & Hx & Hx2) & Hl & EB');
      [done|by apply (ok_brk _ _ _ Hok)|done|done|done|lia|done|by eexists|done|done|done|].
    rewrite (bind_Ok _ _ _ _ _ E2). exists B', (Heap m' pl (brk s)). split; [done|]. split; [done|]. split; [done|].
    rewrite Es, Es2. split; [done|]. split; [exists x; split; [done|lia]|]. split; [lia|].
    unfold released. by rewrite Ej.
Qed.
End coalesce.

(** ** Taking a block *)
Lemma block_ok_set_next m q v h B : m !! q = Some h → Forall (block_ok m) B →
  Forall (block_ok (<[q := MkHeader v (h_size h) (h_data h)]> m)) B.
Proof.
  intros Eq HB. eapply Forall_impl; [exact HB|]. intros [[a n] t] (nx & E). unfold block_ok in *. cbn in *. destruct (decide (a = q)) as [-> |].
  - rewrite lookup_insert_eq. rewrite Eq in E. injection E as ->. cbn. by eexists.
  - rewrite lookup_insert_ne by done. by eexists.
Qed.
Lemma make_header_run p n s : make_header p n s =
  Ok (p, Heap (<[p := MkHeader (default 0 (h_next <$> hdrs s !! p)) n (plus p 1)]> (hdrs s)) (free_list s) (brk s)).
Proof. done. Qed.
Section take.
Context (base : Z).
Lemma take_block_run s B P q nq a n R u : heap_ok base B s → (base, 1) :: sel true B = P ++ (q, nq) :: (a, n) :: R →
  1 ≤ u ≤ n → ∃ r s' B' L1 L2, take_block u q a s = Ok (r + 24, s') ∧ heap_ok base B' s' ∧ 0 < r ∧
    sel false B = L1 ++ L2 ∧ sel false B' = L1 ++ (r, u) :: L2.
Proof.
  intros Hok HF Hu. pose proof (ok_base _ _ _ Hok) as Hbase. pose proof (ok_ring _ _ _ Hok) as Hr. rewrite HF in Hr.
  assert (∃ P2, (base, 1) :: P2 = P ++ [(q, nq)] ∧ sel true B = P2 ++ (a, n) :: R) as (P2 & HP & HS).
  { destruct P as [|x P]; injection HF as E1 E2; [exists []; by rewrite E1, E2|]. exists (P ++ [(q, nq)]). by rewrite E1, E2, <-app_assoc. }
  destruct (sel_split true B P2 _ _ HS) as (B1 & B2 & -> & E1 & E2). clear HF HS.
  change ((q, nq) :: (a, n) :: R) with ([(q, nq)] ++ (a, n) :: R) in Hr. rewrite app_assoc in Hr. apply ring_app in Hr as [Hr1 [(d & Ea) Hr2]]. cbn [first] in Hr1.
  destruct (ok_mid _ _ _ _ _ _ _ Hok) as (mid & H1 & Hmid & _ & H2). pose proof (chain_le _ _ _ H1). pose proof (chain_le _ _ _ H2).
  pose proof (ok_blocks _ _ _ Hok) as Hb. pose proof Hb as [Hb1 [(nx & Ea') Hb2]%Forall_cons]%Forall_app. cbn in Ea'.
  rewrite Ea in Ea'. injection Ea' as <- ->. pose proof Hr1 as [Hr0 [(dq & Eq) _]]%ring_app. cbn [first] in Eq, Hr0.
  assert (HPn : ∀ x, a ≤ x → x ∉ (P ++ [(q, nq)]).*1).
  { intros x Hx. rewrite <-HP. cbn. apply not_elem_of_cons. split; [lia|]. rewrite <-E1. eapply chain_notin; [apply chain_sel, H1|right; lia]. }
  assert (HRn : ∀ x, x < a + 24 * n → x ∉ R.*1).
  { intros x Hx. rewrite <-E2. eapply chain_notin; [apply chain_sel, H2|by left]. }
  assert (Hqa : q ≠ a) by (intros ->; apply (HPn a); [lia|rewrite fmap_app; set_solver]).
  assert (Hql : q < a).
  { destruct (Z_lt_ge_dec q a); [done|]. exfalso. apply (HPn q); [lia|rewrite fmap_app; set_solver]. }
  unfold take_block. rewrite (bind_Ok _ _ _ _ _ (hdr_run _ _ _ Ea)). cbn [h_size h_next]. destruct (Z.eqb_spec n u) as [<- |Hne].
  - (* the whole block *)
    rewrite (bind_Ok _ _ _ _ _ (set_next_run q _ _ s Eq)). erewrite (bind_Ok (set_free_list q)) by done. cbn [h_size h_data hdrs free_list brk].
    erewrite (bind_Ok (hdr a)) by (apply hdr_run; cbn [hdrs]; rewrite lookup_insert_ne by done; exact Ea).
    exists a. eexists. exists (B1 ++ ((a, n), false) :: B2), (sel false B1), (sel false B2). split; [reflexivity|]. split; [|split; [lia|rewrite !sel_app; by cbn]].
    split; cbn [hdrs free_list brk]; [done| | | | |by apply (ok_brk _ _ _ Hok)].
    + pose proof (ok_chain _ _ _ Hok) as Hc. rewrite fmap_app in *. exact Hc.
    + rewrite sel_app. cbn [sel Bool.eqb]. rewrite E1, E2, app_comm_cons, HP, <-app_assoc. apply ring_app. cbn [app first ring].
      assert (q ∉ P.*1 ∧ q ∉ R.*1) as [? ?].
      { split; [|apply HRn; lia]. assert (chain base (P ++ [(q, nq)]) mid) as Hc.
        { rewrite <-HP, <-E1. cbn. split_and!; [lia..|]. eapply chain_weaken, chain_sel, H1; lia. }
        apply chain_app in Hc as (m1 & Hc1 & Hc2 & _). eapply chain_notin; [exact Hc1|by right]. }
      split; [by apply ring_insert_ne|]. split; [eexists; apply lookup_insert_eq|]. by apply ring_insert_ne.
    + apply (block_ok_set_next _ _ _ (MkHeader a nq dq)); [done|]. apply Forall_app. split; [done|]. constructor; [by eexists|done].
    + exists nq. rewrite sel_app. cbn [sel Bool.eqb]. rewrite E1, E2, app_comm_cons, HP. set_solver.
  - (* its tail *)
    pose proof (ok_brk _ _ _ Hok). rewrite (bind_Ok _ _ _ _ _ (set_size_run a _ _ s Ea)). erewrite (bind_Ok (set_free_list a)) by done.
    cbv zeta. cbn [h_next h_data hdrs free_list brk]. rewrite (wrap_small 32) by lia. set (r := plus a (n - u)). assert (r = a + 24 * (n - u)) as Er by done.
    rewrite (bind_Ok _ _ _ _ _ (make_header_run r u _)).
    cbn [hdrs free_list brk]. erewrite (bind_Ok (hdr r)) by (apply hdr_run; cbn [hdrs]; apply lookup_insert_eq).
    exists r. eexists. exists (B1 ++ ((a, n - u), true) :: ((r, u), false) :: B2), (sel false B1), (sel false B2). split; [reflexivity|].
    split; [|split; [lia|rewrite !sel_app; by cbn]]. split; cbn [hdrs free_list brk]; [done| | | | |done].
    + rewrite fmap_app. apply chain_app. exists mid. cbn. split_and!; [done|lia..|]. by replace (r + 24 * u) with (a + 24 * n) by lia.
    + rewrite sel_app. cbn [sel Bool.eqb]. rewrite E1, E2, app_comm_cons, HP. apply ring_app. cbn [first ring].
      split; [apply ring_insert_ne; [apply HPn; lia|]; apply ring_insert_ne; [apply HPn; lia|done]|].
      split; [rewrite lookup_insert_ne by lia; rewrite lookup_insert_eq; by eexists|].
      apply ring_insert_ne; [apply HRn; lia|]. apply ring_insert_ne; [apply HRn; lia|done].
    + assert (∀ x, x ∈ B1 ++ B2 → x.1.1 < a ∨ a + 24 * n ≤ x.1.1) as Hout.
      { intros [[c k] t] [Hx|Hx]%elem_of_app; apply (list_elem_of_fmap_2 fst) in Hx; [pose proof (chain_in _ _ _ _ _ H1 Hx)|pose proof (chain_in _ _ _ _ _ H2 Hx)]; cbn; lia. }
      assert (Forall (block_ok (<[r:=MkHeader (default 0 (h_next <$> <[a:=MkHeader (first base R) (n - u) (a + 24)]> (hdrs s) !! r)) u (plus r 1)]>
        (<[a:=MkHeader (first base R) (n - u) (a + 24)]> (hdrs s)))) (B1 ++ B2)) as Hall.
      { apply block_ok_insert_ne; [|apply block_ok_insert_ne; [|by apply Forall_app]]; intros x Hx; specialize (Hout x Hx); lia. }
      apply Forall_app in Hall as [Ha1 Ha2]. apply Forall_app. split; [exact Ha1|]. constructor; [|constructor; [|exact Ha2]].
      * eexists. cbn. rewrite lookup_insert_ne by lia. apply lookup_insert_eq.
      * eexists. cbn. rewrite lookup_insert_eq. unfold plus, sizeof_Header. by replace (r + 24 * 1) with (r + 24) by lia.
    + exists (n - u). rewrite sel_app. cbn. set_solver.
Qed.
End take.

(** ** Growing and searching *)
Lemma length_sel t B : (length (sel t B) ≤ length B)%nat.
Proof. induction B as [|[y t'] B IH]; cbn; [lia|]. destruct (Bool.eqb t t'); cbn; lia. Qed.
Section search.
Context (base : Z) (available : Z → Z → bool).
Context (Hav : ∀ b n, available b n = true → AddrCastUp b + n < 2 ^ 31).
Definition grow_units (u : Z) : Z := if u <? 512 then 512 else u.
Lemma GrowHeader_run s B u fuel : heap_ok base B s → 1 ≤ u ≤ 2 ^ 27 → (S (length B) ≤ fuel)%nat →
  if available (brk s) (24 * grow_units u) then
    ∃ B' s', GrowHeader available fuel u s = Ok (true, s') ∧ heap_ok base B' s' ∧ sel false B' = sel false B ∧
      (∃ x, x ∈ sel true B' ∧ u ≤ x.2) ∧ (length B' ≤ S (length B))%nat
  else GrowHeader available fuel u s = Ok (false, s).
Proof using Hav.
  intros Hok Hu Hf. pose proof (ok_base _ _ _ Hok). pose proof (ok_brk _ _ _ Hok) as Hbrk. pose proof (chain_le _ _ _ (ok_chain _ _ _ Hok)).
  set (g := grow_units u). assert (512 ≤ g ≤ 2 ^ 27 ∧ u ≤ g) as [Hg Hgu] by (subst g; unfold grow_units; destruct (Z.ltb_spec u 512); lia).
  assert (GrowHeader available fuel u s = (addr ← sbrk available (g * 24);
    if addr =? 0 then mret false else header ← make_header addr g; FreeBlock fuel header;; mret true) s) as ->.
  { unfold GrowHeader. change (3 * PGSIZE / sizeof_Header) with 512. fold (grow_units u). fold g. unfold sizeof_Header. by rewrite (wrap_small 32) by lia. }
  replace (g * 24) with (24 * g) by lia. assert (∀ b, sbrk available (24 * g) b = if available (brk b) (24 * g)
    then Ok (u64 (s32 (AddrCastUp (brk b))), Heap (hdrs b) (free_list b) (AddrCastUp (brk b) + 24 * g)) else Ok (0, b)) as Es.
  { intros b. unfold sbrk. by replace (24 * g =? 0) with false by lia. }
  destruct (available (brk s) (24 * g)) eqn:Ea.
  2: { rewrite (bind_Ok _ _ _ 0 s) by (by rewrite Es, Ea). done. }
  pose proof (Hav _ _ Ea) as Hlt. pose proof (AddrCastUp_spec (brk s) ltac:(lia) ltac:(unfold PGSIZE; lia)) as Hup. set (a := AddrCastUp (brk s)) in *.
  assert (brk s ≤ a). { rewrite Hup. unfold PGSIZE. dlia. }
  rewrite (bind_Ok _ _ _ a (Heap (hdrs s) (free_list s) (a + 24 * g))).
  2: { rewrite Es, Ea. fold a. rewrite s32_small by lia. by rewrite wrap_small by lia. }
  replace (a =? 0) with false by lia. rewrite (bind_Ok _ _ _ _ _ (make_header_run a g _)). cbn [hdrs free_list brk].
  set (s1 := Heap _ (free_list s) (a + 24 * g)).
  assert (heap_ok base (B ++ [((a, g), false)]) s1) as Hok1.
  { assert (∀ x t, (x, t) ∈ B → x.1 < a) as HB.
    { intros [c k] t Hx. apply (list_elem_of_fmap_2 fst) in Hx. pose proof (chain_in _ _ _ _ _ (ok_chain _ _ _ Hok) Hx). cbn. lia. }
    destruct (ok_free_list _ _ _ Hok) as (nf & Hfl).
    split; cbn [hdrs free_list brk s1]; [done| | | | |done].
    - rewrite fmap_app. apply chain_app. exists (brk s). split; [apply Hok|]. cbn. lia.
    - rewrite sel_app. cbn [sel Bool.eqb]. rewrite app_nil_r. apply ring_insert_ne; [|apply Hok]. cbn. apply not_elem_of_cons. split; [lia|].
      intros ([c k] & -> & Hx)%list_elem_of_fmap. apply sel_in in Hx. apply HB in Hx. cbn in Hx. lia.
    - apply Forall_app. split; [|constructor; [|done]].
      + apply block_ok_insert_ne; [|apply Hok]. intros [x t] Hx. apply HB in Hx. cbn. lia.
      + eexists. cbn. rewrite lookup_insert_eq. unfold plus, sizeof_Header. by replace (a + 24 * 1) with (a + 24) by lia.
    - exists nf. rewrite sel_app. cbn. by rewrite app_nil_r. }
  destruct (FreeBlock_run base s1 B a g [] fuel Hok1 ltac:(cbn; lia)) as (B' & s' & E & Hok' & _ & Esel & (x & Hx & Hxg) & Hl & _).
  rewrite (bind_Ok _ _ _ _ _ E). exists B', s'. split; [done|]. split; [done|]. rewrite Esel. cbn in *. rewrite app_nil_r.
  split; [done|]. split; [exists x; split; [done|lia]|lia].
Qed.

(** [p] is the block [u] units have been taken from the heap for *)
Definition allocated (u p : Z) (B B' : list (Z * Z * bool)) : Prop :=
  0 < p ∧ ∃ L1 L2, sel false B = L1 ++ L2 ∧ sel false B' = L1 ++ (p - 24, u) :: L2.
Lemma hit s B k q nq a n u : heap_ok base B s → ((base, 1) :: sel true B) !! k = Some (q, nq) →
  ((base, 1) :: sel true B) !! succ_of (length ((base, 1) :: sel true B)) k = Some (a, n) → 2 ≤ u ≤ n →
  ∃ p s' B', take_block u q a s = Ok (p, s') ∧ heap_ok base B' s' ∧ allocated u p B B'.
Proof.
  intros Hok Hk Hs Hu. unfold succ_of in Hs. destruct (Nat.ltb_spec (S k) (length ((base, 1) :: sel true B))).
  2: { injection Hs as <- <-. lia. }
  set (F := (base, 1) :: sel true B) in *.
  assert (F = take k F ++ (q, nq) :: (a, n) :: drop (S (S k)) F) as HF.
  { rewrite <-(drop_S F (a, n) (S k)) by done. by rewrite take_drop_middle. }
  destruct (take_block_run base s B _ q nq a n _ u Hok HF ltac:(lia)) as (r & s' & B' & L1 & L2 & E & Hok' & Hr & E1 & E2).
  exists (r + 24), s', B'. split; [done|]. split; [done|]. split; [lia|]. exists L1, L2. replace (r + 24 - 24) with r by lia. done.
Qed.
(** the search from the block at index [k], when the block at [j] fits and is met
    before the whole ring has been searched *)
Lemma find_fit_found s B u j aj nj fl nf i : heap_ok base B s → 2 ≤ u →
  let F := (base, 1) :: sel true B in let N := length F in
  F !! j = Some (aj, nj) → u ≤ nj → F !! i = Some (fl, nf) → free_list s = fl →
  ∀ fuel k q nq a n, F !! k = Some (q, nq) → F !! succ_of N k = Some (a, n) →
    (dist N (succ_of N k) j < fuel)%nat → (dist N (succ_of N k) j ≤ dist N (succ_of N k) i)%nat →
    ∃ p s' B', find_fit available fuel u q a s = Ok (p, s') ∧ heap_ok base B' s' ∧ allocated u p B B'.
Proof using.
  intros Hok Hu F N Ej Hj Ei Efl. pose proof (ok_ring _ _ _ Hok) as Hring. fold F in Hring.
  pose proof (lookup_lt_Some _ _ _ Ej) as HjN. pose proof (lookup_lt_Some _ _ _ Ei) as HiN. fold N in HjN, HiN.
  induction fuel as [|fuel IH]; intros k q nq a n Ek Es Hd Hdi; [lia|]. cbn [find_fit].
  destruct (ring_succ _ F (succ_of N k) a n Hring Es) as (d & a' & n' & Em & Es').
  rewrite (bind_Ok _ _ _ _ _ (hdr_run _ _ _ Em)). cbn [h_size h_next]. destruct (Z.leb_spec u n) as [Hfit|Hno].
  { by apply (hit s B k q nq a n u Hok Ek Es). }
  erewrite (bind_Ok (gets free_list)) by done. pose proof (lookup_lt_Some _ _ _ Es) as HsN. fold N in HsN.
  assert (succ_of N k ≠ j) as Hkj. { intros E. rewrite E, Ej in Es. injection Es as <- <-. lia. }
  pose proof (dist_succ N _ _ HsN HjN Hkj) as Hdj. rewrite Efl. destruct (Z.eqb_spec a fl) as [-> |Hne].
  - assert (succ_of N k = i) as E.
    { destruct (lt_eq_lt_dec (succ_of N k) i) as [[Hlt|Heq]|Hlt]; [|done|]; exfalso.
      - pose proof (frees_sorted _ _ _ _ _ _ _ Hok Es Ei Hlt) as Hs. cbn in Hs. lia.
      - pose proof (frees_sorted _ _ _ _ _ _ _ Hok Ei Es Hlt) as Hs. cbn in Hs. lia. }
    rewrite E, dist_same in Hdi. rewrite E in Hdj. lia.
  - assert (succ_of N k ≠ i) as Hki. { intros E. rewrite E, Ei in Es. injection Es as <- <-. done. }
    pose proof (dist_succ N _ _ HsN HiN Hki) as Hdi'. apply (IH (succ_of N k) a n a' n'); [done|done|lia|lia].
Qed.
Lemma dist_around N k : (k < N)%nat → dist N (succ_of N k) k = (N - 1)%nat.
Proof. intros Hk. unfold dist, succ_of. destruct (Nat.ltb_spec (S k) N); case_match; lia. Qed.
Lemma allocated_sel u p B1 B2 B' : sel false B1 = sel false B2 → allocated u p B1 B' → allocated u p B2 B'.
Proof. unfold allocated. by intros ->. Qed.
(** the search after the heap has grown *)
Lemma find_fit_grown s B u x fuel : heap_ok base B s → 2 ≤ u → x ∈ sel true B → u ≤ x.2 → (length B < fuel)%nat →
  ∃ p s' B', (p ← gets free_list; h ← hdr p; find_fit available fuel u p (h_next h)) s = Ok (p, s') ∧
    heap_ok base B' s' ∧ allocated u p B B'.
Proof using.
  intros Hok Hu Hx Hux Hf. set (F := (base, 1) :: sel true B). destruct (ok_free_list _ _ _ Hok) as (nf & (i & Ei)%list_elem_of_lookup). fold F in Ei.
  destruct x as [aj nj]. apply list_elem_of_lookup in Hx as (j & Ej). cbn in Hux. assert (F !! S j = Some (aj, nj)) as Ej' by done.
  destruct (ring_succ _ F i _ _ (ok_ring _ _ _ Hok) Ei) as (d & a & n & Em & Es). erewrite (bind_Ok (gets free_list)) by done.
  rewrite (bind_Ok _ _ _ _ _ (hdr_run _ _ _ Em)). cbn [h_next]. pose proof (lookup_lt_Some _ _ _ Ei) as HiN. pose proof (lookup_lt_Some _ _ _ Ej') as HjN.
  pose proof (length_sel true B). assert (length F = S (length (sel true B))) by done.
  pose proof (lookup_lt_Some _ _ _ Es) as HsN. pose proof (dist_lt (length F) (succ_of (length F) i) (S j) HsN HjN).
  pose proof (dist_around (length F) i HiN).
  apply (find_fit_found s B u (S j) aj nj (free_list s) nf i Hok Hu Ej' Hux Ei eq_refl fuel i _ nf a n Ei Es); fold F; lia.
Qed.
Lemma find_fit_run s B u fl nf i : heap_ok base B s → 2 ≤ u ≤ 2 ^ 27 →
  let F := (base, 1) :: sel true B in let N := length F in
  F !! i = Some (fl, nf) → free_list s = fl →
  ∀ fuel k q nq a n, F !! k = Some (q, nq) → F !! succ_of N k = Some (a, n) →
    (dist N (succ_of N k) i + length B + 3 ≤ fuel)%nat →
    ∃ p s', find_fit available fuel u q a s = Ok (p, s') ∧
      (p = 0 ∧ s' = s ∧ available (brk s) (24 * grow_units u) = false ∨
       ∃ B', heap_ok base B' s' ∧ allocated u p B B').
Proof using Hav.
  intros Hok Hu F N Ei Efl. pose proof (ok_ring _ _ _ Hok) as Hring. fold F in Hring. pose proof (lookup_lt_Some _ _ _ Ei) as HiN. fold N in HiN.
  induction fuel as [|fuel IH]; intros k q nq a n Ek Es Hd; [lia|]. cbn [find_fit].
  destruct (ring_succ _ F (succ_of N k) a n Hring Es) as (d & a' & n' & Em & Es').
  rewrite (bind_Ok _ _ _ _ _ (hdr_run _ _ _ Em)). cbn [h_size h_next]. destruct (Z.leb_spec u n) as [Hfit|Hno].
  { destruct (hit s B k q nq a n u Hok Ek Es ltac:(lia)) as (p & s' & B' & E & H1 & H2). exists p, s'. split; [done|]. right. by exists B'. }
  erewrite (bind_Ok (gets free_list)) by done. rewrite Efl. pose proof (lookup_lt_Some _ _ _ Es) as HsN. fold N in HsN.
  destruct (Z.eqb_spec a fl) as [-> |Hne].
  - pose proof (GrowHeader_run s B u fuel Hok ltac:(lia) ltac:(lia)) as Hg. destruct (available _ _) eqn:Ea.
    + destruct Hg as (Bg & sg & E & Hokg & Esel & (x & Hx & Hux) & Hl). rewrite (bind_Ok _ _ _ _ _ E). cbn [negb].
      destruct (find_fit_grown sg Bg u x fuel Hokg ltac:(lia) Hx Hux ltac:(lia)) as (p & s' & B' & E' & H1 & H2).
      exists p, s'. split; [done|]. right. exists B'. split; [done|]. by apply (allocated_sel u p Bg).
    + rewrite (bind_Ok _ _ _ _ _ Hg). cbn [negb]. exists 0, s. split; [done|]. by left.
  - assert (succ_of N k ≠ i) as Hki. { intros E. rewrite E, Ei in Es. injection Es as <- <-. done. }
    pose proof (dist_succ N _ _ HsN HiN Hki). apply (IH (succ_of N k) a n a' n'); [done|done|lia].
Qed.
End search.

(** * Properties *)
(** C5: [malloc] keeps the heap and gives memory that nothing else uses.  In every
    heap the allocator's operations can reach, a request of 1 byte to 2^31 - 1 ends,
    within twice as many iterations as there are blocks; it gives null only when
    the kernel refuses memory, with nothing changed, and otherwise a block of its
    own, inserted among the allocated ones in address order, none of which has
    changed, with room for the bytes asked for. *)
Theorem malloc_correct base available B s fuel bytes :
  (∀ b n, available b n = true → AddrCastUp b + n < 2 ^ 31) →
  heap_ok base B s → 1 ≤ bytes < 2 ^ 31 → (2 * length B + 4 ≤ fuel)%nat →
  ∃ p s', malloc available fuel bytes s = Ok (p, s') ∧
    (p = 0 ∧ s' = s ∧ available (brk s) (24 * grow_units (units_of bytes)) = false ∨
     ∃ B', heap_ok base B' s' ∧ allocated (units_of bytes) p B B' ∧
       bytes ≤ 24 * (units_of bytes - 1) ∧ base + 56 ≤ p ∧ p + bytes ≤ brk s' ∧
       ∀ a n, (a, n) ∈ sel true B' ++ sel false B → a + 24 * n ≤ p - 24 ∨ p - 24 + 24 * units_of bytes ≤ a).
Proof.
  intros Hav Hok Hb Hf. assert (units_of bytes = (bytes + 23) / 24 + 1) as Eu.
  { unfold units_of, sizeof_Header. replace (bytes + 24 - 1) with (bytes + 23) by lia. rewrite wrap_small; [done|]. dlia. }
  assert (2 ≤ units_of bytes ≤ 2 ^ 27 ∧ bytes ≤ 24 * (units_of bytes - 1)) as [Hu Hroom] by (rewrite Eu; dlia).
  clear Eu. unfold malloc, FindFirstFitBlock. set (F := (base, 1) :: sel true B).
  destruct (ok_free_list _ _ _ Hok) as (nf & (i & Ei)%list_elem_of_lookup). fold F in Ei.
  destruct (ring_succ _ F i _ _ (ok_ring _ _ _ Hok) Ei) as (d & a & n & Em & Es). erewrite (bind_Ok (gets free_list)) by done.
  rewrite (bind_Ok _ _ _ _ _ (hdr_run _ _ _ Em)). cbn [h_next]. pose proof (length_sel true B) as Hls. assert (length F = S (length (sel true B))) as HlF by done.
  pose proof (lookup_lt_Some _ _ _ Ei) as HiN. pose proof (dist_around (length F) i HiN) as Hda.
  destruct (find_fit_run base available Hav s B (units_of bytes) _ nf i Hok Hu Ei eq_refl fuel i _ nf a n Ei Es) as (p & s' & E & Hres); [fold F; lia|].
  exists p, s'. split; [exact E|]. destruct Hres as [Hnull|(B' & Hok' & Hal)]; [by left|]. right. exists B'. split; [done|]. split; [done|]. split; [done|].
  destruct Hal as (Hp & L1 & L2 & E1 & E2). destruct (sel_split false B' L1 _ L2 E2) as (B1 & B2 & EB & <- & <-).
  destruct (ok_mid base B1 (p - 24) (units_of bytes) false B2 s' ltac:(by rewrite <-EB)) as (mid & H1 & Hmid & _ & H2).
  pose proof (chain_le _ _ _ H1). pose proof (chain_le _ _ _ H2). split; [lia|]. split; [lia|].
  intros a' n' Hin. assert ((a', n') ∈ B1.*1 ++ B2.*1) as Hin'.
  { rewrite EB, E1, sel_app in Hin. cbn [sel Bool.eqb] in Hin. rewrite !elem_of_app in Hin. rewrite elem_of_app.
    destruct Hin as [[Hin|Hin]|[Hin|Hin]]; apply sel_in in Hin; apply (list_elem_of_fmap_2 fst) in Hin; tauto. }
  apply elem_of_app in Hin' as [Hin'|Hin']; [pose proof (chain_in _ _ _ _ _ H1 Hin')|pose proof (chain_in _ _ _ _ _ H2 Hin')]; lia.
Qed.
Lemma heap_ok_initial base brk0 : 0 < base → base + 32 ≤ brk0 < 2 ^ 31 → heap_ok base [] (MemManager base brk0).
Proof.
  intros Hb H0. split; cbn; [done|lia| | |exists 1; by left|lia]; [|constructor]. split; [|done]. exists 0. by rewrite lookup_singleton_eq.
Qed.
Lemma malloc_correct_witness : ∃ p s', malloc (λ b n, AddrCastUp b + n <? 2 ^ 31) 4 100 (MemManager 0x1000 0x2000) = Ok (p, s') ∧ p ≠ 0.
Proof.
  destruct (malloc_correct 0x1000 (λ b n, AddrCastUp b + n <? 2 ^ 31) [] (MemManager 0x1000 0x2000) 4 100) as (p & s' & E & Hres).
  - intros b n Hb. lia.
  - apply heap_ok_initial; lia.
  - lia.
  - cbn. lia.
  - exists p, s'. split; [exact E|]. destruct Hres as [(_ & _ & Hno)|(B' & _ & (Hp & _) & _)]; [|lia].
    vm_compute in Hno. discriminate Hno.
Defined.

(** C29: [free] of a block that [malloc] gave ends, takes it out of the allocated blocks
    and leaves all others, and coalesces: the blocks are afterwards exactly the old ones
    with this one free and joined with the free neighbour on either side that touches it
    ([released]), so a heap with no two touching free blocks stays one.  [free] of null,
    and of an address whose header does not point back at it or has size zero, exits the
    program. *)
Theorem free_correct base B s fuel p n L1 L2 :
  heap_ok base B s → sel false B = L1 ++ (p - 24, n) :: L2 → (length B ≤ fuel)%nat →
  (∃ B1 B2 s', B = B1 ++ ((p - 24, n), false) :: B2 ∧ let B' := released B1 (p - 24) n B2 in
     free fuel p s = Ok ((), s') ∧ heap_ok base B' s' ∧ sel false B' = L1 ++ L2 ∧
     (∃ x, x ∈ sel true B' ∧ n ≤ x.2) ∧ (length B' ≤ length B)%nat ∧ (coalesced B → coalesced B')) ∧
  free fuel 0 s = Stop (Exited (-1)) ∧
  ∀ q h, q ≠ 0 → hdrs s !! (q - 24) = Some h → h_data h ≠ q ∨ h_size h = 0 → free fuel q s = Stop (Exited (-1)).
Proof.
  intros Hok Hsel Hf. split; [|split; [done|]].
  - destruct (sel_split false B L1 _ L2 Hsel) as (B1 & B2 & -> & <- & <-). pose proof (ok_base _ _ _ Hok).
    pose proof (ok_above _ _ _ _ _ _ _ Hok). destruct (ok_mid _ _ _ _ _ _ _ Hok) as (mid & _ & _ & Hn & _).
    pose proof (ok_blocks _ _ _ Hok) as Hb. apply Forall_app in Hb as [_ [(nx & Eb) _]%Forall_cons]. cbn in Eb.
    rewrite length_app in Hf. cbn in Hf. unfold free. replace (p =? 0) with false by lia. cbv zeta.
    replace (plus p (-1)) with (p - 24) by (unfold plus, sizeof_Header; lia). rewrite (bind_Ok _ _ _ _ _ (hdr_run _ _ _ Eb)).
    cbn [h_data h_size]. replace (p - 24 + 24) with p by lia. rewrite Z.eqb_refl. replace (n =? 0) with false by lia. cbn [negb orb].
    destruct (FreeBlock_run base s B1 (p - 24) n B2 fuel Hok ltac:(lia)) as (B' & s' & E & Hok' & _ & E1 & Hx & Hl & ->).
    exists B1, B2, s'. split; [done|]. cbv zeta. rewrite length_app. cbn [length]. split_and!; [done..|lia|]. apply released_coalesced.
  - intros q h Hq Eq Hbad. unfold free. rewrite (proj2 (Z.eqb_neq q 0)) by done. cbv zeta.
    replace (plus q (-1)) with (q - 24) by (unfold plus, sizeof_Header; lia). rewrite (bind_Ok _ _ _ _ _ (hdr_run _ _ _ Eq)).
    replace (negb (h_data h =? q) || (h_size h =? 0)) with true by lia. done.
Qed.
(** the middle one of three blocks, both neighbours free: one free block is left *)
Lemma free_correct_witness :
  let s := Heap {[0x1000 := MkHeader 0x3000 1 0; 0x3000 := MkHeader 0x30f0 5 0x3018; 0x3078 := MkHeader 0 5 0x3090;
                  0x30f0 := MkHeader 0x1000 5 0x3108]} 0x1000 0x4000 in
  ∃ s', free 3 0x3090 s = Ok ((), s') ∧ heap_ok 0x1000 [((0x3000, 15), true)] s' ∧ coalesced [((0x3000, 15), true)].
Proof.
  intros s. set (B := [((0x3000, 5), true); ((0x3078, 5), false); ((0x30f0, 5), true)]). assert (heap_ok 0x1000 B s) as Hok.
  { split; [lia|cbn; lia| | |exists 1; left|cbn; lia].
    - split; [exists 0; reflexivity|]. split; [exists 0x3018; reflexivity|]. split; [exists 0x3108; reflexivity|exact I].
    - constructor; [exists 0x30f0; reflexivity|]. constructor; [exists 0; reflexivity|]. constructor; [exists 0x1000; reflexivity|constructor]. }
  destruct (free_correct 0x1000 B s 3 0x3090 5 [] []) as [(B1 & B2 & s' & EB & E & Hok' & _ & _ & _ & Hco) _].
  - exact Hok.
  - reflexivity.
  - cbn. lia.
  - assert (B1 = [((0x3000, 5), true)] ∧ B2 = [((0x30f0, 5), true)]) as [-> ->].
    { destruct B1 as [|x [|y [|z B1]]]; cbn in EB; [discriminate EB| |discriminate EB|]; [by injection EB as <- <-|].
      apply (f_equal length) in EB. rewrite !length_cons, length_app, length_cons in EB. cbn in EB. lia. }
    exists s'. split; [exact E|]. split; [exact Hok'|]. apply Hco. cbn. lia.
Defined.

(** [malloc(0)] breaks the allocator.  It asks for one unit, which the block
    [base] of the constructor has, and takes [base] out of the ring; the next
    request that fits a block exactly then leaves that block in the ring it is
    alone in, and gives it to the next caller as well. *)
Theorem malloc_zero_gives_one_block_twice :
  let avail b n := AddrCastUp b + n <? 2 ^ 31 in
  ∃ s1 s2 s3 s4 p0 p q, malloc avail 9 100 (MemManager 0x1000 0x2000) = Ok (p0, s1) ∧
    malloc avail 9 0 s1 = Ok (0, s2) ∧
    malloc avail 9 12120 s2 = Ok (p, s3) ∧ p ≠ 0 ∧ malloc avail 9 12120 s3 = Ok (q, s4) ∧ q = p.
Proof. do 7 eexists. split_and!; [vm_compute; reflexivity..|vm_compute; congruence|vm_compute; reflexivity|vm_compute; reflexivity]. Qed.
