(* ===== verification/Inode.v ===== *)
(** [filesystem/inode_def.h] and [inode_def.cc]: the on-disk layout of the file
    system, as records with their byte encodings, and the interface of the block
    device the file system is written against. *)
From S2P Require Import Prelude.

Definition BLOCK_SIZE : Z := 512.
Definition DIRECT_ADDR_SIZE : Z := 12.
Definition DIR_ELEMENT_SIZE : Z := 16.
Definition INODE_ELEMENT_SIZE : Z := 64.
Definition INODE_TABLE_SIZE : Z := 320.
Definition MAX_FILE_NAME_LEN : Z := 14.
Definition ROOT_INODE : Z := 0.
(** "oran", read as a little-endian [uint32_t] *)
Definition FSMAGIC : list Z := [111; 114; 97; 110].

(** [FileType] is one byte; a byte read from disk need not be one of the four *)
Definition FT_none : Z := 0.
Definition FT_directory : Z := 1.
Definition FT_regular_file : Z := 2.
Definition FT_device : Z := 3.
Definition FileTypeName (type : Z) : option string :=
  ["none"; "directory"; "regular_file"; "device"]%string !! Z.to_nat type.

Record SuperBlock := MkSuperBlock {
  sb_magic : Z; sb_size : Z; datablocks_count : Z; inodes_count : Z; inode_start : Z; bmap_start : Z
}.
Record DirElement := MkDirElement { inum : Z; dir_name : list Z }.
Record InodeDef := MkInode {
  inode_index : Z; ino_type : Z; link_count : Z; major : Z; minor : Z;
  ino_size : Z; addr : list Z; indirect_addr : Z
}.
Record FileDescriptor := MkFd { file_type : Z; fd_offset : Z; fd_inode_index : Z; fd_inode : InodeDef }.
(** [InodeDef{}] *)
Definition inode0 : InodeDef := MkInode 0 FT_none 0 0 0 0 (replicate 12 0) 0.
Definition set_size (i : InodeDef) (v : Z) : InodeDef :=
  MkInode (inode_index i) (ino_type i) (link_count i) (major i) (minor i) v (addr i) (indirect_addr i).
Definition set_addr (i : InodeDef) (k : nat) (v : Z) : InodeDef :=
  MkInode (inode_index i) (ino_type i) (link_count i) (major i) (minor i) (ino_size i) (<[k := v]> (addr i)) (indirect_addr i).
Definition set_indirect (i : InodeDef) (v : Z) : InodeDef :=
  MkInode (inode_index i) (ino_type i) (link_count i) (major i) (minor i) (ino_size i) (addr i) v.

(** * Encodings: [n] bytes of a buffer from [off] *)
Definition slice (buf : list Z) (off n : nat) : list Z := take n (drop off buf).
Definition get_le (buf : list Z) (off n : nat) : Z := le_value (slice buf off n).

Definition enc_words (l : list Z) : list Z := concat (le_bytes 4 <$> l).
Definition enc_inode (i : InodeDef) : list Z :=
  le_bytes 4 (inode_index i) ++ le_bytes 1 (ino_type i) ++ le_bytes 1 (link_count i) ++
  le_bytes 1 (major i) ++ le_bytes 1 (minor i) ++ le_bytes 4 (ino_size i) ++
  enc_words (addr i) ++ le_bytes 4 (indirect_addr i).
Definition dec_inode (b : list Z) : InodeDef :=
  MkInode (get_le b 0 4) (get_le b 4 1) (get_le b 5 1) (get_le b 6 1) (get_le b 7 1) (get_le b 8 4)
    ((λ k, get_le b (12 + 4 * k) 4) <$> seq 0 12) (get_le b 60 4).
Definition enc_super (s : SuperBlock) : list Z :=
  enc_words [sb_magic s; sb_size s; datablocks_count s; inodes_count s; inode_start s; bmap_start s].
Definition dec_super (b : list Z) : SuperBlock :=
  MkSuperBlock (get_le b 0 4) (get_le b 4 4) (get_le b 8 4) (get_le b 12 4) (get_le b 16 4) (get_le b 20 4).
Definition enc_dir (d : DirElement) : list Z := le_bytes 2 (inum d) ++ dir_name d.
Definition dec_dir (b : list Z) : DirElement := MkDirElement (get_le b 0 2) (slice b 2 14).

(** * The block device, as the file system relies on it: [sectors] blocks of 512
    bytes; a request past the end is refused by the device *)
Class BlockDevice (D : Type) := {
  sectors : D → Z;
  sector : D → Z → list Z;
  put_sector : D → Z → list Z → D;
  sector_len d b : length (sector d b) = 512%nat;
  sectors_put d b x : sectors (put_sector d b x) = sectors d;
  sector_put d b x b' : length x = 512%nat → 0 ≤ b < sectors d →
    sector (put_sector d b x) b' = if decide (b = b') then x else sector d b';
}.
(** a disk in memory *)
Record ramdisk := RamDisk { rd_sectors : Z; rd_data : gmap Z (list Z) }.
Definition rd_sector (d : ramdisk) (b : Z) : list Z :=
  match rd_data d !! b with
  | Some x => if (length x =? 512)%nat then x else replicate 512 0
  | None => replicate 512 0
  end.
#[export, refine] Instance ramdisk_BlockDevice : BlockDevice ramdisk := {|
  sectors := rd_sectors; sector := rd_sector;
  put_sector d b x := RamDisk (rd_sectors d) (<[b := x]> (rd_data d)) |}.
Proof.
  - intros [n m] b. unfold rd_sector. cbn [rd_data]. destruct (m !! b) as [x|]; [|by rewrite length_replicate].
    destruct (Nat.eqb_spec (length x) 512); [done|by rewrite length_replicate].
  - done.
  - intros [n m] b x b' Hx Hb. unfold rd_sector. cbn [rd_data]. rewrite lookup_insert. case_decide; [|done].
    by rewrite Hx.
Defined.

(** * Well-formed values *)
Definition u8_ok (z : Z) : Prop := 0 ≤ z < 2 ^ 8.
Definition u32_ok (z : Z) : Prop := 0 ≤ z < 2 ^ 32.
Record inode_ok (i : InodeDef) : Prop := {
  iok_index : u32_ok (inode_index i); iok_type : u8_ok (ino_type i); iok_link : u8_ok (link_count i);
  iok_major : u8_ok (major i); iok_minor : u8_ok (minor i); iok_size : u32_ok (ino_size i);
  iok_len : length (addr i) = 12%nat; iok_addr : Forall u32_ok (addr i); iok_ind : u32_ok (indirect_addr i);
}.

(** * Lemmas *)
Lemma get_le_bytes pre n v post off :
  length pre = off → get_le (pre ++ le_bytes n v ++ post) off n = v `mod` 2 ^ (8 * Z.of_nat n).
Proof.
  intros <-. unfold get_le, slice. rewrite drop_app_length, take_app_length'; [|by rewrite length_le_bytes].
  apply le_value_bytes.
Qed.
Lemma get_le_small pre n v post off :
  length pre = off → 0 ≤ v < 2 ^ (8 * Z.of_nat n) → get_le (pre ++ le_bytes n v ++ post) off n = v.
Proof. intros Hl Hv. rewrite get_le_bytes by done. by apply Z.mod_small. Qed.
Lemma length_enc_words l : length (enc_words l) = (4 * length l)%nat.
Proof.
  unfold enc_words. induction l as [|a l IH]; [done|]. cbn [fmap list_fmap concat].
  rewrite length_app, length_le_bytes, IH. simpl. lia.
Qed.
Lemma enc_words_bytes l : Forall (λ b, 0 ≤ b < 256) (enc_words l).
Proof.
  unfold enc_words. induction l as [|a l IH]; cbn; [constructor|]. apply (Forall_app _ (le_bytes 4 a)).
  split; [apply le_bytes_range|done].
Qed.
(** the [k]-th word of an encoded array *)
Lemma get_le_word pre l k v post off :
  l !! k = Some v → u32_ok v → off = (length pre + 4 * k)%nat →
  get_le (pre ++ enc_words l ++ post) off 4 = v.
Proof.
  intros Hk Hv ->. pose proof (lookup_lt_Some _ _ _ Hk).
  rewrite <-(take_drop_middle _ _ _ Hk). unfold enc_words. rewrite fmap_app, concat_app. cbn [fmap list_fmap concat].
  rewrite <-!app_assoc. rewrite (app_assoc pre). apply get_le_small.
  - rewrite length_app. fold (enc_words (take k l)). rewrite length_enc_words, length_take. lia.
  - exact Hv.
Qed.
Lemma length_enc_inode i : length (addr i) = 12%nat → length (enc_inode i) = 64%nat.
Proof.
  intros H. unfold enc_inode. rewrite !length_app, !length_le_bytes, length_enc_words, H. done.
Qed.
Lemma dec_enc_inode i : inode_ok i → dec_inode (enc_inode i) = i.
Proof.
  intros [H1 H2 H3 H4 H5 H6 H7 H8 H9]. unfold dec_inode, enc_inode.
  assert (Haddr : ((λ k, get_le (enc_inode i) (12 + 4 * k) 4) <$> seq 0 12) = addr i).
  { apply list_eq. intros k. rewrite list_lookup_fmap. destruct (decide (k < 12)%nat).
    - rewrite lookup_seq_lt by lia. cbn [fmap option_fmap option_map].
      destruct (lookup_lt_is_Some_2 (addr i) k) as [v Hv]; [lia|]. rewrite Hv. f_equal.
      unfold enc_inode. rewrite !(app_assoc _ _ (enc_words _ ++ _)).
      apply (get_le_word _ _ k).
      + done.
      + by eapply Forall_lookup in H8.
      + rewrite !length_app, !length_le_bytes. done.
    - rewrite lookup_seq_ge by lia. symmetry. apply lookup_ge_None_2. lia. }
  unfold enc_inode in Haddr. rewrite Haddr. clear Haddr. destruct i as [idx t l ma mi sz ad ind].
  cbn [inode_index ino_type link_count major minor ino_size addr indirect_addr] in *.
  assert (Hlast : get_le (le_bytes 4 idx ++ le_bytes 1 t ++ le_bytes 1 l ++ le_bytes 1 ma ++ le_bytes 1 mi ++
    le_bytes 4 sz ++ enc_words ad ++ le_bytes 4 ind) 60 4 = ind).
  { rewrite !app_assoc, <-(app_nil_r (_ ++ le_bytes 4 ind)), <-app_assoc. apply get_le_small; [|exact H9].
    rewrite !length_app, !length_le_bytes, length_enc_words. lia. }
  rewrite Hlast. f_equal.
  - by apply (get_le_small []).
  - by apply get_le_small.
  - rewrite (app_assoc (le_bytes 4 idx)). by apply get_le_small.
  - rewrite !(app_assoc _ _ (le_bytes 1 ma ++ _)). by apply get_le_small.
  - rewrite !(app_assoc _ _ (le_bytes 1 mi ++ _)). by apply get_le_small.
  - rewrite !(app_assoc _ _ (le_bytes 4 sz ++ _)). by apply get_le_small.
Qed.

#[global] Arguments le_bytes : simpl never.
#[global] Arguments enc_inode : simpl never.
#[global] Arguments dec_inode : simpl never.
