(* ===== verification/Process.v ===== *)
(** [kernel/process.h], [kernel/process.cc] and [kernel/regs_frame.hpp]: the
    process control block and the operations that build, copy, extend and tear
    down a process's address space, over the state of the page allocator. *)
From S2P Require Import Prelude Riscv Lock Mem MemoryList VirtualMemory Inode.

(** * Data *)
Record SavedContext := MkContext { ctx_ra : Z; ctx_s : list Z; ctx_sp : Z }.
Definition context0 : SavedContext := MkContext 0 (replicate 12 0) 0.
Inductive ProcessState := unused | used | sleep | runnable | running | zombie.
#[export] Instance ProcessState_eq_dec : EqDecision ProcessState.
Proof. solve_decision. Defined.
(** va_beg, va_end *)
Definition MemoryRegion : Type := Z * Z.
(** A [Channel] is its [data_] pointer, compared by [operator==]: the two string
    literals of [GlobalChannel], the process that owns the channel, or the
    device that does. *)
Inductive Channel := sleep_channel | console_channel | owned_channel (i : nat) | device_channel (a : Z).
#[export] Instance Channel_eq_dec : EqDecision Channel.
Proof. solve_decision. Defined.
Record DynamicInfo := MkDynamicInfo { dynamic_vaddr : Z; dynamic_size : Z }.

(** Pointers to processes are indices of the process table; [frame],
    [page_table], [kernel_sp] and [user_sp] are physical addresses. *)
Record ProcessTask := MkTask {
  pid : Z;
  frame : Z;
  page_table : Z;
  used_address_size : Z;
  used_address : list MemoryRegion;
  kernel_sp : Z;
  user_sp : Z;
  state : ProcessState;
  saved_context : SavedContext;
  parent_process : option nat;
  channel : option Channel;
  file_descriptor : list FileDescriptor;
  current_path : list Z;
  exit_code : Z;
  dynamic_info : DynamicInfo;
}.
(** a zeroed descriptor *)
Definition fd0 : FileDescriptor := MkFd FT_none 0 0 inode0.
Definition root_path : list Z := 47 :: replicate 127 0.
(** the member initialisers of [ProcessTask] (a static object) *)
Definition task0 : ProcessTask :=
  MkTask 0 0 0 0 (replicate 16 (0, 0)) 0 0 unused context0 None None (replicate 16 fd0) root_path 0 (MkDynamicInfo 0 0).

(** the setters used below *)
Definition set_state (st : ProcessState) (t : ProcessTask) : ProcessTask :=
  MkTask (pid t) (frame t) (page_table t) (used_address_size t) (used_address t) (kernel_sp t) (user_sp t) st
    (saved_context t) (parent_process t) (channel t) (file_descriptor t) (current_path t) (exit_code t) (dynamic_info t).
Definition set_channel (c : option Channel) (t : ProcessTask) : ProcessTask :=
  MkTask (pid t) (frame t) (page_table t) (used_address_size t) (used_address t) (kernel_sp t) (user_sp t) (state t)
    (saved_context t) (parent_process t) c (file_descriptor t) (current_path t) (exit_code t) (dynamic_info t).
Definition set_parent (p : option nat) (t : ProcessTask) : ProcessTask :=
  MkTask (pid t) (frame t) (page_table t) (used_address_size t) (used_address t) (kernel_sp t) (user_sp t) (state t)
    (saved_context t) p (channel t) (file_descriptor t) (current_path t) (exit_code t) (dynamic_info t).
Definition set_exit_code (c : Z) (t : ProcessTask) : ProcessTask :=
  MkTask (pid t) (frame t) (page_table t) (used_address_size t) (used_address t) (kernel_sp t) (user_sp t) (state t)
    (saved_context t) (parent_process t) (channel t) (file_descriptor t) (current_path t) c (dynamic_info t).
(** the members [Init] sets *)
Definition set_pages (fr pt ksp usp : Z) (t : ProcessTask) : ProcessTask :=
  MkTask (pid t) fr pt (used_address_size t) (used_address t) ksp usp (state t)
    (saved_context t) (parent_process t) (channel t) (file_descriptor t) (current_path t) (exit_code t) (dynamic_info t).
Definition set_kernel (p ksp : Z) (ctx : SavedContext) (t : ProcessTask) : ProcessTask :=
  MkTask p (frame t) (page_table t) (used_address_size t) (used_address t) ksp (user_sp t) (state t)
    ctx (parent_process t) (channel t) (file_descriptor t) (current_path t) (exit_code t) (dynamic_info t).
Definition set_fds (fds : list FileDescriptor) (t : ProcessTask) : ProcessTask :=
  MkTask (pid t) (frame t) (page_table t) (used_address_size t) (used_address t) (kernel_sp t) (user_sp t) (state t)
    (saved_context t) (parent_process t) (channel t) fds (current_path t) (exit_code t) (dynamic_info t).
Definition set_regions (n : Z) (l : list MemoryRegion) (t : ProcessTask) : ProcessTask :=
  MkTask (pid t) (frame t) (page_table t) n l (kernel_sp t) (user_sp t) (state t)
    (saved_context t) (parent_process t) (channel t) (file_descriptor t) (current_path t) (exit_code t) (dynamic_info t).
Definition set_path (p : list Z) (t : ProcessTask) : ProcessTask :=
  MkTask (pid t) (frame t) (page_table t) (used_address_size t) (used_address t) (kernel_sp t) (user_sp t) (state t)
    (saved_context t) (parent_process t) (channel t) (file_descriptor t) p (exit_code t) (dynamic_info t).
Definition set_dynamic (d : DynamicInfo) (t : ProcessTask) : ProcessTask :=
  MkTask (pid t) (frame t) (page_table t) (used_address_size t) (used_address t) (kernel_sp t) (user_sp t) (state t)
    (saved_context t) (parent_process t) (channel t) (file_descriptor t) (current_path t) (exit_code t) d.

(** RegFrame: byte offsets of its members and its size *)
Definition RegFrame_sp : Z := 8 * 1.
Definition RegFrame_a (n : Z) : Z := 8 * (9 + n).
Definition RegFrame_mepc : Z := 8 * 31.
Definition RegFrame_mcause : Z := 8 * 32.
Definition RegFrame_kernel_sp : Z := 8 * 33.
Definition sizeof_RegFrame : Z := 8 * 34 + 8 * (128 - 34) + 8 * 128.

(** * State: the page allocator, the pid counter and the process [this] *)
Record tstate := TState { ts_vm : vmstate; ts_cur_pid : Z; ts_task : ProcessTask }.
#[export, refine] Instance ts_HasMstatus : HasMstatus tstate :=
  {| get_mstatus := λ s, vm_mstatus (ts_vm s);
     put_mstatus := λ v s, TState (set_vm_mstatus v (ts_vm s)) (ts_cur_pid s) (ts_task s) |}.
Proof. all: by intros; repeat match goal with s : tstate |- _ => destruct s as [[] ? ?] end. Defined.
Definition lift_vm {A} (m : M vmstate A) : M tstate A := λ s,
  match m (ts_vm s) with
  | Ok (a, vm) => Ok (a, TState vm (ts_cur_pid s) (ts_task s))
  | Stop e => Stop e
  end.
Definition this : M tstate ProcessTask := gets ts_task.
Definition upd (f : ProcessTask → ProcessTask) : M tstate () :=
  modify (λ s, TState (ts_vm s) (ts_cur_pid s) (f (ts_task s))).
Definition vm_memcpy (dst src n : Z) : M vmstate () := λ s,
  if (n =? 0) || (ram_ok dst n && ram_ok src n)
  then Ok ((), set_mem (memcpy (vm_mem s) dst src n) s) else Stop (Faulted "memcpy").

Section process.
(** the address of [ExecuteRet], where a new process starts in the kernel *)
Context (ExecuteRet_addr : Z).

Definition AllocPid : M tstate Z :=
  guarded (
    p ← gets (λ s, s32 (ts_cur_pid s + 1));
    modify (λ s, TState (ts_vm s) p (ts_task s));;
    mret p).

(** the console descriptor of a new process *)
Definition console_fd (fd : FileDescriptor) : FileDescriptor :=
  let i := fd_inode fd in
  MkFd FT_device (fd_offset fd) (fd_inode_index fd)
    (MkInode (inode_index i) (ino_type i) (link_count i) 0 0 (ino_size i) (addr i) (indirect_addr i)).
Definition console_index : nat := 0.

Definition ProcessTask_Init (need_init_kernel_info : bool) : M tstate bool :=
  frame_page ← lift_vm Alloc;
  if frame_page =? 0 then mret false else
  root_page_table ← lift_vm Alloc;
  if root_page_table =? 0 then lift_vm (FreePage_list [frame_page]);; mret false else
  user_stack_page ← lift_vm Alloc;
  if user_stack_page =? 0 then lift_vm (FreePage_list [frame_page; root_page_table]);; mret false else
  let user_stack_page_va := u64 (GetUserSpVa - PGSIZE) in
  ok ← lift_vm (MapPage root_page_table user_stack_page_va user_stack_page (Z.lor (Z.lor PTE_R PTE_W) PTE_U));
  if negb ok then lift_vm (FreePage_list [frame_page; root_page_table; user_stack_page]);; mret false else
  ready ←
    (if need_init_kernel_info then
       sp_page ← lift_vm Alloc;
       if sp_page =? 0 then
         upd (λ t, set_pages 0 (page_table t) (kernel_sp t) (user_sp t) t);;
         lift_vm (FreePage_list [frame_page; root_page_table; user_stack_page]);;
         mret false
       else
         p ← AllocPid;
         upd (λ t, set_kernel p sp_page
                     (MkContext ExecuteRet_addr (ctx_s (saved_context t)) (u64 (sp_page + PGSIZE))) t);;
         mret true
     else mret true);
  if negb ready then mret false else
  if negb (sizeof_RegFrame =? 2048) then stop_with (Panicked "sizeof(RegFrame) == 2048") else
  upd (λ t, set_pages frame_page root_page_table (kernel_sp t) user_stack_page t);;
  t ← this;
  lift_vm (st64 (frame_page + RegFrame_kernel_sp) (u64 (kernel_sp t + PGSIZE)));;
  lift_vm (st64 (frame_page + RegFrame_sp) (u64 (user_stack_page_va + PGSIZE)));;
  fd ← of_option (Faulted "file_descriptor") (file_descriptor t !! console_index);
  if negb (file_type fd =? FT_none) then mret false else
  upd (λ t, set_fds (<[console_index := console_fd fd]> (file_descriptor t)) t);;
  mret true.

(** for (i = 0; i < used_address_size; i++) over [used_address] *)
Fixpoint free_regions (n : nat) (root level : Z) (l : list MemoryRegion) : M tstate () :=
  match n with
  | O => mret ()
  | S n =>
    match l with
    | [] => stop_with (Faulted "used_address")
    | r :: l => lift_vm (FreeMemory root r.1 r.2 level);; free_regions n root level l
    end
  end.
Definition free_level (level : Z) : M tstate () :=
  t ← this;
  free_regions (Z.to_nat (used_address_size t)) (page_table t) level (used_address t);;
  lift_vm (FreeMemory (page_table t) (u64 (GetUserSpVa - PGSIZE)) GetUserSpVa level).
Definition FreePageTable (need_free_kernel_page : bool) : M tstate () :=
  free_level 3;; free_level 2;; free_level 1;;
  t ← this;
  lift_vm (FreePage_pa (frame t));;
  lift_vm (FreePage_pa (page_table t));;
  if need_free_kernel_page then lift_vm (FreePage_pa (kernel_sp t)) else mret ().

Definition ResetProcess : M tstate () :=
  FreePageTable true;;
  upd (λ t, set_pages 0 0 0 0 t);;
  upd (λ t, set_regions 0 (replicate (length (used_address t)) (0, 0)) t);;
  upd (set_state unused);;
  upd (λ t, set_kernel (pid t) (kernel_sp t) context0 t);;
  upd (set_parent None);;
  t ← this;
  n ← of_option (Faulted "current_path") (strlen (current_path t));
  upd (set_path (splice (splice (current_path t) 0 (replicate n 0)) 0 [47; 0]));;
  upd (set_channel None);;
  upd (λ t, set_fds (replicate (length (file_descriptor t)) fd0) t);;
  upd (λ t, set_kernel 0 (kernel_sp t) (saved_context t) t).

Definition CopyMemoryFrom (process : ProcessTask) : M tstate () :=
  upd (λ t, set_dynamic (dynamic_info process)
    (set_pages (frame process) (page_table process) (kernel_sp t) (user_sp process)
      (set_regions (used_address_size process) (used_address process) t))).

(** CopyMemory: the loop over the pages of a region.  Every iteration but the
    first and the last copies a whole page, so [size / PGSIZE + 2] is enough
    fuel; [pte] keeps its value when a page is not mapped. *)
Fixpoint copy_region (fuel : nat) (src_root dst_root va_beg size pte : Z) : M vmstate (bool * Z) :=
  if 0 <? size then
    match fuel with
    | O => stop_with OutOfFuel
    | S fuel =>
      '(src_pa, privi) ← VAToPA src_root va_beg;
      let pte := default pte privi in
      let remain_size := PGSIZE - src_pa mod PGSIZE in
      let len := if remain_size <? size then remain_size else size in
      ok ← MapMemory dst_root va_beg (u64 (va_beg + len)) pte;
      if negb ok then mret (false, pte) else
      '(dst_pa, _) ← VAToPA dst_root va_beg;
      vm_memcpy dst_pa src_pa len;;
      copy_region fuel src_root dst_root (u64 (AddrCastDown va_beg + PGSIZE)) (size - len) pte
    end
  else mret (true, pte).
Fixpoint CopyMemory (src_root dst_root : Z) (region : list MemoryRegion) (n : nat) : M vmstate bool :=
  match n with
  | O => mret true
  | S n =>
    match region with
    | [] => stop_with (Faulted "region")
    | (va_beg, va_end) :: region =>
      let size := u64 (va_end - va_beg) in
      '(ok, _) ← copy_region (Z.to_nat (size / PGSIZE + 2)) src_root dst_root va_beg size 0;
      if negb ok then mret false else CopyMemory src_root dst_root region n
    end
  end.
Definition CopyFrom (src : ProcessTask) : M tstate bool :=
  t ← this;
  ok ← lift_vm (CopyMemory (page_table src) (page_table t) (used_address src) (Z.to_nat (used_address_size src)));
  if negb ok then mret false else
  upd (λ t, set_regions (used_address_size src)
    (splice (used_address t) 0 (take (Z.to_nat (used_address_size src)) (used_address src))) t);;
  lift_vm (vm_memcpy (user_sp t) (user_sp src) PGSIZE);;
  lift_vm (vm_memcpy (frame t) (frame src) sizeof_RegFrame);;
  lift_vm (st64 (frame t + RegFrame_kernel_sp) (u64 (kernel_sp t + PGSIZE)));;
  n ← of_option (Faulted "current_path") (strlen (current_path src));
  upd (λ t, set_path (splice (current_path t) 0 (take n (current_path src))) t);;
  upd (set_dynamic (dynamic_info src));;
  mret true.

(** the largest region end of the regions in use *)
Definition max_mem (l : list MemoryRegion) : Z :=
  foldl (λ m (r : MemoryRegion), if m <? r.2 then r.2 else m) 0 l.
Definition ExpandMemory (bytes : Z) : M tstate Z :=
  if bytes =? 0 then mret 0 else
  t ← this;
  if (length (used_address t) <? Z.to_nat (used_address_size t))%nat then stop_with (Faulted "used_address") else
  let max_mem_addr := AddrCastUp (max_mem (take (Z.to_nat (used_address_size t)) (used_address t))) in
  ok ← lift_vm (MapMemory (page_table t) max_mem_addr (u64 (max_mem_addr + bytes)) (Z.lor (Z.lor PTE_R PTE_W) PTE_U));
  if negb ok then mret 0 else
  if (Z.to_nat (used_address_size t) <? length (used_address t))%nat then
    upd (λ t, set_regions (u64 (used_address_size t + 1))
      (<[Z.to_nat (used_address_size t) := (max_mem_addr, u64 (max_mem_addr + bytes))]> (used_address t)) t);;
    mret max_mem_addr
  else stop_with (Faulted "used_address").
End process.

(** * Lemmas *)
Lemma wp_lift_vm {A} (m : M vmstate A) Q s :
  wp m (λ a vm, Q a (TState vm (ts_cur_pid s) (ts_task s))) (ts_vm s) → wp (lift_vm m) Q s.
Proof. unfold wp, lift_vm. by destruct (m (ts_vm s)) as [[a vm]|]. Qed.
Lemma wp_AllocPid (Q : Z → tstate → Prop) s :
  mstatus_ok (ts_vm s) →
  Q (s32 (ts_cur_pid s + 1)) (TState (ts_vm s) (s32 (ts_cur_pid s + 1)) (ts_task s)) → wp AllocPid Q s.
Proof.
  intros Hok HQ. apply wp_guarded; [done|]. unfold AllocPid. wp_steps. split; [done|].
  destruct s as [[] ? ?]. exact HQ.
Qed.
(** a store into a page that holds neither free-list nodes nor tables *)
Lemma wp_st64_data p o v s fl root T (Q : () → vmstate → Prop) :
  vm_inv s fl → pt_rep s fl root T → data_page fl T p → 0 ≤ o → o + 8 ≤ 4096 →
  (let s' := set_mem (store64 (vm_mem s) (p + o) v) s in
   vm_inv s' fl → pt_rep s' fl root T → (∀ va, translate (vm_mem s') T va = translate (vm_mem s) T va) → Q () s') →
  wp (st64 (p + o) v) Q s.
Proof.
  intros Hi Hr (Hp & Hnf & Hnt) Ho Ho' HQ. apply wp_st64; [by apply ram_ok_page|].
  pose proof (inv_pages _ _ Hi) as (Hfl & _). rewrite Forall_forall in Hfl.
  assert (∀ q a, page_ok q → q ≠ p → q ≤ a < q + 4096 →
    load8 (store64 (vm_mem s) (p + o) v) a = load8 (vm_mem s) a) as Hm.
  { intros q a Hq Hne Ha. apply load8_store64_ne.
    destruct (pages_apart p q); [done..| |lia|lia]. congruence. }
  assert (∀ k q a, T !! k = Some q → q ≤ a < q + 4096 →
    load8 (store64 (vm_mem s) (p + o) v) a = load8 (vm_mem s) a) as HmT.
  { intros k q a Hk Ha. apply (Hm q); [by eapply pt_page| |done]. intros ->. apply Hnt, pt_pages_elem. eauto. }
  apply HQ.
  - apply vm_inv_store; [done|]. intros q a Hq Ha. apply (Hm q); [auto|by intros ->|lia].
  - eapply pt_rep_mem; [done|]. intros. by eapply HmT.
  - intros va. apply translate_mem. intros. by eapply HmT.
Qed.
Lemma pt_pages_singleton p : pt_pages {[ [] := p ]} = [p].
Proof. unfold pt_pages. by rewrite map_to_list_singleton. Qed.
Lemma translate_new m (p va : Z) : translate m {[ [] := p ]} va = None.
Proof. unfold translate, leaf_pte. by rewrite lookup_singleton_ne. Qed.
Lemma stack_va_ok : 0 ≤ u64 (GetUserSpVa - PGSIZE) ≤ MAX_SUPPORT_VA ∧ u64 (GetUserSpVa - PGSIZE) mod PGSIZE = 0 ∧
  u64 (GetUserSpVa - PGSIZE) + PGSIZE = GetUserSpVa.
Proof. by vm_compute. Qed.

(** the two stack pointers of a new frame *)
Lemma wp_frame_stores p v w s fl root T (Q : vmstate → Prop) :
  vm_inv s fl → pt_rep s fl root T → data_page fl T p → 0 ≤ v < 2 ^ 64 → 0 ≤ w < 2 ^ 64 →
  (∀ s', vm_inv s' fl → pt_rep s' fl root T → (∀ va, translate (vm_mem s') T va = translate (vm_mem s) T va) →
    load64 (vm_mem s') (p + RegFrame_kernel_sp) = v → load64 (vm_mem s') (p + RegFrame_sp) = w → Q s') →
  wp (st64 (p + RegFrame_kernel_sp) v) (λ _, wp (st64 (p + RegFrame_sp) w) (λ _, Q)) s.
Proof.
  intros Hi Hr Hd Hv Hw HQ.
  eapply wp_st64_data; [done..|]. cbv zeta. intros Hi1 Hr1 Ht1.
  eapply wp_st64_data; [done..|]. cbv zeta. intros Hi2 Hr2 Ht2. apply HQ; [done|done| | |].
  - intros va. by rewrite Ht2, Ht1.
  - cbn. rewrite load64_store64_ne by (unfold RegFrame_kernel_sp, RegFrame_sp; lia). by apply load64_store64_same.
  - by apply load64_store64_same.
Qed.

(** What a process is right after [Init]: its four pages, its address space (the
    stack page and nothing else) and the initial registers. *)
Record fresh (ra : Z) (s : tstate) (fl : list Z) (T : ptree) (fp rp sp kp : Z) : Prop := {
  fr_task : frame (ts_task s) = fp ∧ page_table (ts_task s) = rp ∧ user_sp (ts_task s) = sp ∧ kernel_sp (ts_task s) = kp;
  fr_inv : vm_inv (ts_vm s) fl;
  fr_rep : pt_rep (ts_vm s) fl rp T;
  fr_data : NoDup [fp; rp; sp; kp] ∧ ∀ p, p ∈ [fp; sp; kp] → data_page fl T p;
  fr_map : ∀ va, 0 ≤ va < 2 ^ 39 →
    translate (vm_mem (ts_vm s)) T va =
      if decide (va / PGSIZE = GetUserSpVa / PGSIZE - 1) then Some (sp, Z.lor (Z.lor PTE_R PTE_W) PTE_U) else None;
  fr_frame : load64 (vm_mem (ts_vm s)) (fp + RegFrame_kernel_sp) = kp + PGSIZE ∧
             load64 (vm_mem (ts_vm s)) (fp + RegFrame_sp) = GetUserSpVa;
  fr_context : ctx_ra (saved_context (ts_task s)) = ra ∧ ctx_sp (saved_context (ts_task s)) = kp + PGSIZE;
}.

(** the next free page, checked against 0 as every caller of [Alloc] does *)
Lemma wp_next_page {A} p fl s (e : M tstate A) (k : Z → M tstate A) Q :
  vm_inv (ts_vm s) (p :: fl) →
  (∀ vm, vm_inv vm fl → page_zero (vm_mem vm) p →
    (∀ root T, pt_rep (ts_vm s) (p :: fl) root T → pt_rep vm fl root T ∧
      ∀ va, translate (vm_mem vm) T va = translate (vm_mem (ts_vm s)) T va) →
    wp (k p) Q (TState vm (ts_cur_pid s) (ts_task s))) →
  wp (lift_vm Alloc ≫= λ x, if x =? 0 then e else k x) Q s.
Proof.
  intros Hinv HQ. apply wp_bind, wp_lift_vm. eapply wp_mono; [by apply Alloc_spec|].
  intros x vm (-> & Hi & Hz & Hpost).
  assert (page_ok p) as Hp by (pose proof (inv_pages _ _ Hinv) as (Hpk & _); by apply Forall_cons in Hpk as [? _]).
  replace (p =? 0) with false by (pose proof (page_ok_nz _ Hp); lia).
  apply HQ; [done|done|]. intros root T. by apply post_rep.
Qed.
(** the four pages of a process are distinct and outside the tables and the free list *)
Lemma new_pages vm p1 p2 p3 fl vm' kp fl' T used :
  vm_inv vm (p1 :: p2 :: p3 :: fl) → vm_inv vm' (kp :: fl') → pt_rep vm' (kp :: fl') p2 T →
  (∀ p, p ∈ (kp :: fl') ++ pt_pages T → p ∈ fl ++ [p2]) → fl = used ++ kp :: fl' →
  NoDup [p1; p2; p3; kp] ∧ ∀ p, p ∈ [p1; p3; kp] → data_page fl' T p.
Proof.
  intros Hinv Hi Hr Hsub Hu. pose proof (inv_pages _ _ Hinv) as (Hpk & Hnd & _).
  assert (kp ∈ fl) as Hkfl by (rewrite Hu; apply elem_of_app; right; left).
  rewrite !NoDup_cons, !not_elem_of_cons in Hnd. destruct Hnd as ((H12 & H13 & H1) & (H23 & H2) & H3 & _).
  rewrite !Forall_cons in Hpk. destruct Hpk as (Hp1 & _ & Hp3 & _).
  pose proof (inv_pages _ _ Hi) as ([Hkp _]%Forall_cons & [Hkn _]%NoDup_cons & _).
  assert (kp ∉ pt_pages T) as Hkt.
  { intros (k & Hk)%pt_pages_elem. destruct (pt_page _ _ _ _ Hr k kp Hk) as [_ Hn]. apply Hn. left. }
  assert (∀ p, p ∉ fl → p ≠ p2 → p ∉ fl' ∧ p ∉ pt_pages T) as Hout.
  { intros p Hpf Hpn. assert (p ∉ fl ++ [p2]) as Hn by (rewrite elem_of_app, list_elem_of_singleton; tauto).
    split; intros Hin; apply Hn, Hsub, elem_of_app; [left; by right|by right]. }
  split.
  - rewrite !NoDup_cons, !not_elem_of_cons.
    split_and!; try done; try (by intros ->); try apply not_elem_of_nil; try constructor.
  - intros p Hp. rewrite !elem_of_cons, elem_of_nil in Hp.
    destruct Hp as [-> |[-> |[-> |[]]]]; unfold data_page; split_and!; auto; by apply Hout.
Qed.
(** a table that maps the stack page only *)
Lemma stack_translate (t : Z → option (Z * Z)) x :
  (∀ va, t va = if decide (same_page (u64 (GetUserSpVa - PGSIZE)) va) then Some x else None) →
  ∀ va, 0 ≤ va < 2 ^ 39 → t va = if decide (va / PGSIZE = GetUserSpVa / PGSIZE - 1) then Some x else None.
Proof.
  destruct stack_va_ok as (Hva & Hval & Hvae). set (sva := u64 (GetUserSpVa - PGSIZE)) in *. intros Ht va Hva39. rewrite Ht.
  pose proof (same_page_range sva 0 va Hval) as Hs. rewrite Z.mul_0_l, Z.add_0_r in Hs.
  unfold MAX_SUPPORT_VA in Hva. unfold PGSIZE in *. rewrite <-Hvae.
  destruct (decide (same_page sva va)) as [Hsp|Hsp]; [rewrite decide_True|rewrite decide_False]; try done.
  - rewrite Hs in Hsp by lia. dlia.
  - intros Heq. apply Hsp, Hs; [lia|lia|]. dlia.
Qed.

(** [ProcessTask::Init] with six free pages and a free console descriptor
    succeeds: the process gets four distinct pages, an address space in which
    exactly the stack page below [GetUserSpVa] is mapped (read, write, user), a
    frame with both stack pointers, a kernel context that starts at
    [ExecuteRet], the next pid and the console as descriptor 0; the allocator's
    invariant is kept. *)
Theorem ProcessTask_Init_correct ra s p1 p2 p3 fl fd :
  vm_inv (ts_vm s) (p1 :: p2 :: p3 :: fl) → (3 ≤ length fl)%nat →
  file_descriptor (ts_task s) !! console_index = Some fd → file_type fd = FT_none →
  wp (ProcessTask_Init ra true) (λ r s', r = true ∧ ∃ kp fl' T', fresh ra s' fl' T' p1 p2 p3 kp ∧
    pid (ts_task s') = s32 (ts_cur_pid s + 1) ∧ ts_cur_pid s' = pid (ts_task s') ∧
    file_descriptor (ts_task s') = <[console_index := console_fd fd]> (file_descriptor (ts_task s)) ∧
    (∃ used, fl = used ++ fl')) s.
Proof.
  intros Hinv Hlen Hfd Hft. destruct s as [vm cp t]. cbn [ts_vm ts_cur_pid ts_task] in *.
  pose proof (inv_pages _ _ Hinv) as (Hpk & Hnd & _). rewrite !Forall_cons in Hpk. destruct Hpk as (_ & Hp2 & Hp3 & _).
  assert (p2 ∉ p3 :: fl) as H2 by (rewrite !NoDup_cons in Hnd; tauto). clear Hnd.
  destruct stack_va_ok as (Hva & Hval & Hvae).
  unfold ProcessTask_Init. cbv zeta. set (sva := u64 (GetUserSpVa - PGSIZE)) in *.
  eapply wp_next_page; [done|]. intros vm1 Hi1 _ _. eapply wp_next_page; [done|]. intros vm2 Hi2 Hz2 _.
  eapply wp_next_page; [done|]. cbn [ts_vm ts_cur_pid ts_task]. intros vm3 Hi3 _ Hr3.
  apply (pt_rep_new _ (p3 :: fl)) in Hz2; [|done|done]. destruct (Hr3 _ _ Hz2) as [Hr3' _]. clear Hr3.
  apply wp_bind, wp_lift_vm. cbn [ts_vm ts_cur_pid ts_task].
  pose proof (page_ok_range _ Hp3) as Hp3r. unfold KERNEL_BASE in Hp3r.
  eapply wp_mono; [apply (wp_MapPage p2 sva p3 _ vm3 fl {[ [] := p2 ]}); try done; [lia|lia|apply Hp3]|].
  intros x vm4 (-> & fl4 & T & [Hi4 Hr4 Ht4] & _ & Hl4 & Hsub4 & (used4 & Hu4)). cbn [negb].
  rewrite pt_pages_singleton in Hsub4. destruct fl4 as [|kp fl5]; [simpl in Hl4; lia|].
  destruct (new_pages vm p1 p2 p3 fl vm4 kp fl5 T used4) as [Hnd Hdp]; [done..|].
  assert (page_ok kp) as Hkp by (apply Hdp; rewrite !elem_of_cons; auto).
  apply wp_bind. eapply wp_next_page; [done|]. cbn [ts_vm ts_cur_pid ts_task]. intros vm5 Hi5 _ H5.
  destruct (H5 _ _ Hr4) as [Hr5 Ht5]. clear H5.
  apply wp_bind, wp_AllocPid; [exact (inv_mstatus _ _ Hi5)|]. cbn [ts_vm ts_cur_pid ts_task].
  unfold upd, this. wp_steps. cbn [negb]. change (negb (sizeof_RegFrame =? 2048)) with false. cbn iota.
  do 3 wp_step. cbn [ts_vm ts_cur_pid ts_task kernel_sp set_pages set_kernel file_descriptor].
  apply page_ok_64 in Hkp. assert (u64 (kp + PGSIZE) = kp + PGSIZE) as Hk64 by (apply wrap_small; unfold PGSIZE; lia).
  apply wp_bind, wp_lift_vm. cbn [ts_vm ts_cur_pid ts_task kernel_sp set_pages set_kernel].
  rewrite Hvae, Hk64, (wrap_small 64 GetUserSpVa) by done.
  eapply wp_mono; [eapply (wp_frame_stores p1 (kp + PGSIZE) GetUserSpVa vm5 fl5 p2 T (λ vm6,
    vm_inv vm6 fl5 ∧ pt_rep vm6 fl5 p2 T ∧ (∀ va, translate (vm_mem vm6) T va = translate (vm_mem vm5) T va) ∧
    load64 (vm_mem vm6) (p1 + RegFrame_kernel_sp) = kp + PGSIZE ∧ load64 (vm_mem vm6) (p1 + RegFrame_sp) = GetUserSpVa))|].
  { done. } { done. } { apply Hdp. by left. } { unfold PGSIZE. lia. } { done. } { auto 10. }
  intros [] vm5' Hst. apply wp_bind, wp_lift_vm. cbn [ts_vm ts_cur_pid ts_task].
  eapply wp_mono; [exact Hst|]. intros [] vm6 (Hi6 & Hr6 & Ht6 & Hl1 & Hl2).
  cbn [file_descriptor set_pages set_kernel].
  rewrite Hfd. cbn [of_option]. do 2 wp_step. rewrite Hft. cbn [negb Z.eqb FT_none]. do 3 wp_step.
  split; [done|]. exists kp, fl5, T. cbn. split_and!; [|done..|].
  2: { exists (used4 ++ [kp]). by rewrite Hu4, <-app_assoc. }
  constructor; cbn; try done.
  apply stack_translate. intros va. by rewrite Ht6, Ht5, Ht4, translate_new.
Qed.
(** a task with a console descriptor free, on 16 free pages *)
Definition demo_task_state : tstate := TState demo_vm 6 task0.
Lemma ProcessTask_Init_correct_witness :
  wp (ProcessTask_Init 0x80001234 true) (λ r s', r = true ∧ pid (ts_task s') = 7 ∧
    frame (ts_task s') = demo_root ∧ (file_type <$> file_descriptor (ts_task s') !! 0%nat) = Some FT_device) demo_task_state.
Proof.
  eapply wp_mono; [apply (ProcessTask_Init_correct 0x80001234 demo_task_state demo_root (demo_root - PGSIZE)
    (demo_root - 2 * PGSIZE) (drop 2 demo_free) fd0)|].
  - exact demo_vm_inv.
  - apply Nat.leb_le. vm_compute. reflexivity.
  - reflexivity.
  - reflexivity.
  - intros r s' (Hr & kp & fl' & T' & Hf & Hp & _ & Hfds & _). split; [exact Hr|]. split; [exact Hp|].
    split; [apply (fr_task _ _ _ _ _ _ _ _ Hf)|]. rewrite Hfds. reflexivity.
Defined.

Lemma max_mem_ub l : ∀ n, n ≤ foldl (λ m (r : MemoryRegion), if m <? r.2 then r.2 else m) n l ∧
  ∀ r, r ∈ l → r.2 ≤ foldl (λ m (r : MemoryRegion), if m <? r.2 then r.2 else m) n l.
Proof.
  induction l as [|r l IH]; intros n; simpl; [split; [lia|intros r Hr; by apply elem_of_nil in Hr]|].
  destruct (IH (if n <? r.2 then r.2 else n)) as [H1 H2]. destruct (Z.ltb_spec n r.2).
  - split; [lia|]. intros q [-> |Hq]%elem_of_cons; [lia|auto].
  - split; [lia|]. intros q [-> |Hq]%elem_of_cons; [lia|auto].
Qed.

(** [ExpandMemory] on a process with a region slot left adds a region of
    [bytes] bytes that starts on the first page boundary at or after the end of
    every region in use, so it overlaps none of them; its pages are mapped
    read/write/user to distinct zeroed pages, everything else translates as
    before, and the first address is returned. *)
Theorem ExpandMemory_correct bytes s fl T n :
  vm_inv (ts_vm s) fl → pt_rep (ts_vm s) fl (page_table (ts_task s)) T → 0 < bytes →
  used_address_size (ts_task s) = Z.of_nat n → (n < length (used_address (ts_task s)))%nat →
  Z.of_nat (length (used_address (ts_task s))) < 2 ^ 63 →
  let regions := take n (used_address (ts_task s)) in
  let b := AddrCastUp (max_mem regions) in
  max_mem regions + PGSIZE + bytes ≤ MAX_SUPPORT_VA →
  (3 * range_pages b (b + bytes) ≤ length fl)%nat →
  wp (ExpandMemory bytes) (λ r s', r = b ∧ b mod PGSIZE = 0 ∧ (∀ q, q ∈ regions → q.2 ≤ b) ∧
    used_address_size (ts_task s') = Z.of_nat (S n) ∧
    take (S n) (used_address (ts_task s')) = regions ++ [(b, b + bytes)] ∧
    ∃ ps fl' T', length ps = range_pages b (b + bytes) ∧
      range_mapped (page_table (ts_task s)) b (Z.lor (Z.lor PTE_R PTE_W) PTE_U) ps (ts_vm s) fl T (ts_vm s') fl' T') s.
Proof.
  intros Hinv Hpt Hb Hn Hlt Hl63 regions b Hmax Hfl. unfold MAX_SUPPORT_VA in Hmax.
  destruct (max_mem_ub regions 0) as [Hm0 Hub]. fold (max_mem regions) in Hm0, Hub.
  assert (b mod PGSIZE = 0 ∧ max_mem regions ≤ b < max_mem regions + PGSIZE) as [Hal Hbr].
  { unfold b. rewrite AddrCastUp_spec by (unfold PGSIZE in *; lia). unfold PGSIZE in *. dlia. }
  unfold ExpandMemory. replace (bytes =? 0) with false by lia. unfold this. wp_steps.
  rewrite Hn, Nat2Z.id. replace (_ <? n)%nat with false by lia. cbv zeta. fold regions b.
  rewrite (wrap_small 64 (b + bytes)) by lia. apply wp_bind, wp_lift_vm.
  eapply wp_mono; [apply (wp_MapMemory _ b (b + bytes) _ _ fl T); try done; unfold MAX_SUPPORT_VA; lia|].
  intros r vm (-> & ps & fl' & T' & Hps & Hrm). cbn [negb ts_vm ts_task].
  replace (n <? _)%nat with true by lia. unfold upd. wp_steps. cbn.
  split; [done|]. split; [done|]. split; [intros q Hq; specialize (Hub q Hq); lia|].
  rewrite Hn, Nat2Z.id. split; [rewrite wrap_small by lia; lia|]. split.
  - rewrite (take_S_r _ n (b, b + bytes)) by (by rewrite list_lookup_insert_eq). by rewrite take_insert_ge.
  - exists ps, fl', T'. split; [done|]. replace (range_base b) with b in Hrm by (unfold range_base; lia). exact Hrm.
Qed.
Definition demo_sbrk_state : tstate :=
  TState demo_pt 1 (set_regions 1 (<[0%nat := (0x10000, 0x10123)]> (replicate 16 (0, 0)))
    (set_pages 0 demo_root 0 0 task0)).
Lemma ExpandMemory_correct_witness :
  wp (ExpandMemory 5000) (λ r s', r = 0x11000 ∧
    take 2 (used_address (ts_task s')) = [(0x10000, 0x10123); (0x11000, 0x12388)]) demo_sbrk_state.
Proof.
  destruct demo_pt_inv as [Hi Hp].
  eapply wp_mono; [apply (ExpandMemory_correct 5000 demo_sbrk_state demo_free demo_T 1 Hi Hp)|].
  - lia.
  - reflexivity.
  - apply Nat.ltb_lt. reflexivity.
  - reflexivity.
  - vm_compute. discriminate.
  - apply Nat.leb_le. vm_compute. reflexivity.
  - intros r s' (Hr & _ & _ & _ & Ht & _). split; [exact Hr|exact Ht].
Defined.
