(* ===== verification/Scheduler.v ===== *)
(** [kernel/scheduler.h], [kernel/scheduler.cc] and [kernel/cpu.h]: the process
    table, the operations on it, and the machine that the context switches make
    of them, as a step relation between the dispatch loop and the running
    process.  [CPU_NUM] is 1, so [cpu_task_] is one [CpuTask]. *)
From S2P Require Import Prelude Riscv Lock Mem MemoryList VirtualMemory Inode Process.

(** * State: the members of [Schedueler], and the allocator and the pid counter
    its operations use.  [process_task] is the member of the one [CpuTask]. *)
Record sched := Sched {
  process_tasks_ : list ProcessTask;
  process_task : option nat;
  ticks : Z;
  init_process_ : option nat;
  sc_vm : vmstate;
  sc_cur_pid : Z;
}.
#[export, refine] Instance sc_HasMstatus : HasMstatus sched :=
  {| get_mstatus := λ s, vm_mstatus (sc_vm s);
     put_mstatus := λ v s, Sched (process_tasks_ s) (process_task s) (ticks s) (init_process_ s)
                             (set_vm_mstatus v (sc_vm s)) (sc_cur_pid s) |}.
Proof. all: by intros; repeat match goal with s : sched |- _ => destruct s as [? ? ? ? [] ?] end. Defined.

Definition set_tasks (l : list ProcessTask) (s : sched) : sched :=
  Sched l (process_task s) (ticks s) (init_process_ s) (sc_vm s) (sc_cur_pid s).
Definition set_cpu (p : option nat) : M sched () :=
  modify (λ s, Sched (process_tasks_ s) p (ticks s) (init_process_ s) (sc_vm s) (sc_cur_pid s)).
Definition get_task (i : nat) : M sched ProcessTask :=
  s ← gets process_tasks_; of_option (Faulted "process_tasks_") (s !! i).
Definition upd_task (i : nat) (f : ProcessTask → ProcessTask) : M sched () :=
  modify (λ s, set_tasks (alter f i (process_tasks_ s)) s).
(** a member function of [ProcessTask] on task [i] *)
Definition on_task {A} (i : nat) (m : M tstate A) : M sched A := λ s,
  match process_tasks_ s !! i with
  | None => Stop (Faulted "process_tasks_")
  | Some t =>
    match m (TState (sc_vm s) (sc_cur_pid s) t) with
    | Ok (a, ts) => Ok (a, Sched (<[i := ts_task ts]> (process_tasks_ s)) (process_task s) (ticks s)
                             (init_process_ s) (ts_vm ts) (ts_cur_pid ts))
    | Stop e => Stop e
    end
  end.
(** [for (auto& task : process_tasks_) body], [n] tasks from index [i]; a body
    that gives [Some r] returns *)
Fixpoint for_tasks {R} (n i : nat) (body : nat → M sched (option R)) : M sched (option R) :=
  match n with
  | O => mret None
  | S n =>
    r ← body i;
    match r with Some r => mret (Some r) | None => for_tasks n (S i) body end
  end.
Definition each_task {R} (body : nat → M sched (option R)) : M sched (option R) :=
  n ← gets (λ s, length (process_tasks_ s)); for_tasks n 0 body.

Section scheduler.
Context (ExecuteRet_addr : Z).

Definition ThisProcess : M sched (option nat) := gets process_task.
Definition SystemTick : M sched Z := gets ticks.
Definition SetInitProcess (p : option nat) : M sched () :=
  modify (λ s, Sched (process_tasks_ s) (process_task s) (ticks s) p (sc_vm s) (sc_cur_pid s)).
Definition GetInitProcess : M sched (option nat) := gets init_process_.

(** [channel] is [None] when it is not the address of a [Channel]; both
    channels are read only for a sleeping task *)
Definition wake_task (chan : option Channel) (i : nat) : M sched (option ()) :=
  guarded (
    t ← get_task i;
    if bool_decide (state t = sleep) then
      c ← of_option (Faulted "task.channel") (channel t);
      d ← of_option (Faulted "channel") chan;
      if bool_decide (c = d) then
        upd_task i (set_state runnable);;
        upd_task i (set_channel None);;
        mret None
      else mret None
    else mret None).
Definition Wakeup (chan : option Channel) : M sched () :=
  each_task (wake_task chan);; mret ().

(** Each of the next three functions up to its [Switch] to the scheduler's
    context; the value is the interrupt flag its [CriticalGuard] keeps on the
    process's kernel stack. *)
Definition Yield : M sched bool :=
  current ← ThisProcess;
  match current with
  | None => stop_with (Panicked "process_task in empty when try to yield")
  | Some i =>
    is_intr_on ← CriticalGuard_ctor;
    upd_task i (set_state runnable);;
    mret is_intr_on
  end.
Definition Sleep (chan : Channel) : M sched bool :=
  current ← ThisProcess;
  match current with
  | None => stop_with (Panicked "process_task's state is not running when try to sleep")
  | Some i =>
    t ← get_task i;
    if bool_decide (state t = running) then
      is_intr_on ← CriticalGuard_ctor;
      upd_task i (set_state sleep);;
      upd_task i (set_channel (Some chan));;
      mret is_intr_on
    else stop_with (Panicked "process_task's state is not running when try to sleep")
  end.
Definition reparent (process i : nat) : M sched (option ()) :=
  t ← get_task i;
  if bool_decide (parent_process t = Some process) then
    init ← GetInitProcess;
    match init with
    | None => stop_with (Panicked "Cannot find init process")
    | Some _ => upd_task i (set_parent init);; mret None
    end
  else mret None.
Definition Exit (code : Z) : M sched bool :=
  current ← ThisProcess;
  process ← of_option (Faulted "process") current;
  is_intr_on ← CriticalGuard_ctor;
  upd_task process (set_exit_code code);;
  upd_task process (set_state zombie);;
  each_task (reparent process);;
  t ← get_task process;
  Wakeup (owned_channel <$> parent_process t);;
  mret is_intr_on.

Fixpoint find_zombie (parent : nat) (l : list ProcessTask) (i : nat) (has_child : bool) : bool * option nat :=
  match l with
  | [] => (has_child, None)
  | task :: l =>
    if bool_decide (parent_process task = Some parent) then
      if bool_decide (state task = zombie) then (true, Some i) else find_zombie parent l (S i) true
    else find_zombie parent l (S i) has_child
  end.
Definition FindFirslZombieChild (parent : nat) : M sched (bool * option nat) :=
  gets (λ s, find_zombie parent (process_tasks_ s) 0 false).

Definition ClockInterrupt : M sched () :=
  modify (λ s, Sched (process_tasks_ s) (process_task s) (u64 (ticks s + 1)) (init_process_ s) (sc_vm s) (sc_cur_pid s));;
  Wakeup (Some sleep_channel).

(** [Some None] is [return nullptr] *)
Definition alloc_task (i : nat) : M sched (option (option nat)) :=
  guarded (
    t ← get_task i;
    if bool_decide (state t = unused) then
      ok ← on_task i (ProcessTask_Init ExecuteRet_addr true);
      if negb ok then mret (Some None) else
      upd_task i (set_state used);;
      mret (Some (Some i))
    else mret None).
Definition AllocProc : M sched (option nat) :=
  r ← each_task alloc_task; mret (default None r).

Definition InitTimer (hart_id : Z) (σ : csrs) : io (csrs * (Z * Z)) :=
  let mtime_cmp := CLINT_MTIMECMP hart_id in
  current_mtime ← R_DWORD CLINT_MTIME;
  W_DWORD mtime_cmp (current_mtime + TIMER_INTERVAL);;
  mret (mie_set_bit MIE_MTIE σ, (mtime_cmp, TIMER_INTERVAL)).

(** * Dispatch and the context switches *)
(** Where the hart is: at task [k] of the dispatch loop, or in process [i], with
    the interrupt flag the loop's guard keeps on the scheduler's stack. *)
Inductive control := Scheduler (k : nat) | Running (i : nat) (lk : bool).
Definition dispatch_step (k : nat) : M sched control :=
  n ← gets (λ s, length (process_tasks_ s));
  if (k <? n)%nat then
    lk ← CriticalGuard_ctor;
    task ← get_task k;
    if bool_decide (state task = runnable) then
      set_cpu (Some k);;
      upd_task k (set_state running);;
      mret (Running k lk)
    else CriticalGuard_dtor lk;; mret (Scheduler (S k))
  else global_interrunpt_on;; mret (Scheduler 0).
(** after [Switch] returns to the loop *)
Definition dispatch_resume (k : nat) (lk : bool) : M sched control :=
  set_cpu None;; CriticalGuard_dtor lk;; mret (Scheduler (S k)).

(** the two library calls of the system calls that change process states *)
Definition fork_task (i : nat) : M sched (option nat) :=
  dst ← AllocProc;
  match dst with
  | None => mret None
  | Some j =>
    src ← get_task i;
    ok ← on_task j (CopyFrom src);
    if negb ok then mret None else
    t ← get_task j;
    on_task j (lift_vm (st64 (frame t + RegFrame_a 0) 0));;
    upd_task j (set_state runnable);;
    upd_task j (set_parent (Some i));;
    mret (Some j)
  end.
Definition reap (i : nat) : M sched (option Z) :=
  '(_, child) ← FindFirslZombieChild i;
  match child with
  | None => mret None
  | Some j => guarded (
      t ← get_task j;
      on_task j ResetProcess;;
      mret (Some (pid t)))
  end.

(** [saved] holds the interrupt flag of every process suspended in a [Switch]. *)
Record machine := Machine { sch : sched; ctl : control; saved : gmap nat bool }.
(** what the process that [Switch] returns to does first: the destructor of its
    guard, or, for a new process, [ExecuteRet] on its way to user mode *)
Definition resume (sv : gmap nat bool) (c : control) : M sched () :=
  match c with
  | Scheduler _ => mret ()
  | Running i _ =>
    match sv !! i with Some fl => CriticalGuard_dtor fl | None => global_interrunpt_off end
  end.
Inductive step : machine → machine → Prop :=
| step_dispatch s k sv c s1 s2 :
    dispatch_step k s = Ok (c, s1) → resume sv c s1 = Ok ((), s2) →
    step (Machine s (Scheduler k) sv) (Machine s2 c sv)
| step_yield s i lk sv fl s1 c s2 :
    Yield s = Ok (fl, s1) → dispatch_resume i lk s1 = Ok (c, s2) →
    step (Machine s (Running i lk) sv) (Machine s2 c (<[i := fl]> sv))
| step_sleep s i lk sv ch fl s1 c s2 :
    Sleep ch s = Ok (fl, s1) → dispatch_resume i lk s1 = Ok (c, s2) →
    step (Machine s (Running i lk) sv) (Machine s2 c (<[i := fl]> sv))
| step_exit s i lk sv code fl s1 c s2 :
    Exit code s = Ok (fl, s1) → dispatch_resume i lk s1 = Ok (c, s2) →
    step (Machine s (Running i lk) sv) (Machine s2 c (delete i sv))
| step_wakeup s c sv ch s' : Wakeup (Some ch) s = Ok ((), s') → step (Machine s c sv) (Machine s' c sv)
| step_clock s c sv s' : ClockInterrupt s = Ok ((), s') → step (Machine s c sv) (Machine s' c sv)
| step_fork s i lk sv r s' :
    fork_task i s = Ok (r, s') → step (Machine s (Running i lk) sv) (Machine s' (Running i lk) sv)
| step_reap s i lk sv r s' :
    reap i s = Ok (r, s') → step (Machine s (Running i lk) sv) (Machine s' (Running i lk) sv).
End scheduler.

(** * Lemmas: what happens to the states of the tasks *)
(** [o] is the task in state [running], [p] the process of the CPU; a sleeping
    task has a channel *)
Record sched_inv (o p : option nat) (s : sched) : Prop := {
  si_cpu : process_task s = p;
  si_running : ∀ i t, process_tasks_ s !! i = Some t → state t = running ↔ o = Some i;
  si_sleep : ∀ i t, process_tasks_ s !! i = Some t → state t = sleep → is_Some (channel t);
}.
Definition same_tasks (s s' : sched) : Prop :=
  process_tasks_ s' = process_tasks_ s ∧ process_task s' = process_task s.
Lemma same_tasks_inv o p s s' : same_tasks s s' → sched_inv o p s → sched_inv o p s'.
Proof. intros [Ht Hp] []. constructor; rewrite ?Ht, ?Hp; done. Qed.
Lemma same_tasks_mstatus v s : same_tasks s (put_mstatus v s).
Proof. done. Qed.

(** [Q] looks at the tasks and the CPU only *)
Definition about_tasks {A} (Q : A → sched → Prop) : Prop := ∀ a s s', same_tasks s s' → Q a s → Q a s'.
Lemma pwp_guarded {A} (body : M sched A) Q s :
  about_tasks Q → (∀ s', same_tasks s s' → pwp body Q s') → pwp (guarded body) Q s.
Proof.
  intros HQ Hb. unfold pwp. rewrite guarded_unfold. apply pwp_bind.
  eapply pwp_mono; [apply Hb; done|]. intros a s1 Ha. apply pwp_bind.
  unfold CriticalGuard_dtor. destruct (read_bit _ _); [|done]. apply (HQ a s1); [apply same_tasks_mstatus|done].
Qed.
Lemma pwp_gets {A} (f : sched → A) (Q : A → sched → Prop) s : Q (f s) s → pwp (gets f) Q s.
Proof. done. Qed.
Lemma pwp_ctor (Q : bool → sched → Prop) s :
  (∀ fl s', same_tasks s s' → Q fl s') → pwp CriticalGuard_ctor Q s.
Proof. intros HQ. unfold CriticalGuard_ctor. apply pwp_bind, pwp_gets, pwp_bind. apply HQ. done. Qed.
Lemma pwp_dtor fl (Q : () → sched → Prop) s :
  (∀ s', same_tasks s s' → Q () s') → pwp (CriticalGuard_dtor fl) Q s.
Proof. intros HQ. unfold CriticalGuard_dtor. destruct fl; apply HQ; done. Qed.
Lemma pwp_get_task i (Q : ProcessTask → sched → Prop) s :
  (∀ t, process_tasks_ s !! i = Some t → Q t s) → pwp (get_task i) Q s.
Proof. intros HQ. unfold get_task. apply pwp_bind, pwp_gets, pwp_of_option. exact HQ. Qed.
Lemma pwp_upd_task i f (Q : () → sched → Prop) s :
  Q () (set_tasks (alter f i (process_tasks_ s)) s) → pwp (upd_task i f) Q s.
Proof. done. Qed.
Lemma pwp_for_tasks {R} (I : sched → Prop) (P : R → sched → Prop) n i body s :
  I s → (∀ i s, I s → pwp (body i) (λ r s', match r with Some x => P x s' | None => I s' end) s) →
  pwp (for_tasks n i body) (λ r s', match r with Some x => P x s' | None => I s' end) s.
Proof.
  intros HI Hb. revert i s HI. induction n as [|n IH]; intros i s HI; cbn [for_tasks]; [done|].
  apply pwp_bind. eapply pwp_mono; [by apply Hb|]. intros [x|] s' H; [done|by apply IH].
Qed.
Lemma pwp_each_task {R} (I : sched → Prop) (P : R → sched → Prop) body s :
  I s → (∀ i s, I s → pwp (body i) (λ r s', match r with Some x => P x s' | None => I s' end) s) →
  pwp (each_task body) (λ r s', match r with Some x => P x s' | None => I s' end) s.
Proof. intros. unfold each_task. apply pwp_bind, pwp_gets. by apply pwp_for_tasks. Qed.

(** one task changes its state *)
Lemma inv_alter o o' p i f s :
  sched_inv o p s →
  (∀ t, process_tasks_ s !! i = Some t →
     (state (f t) = running ↔ o' = Some i) ∧ (state (f t) = sleep → is_Some (channel (f t)))) →
  (∀ j, j ≠ i → o = Some j ↔ o' = Some j) →
  sched_inv o' p (set_tasks (alter f i (process_tasks_ s)) s).
Proof.
  intros [Hc Hr Hs] Hf Ho. constructor; [done|..]; intros j t; cbn [process_tasks_ set_tasks];
    destruct (decide (i = j)) as [->|Hne].
  1,3: rewrite list_lookup_alter_eq; destruct (process_tasks_ s !! j) as [t0|] eqn:E; [|done];
    intros [= <-]; by apply Hf.
  - rewrite list_lookup_alter_ne by done. intros Hj. rewrite (Hr j t Hj). by apply Ho.
  - rewrite list_lookup_alter_ne by done. apply Hs.
Qed.
(** a change that keeps state and channel *)
Lemma inv_alter_keep o p i f s :
  sched_inv o p s → (∀ t, state (f t) = state t ∧ channel (f t) = channel t) →
  sched_inv o p (set_tasks (alter f i (process_tasks_ s)) s).
Proof.
  intros Hi Hf. eapply inv_alter; [done| |done]. intros t Ht. destruct (Hf t) as [-> ->].
  split; [by eapply si_running|by eapply si_sleep].
Qed.
Lemma inv_alter2 o o' p i g f s :
  sched_inv o p s →
  (∀ t, process_tasks_ s !! i = Some t →
     (state (g (f t)) = running ↔ o' = Some i) ∧ (state (g (f t)) = sleep → is_Some (channel (g (f t))))) →
  (∀ j, j ≠ i → o = Some j ↔ o' = Some j) →
  sched_inv o' p (set_tasks (alter g i (alter f i (process_tasks_ s))) s).
Proof.
  intros Hi Hf Ho. rewrite list_alter_alter_eq. by apply (inv_alter o).
Qed.
Lemma inv_about {A} o p : about_tasks (λ (_ : A), sched_inv o p).
Proof. intros _ s s'. apply same_tasks_inv. Qed.

Lemma pwp_Wakeup o p chan s : sched_inv o p s → pwp (Wakeup chan) (λ _, sched_inv o p) s.
Proof.
  intros Hi. unfold Wakeup. apply pwp_bind.
  eapply pwp_mono; [apply (pwp_each_task (sched_inv o p) (λ _, sched_inv o p)); [done|]|].
  2: { intros [x|] s' H; exact H. }
  clear s Hi. intros i s Hi. unfold wake_task. apply pwp_guarded.
  { intros [x|] s1 s2 Hst; by apply same_tasks_inv. }
  intros s1 Hst. apply (same_tasks_inv _ _ _ _ Hst) in Hi. apply pwp_bind, pwp_get_task. intros t Ht.
  case_bool_decide as Hs; [|done]. apply pwp_bind, pwp_of_option. intros c Hc.
  apply pwp_bind, pwp_of_option. intros d Hd. case_bool_decide; [|done].
  apply pwp_bind, pwp_upd_task, pwp_bind, pwp_upd_task, pwp_ret.
  refine (inv_alter2 o o p i (set_channel None) (set_state runnable) s1 Hi _ (λ _ _, iff_refl _)).
  intros t' [= <-]%(eq_trans (eq_sym Ht)). cbn. split; [|done]. rewrite <-(si_running _ _ _ Hi i t Ht).
  split; [done|congruence].
Qed.
Lemma inv_dispatch_resume i lk p s :
  sched_inv None p s → pwp (dispatch_resume i lk) (λ c s', c = Scheduler (S i) ∧ sched_inv None None s') s.
Proof.
  intros [Hc Hr Hs]. unfold dispatch_resume, set_cpu. apply pwp_bind. unfold pwp at 1, modify.
  apply pwp_bind, pwp_dtor. intros s' Hst. split; [done|]. apply (same_tasks_inv _ _ _ _ Hst). by constructor.
Qed.
Lemma inv_Yield i s :
  sched_inv (Some i) (Some i) s → pwp Yield (λ _, sched_inv None (Some i)) s.
Proof.
  intros Hi. unfold Yield, ThisProcess. apply pwp_bind, pwp_gets. rewrite (si_cpu _ _ _ Hi).
  apply pwp_bind, pwp_ctor. intros fl s' Hst. apply (same_tasks_inv _ _ _ _ Hst) in Hi.
  apply pwp_bind, pwp_upd_task, pwp_ret. refine (inv_alter (Some i) None _ i _ s' Hi _ _); [done|].
  intros j Hj. split; congruence.
Qed.
Lemma inv_Sleep i ch s :
  sched_inv (Some i) (Some i) s → pwp (Sleep ch) (λ _, sched_inv None (Some i)) s.
Proof.
  intros Hi. unfold Sleep, ThisProcess. apply pwp_bind, pwp_gets. rewrite (si_cpu _ _ _ Hi).
  apply pwp_bind, pwp_get_task. intros t Ht. case_bool_decide; [|done].
  apply pwp_bind, pwp_ctor. intros fl s' Hst. apply (same_tasks_inv _ _ _ _ Hst) in Hi.
  apply pwp_bind, pwp_upd_task, pwp_bind, pwp_upd_task, pwp_ret.
  refine (inv_alter2 (Some i) None _ i (set_channel (Some ch)) (set_state sleep) s' Hi _ _).
  - intros t' _. by split.
  - intros j Hj. split; congruence.
Qed.
Lemma inv_Exit i code s :
  sched_inv (Some i) (Some i) s → pwp (Exit code) (λ _, sched_inv None (Some i)) s.
Proof.
  intros Hi. unfold Exit, ThisProcess. apply pwp_bind, pwp_gets. rewrite (si_cpu _ _ _ Hi). cbn [of_option].
  apply pwp_bind, pwp_ret, pwp_bind, pwp_ctor. intros fl s' Hst. apply (same_tasks_inv _ _ _ _ Hst) in Hi.
  apply pwp_bind, pwp_upd_task, pwp_bind, pwp_upd_task.
  eapply (inv_alter2 (Some i) None _ i (set_state zombie) (set_exit_code code)) in Hi;
    [|by intros|intros j Hj; split; congruence].
  apply pwp_bind. eapply pwp_mono.
  { apply (pwp_each_task (sched_inv None (Some i)) (λ _, sched_inv None (Some i))); [exact Hi|].
    intros j s1 H1. unfold reparent. apply pwp_bind, pwp_get_task. intros t Ht. case_bool_decide; [|done].
    apply pwp_bind, pwp_gets. destruct (init_process_ s1); [|done].
    apply pwp_bind, pwp_upd_task, pwp_ret. by apply inv_alter_keep. }
  intros r s1 Hs1. assert (sched_inv None (Some i) s1) as H1 by (by destruct r).
  apply pwp_bind, pwp_get_task. intros t Ht. apply pwp_bind.
  eapply pwp_mono; [by apply pwp_Wakeup|]. intros w s2 H2. exact H2.
Qed.

(** ** The operations on a task of the table *)
Lemma pwp_on_task {A} i (m : M tstate A) (P : ProcessTask → A → ProcessTask → Prop) Q s :
  (∀ ts, pwp m (λ a ts', P (ts_task ts) a (ts_task ts')) ts) →
  (∀ t a t' s', process_tasks_ s !! i = Some t → P t a t' →
     process_tasks_ s' = alter (λ _, t') i (process_tasks_ s) → process_task s' = process_task s → Q a s') →
  pwp (on_task i m) Q s.
Proof.
  intros Hm HQ. unfold pwp, on_task. destruct (process_tasks_ s !! i) as [t|] eqn:E; [|done].
  pose proof (Hm (TState (sc_vm s) (sc_cur_pid s) t)) as H. unfold pwp in H.
  destruct (m _) as [[a ts]|]; [|done]. eapply HQ; [done|exact H| |done]. apply list_insert_alter.
Qed.
Lemma pwp_lift_vm {A} (m : M vmstate A) (Q : A → tstate → Prop) s :
  (∀ a vm, Q a (TState vm (ts_cur_pid s) (ts_task s))) → pwp (lift_vm m) Q s.
Proof. intros HQ. unfold pwp, lift_vm. destruct (m (ts_vm s)) as [[a vm]|]; [apply HQ|done]. Qed.
Lemma pwp_AllocPid (Q : Z → tstate → Prop) s :
  (∀ a s', ts_task s' = ts_task s → Q a s') → pwp AllocPid Q s.
Proof.
  intros HQ. unfold AllocPid, pwp. rewrite guarded_unfold. unfold CriticalGuard_dtor.
  destruct (read_bit _ _); apply HQ; done.
Qed.
(** state, channel and parent of a task: what [Init] and [CopyFrom] keep *)
Definition keeps (t t' : ProcessTask) : Prop :=
  state t' = state t ∧ channel t' = channel t ∧ parent_process t' = parent_process t.
Lemma pwp_upd f (Q : () → tstate → Prop) s :
  Q () (TState (ts_vm s) (ts_cur_pid s) (f (ts_task s))) → pwp (upd f) Q s.
Proof. done. Qed.
Lemma pwp_this (Q : ProcessTask → tstate → Prop) s : Q (ts_task s) s → pwp this Q s.
Proof. done. Qed.
Ltac pwp_walk :=
  repeat (lazymatch goal with
    | |- pwp (mbind _ _) _ _ => apply pwp_bind
    | |- pwp (mret _) _ _ => apply pwp_ret
    | |- pwp (stop_with _) _ _ => exact I
    | |- pwp (lift_vm _) _ _ => apply pwp_lift_vm; intros
    | |- pwp AllocPid _ _ => apply pwp_AllocPid; intros
    | |- pwp (of_option _ _) _ _ => apply pwp_of_option; intros
    | |- pwp (upd _) _ _ => apply pwp_upd
    | |- pwp this _ _ => apply pwp_this
    | |- pwp (if ?b then _ else _) _ _ => destruct b
    end; cbv beta).
Lemma keeps_Init ra b s : pwp (ProcessTask_Init ra b) (λ _ s', keeps (ts_task s) (ts_task s')) s.
Proof.
  unfold ProcessTask_Init, keeps. pwp_walk. all: cbn in *; repeat split; congruence.
Qed.
Lemma keeps_CopyFrom src s : pwp (CopyFrom src) (λ _ s', keeps (ts_task s) (ts_task s')) s.
Proof. unfold CopyFrom, keeps. pwp_walk. all: cbn in *; repeat split; congruence. Qed.
Lemma keeps_lift_vm {A} (m : M vmstate A) s : pwp (lift_vm m) (λ _ s', ts_task s' = ts_task s) s.
Proof. by apply pwp_lift_vm. Qed.
Lemma pwp_free_regions n root level l s : pwp (free_regions n root level l) (λ _ s', ts_task s' = ts_task s) s.
Proof.
  revert l s. induction n as [|n IH]; intros l s; cbn [free_regions]; [done|]. destruct l as [|r l]; [done|].
  apply pwp_bind, pwp_lift_vm. intros [] vm. apply (IH l (TState vm (ts_cur_pid s) (ts_task s))).
Qed.
Lemma pwp_free_level level s : pwp (free_level level) (λ _ s', ts_task s' = ts_task s) s.
Proof.
  unfold free_level. apply pwp_bind, pwp_this, pwp_bind. eapply pwp_mono; [apply pwp_free_regions|].
  intros [] s' <-. by apply pwp_lift_vm.
Qed.
Lemma pwp_FreePageTable b s : pwp (FreePageTable b) (λ _ s', ts_task s' = ts_task s) s.
Proof.
  unfold FreePageTable.
  do 3 (apply pwp_bind; eapply pwp_mono; [apply pwp_free_level|]; cbv beta; intros [] ? <-).
  pwp_walk. all: done.
Qed.
(** a reaped task is unused, with no channel and no parent *)
Lemma ResetProcess_state s :
  pwp ResetProcess (λ _ s', state (ts_task s') = unused ∧ channel (ts_task s') = None) s.
Proof.
  unfold ResetProcess. apply pwp_bind. eapply pwp_mono; [apply pwp_FreePageTable|]. intros [] s1 _.
  pwp_walk. done.
Qed.

(** ** The steps keep the invariant *)
Lemma inv_AllocProc ra o p s :
  sched_inv o p s →
  pwp (AllocProc ra) (λ r s', sched_inv o p s' ∧
    ∀ j, r = Some j → ∃ t, process_tasks_ s' !! j = Some t ∧ state t = used) s.
Proof.
  intros Hi. unfold AllocProc. apply pwp_bind. eapply pwp_mono.
  { apply (pwp_each_task (sched_inv o p) (λ r s', sched_inv o p s' ∧
      ∀ j, r = Some j → ∃ t, process_tasks_ s' !! j = Some t ∧ state t = used)); [done|].
    clear s Hi. intros i s Hi. unfold alloc_task. apply pwp_guarded.
    { intros [x|] s1 s2 Hst; [|by apply same_tasks_inv]. intros [H1 H2]. split; [by eapply same_tasks_inv|].
      destruct Hst as [-> _]. exact H2. }
    intros s1 Hst. apply (same_tasks_inv _ _ _ _ Hst) in Hi. apply pwp_bind, pwp_get_task. intros t Ht.
    case_bool_decide as Hs; [|done]. apply pwp_bind.
    eapply (pwp_on_task i _ (λ t _ t', keeps t t')); [intros; apply keeps_Init|].
    intros t1 ok t' s2 Ht1 (Hk & Hc & _) Hts Hcpu. rewrite Ht in Ht1. injection Ht1 as <-.
    assert (sched_inv o p s2) as Hi2.
    { apply (same_tasks_inv _ _ (set_tasks (alter (λ _, t') i (process_tasks_ s1)) s1)); [done|].
      apply (inv_alter o); [done| |done]. intros t1 [= <-]%(eq_trans (eq_sym Ht)). rewrite Hk, Hc.
      split; [by apply (si_running _ _ _ Hi)|by apply (si_sleep _ _ _ Hi i)]. }
    assert (process_tasks_ s2 !! i = Some t') as Ht2 by (rewrite Hts, list_lookup_alter_eq, Ht; done).
    destruct (negb ok); [by split|]. apply pwp_bind, pwp_upd_task, pwp_ret. split.
    - apply (inv_alter o); [done| |done]. intros t1 [= <-]%(eq_trans (eq_sym Ht2)). cbn. split; [|done].
      rewrite <-(si_running _ _ _ Hi2 i t' Ht2). split; [done|congruence].
    - intros j [= <-]. exists (set_state used t'). cbn. by rewrite list_lookup_alter_eq, Ht2. }
  intros [x|] s' H; [exact H|by split].
Qed.


Lemma find_zombie_Some parent l i b j :
  (find_zombie parent l i b).2 = Some j →
  ∃ t, (i ≤ j)%nat ∧ l !! (j - i)%nat = Some t ∧ parent_process t = Some parent ∧ state t = zombie.
Proof.
  revert i b. induction l as [|t l IH]; intros i b; cbn [find_zombie]; [done|].
  assert (∀ b', (find_zombie parent l (S i) b').2 = Some j → ∃ t', (i ≤ j)%nat ∧ (t :: l) !! (j - i)%nat = Some t' ∧
    parent_process t' = Some parent ∧ state t' = zombie) as Hrec.
  { intros b' H. destruct (IH _ _ H) as (t' & Hj & Hl & Ht'). exists t'. split; [lia|]. split; [|done].
    replace (j - i)%nat with (S (j - S i)) by lia. exact Hl. }
  case_bool_decide; [|apply Hrec]. case_bool_decide; [|apply Hrec].
  intros [= <-]. exists t. rewrite Nat.sub_diag. split; [lia|done].
Qed.
Lemma inv_fork_task ra i o p s : sched_inv o p s → pwp (fork_task ra i) (λ _, sched_inv o p) s.
Proof.
  intros Hi. unfold fork_task. apply pwp_bind. eapply pwp_mono; [by apply inv_AllocProc|].
  intros [j|] s1 [H1 Hj]; [|done]. destruct (Hj j eq_refl) as (t & Ht & Hu). apply pwp_bind, pwp_get_task.
  intros src _. apply pwp_bind.
  assert (∀ s2 t2, process_tasks_ s2 = alter (λ _, t2) j (process_tasks_ s1) → process_task s2 = process_task s1 →
    keeps t t2 → sched_inv o p s2 ∧ process_tasks_ s2 !! j = Some t2) as Hstep.
  { intros s2 t2 Hts Hcpu (Hk & Hc & _). split; [|by rewrite Hts, list_lookup_alter_eq, Ht].
    apply (same_tasks_inv _ _ (set_tasks (alter (λ _, t2) j (process_tasks_ s1)) s1)); [done|].
    apply (inv_alter o); [done| |done]. intros t1 [= <-]%(eq_trans (eq_sym Ht)). rewrite Hk, Hc.
    split; [by apply (si_running _ _ _ H1)|by apply (si_sleep _ _ _ H1 j)]. }
  eapply (pwp_on_task j _ (λ t _ t', keeps t t')); [intros; apply keeps_CopyFrom|].
  intros t1 ok t2 s2 Ht1 Hk Hts Hcpu. rewrite Ht in Ht1. injection Ht1 as <-.
  destruct (Hstep s2 t2 Hts Hcpu Hk) as [H2 Ht2]. destruct (negb ok); [done|].
  apply pwp_bind, pwp_get_task. intros t3 [= <-]%(eq_trans (eq_sym Ht2)). apply pwp_bind.
  eapply (pwp_on_task j _ (λ t _ t', t' = t)); [intros; apply keeps_lift_vm|].
  intros t4 [] t5 s3 [= <-]%(eq_trans (eq_sym Ht2)) -> Hts3 Hcpu3.
  destruct (Hstep s3 t2) as [H3 Ht3]; [|congruence|done|].
  { rewrite Hts3, Hts, list_alter_alter_eq. done. }
  apply pwp_bind, pwp_upd_task, pwp_bind, pwp_upd_task, pwp_ret.
  refine (inv_alter2 o o p j (set_parent (Some i)) (set_state runnable) s3 H3 _ (λ _ _, iff_refl _)).
  intros t6 [= <-]%(eq_trans (eq_sym Ht3)). cbn. split; [|done].
  rewrite <-(si_running _ _ _ H3 j t2 Ht3). destruct Hk as [-> _]. rewrite Hu. done.
Qed.
Lemma inv_reap i o p s : sched_inv o p s → pwp (reap i) (λ _, sched_inv o p) s.
Proof.
  intros Hi. unfold reap, FindFirslZombieChild. apply pwp_bind, pwp_gets.
  destruct (find_zombie i (process_tasks_ s) 0 false) as [b [j|]] eqn:E; [|done].
  destruct (find_zombie_Some i (process_tasks_ s) 0 false j) as (t & _ & Ht & _ & Hz); [by rewrite E|].
  rewrite Nat.sub_0_r in Ht. apply pwp_guarded; [by apply inv_about|].
  intros s1 Hst. apply (same_tasks_inv _ _ _ _ Hst) in Hi. destruct Hst as [Htt _]. rewrite <-Htt in Ht.
  apply pwp_bind, pwp_get_task. intros t0 _. apply pwp_bind.
  eapply (pwp_on_task j _ (λ _ _ t', state t' = unused ∧ channel t' = None)); [intros; apply ResetProcess_state|].
  intros t1 [] t2 s2 _ [Hu Hc] Hts Hcpu. apply pwp_ret.
  apply (same_tasks_inv _ _ (set_tasks (alter (λ _, t2) j (process_tasks_ s1)) s1)); [done|].
  apply (inv_alter o); [done| |done]. intros t3 [= <-]%(eq_trans (eq_sym Ht)). rewrite Hu, Hc.
  split; [|done]. rewrite <-(si_running _ _ _ Hi j t Ht), Hz. done.
Qed.
(** the running task and the CPU's process, by where the hart is *)
Definition current (c : control) : option nat := match c with Scheduler _ => None | Running i _ => Some i end.
Lemma inv_dispatch_step k s :
  sched_inv None None s → pwp (dispatch_step k) (λ c s', sched_inv (current c) (current c) s') s.
Proof.
  intros Hi. unfold dispatch_step. apply pwp_bind, pwp_gets. destruct (Nat.ltb_spec k (length (process_tasks_ s))) as [Hk|].
  2: { apply pwp_bind. unfold global_interrunpt_on, pwp, modify. simpl. eapply same_tasks_inv; [|exact Hi]. done. }
  apply pwp_bind, pwp_ctor. intros lk s1 Hst. apply (same_tasks_inv _ _ _ _ Hst) in Hi.
  apply pwp_bind, pwp_get_task. intros t Ht. case_bool_decide.
  - unfold set_cpu. apply pwp_bind. unfold pwp at 1, modify. apply pwp_bind, pwp_upd_task, pwp_ret.
    cbn [current]. destruct Hi as [Hc Hr Hs].
    refine (inv_alter None (Some k) (Some k) k (set_state running)
      (Sched (process_tasks_ s1) (Some k) _ _ _ _) _ _ _); [by constructor|done|].
    intros j Hj. split; congruence.
  - apply pwp_bind, pwp_dtor. intros s2 Hst2. apply pwp_ret. by apply (same_tasks_inv _ _ _ _ Hst2).
Qed.
Lemma inv_resume sv c s o p : sched_inv o p s → pwp (resume sv c) (λ _, sched_inv o p) s.
Proof.
  intros Hi. destruct c as [k|i lk]; cbn [resume]; [done|]. destruct (sv !! i).
  - apply pwp_dtor. intros s' Hst. by apply (same_tasks_inv _ _ _ _ Hst).
  - unfold global_interrunpt_off, pwp, modify. eapply same_tasks_inv; [|exact Hi]. done.
Qed.
Definition machine_inv (m : machine) : Prop := sched_inv (current (ctl m)) (current (ctl m)) (sch m).
Lemma machine_inv_step ra m m' : machine_inv m → step ra m m' → machine_inv m'.
Proof.
  unfold machine_inv. intros Hi Hst. destruct Hst; cbn [sch ctl current] in *.
  - pose proof (pwp_Ok _ _ _ _ _ (inv_dispatch_step _ _ Hi) H) as H1. by apply (pwp_Ok _ _ _ _ _ (inv_resume sv _ _ _ _ H1)) in H0.
  - pose proof (pwp_Ok _ _ _ _ _ (inv_Yield _ _ Hi) H) as H1.
    by destruct (pwp_Ok _ _ _ _ _ (inv_dispatch_resume i lk _ _ H1) H0) as [-> H2].
  - pose proof (pwp_Ok _ _ _ _ _ (inv_Sleep _ ch _ Hi) H) as H1.
    by destruct (pwp_Ok _ _ _ _ _ (inv_dispatch_resume i lk _ _ H1) H0) as [-> H2].
  - pose proof (pwp_Ok _ _ _ _ _ (inv_Exit _ code _ Hi) H) as H1.
    by destruct (pwp_Ok _ _ _ _ _ (inv_dispatch_resume i lk _ _ H1) H0) as [-> H2].
  - exact (pwp_Ok _ _ _ _ _ (pwp_Wakeup _ _ (Some ch) _ Hi) H).
  - unfold ClockInterrupt in H. apply bind_inv in H as (u & s1 & [= <- <-] & H).
    refine (pwp_Ok _ _ _ _ _ (pwp_Wakeup _ _ (Some sleep_channel) _ _) H). destruct Hi. by constructor.
  - exact (pwp_Ok _ _ _ _ _ (inv_fork_task ra i _ _ _ Hi) H).
  - exact (pwp_Ok _ _ _ _ _ (inv_reap i _ _ _ Hi) H).
Qed.

(** ** Exact effects: everything but the hart's [mstatus] *)
Definition same_core (s s' : sched) : Prop :=
  process_tasks_ s' = process_tasks_ s ∧ process_task s' = process_task s ∧ ticks s' = ticks s ∧
  init_process_ s' = init_process_ s ∧ sc_cur_pid s' = sc_cur_pid s.
Definition about_core {A} (Q : A → sched → Prop) : Prop := ∀ a s s', same_core s s' → Q a s → Q a s'.
Lemma wp_guarded_core {A} (body : M sched A) Q s :
  about_core Q → (∀ s', same_core s s' → wp body Q s') → wp (guarded body) Q s.
Proof.
  intros HQ Hb. unfold wp. rewrite guarded_unfold. apply wp_bind.
  eapply wp_mono; [by apply Hb|]. intros a s1 Ha. apply wp_bind.
  unfold CriticalGuard_dtor. destruct (read_bit _ _); [|done]. by apply (HQ a s1).
Qed.
Lemma wp_ctor_core (Q : bool → sched → Prop) s :
  (∀ fl s', same_core s s' → Q fl s') → wp CriticalGuard_ctor Q s.
Proof. intros HQ. unfold CriticalGuard_ctor. do 3 wp_step. by apply HQ. Qed.
Lemma wp_dtor_core fl (Q : () → sched → Prop) s :
  (∀ s', same_core s s' → Q () s') → wp (CriticalGuard_dtor fl) Q s.
Proof. intros HQ. unfold CriticalGuard_dtor. by destruct fl; apply HQ. Qed.
Lemma wp_get_task i t (Q : ProcessTask → sched → Prop) s :
  process_tasks_ s !! i = Some t → Q t s → wp (get_task i) Q s.
Proof. intros Ht HQ. unfold get_task. do 2 wp_step. rewrite Ht. exact HQ. Qed.
Lemma wp_upd_task i f (Q : () → sched → Prop) s :
  Q () (set_tasks (alter f i (process_tasks_ s)) s) → wp (upd_task i f) Q s.
Proof. done. Qed.

(** a loop over the tasks whose body changes its own task only, by [f] *)
Definition with_tasks (l : list ProcessTask) (s s' : sched) : Prop := same_core (set_tasks l s) s'.
Lemma wp_each_map (f : ProcessTask → ProcessTask) (body : nat → M sched (option ())) (s : sched) :
  (∀ i t s1, i < length (process_tasks_ s) → process_tasks_ s !! i = Some t →
     process_task s1 = process_task s → init_process_ s1 = init_process_ s →
     process_tasks_ s1 !! i = Some t →
     wp (body i) (λ r s2, r = None ∧ with_tasks (<[i := f t]> (process_tasks_ s1)) s1 s2) s1)%nat →
  wp (each_task body) (λ r s', r = None ∧ with_tasks (f <$> process_tasks_ s) s s') s.
Proof.
  intros Hb. unfold each_task. do 2 wp_step. set (l := process_tasks_ s) in *.
  assert (∀ n i s1, (i + n = length l)%nat → with_tasks ((f <$> take i l) ++ drop i l) s s1 →
    wp (for_tasks n i body) (λ r s', r = None ∧ with_tasks (f <$> l) s s') s1) as H.
  2: { apply H; [done|]. rewrite take_0, drop_0. by destruct s. }
  induction n as [|n IH]; intros i s1 Hn (Ht & Hc & Htk & Hin & Hp); cbn [set_tasks process_tasks_ process_task ticks init_process_ sc_cur_pid] in *;
    cbn [for_tasks].
  { wp_step. split; [done|]. rewrite take_ge, drop_ge, app_nil_r in Ht by lia. by split_and!. }
  destruct (lookup_lt_is_Some_2 l i) as [t Hlt]; [lia|].
  assert (process_tasks_ s1 !! i = Some t) as Hs1.
  { rewrite Ht, lookup_app_r; rewrite length_fmap, length_take; [|lia]. rewrite Nat.min_l, Nat.sub_diag by lia.
    by rewrite lookup_drop, Nat.add_0_r. }
  wp_step. eapply wp_mono; [apply (Hb i t s1); done || lia|].
  intros r s2 (-> & Ht2 & Hc2 & Htk2 & Hin2 & Hp2). cbn [set_tasks process_tasks_ process_task ticks init_process_ sc_cur_pid] in *.
  apply IH; [lia|]. split_and!; cbn; try congruence. rewrite Ht2, Ht.
  rewrite insert_app_r_alt; rewrite length_fmap, length_take; [|lia]. rewrite Nat.min_l, Nat.sub_diag by lia.
  rewrite (drop_S l t i) by done. cbn. rewrite (take_S_r _ _ t), fmap_app by done. by rewrite <-app_assoc.
Qed.

Definition wake_one (ch : Channel) (t : ProcessTask) : ProcessTask :=
  if bool_decide (state t = sleep ∧ channel t = Some ch) then set_channel None (set_state runnable t) else t.
Lemma insert_same i t (l : list ProcessTask) : l !! i = Some t → <[i := t]> l = l.
Proof. apply list_insert_id. Qed.
Lemma alter_insert (f : ProcessTask → ProcessTask) i t (l : list ProcessTask) : l !! i = Some t → alter f i l = <[i := f t]> l.
Proof.
  intros Hl. apply list_eq. intros j. destruct (decide (i = j)) as [->|].
  - rewrite list_lookup_alter_eq, Hl, list_lookup_insert_eq; [done|]. by eapply lookup_lt_Some.
  - by rewrite list_lookup_alter_ne, list_lookup_insert_ne.
Qed.
Lemma wp_Wakeup ch s :
  (∀ i t, process_tasks_ s !! i = Some t → state t = sleep → is_Some (channel t)) →
  wp (Wakeup (Some ch)) (λ _ s', with_tasks (wake_one ch <$> process_tasks_ s) s s') s.
Proof.
  intros Hch. unfold Wakeup. wp_step. eapply wp_mono.
  { apply (wp_each_map (wake_one ch)). intros i t s1 Hi Ht Hc Hin Ht1. unfold wake_task.
    apply wp_guarded_core.
    { intros r s2 s3 (H1 & H2 & H3 & H4 & H5) (-> & G1 & G2 & G3 & G4 & G5). split; [done|]. split_and!; cbn in *; congruence. }
    intros s2 Hs2. pose proof Hs2 as (Hts & Hcc & _). rewrite <-Hts in Ht1.
    assert (∀ t', t' = wake_one ch t → with_tasks (<[i := wake_one ch t]> (process_tasks_ s1)) s1 (set_tasks (<[i := t']> (process_tasks_ s2)) s2)) as Hfin.
    { intros t' ->. destruct Hs2 as (H1 & H2 & H3 & H4 & H5). split_and!; cbn in *; congruence. }
    assert (wake_one ch t = t → set_tasks (<[i := t]> (process_tasks_ s2)) s2 = s2) as Hsame.
    { intros _. rewrite insert_same by done. by destruct s2. }
    wp_step. eapply wp_get_task; [exact Ht1|]. destruct (decide (state t = sleep)) as [Hs|Hs].
    2: { rewrite bool_decide_eq_false_2 by done. wp_step. split; [done|].
         assert (t = wake_one ch t) as Hw by (unfold wake_one; rewrite bool_decide_eq_false_2; naive_solver).
         rewrite <-Hsame by done. by apply Hfin. }
    rewrite bool_decide_eq_true_2 by done. destruct (Hch i t Ht Hs) as [c Hcs]. rewrite Hcs. cbn [of_option].
    do 4 wp_step. destruct (decide (c = ch)) as [->|Hne].
    - rewrite bool_decide_eq_true_2 by done. wp_step. apply wp_upd_task. wp_step. apply wp_upd_task.
      wp_step. split; [done|]. cbn [process_tasks_ set_tasks]. rewrite list_alter_alter_eq, (alter_insert _ i t) by done.
      apply Hfin. unfold wake_one. by rewrite bool_decide_eq_true_2.
    - rewrite bool_decide_eq_false_2 by done. wp_step. split; [done|].
      assert (t = wake_one ch t) as Hw by (unfold wake_one; rewrite bool_decide_eq_false_2; [done|naive_solver]).
      rewrite <-Hsame by done. by apply Hfin. }
  intros r s' [_ H]. wp_step. exact H.
Qed.

Lemma same_core_trans s s' s'' : same_core s s' → same_core s' s'' → same_core s s''.
Proof. intros (H1 & H2 & H3 & H4 & H5) (G1 & G2 & G3 & G4 & G5). split_and!; congruence. Qed.
Definition channels_ok (s : sched) : Prop :=
  ∀ i t, process_tasks_ s !! i = Some t → state t = sleep → is_Some (channel t).
(** the sleepers on channel [ch] are awake when [b], and nothing else has changed *)
Definition woken (ch : Channel) (b : bool) (s s' : sched) : Prop :=
  with_tasks (if b then wake_one ch <$> process_tasks_ s else process_tasks_ s) s s'.
Lemma woken_refl ch s : woken ch false s s.
Proof. by destruct s. Qed.
Lemma wake_one_idem ch t : wake_one ch (wake_one ch t) = wake_one ch t.
Proof.
  unfold wake_one at 2 3. case_bool_decide; [|unfold wake_one; by rewrite bool_decide_eq_false_2].
  unfold wake_one. rewrite bool_decide_eq_false_2; [done|]. cbn. intros [? _]. done.
Qed.
Lemma woken_trans ch b1 b2 s s1 s2 : woken ch b1 s s1 → woken ch b2 s1 s2 → woken ch (b1 || b2) s s2.
Proof.
  unfold woken, with_tasks, same_core. cbn. intros (H1 & H2 & H3 & H4 & H5) (G1 & G2 & G3 & G4 & G5).
  split_and!; try congruence. rewrite G1, H1. destruct b1, b2; cbn; try done.
  rewrite <-list_fmap_compose. apply list_fmap_ext. intros _ t _. apply wake_one_idem.
Qed.
Lemma woken_channels ch b s s' : woken ch b s s' → channels_ok s → channels_ok s'.
Proof.
  intros (H1 & _) Hc i t Ht Hs. cbn in H1. rewrite H1 in Ht. destruct b; [|by eapply Hc].
  rewrite list_lookup_fmap in Ht. destruct (process_tasks_ s !! i) as [t0|] eqn:E; [|done]. injection Ht as <-.
  unfold wake_one in *. case_bool_decide; [done|]. by eapply Hc.
Qed.
Lemma woken_core ch b s s1 s' s2 : same_core s1 s → woken ch b s s' → same_core s' s2 → woken ch b s1 s2.
Proof.
  unfold woken, with_tasks, same_core. cbn. intros (E1 & E2 & E3 & E4 & E5) (H1 & H2 & H3 & H4 & H5) (G1 & G2 & G3 & G4 & G5).
  rewrite <-E1. split_and!; congruence.
Qed.
Definition reparent_one (process : nat) (init : option nat) (t : ProcessTask) : ProcessTask :=
  if bool_decide (parent_process t = Some process) then set_parent init t else t.
Lemma wp_reparent process q s :
  init_process_ s = Some q →
  wp (each_task (reparent process)) (λ r s', r = None ∧
    with_tasks (reparent_one process (Some q) <$> process_tasks_ s) s s') s.
Proof.
  intros Hq. apply wp_each_map. intros i t s1 Hi Ht Hc Hin Ht1. unfold reparent, reparent_one.
  wp_step. eapply wp_get_task; [exact Ht1|]. case_bool_decide.
  - unfold GetInitProcess. do 2 wp_step. rewrite Hin, Hq. wp_step. apply wp_upd_task. wp_step. split; [done|].
    rewrite (alter_insert _ i t) by done. done.
  - wp_step. split; [done|]. rewrite insert_same by done. by destruct s1.
Qed.
Lemma find_zombie_complete parent l i b j t :
  l !! j = Some t → parent_process t = Some parent → state t = zombie →
  ∃ j', find_zombie parent l i b = (true, Some (i + j')%nat) ∧ (j' ≤ j)%nat.
Proof.
  revert i b j. induction l as [|t0 l IH]; intros i b j Hj Hp Hz; [done|]. cbn [find_zombie].
  destruct j as [|j].
  - injection Hj as ->. rewrite !bool_decide_eq_true_2 by done. exists 0%nat. rewrite Nat.add_0_r. split; [done|lia].
  - assert (∀ b', ∃ j', find_zombie parent l (S i) b' = (true, Some (i + j')%nat) ∧ (j' ≤ S j)%nat) as Hrec.
    { intros b'. destruct (IH (S i) b' j Hj Hp Hz) as (j' & -> & Hle). exists (S j').
      split; [do 2 f_equal; lia|lia]. }
    case_bool_decide; [|apply Hrec]. case_bool_decide; [|apply Hrec].
    exists 0%nat. rewrite Nat.add_0_r. split; [done|lia].
Qed.

(** * The round of the dispatch loop *)
Fixpoint dispatch_iter (n : nat) (c : control) : M sched control :=
  match n, c with
  | S n, Scheduler k => c' ← dispatch_step k; dispatch_iter n c'
  | _, _ => mret c
  end.
(** iterations of the loop before task [j] when it is about to look at task [k] *)
Definition dist (n k j : nat) : nat := if (k <=? j)%nat then (j - k)%nat else (n - k + 1 + j)%nat.
Definition runnable_at (s : sched) (j : nat) : Prop := ∃ t, process_tasks_ s !! j = Some t ∧ state t = runnable.
Lemma wp_skip m k s (Q : control → sched → Prop) n :
  (k + m ≤ length (process_tasks_ s))%nat → (∀ j, k ≤ j < k + m → ¬ runnable_at s j)%nat →
  (∀ s', same_core s s' → wp (dispatch_iter n (Scheduler (k + m))) Q s') →
  wp (dispatch_iter (m + n) (Scheduler k)) Q s.
Proof.
  revert k s. induction m as [|m IH]; intros k s Hk Hno HQ.
  { specialize (HQ s ltac:(done)). by rewrite Nat.add_0_r in HQ. }
  cbn [Nat.add dispatch_iter]. unfold dispatch_step. do 3 wp_step. replace (k <? _)%nat with true by lia.
  wp_step. apply wp_ctor_core. intros lk s1 Hs1. pose proof Hs1 as (Ht1 & _).
  destruct (lookup_lt_is_Some_2 (process_tasks_ s) k) as [t Ht]; [lia|].
  wp_step. eapply wp_get_task; [by rewrite Ht1|]. rewrite bool_decide_eq_false_2.
  2: { intros Hr. apply (Hno k); [lia|]. by exists t. }
  wp_step. apply wp_dtor_core. intros s2 Hs2. wp_step.
  assert (same_core s s2) as Hs by (unfold same_core in *; intuition congruence). pose proof Hs as (Ht2 & _).
  apply IH.
  - rewrite Ht2. lia.
  - intros j Hj (t' & Hl & Hr). apply (Hno j); [lia|]. exists t'. by rewrite <-Ht2.
  - intros s3 Hs3. replace (S k + m)%nat with (k + S m)%nat by lia. apply HQ.
    unfold same_core in *; intuition congruence.
Qed.
Lemma wp_pick k t s :
  process_tasks_ s !! k = Some t → state t = runnable →
  wp (dispatch_iter 1 (Scheduler k)) (λ c s', (∃ lk, c = Running k lk) ∧ process_task s' = Some k ∧
    process_tasks_ s' = <[k := set_state running t]> (process_tasks_ s)) s.
Proof.
  intros Ht Hr. cbn [dispatch_iter]. unfold dispatch_step. do 3 wp_step.
  pose proof (lookup_lt_Some _ _ _ Ht). replace (k <? _)%nat with true by lia.
  wp_step. apply wp_ctor_core. intros lk s1 (Ht1 & _). wp_step. eapply wp_get_task; [by rewrite Ht1|].
  rewrite bool_decide_eq_true_2 by done. wp_step. unfold set_cpu. wp_step. wp_step. apply wp_upd_task. do 2 wp_step.
  cbn. split; [by exists lk|]. split; [done|]. rewrite (alter_insert _ k t) by (by rewrite Ht1). by rewrite Ht1.
Qed.
(** the first index in [k, k + m) with a decidable property *)
Lemma first_index (P : nat → Prop) `{∀ j, Decision (P j)} k m :
  (∃ j, k ≤ j < k + m ∧ P j)%nat → ∃ j, (k ≤ j < k + m ∧ P j ∧ ∀ i, k ≤ i < j → ¬ P i)%nat.
Proof.
  revert k. induction m as [|m IH]; intros k (j & Hj & HP); [lia|].
  destruct (decide (P k)) as [Hk|Hk]; [exists k; split; [lia|]; split; [done|lia]|].
  destruct (IH (S k)) as (i & Hi & HPi & Hno).
  { exists j. split; [|done]. destruct (decide (j = k)) as [->|]; [done|lia]. }
  exists i. split; [lia|]. split; [done|]. intros i' Hi'. destruct (decide (i' = k)) as [->|]; [done|apply Hno; lia].
Qed.
#[export] Instance runnable_at_dec s j : Decision (runnable_at s j).
Proof.
  destruct (process_tasks_ s !! j) as [t|] eqn:E.
  - destruct (decide (state t = runnable)); [left; by exists t|right; intros (t' & Ht & Hr); naive_solver].
  - right. intros (t' & Ht & Hr). naive_solver.
Defined.
Lemma runnable_at_lt s j : runnable_at s j → (j < length (process_tasks_ s))%nat.
Proof. intros (t & Ht & _). by eapply lookup_lt_Some. Qed.
Lemma runnable_at_core s s' j : same_core s s' → runnable_at s j ↔ runnable_at s' j.
Proof. intros (Ht & _). unfold runnable_at. by rewrite Ht. Qed.

Lemma wp_dispatch_from m k j s :
  j = (k + m)%nat → runnable_at s j → (∀ i, k ≤ i < j → ¬ runnable_at s i)%nat →
  wp (dispatch_iter (S m) (Scheduler k)) (λ c s', (∃ lk, c = Running j lk) ∧ process_task s' = Some j ∧
    process_tasks_ s' = alter (set_state running) j (process_tasks_ s)) s.
Proof.
  intros -> Hr Hno. pose proof (runnable_at_lt _ _ Hr). replace (S m) with (m + 1)%nat by lia.
  apply wp_skip; [lia|done|]. intros s' Hs. destruct Hr as (t & Ht & Hr). pose proof Hs as (Hts & _).
  eapply wp_mono; [apply (wp_pick (k + m) t s'); [by rewrite Hts|done]|].
  intros c s2 (Hc & Hp & Ht2). split; [done|]. split; [done|]. by rewrite Ht2, Hts, (alter_insert _ _ t).
Qed.
Lemma wp_wrap s (Q : control → sched → Prop) n :
  (∀ s', same_core s s' → wp (dispatch_iter n (Scheduler 0)) Q s') →
  wp (dispatch_iter (S n) (Scheduler (length (process_tasks_ s)))) Q s.
Proof.
  intros HQ. cbn [dispatch_iter]. unfold dispatch_step. do 3 wp_step. rewrite Nat.ltb_irrefl.
  wp_step. unfold global_interrunpt_on. do 2 wp_step. by apply HQ.
Qed.

(** C23: in every state the hart can reach from a table without running or
    sleeping tasks, by dispatching, yielding, sleeping, exiting, forking, reaping
    children and waking channels in any order: at most the process the hart
    executes is in state [running], and it is the CPU's [process_task]; [Wakeup]
    on any channel succeeds (the channel of every sleeping task can be read);
    and the running process can yield or sleep without a panic. *)
Theorem one_running_process ra s sv m :
  process_task s = None →
  (∀ i t, process_tasks_ s !! i = Some t → state t ≠ running ∧ state t ≠ sleep) →
  rtc (step ra) (Machine s (Scheduler 0) sv) m →
  (∀ i t, process_tasks_ (sch m) !! i = Some t → state t = running ↔ current (ctl m) = Some i) ∧
  process_task (sch m) = current (ctl m) ∧
  (∀ ch, ∃ s', Wakeup (Some ch) (sch m) = Ok ((), s')) ∧
  (∀ i ch, current (ctl m) = Some i → (i < length (process_tasks_ (sch m)))%nat →
     (∃ r, Yield (sch m) = Ok r) ∧ (∃ r, Sleep ch (sch m) = Ok r)).
Proof.
  intros Hp Hs Hr. assert (machine_inv m) as [Hc Hrun Hsl].
  { revert m Hr. apply (rtc_ind_r (λ m, machine_inv m)); [|intros m m' _ Hst Hi; by eapply machine_inv_step].
    constructor; [done|..]; cbn; intros i t Ht; destruct (Hs i t Ht); [split; congruence|congruence]. }
  split_and!; [done|done| |].
  - intros ch. pose proof (wp_Wakeup ch (sch m) Hsl) as (a & s' & Ha & _)%wp_ok. destruct a. eauto.
  - intros i ch Hi Hlt. rewrite Hi in *. destruct (lookup_lt_is_Some_2 _ _ Hlt) as [t Ht].
    assert (wp Yield (λ _ _, True) (sch m) ∧ wp (Sleep ch) (λ _ _, True) (sch m)) as [Hy Hsp].
    { split; [unfold Yield|unfold Sleep]; unfold ThisProcess; do 2 wp_step; rewrite Hc.
      - wp_step. apply wp_ctor_core. intros fl s1 _. wp_step. apply wp_upd_task. by wp_step.
      - wp_step. eapply wp_get_task; [exact Ht|]. rewrite bool_decide_eq_true_2 by (by apply (Hrun i t Ht)).
        wp_step. apply wp_ctor_core. intros fl s1 _. wp_step. apply wp_upd_task. wp_step. apply wp_upd_task. by wp_step. }
    apply wp_ok in Hy as (a & s1 & Hy & _). apply wp_ok in Hsp as (a' & s2 & Hsp & _). eauto.
Qed.
(** a table with two runnable processes and a free slot; none of its operations
    reaches the page allocator *)
Definition demo_idle_vm : vmstate := VmState ∅ (MkMemoryList 0 0 0) [] true 0x1888 0x80010000.
Definition demo_task (st : ProcessState) (c : option Channel) (p : option nat) : ProcessTask :=
  set_parent p (set_channel c (set_state st task0)).
Definition demo_sched : sched :=
  Sched [demo_task runnable None None; demo_task runnable None (Some 0%nat); demo_task unused None None]
    None 0 (Some 0%nat) demo_idle_vm 2.
Lemma one_running_process_witness :
  ∃ m, rtc (step 0) (Machine demo_sched (Scheduler 0) ∅) m ∧ current (ctl m) = Some 1%nat ∧
    (∀ i t, process_tasks_ (sch m) !! i = Some t → state t = running ↔ current (ctl m) = Some i).
Proof.
  assert (∃ m, rtc (step 0) (Machine demo_sched (Scheduler 0) ∅) m ∧ current (ctl m) = Some 1%nat) as (m & Hm & Hc).
  { eexists. split.
    - eapply rtc_l; [eapply step_dispatch; [vm_compute; reflexivity|]|].
      { cbn [resume]. rewrite lookup_empty. unfold global_interrunpt_off, modify. vm_compute. reflexivity. }
      eapply rtc_l; [eapply (step_sleep _ _ _ _ _ console_channel); (vm_compute; reflexivity)|].
      eapply rtc_l; [eapply step_dispatch; [vm_compute; reflexivity|]|apply rtc_refl].
      cbn [resume]. rewrite lookup_insert_ne, lookup_empty by discriminate.
      unfold global_interrunpt_off, modify. vm_compute. reflexivity.
    - reflexivity. }
  exists m. split; [exact Hm|]. split; [exact Hc|].
  apply (one_running_process 0 demo_sched ∅ m); [reflexivity| |exact Hm].
  intros i t Ht. do 3 (destruct i as [|i]; [injection Ht as <-; done|]). done.
Defined.

(** [Wakeup] makes runnable exactly the tasks that sleep on an equal channel
    and clears their channel; no other task, and nothing else of the scheduler,
    changes. *)
Theorem Wakeup_correct ch s :
  (∀ i t, process_tasks_ s !! i = Some t → state t = sleep → is_Some (channel t)) →
  wp (Wakeup (Some ch)) (λ _ s',
    (∀ i t, process_tasks_ s !! i = Some t →
       process_tasks_ s' !! i = Some (if bool_decide (state t = sleep ∧ channel t = Some ch)
                                      then set_channel None (set_state runnable t) else t)) ∧
    length (process_tasks_ s') = length (process_tasks_ s) ∧ process_task s' = process_task s ∧
    ticks s' = ticks s ∧ init_process_ s' = init_process_ s) s.
Proof.
  intros Hs. eapply wp_mono; [by apply wp_Wakeup|]. intros [] s' (Ht & Hc & Htk & Hi & _). cbn in *.
  rewrite Ht, length_fmap. split_and!; try done. intros i t Hl. rewrite list_lookup_fmap, Hl. done.
Qed.
Lemma Wakeup_correct_witness :
  wp (Wakeup (Some sleep_channel)) (λ _ s',
    state <$> process_tasks_ s' = [runnable; sleep])
    (Sched [demo_task sleep (Some sleep_channel) None; demo_task sleep (Some console_channel) None] None 0 None demo_idle_vm 0).
Proof.
  eapply wp_mono; [apply (Wakeup_correct sleep_channel)|].
  - intros i t Ht _. do 2 (destruct i as [|i]; [injection Ht as <-; by eexists|]). done.
  - intros a s' (H & Hl & _). pose proof (H 0%nat _ eq_refl) as H0. pose proof (H 1%nat _ eq_refl) as H1.
    destruct (process_tasks_ s') as [|t0 [|t1 [|t2 l]]]; try discriminate Hl.
    injection H0 as ->. injection H1 as ->. reflexivity.
Defined.

(** C35: [Exit] by process [i] with a parent [p] makes [i] a zombie with the exit
    code, gives its children to the init process and wakes the parent if it
    waits on its own channel; the zombie search of [wait] in [p] then finds a
    zombie child of [p]. *)
Theorem Exit_then_wait code i p q t s :
  process_task s = Some i → process_tasks_ s !! i = Some t → parent_process t = Some p → p ≠ i →
  init_process_ s = Some q →
  (∀ j u, process_tasks_ s !! j = Some u → state u = sleep → is_Some (channel u)) →
  wp (Exit code) (λ _ s',
    process_tasks_ s' !! i = Some (set_state zombie (set_exit_code code t)) ∧
    (∀ j u, j ≠ i → process_tasks_ s !! j = Some u →
       process_tasks_ s' !! j = Some (wake_one (owned_channel p) (reparent_one i (Some q) u))) ∧
    (∃ j u, FindFirslZombieChild p s' = Ok ((true, Some j), s') ∧
       process_tasks_ s' !! j = Some u ∧ parent_process u = Some p ∧ state u = zombie)) s.
Proof.
  intros Hc Ht Hp Hne Hq Hsl. unfold Exit, ThisProcess. do 2 wp_step. rewrite Hc. cbn [of_option]. do 2 wp_step.
  wp_step. apply wp_ctor_core. intros fl s0 (Ht0 & Hc0 & _ & Hi0 & _).
  wp_step. apply wp_upd_task. wp_step. apply wp_upd_task. cbn [process_tasks_ set_tasks].
  rewrite list_alter_alter_eq, (alter_insert _ i t) by (by rewrite Ht0). rewrite Ht0.
  set (z := (set_state zombie ∘ set_exit_code code) t). set (l1 := <[i := z]> (process_tasks_ s)).
  pose proof (lookup_lt_Some _ _ _ Ht) as Hilt.
  wp_step. eapply wp_mono; [apply (wp_reparent i q); cbn; congruence|]. cbv beta.
  intros r s2 (-> & Ht2 & Hc2 & _). cbn [process_tasks_ set_tasks] in Ht2. set (l2 := reparent_one i (Some q) <$> l1) in *.
  assert (reparent_one i (Some q) z = z) as Hz by (unfold reparent_one; rewrite bool_decide_eq_false_2; [done|cbn; congruence]).
  assert (l2 !! i = Some z) as Hl2i.
  { unfold l2, l1. rewrite list_lookup_fmap, list_lookup_insert_eq by done. cbn [fmap option_fmap option_map]. by rewrite Hz. }
  assert (∀ j u, j ≠ i → process_tasks_ s !! j = Some u → l2 !! j = Some (reparent_one i (Some q) u)) as Hl2.
  { intros j u Hj Hu. unfold l2, l1. by rewrite list_lookup_fmap, list_lookup_insert_ne, Hu. }
  wp_step. eapply wp_get_task; [by rewrite Ht2|]. wp_step. cbn [z parent_process set_state set_exit_code compose].
  rewrite Hp. cbn [fmap option_fmap option_map].
  eapply wp_mono; [apply wp_Wakeup|].
  { intros j u Hu Hs. rewrite Ht2 in Hu. destruct (decide (j = i)) as [->|Hj].
    - rewrite Hl2i in Hu. injection Hu as <-. done.
    - unfold l2, l1 in Hu. rewrite list_lookup_fmap, list_lookup_insert_ne in Hu by done.
      apply fmap_Some in Hu as (u' & Hu' & ->). revert Hs. unfold reparent_one.
      case_bool_decide; exact (Hsl j u' Hu'). }
  intros [] s3 (Ht3 & _). cbn [process_tasks_ set_tasks] in Ht3. rewrite Ht2 in Ht3. wp_step.
  assert (wake_one (owned_channel p) z = z) as Hwz by (unfold wake_one; rewrite bool_decide_eq_false_2; [done|intros [Hzs _]; discriminate Hzs]).
  assert (process_tasks_ s3 !! i = Some z) as H3i by (rewrite Ht3, list_lookup_fmap, Hl2i; cbn [fmap option_fmap option_map]; by rewrite Hwz).
  split; [exact H3i|]. split; [intros j u Hj Hu; by rewrite Ht3, list_lookup_fmap, (Hl2 j u)|].
  destruct (find_zombie_complete p (process_tasks_ s3) 0 false i z H3i Hp eq_refl) as (j & Hf & _).
  destruct (find_zombie_Some p (process_tasks_ s3) 0 false j) as (u & _ & Hu & Hup & Huz); [by rewrite Hf|].
  exists j, u. rewrite Nat.sub_0_r in Hu. split; [|done]. unfold FindFirslZombieChild, gets. by rewrite Hf.
Qed.
Lemma Exit_then_wait_witness :
  wp (Exit 7) (λ _ s', process_tasks_ s' !! 1%nat = Some (set_state zombie (set_exit_code 7 (demo_task running None (Some 0%nat)))) ∧
    state <$> process_tasks_ s' !! 0%nat = Some runnable)
  (Sched [demo_task sleep (Some (owned_channel 0)) None; demo_task running None (Some 0%nat)] (Some 1%nat) 0 (Some 0%nat) demo_idle_vm 2).
Proof.
  eapply wp_mono; [apply (Exit_then_wait 7 1 0 0 (demo_task running None (Some 0%nat)))|].
  - reflexivity.
  - reflexivity.
  - reflexivity.
  - discriminate.
  - reflexivity.
  - intros j u Hj Hs. destruct j as [|[|j]]; [injection Hj as <-; by eexists|injection Hj as <-; discriminate Hs|done].
  - intros a s' (H1 & H0 & _). split; [exact H1|]. rewrite (H0 0%nat _ (Nat.neq_0_succ 0) eq_refl). reflexivity.
Defined.

(** C32: the dispatch loop is a round robin that always finds work: from the point
    where it is about to look at task [k] (the end of the table included), if some
    task is runnable it runs, after at most one round, the runnable task that comes
    first in the cyclic order from [k], marks it running and makes it the CPU's
    process; so no runnable task is passed over twice. *)
Theorem dispatch_round_robin s k :
  (k ≤ length (process_tasks_ s))%nat → (∃ j, runnable_at s j) →
  ∃ j, runnable_at s j ∧
    (∀ j', runnable_at s j' → dist (length (process_tasks_ s)) k j ≤ dist (length (process_tasks_ s)) k j')%nat ∧
    (dist (length (process_tasks_ s)) k j ≤ length (process_tasks_ s))%nat ∧
    wp (dispatch_iter (S (dist (length (process_tasks_ s)) k j)) (Scheduler k))
      (λ c s', (∃ lk, c = Running j lk) ∧ process_task s' = Some j ∧
        process_tasks_ s' = alter (set_state running) j (process_tasks_ s)) s.
Proof.
  set (n := length (process_tasks_ s)). intros Hk (j0 & Hj0). pose proof (runnable_at_lt _ _ Hj0) as Hlt0. fold n in Hlt0.
  destruct (decide (Exists (runnable_at s) (seq k (n - k)))) as [Hex|Hno]; rewrite list.Exists_exists in *.
  - destruct (first_index (runnable_at s) k (n - k)) as (j & Hj & Hr & Hmin).
    { destruct Hex as (j & Hj%elem_of_seq & Hr). by exists j. }
    exists j. unfold dist. replace (k <=? j)%nat with true by lia. split; [done|]. split_and!; [|lia|].
    + intros j' Hr'. pose proof (runnable_at_lt _ _ Hr'). destruct (Nat.leb_spec k j'); [|fold n in H; lia].
      destruct (decide (j' < j)%nat); [|lia]. exfalso. apply (Hmin j'); [lia|done].
    + apply wp_dispatch_from; [lia|done|exact Hmin].
  - assert (∀ j, runnable_at s j → j < k)%nat as Hlow.
    { intros j Hr. pose proof (runnable_at_lt _ _ Hr) as H. fold n in H. destruct (decide (j < k)%nat); [done|].
      exfalso. apply Hno. exists j. split; [|done]. apply elem_of_seq. lia. }
    destruct (first_index (runnable_at s) 0 n) as (j & Hj & Hr & Hmin); [exists j0; split; [lia|done]|].
    pose proof (Hlow j Hr). exists j. unfold dist. replace (k <=? j)%nat with false by lia. split; [done|]. split_and!; [|lia|].
    + intros j' Hr'. pose proof (Hlow j' Hr'). replace (k <=? j')%nat with false by lia.
      destruct (decide (j' < j)%nat); [|lia]. exfalso. apply (Hmin j'); [lia|done].
    + replace (S (n - k + 1 + j)) with ((n - k) + S (S j))%nat by lia. apply wp_skip.
      * fold n. lia.
      * intros i Hi Hr'. pose proof (Hlow i Hr'). lia.
      * intros s1 Hs1. replace (k + (n - k))%nat with n by lia.
        assert (n = length (process_tasks_ s1)) as -> by (destruct Hs1 as [-> _]; done).
        apply wp_wrap. intros s2 Hs2.
        assert (same_core s s2) as Hs by (unfold same_core in *; intuition congruence).
        eapply wp_mono; [apply (wp_dispatch_from j 0 j s2)|].
        -- done.
        -- by apply (runnable_at_core s).
        -- intros i Hi Hr'. apply (Hmin i); [lia|]. by apply (runnable_at_core s s2).
        -- intros c s3 (Hc & Hp & Ht). split; [done|]. split; [done|]. destruct Hs as [<- _]. done.
Qed.
Lemma dispatch_round_robin_witness :
  ∃ j, runnable_at demo_sched j ∧ (dist 3 2 j ≤ dist 3 2 1)%nat ∧
    wp (dispatch_iter (S (dist 3 2 j)) (Scheduler 2)) (λ c s', ∃ lk, c = Running j lk) demo_sched.
Proof.
  destruct (dispatch_round_robin demo_sched 2) as (j & Hr & Hmin & _ & Hwp).
  - apply Nat.leb_le. reflexivity.
  - exists 0%nat. eexists. split; reflexivity.
  - exists j. split; [exact Hr|]. split; [apply Hmin; eexists; split; reflexivity|].
    eapply wp_mono; [exact Hwp|]. intros c s' [H _]. exact H.
Defined.
