(* ===== verification/Console.v ===== *)
(** The console: [kernel/console.h], [kernel/console.cc] and the serial line
    below it, [driver/uart.cc].  Characters typed on the line are kept in a ring
    of 256 bytes with one-byte indices, echoed, and handed to readers a line at a
    time; readers sleep on the scheduler's console channel. *)
From S2P Require Import Prelude Riscv Lock Mem Printk Process Scheduler.

(** * State: [Console::Context], the characters given to [Uart::put_char], and
    the scheduler the console calls *)
Definition buf_len : Z := 256.
Record con := Con {
  c_buf : list Z;
  read_index : Z;
  write_index : Z;
  lock_flag : bool;
  is_writable_ : bool;
  uart : list Z;
  con_sched : sched;
}.
#[export, refine] Instance con_HasMstatus : HasMstatus con :=
  {| get_mstatus := λ c, get_mstatus (con_sched c);
     put_mstatus := λ v c, Con (c_buf c) (read_index c) (write_index c) (lock_flag c) (is_writable_ c) (uart c)
                             (put_mstatus v (con_sched c)) |}.
Proof. all: by intros; repeat match goal with c : con |- _ => destruct c as [? ? ? ? ? ? [? ? ? ? [] ?]] end. Defined.

Definition set_buf (b : list Z) : M con () :=
  modify (λ c, Con b (read_index c) (write_index c) (lock_flag c) (is_writable_ c) (uart c) (con_sched c)).
Definition set_read (r : Z) : M con () :=
  modify (λ c, Con (c_buf c) r (write_index c) (lock_flag c) (is_writable_ c) (uart c) (con_sched c)).
Definition set_write (w : Z) : M con () :=
  modify (λ c, Con (c_buf c) (read_index c) w (lock_flag c) (is_writable_ c) (uart c) (con_sched c)).
Definition set_lock (b : bool) : M con () :=
  modify (λ c, Con (c_buf c) (read_index c) (write_index c) b (is_writable_ c) (uart c) (con_sched c)).
(** a member function of [Schedueler] *)
Definition on_sched {A} (m : M sched A) : M con A := λ c,
  match m (con_sched c) with
  | Ok (a, s) => Ok (a, Con (c_buf c) (read_index c) (write_index c) (lock_flag c) (is_writable_ c) (uart c) s)
  | Stop e => Stop e
  end.
(** a computation on the characters sent to the serial line *)
Definition on_uart {A} (m : M (list Z) A) : M con A := λ c,
  match m (uart c) with
  | Ok (a, u) => Ok (a, Con (c_buf c) (read_index c) (write_index c) (lock_flag c) (is_writable_ c) u (con_sched c))
  | Stop e => Stop e
  end.

(** * driver/uart.cc *)
Definition put_char (c : Z) : M (list Z) () := modify (λ u, u ++ [c]).
Fixpoint Uart_Write (buf : list Z) : M (list Z) () :=
  match buf with [] => mret () | c :: buf => put_char c;; Uart_Write buf end.
(** the registers written by [Init]: interrupts off, FIFOs reset, receive
    interrupts on *)
Definition Uart_Init (addr : Z) : list (Z * Z) := [(addr + 1, 0); (addr + 2, Z.lor 1 (Z.shiftl 3 1)); (addr + 1, 1)].

(** [context.lock] taken *)
Definition locked (c : con) : con :=
  Con (c_buf c) (read_index c) (write_index c) true (is_writable_ c) (uart c) (con_sched c).

Section console.
(** what the vararg union of [simple_vsprintf] holds at first *)
Context (junk : Z).
Definition kprintf (fmt : list Z) (args : list va) : M con () := on_uart (kernel_printf junk fmt args).

(** * kernel/utils.cc: [panic], up to its endless loop; [None] is the null format *)
Definition panic (fmt : option (list Z)) (args : list va) : M con () :=
  global_interrunpt_off;;
  kprintf (lit "!! kernel panic !!, reason: " ++ [0]) [];;
  match fmt with
  | None => kprintf (lit "No extra info" ++ [10; 0]) []
  | Some fmt =>
    match simple_vsprintf fmt (mk_pf (Buffer (replicate 128 0) 0) args junk) with
    | Ok (_, p) =>
      match out p with
      | Buffer out_str _ => kprintf out_str [];; kprintf [10; 0] []
      | Callback _ => stop_with (Faulted "sink")
      end
    | Stop e => stop_with e
    end
  end.

(** * kernel/console.cc *)
(** what [read] does next: return [p], or sleep with at most [n] characters
    still to read, [fl] being what [Sleep]'s guard keeps *)
Inductive read_state := Returned (p : list Z) | Asleep (n : nat) (p : list Z) (fl : bool).
Fixpoint read_loop (n : nat) (p : list Z) : M con read_state :=
  match n with
  | O => mret (Returned p)
  | S n' =>
    r ← gets read_index; w ← gets write_index;
    if r =? w then
      fl ← on_sched (Sleep console_channel);
      set_lock false;;
      mret (Asleep n p fl)
    else
      b ← gets c_buf;
      c ← of_option (Faulted "context.buf") (b !! Z.to_nat (r mod buf_len));
      set_read (u8 (r + 1));;
      let c := if c =? 13 then 10 else c in
      if c =? 10 then mret (Returned (p ++ [c])) else read_loop n' (p ++ [c])
  end.
(** the destructor of [read]'s guard runs when it returns *)
Definition read_leave (guard : bool) (r : read_state) : M con (bool * read_state) :=
  match r with
  | Returned _ => CriticalGuard_dtor guard;; mret (guard, r)
  | Asleep _ _ _ => mret (guard, r)
  end.
Definition read (len : Z) : M con (bool * read_state) :=
  guard ← CriticalGuard_ctor; r ← read_loop (Z.to_nat len) []; read_leave guard r.
(** a reader that slept, when the scheduler switches back to it *)
Definition read_resume (fuel : nat) (guard : bool) (n : nat) (p : list Z) (fl : bool) : M con (bool * read_state) :=
  spin_lock lock_flag locked fuel;; CriticalGuard_dtor fl;; r ← read_loop n p; read_leave guard r.

Definition write (p : list Z) : M con Z :=
  ok ← gets is_writable_;
  if (ok : bool) then on_uart (Uart_Write p);; mret (Z.of_nat (length p)) else mret 0.
Definition get_name (name : list Z) : list Z := splice name 0 (lit "Console").

Definition EchoChar (c : Z) : M con () :=
  if c =? 13 then kprintf (10 :: [0]) [] else kprintf (lit "%c" ++ [0]) [VInt c].
Definition EchoBackSpace : M con () := kprintf [8; 32; 8; 0] [].

Definition is_buffer_full : M con bool :=
  gets (λ c, (write_index c mod buf_len - read_index c mod buf_len =? 0) && negb (read_index c =? write_index c)).
(** the loop over the received characters *)
Fixpoint type_loop (s : list Z) : M con () :=
  match s with
  | [] => mret ()
  | x :: s =>
    if (x =? 127) || (x =? 8) then
      r ← gets read_index; w ← gets write_index;
      (if negb (r =? w) then set_write (u8 (w - 1));; EchoBackSpace else mret ());;
      type_loop s
    else
      w ← gets write_index; b ← gets c_buf;
      set_buf (<[Z.to_nat (w mod buf_len) := x]> b);;
      set_write (u8 (w + 1));;
      EchoChar x;;
      full ← is_buffer_full;
      if (x =? 13) || (full : bool) then
        on_sched (Wakeup (Some console_channel));;
        if (full : bool) then mret () else type_loop s
      else type_loop s
  end.
Definition InterruptHandler (s : list Z) : M con () :=
  guarded (
    full ← is_buffer_full;
    if (full : bool) then kprintf (lit "Warning: console buffer is full" ++ [10; 0]) []
    else type_loop s).

(** [Uart::ProcessInterrupt]: bit 0 of the line status says whether a received
    character is waiting; [rx] are those that are, and the callback is the one
    [Console]'s constructor registers *)
Fixpoint Uart_ProcessInterrupt (rx : list Z) : M con () :=
  match rx with [] => mret () | c :: rx => InterruptHandler [c];; Uart_ProcessInterrupt rx end.

(** * Specification: a queue of characters *)
Definition erasing (x : Z) : bool := (x =? 127) || (x =? 8).
Definition typed (q : list Z) (x : Z) : list Z := if erasing x then removelast q else q ++ [x].
Definition echo (q : list Z) (x : Z) : list Z :=
  if erasing x then match q with [] => [] | _ => [8; 32; 8] end
  else if x =? 13 then [10] else if x =? 0 then [] else [x].
Fixpoint echoes (q s : list Z) : list Z :=
  match s with [] => [] | x :: s => echo q x ++ echoes (typed q x) s end.
(** the line a reader of at most [n] characters takes, what it leaves, and
    whether it is complete *)
Fixpoint take_line (n : nat) (q : list Z) : list Z * list Z * bool :=
  match n, q with
  | O, _ => ([], q, true)
  | S _, [] => ([], [], false)
  | S n, x :: q =>
    let x := if x =? 13 then 10 else x in
    if x =? 10 then ([x], q, true) else let '(l, q, full) := take_line n q in (x :: l, q, full)
  end.
Definition byte (x : Z) : Prop := 0 ≤ x < 256.
Record con_rep (c : con) (q : list Z) : Prop := {
  cr_buf : length (c_buf c) = 256%nat;
  cr_read : byte (read_index c);
  cr_write : byte (write_index c);
  cr_len : Z.of_nat (length q) = (write_index c - read_index c) mod 256;
  cr_q : ∀ i x, q !! i = Some x → c_buf c !! Z.to_nat ((read_index c + Z.of_nat i) mod 256) = Some x;
}.

(** * Lemmas *)
Lemma kernel_printf_render items args o u :
  Forall item_ok items → render items args = Some (o, []) →
  kernel_printf junk (format_of items) args u = Ok ((), u ++ o).
Proof.
  intros Hi Hr. pose proof (vsprintf_spec items args [] o (mk_pf (Callback u) args junk) Hi Hr eq_refl) as H.
  rewrite decide_True in H by done. destruct H as (u' & H). unfold kernel_printf. by rewrite H.
Qed.
Definition with_uart (u : list Z) (c : con) : con :=
  Con (c_buf c) (read_index c) (write_index c) (lock_flag c) (is_writable_ c) u (con_sched c).
Lemma wp_EchoChar x (Q : () → con → Prop) c :
  byte x → Q () (with_uart (uart c ++ (if x =? 13 then [10] else if x =? 0 then [] else [x])) c) → wp (EchoChar x) Q c.
Proof.
  intros Hx HQ. unfold EchoChar, kprintf. destruct (x =? 13).
  - unfold wp, on_uart. change (10 :: [0]) with (format_of [Lit 10]).
    by rewrite (kernel_printf_render [Lit 10] [] [10]) by (done || (repeat (constructor; [by split|]); constructor)).
  - unfold wp, on_uart. change (lit "%c" ++ [0]) with (format_of [Dir (mk_dir false false 0 (WDigits []) Chr)]).
    erewrite kernel_printf_render; [exact HQ|by repeat constructor|].
    cbn. rewrite !(wrap_small 8 x) by done. destruct (x =? 0); reflexivity.
Qed.
Lemma wp_EchoBackSpace (Q : () → con → Prop) c :
  Q () (with_uart (uart c ++ [8; 32; 8]) c) → wp EchoBackSpace Q c.
Proof.
  intros HQ. unfold EchoBackSpace, kprintf, wp, on_uart.
  change [8; 32; 8; 0] with (format_of [Lit 8; Lit 32; Lit 8]).
  by rewrite (kernel_printf_render _ [] [8; 32; 8]) by (done || (repeat (constructor; [by split|]); constructor)).
Qed.

(** ** [panic] *)
(** a format without directives, up to its NUL *)
Lemma vsprintf_plain o rest : Forall (λ x, x ≠ 0 ∧ x ≠ 37) o → ∀ n pc u args j, (length o ≤ n)%nat →
  vsprintf_loop n (o ++ 0 :: rest) pc (mk_pf (Callback u) args j) =
    Ok (pc + Z.of_nat (length o), mk_pf (Callback (u ++ o)) args j).
Proof.
  induction 1 as [|x o [H0 H37] _ IH]; intros n pc u args j Hn.
  - rewrite app_nil_r, Z.add_0_r. by destruct n.
  - destruct n as [|n]; [cbn in Hn; lia|]. cbn [vsprintf_loop app]. unfold deref. rewrite (bind_Ok _ _ _ x (mk_pf (Callback u) args j)) by done.
    rewrite (proj2 (Z.eqb_neq _ _) H0). match goal with |- context [x =? ?k] => change k with 37 end. rewrite (proj2 (Z.eqb_neq _ _) H37). cbn [tail].
    erewrite bind_Ok by done. cbn [length] in *. rewrite IH by lia. f_equal. f_equal; [lia|]. by rewrite <-app_assoc.
Qed.
Lemma kprintf_plain o rest args c : Forall (λ x, x ≠ 0 ∧ x ≠ 37) o →
  kprintf (o ++ 0 :: rest) args c = Ok ((), with_uart (uart c ++ o) c).
Proof.
  intros Ho. unfold kprintf, on_uart, kernel_printf, simple_vsprintf.
  rewrite (bind_Ok _ _ _ _ _ (vsprintf_plain o rest Ho (length (o ++ 0 :: rest)) 0 (uart c) args junk ltac:(rewrite length_app; lia))). done.
Qed.
Definition panic_text (o : list Z) : list Z := lit "!! kernel panic !!, reason: " ++ o ++ [10].
(** [panic] turns interrupts off and prints the rendered message, when it is short and
    has no percent sign *)
Theorem panic_prints items args args' o c : Forall item_ok items → render items args = Some (o, args') →
  (length o < 128)%nat → Forall (λ x, x ≠ 37) o →
  ∃ c1, global_interrunpt_off c = Ok ((), c1) ∧
    panic (Some (format_of items)) args c = Ok ((), with_uart (uart c ++ panic_text o) c1).
Proof.
  intros Hok Hr Ho H37. pose proof (no_nul_render _ _ _ _ Hok Hr) as Hn. unfold panic.
  destruct (global_interrunpt_off c) as [[[] c1]|] eqn:E1; [|done]. exists c1. split; [done|]. rewrite (bind_Ok _ _ _ _ _ E1).
  assert (uart c1 = uart c) as <- by (by injection E1 as <-; destruct c).
  change (lit "!! kernel panic !!, reason: " ++ [0]) with (lit "!! kernel panic !!, reason: " ++ 0 :: []).
  rewrite (bind_Ok _ _ _ _ _ (kprintf_plain (lit "!! kernel panic !!, reason: ") [] [] c1 ltac:(by repeat constructor))).
  set (s0 := mk_pf _ args junk). pose proof (vsprintf_spec items args args' o s0 Hok Hr eq_refl) as H.
  rewrite decide_True in H by (simpl; lia). destruct H as (u' & ->). cbn [out terminate emit s0].
  rewrite cstr_in_buffer by lia.
  rewrite (bind_Ok _ _ _ _ _ (kprintf_plain o _ [] _ ltac:(apply Forall_forall; intros x Hx; split; [by apply (proj1 (Forall_forall _ _) Hn)|by apply (proj1 (Forall_forall _ _) H37)]))).
  change [10; 0] with ([10] ++ 0 :: []). rewrite kprintf_plain by (by repeat constructor).
  unfold with_uart, panic_text. cbn [uart c_buf read_index write_index lock_flag is_writable_ con_sched]. by rewrite <-!app_assoc.
Qed.
(** the message is a format once more: a percent sign in it takes an argument that is
    not there *)
Lemma panic_message_is_a_format c :
  panic (Some (lit "%s" ++ [0])) [VStr 1 (lit "%d" ++ [0])] c = Stop (Faulted "va_arg").
Proof. destruct c as [? ? ? ? ? ? [? ? ? ? [] ?]]. vm_compute. reflexivity. Qed.
(** ** The ring *)
Definition set_ring (b : list Z) (r w : Z) (c : con) : con :=
  Con b r w (lock_flag c) (is_writable_ c) (uart c) (con_sched c).
Definition same_ring (c c' : con) : Prop :=
  c_buf c' = c_buf c ∧ read_index c' = read_index c ∧ write_index c' = write_index c.
Lemma con_rep_same c c' q : same_ring c c' → con_rep c q → con_rep c' q.
Proof. intros (E1 & E2 & E3) []. split; by rewrite ?E1, ?E2, ?E3. Qed.
Lemma con_rep_nil c q : con_rep c q → read_index c = write_index c ↔ q = [].
Proof.
  intros [? Hr Hw Hl _]. unfold byte in *. rewrite <-length_zero_iff_nil. split; [|intros; dlia].
  intros E. rewrite E, Z.sub_diag in Hl. rewrite Zmod_0_l in Hl. lia.
Qed.
Lemma con_rep_push c q x : con_rep c q → (length q < 255)%nat →
  con_rep (set_ring (<[Z.to_nat (write_index c mod buf_len) := x]> (c_buf c)) (read_index c) (u8 (write_index c + 1)) c)
    (q ++ [x]).
Proof.
  intros [Hb Hr Hw Hl Hq] Hlt. unfold byte, buf_len in *. split; cbn; rewrite ?length_insert; try done.
  - unfold byte, wrap. change (2 ^ 8) with 256. dlia.
  - unfold wrap. change (2 ^ 8) with 256. rewrite length_app. cbn. dlia.
  - intros i y Hi. destruct (decide (i = length q)) as [->|Hne].
    + rewrite lookup_app_r, Nat.sub_diag in Hi by lia. injection Hi as <-.
      replace ((read_index c + Z.of_nat (length q)) mod 256) with (write_index c mod 256) by dlia.
      apply list_lookup_insert_eq. dlia.
    + pose proof (lookup_lt_Some _ _ _ Hi) as Hi'. rewrite length_app in Hi'. cbn in Hi'.
      rewrite lookup_app_l in Hi by lia. rewrite list_lookup_insert_ne; [by apply Hq|]. dlia.
Qed.
Lemma con_rep_pop c q x : con_rep c (q ++ [x]) →
  con_rep (set_ring (c_buf c) (read_index c) (u8 (write_index c - 1)) c) q.
Proof.
  intros [Hb Hr Hw Hl Hq]. unfold byte in *. rewrite length_app in Hl. cbn in Hl. split; cbn; try done.
  - unfold byte, wrap. change (2 ^ 8) with 256. dlia.
  - unfold wrap. change (2 ^ 8) with 256. dlia.
  - intros i y Hi. apply Hq. by apply lookup_app_l_Some.
Qed.
Lemma con_rep_take c x q : con_rep c (x :: q) →
  c_buf c !! Z.to_nat (read_index c mod buf_len) = Some x ∧
  con_rep (set_ring (c_buf c) (u8 (read_index c + 1)) (write_index c) c) q.
Proof.
  intros [Hb Hr Hw Hl Hq]. unfold byte, buf_len in *. cbn [length] in Hl. split.
  { rewrite <-(Hq 0%nat x) by done. by rewrite Z.add_0_r. }
  split; cbn; try done.
  - unfold byte, wrap. change (2 ^ 8) with 256. dlia.
  - unfold wrap. change (2 ^ 8) with 256. dlia.
  - intros i y Hi. rewrite <-(Hq (S i) y) by done. f_equal. f_equal. unfold wrap. change (2 ^ 8) with 256. dlia.
Qed.
Lemma never_full c : byte (read_index c) → byte (write_index c) →
  is_buffer_full c = Ok (false, c).
Proof.
  intros Hr Hw. unfold is_buffer_full, gets, byte, buf_len in *. f_equal. f_equal.
  rewrite !Z.mod_small by done. lia.
Qed.

(** ** Typing *)
Lemma wp_console_wakeup c (Q : () → con → Prop) : channels_ok (con_sched c) →
  (∀ s', woken console_channel true (con_sched c) s' →
     Q () (Con (c_buf c) (read_index c) (write_index c) (lock_flag c) (is_writable_ c) (uart c) s')) →
  wp (on_sched (Wakeup (Some console_channel))) Q c.
Proof.
  intros Hc HQ. pose proof (wp_Wakeup console_channel _ Hc) as Hw. apply wp_ok in Hw as ([] & s' & E & Hw).
  unfold wp, on_sched. rewrite E. by apply HQ.
Qed.
Definition is_return (x : Z) : bool := x =? 13.
Definition typed_post (q s : list Z) (c c' : con) : Prop :=
  con_rep c' (foldl typed q s) ∧ uart c' = uart c ++ echoes q s ∧ lock_flag c' = lock_flag c ∧
  woken console_channel (existsb is_return s) (con_sched c) (con_sched c').
Lemma length_typed q x : (length (typed q x) ≤ S (length q))%nat.
Proof.
  unfold typed. destruct (erasing x); [|rewrite length_app; cbn; lia]. destruct q as [|y q _] using rev_ind; [cbn; lia|].
  rewrite removelast_last, length_app. cbn. lia.
Qed.
Lemma wp_type_loop s : ∀ q c, con_rep c q → Forall byte s → (length q + length s ≤ 255)%nat →
  channels_ok (con_sched c) → wp (type_loop s) (λ _, typed_post q s c) c.
Proof.
  induction s as [|x s IH]; intros q c Hq Hs Hlen Hch; cbn [type_loop].
  { wp_step. split_and!; [done|by rewrite app_nil_r|done|apply woken_refl]. }
  apply Forall_cons in Hs as [Hx Hs]. cbn [length] in Hlen. pose proof (length_typed q x).
  assert (∀ c1 b, con_rep c1 (typed q x) → uart c1 = uart c ++ echo q x → lock_flag c1 = lock_flag c →
    woken console_channel b (con_sched c) (con_sched c1) → is_return x = b →
    wp (type_loop s) (λ _, typed_post q (x :: s) c) c1) as Hk.
  { intros c1 b H1 H2 H3 H4 Hb. eapply wp_mono; [apply (IH (typed q x)); [done|done|lia|by eapply woken_channels]|].
    intros [] c2 (G1 & G2 & G3 & G4). split_and!; [done| |congruence|].
    - rewrite G2, H2. cbn [echoes]. by rewrite app_assoc.
    - cbn [existsb]. rewrite Hb. by eapply woken_trans. }
  change ((x =? 127) || (x =? 8)) with (erasing x). destruct (erasing x) eqn:He.
  - assert (is_return x = false) as Hret by (unfold erasing, is_return in *; lia).
    do 4 wp_step. pose proof (con_rep_nil c q Hq) as Hnil.
    destruct (Z.eqb_spec (read_index c) (write_index c)) as [E|E]; cbn [negb].
    + apply Hnil in E as ->. wp_step. wp_step. apply (Hk _ false); unfold typed, echo; rewrite ?He; try done. by rewrite app_nil_r.
    + destruct q as [|y q _] using rev_ind; [by exfalso; apply E, Hnil|].
      wp_step. wp_step. unfold set_write. wp_step. apply wp_EchoBackSpace.
      apply (Hk _ false); unfold typed, echo; rewrite ?He, ?removelast_last; cbn; try done.
      * eapply con_rep_same; [|by eapply con_rep_pop]. done.
      * by destruct q.
  - do 4 wp_step. unfold set_buf, set_write. do 4 wp_step. cbn.
    wp_step. apply wp_EchoChar; [done|]. wp_step.
    match goal with |- wp is_buffer_full _ ?c1 => assert (con_rep c1 (typed q x)) as Hq1 end.
    { unfold typed. rewrite He. eapply con_rep_same; [|apply con_rep_push; [exact Hq|lia]]. done. }
    unfold wp at 1. rewrite never_full by apply Hq1. rewrite orb_false_r. destruct (x =? 13) eqn:E13.
    + wp_step. apply wp_console_wakeup; [done|]. intros s' Hs'. apply (Hk _ true); cbn; try done.
      * eapply con_rep_same; [|exact Hq1]. done.
      * unfold echo. by rewrite He, E13.
    + apply (Hk _ false); cbn; try done.
      * unfold echo. by rewrite He, E13.
Qed.

(** ** The guard: a postcondition that does not read [mstatus] *)
Definition same_con (c c' : con) : Prop :=
  same_ring c c' ∧ uart c' = uart c ∧ lock_flag c' = lock_flag c ∧ is_writable_ c' = is_writable_ c ∧
  same_core (con_sched c) (con_sched c').
Lemma same_con_mstatus v c : same_con c (put_mstatus v c).
Proof. by destruct c. Qed.
Lemma same_con_refl c : same_con c c.
Proof. unfold same_con, same_ring, same_core. by split_and!. Qed.
Lemma wp_ctor_con (Q : bool → con → Prop) c : (∀ g c', same_con c c' → Q g c') → wp CriticalGuard_ctor Q c.
Proof. intros HQ. unfold CriticalGuard_ctor. do 3 wp_step. apply HQ, same_con_mstatus. Qed.
Lemma wp_dtor_con g (Q : () → con → Prop) c : (∀ c', same_con c c' → Q () c') → wp (CriticalGuard_dtor g) Q c.
Proof.
  intros HQ. unfold CriticalGuard_dtor. destruct g; [|wp_step]; [unfold global_interrunpt_on; wp_step|]; apply HQ.
  - apply same_con_mstatus.
  - by destruct c.
Qed.
Lemma wp_InterruptHandler q s c : con_rep c q → Forall byte s → (length q + length s ≤ 255)%nat →
  channels_ok (con_sched c) → wp (InterruptHandler s) (λ _, typed_post q s c) c.
Proof.
  intros Hq Hs Hlen Hch. unfold InterruptHandler, guarded. wp_step. apply wp_ctor_con. intros g c1 (Hr & Hu & Hl & _ & Hc).
  pose proof (con_rep_same _ _ _ Hr Hq) as Hq1. wp_step. wp_step. unfold wp at 1. rewrite never_full by apply Hq1.
  eapply wp_mono; [apply (wp_type_loop s q c1 Hq1 Hs Hlen)|].
  { intros i t. destruct Hc as (-> & _). apply Hch. }
  intros [] c2 (H1 & H2 & H3 & H4). wp_step. apply wp_dtor_con. intros c3 (Gr & Gu & Gl & _ & Gc). wp_step.
  split_and!; [by eapply con_rep_same|congruence|congruence|].
  eapply woken_core; [exact Hc|exact H4|exact Gc].
Qed.

(** ** Reading *)
Definition reader_running (i : nat) (s : sched) : Prop :=
  process_task s = Some i ∧ ∃ t, process_tasks_ s !! i = Some t ∧ state t = running.
(** the outcome of [read] with at most [n] characters to come after [p] *)
Definition read_post (n : nat) (p q : list Z) (i : nat) (c : con) (r : read_state) (c' : con) : Prop :=
  uart c' = uart c ∧
  match take_line n q with
  | (l, rest, true) => r = Returned (p ++ l) ∧ con_rep c' rest ∧ lock_flag c' = lock_flag c ∧ same_core (con_sched c) (con_sched c')
  | (l, rest, false) =>
    (∃ fl, r = Asleep (n - length l) (p ++ l) fl) ∧ con_rep c' rest ∧ lock_flag c' = false ∧
    with_tasks (alter (λ t, set_channel (Some console_channel) (set_state sleep t)) i (process_tasks_ (con_sched c)))
      (con_sched c) (con_sched c')
  end.
Lemma wp_con_sleep i c (Q : bool → con → Prop) : reader_running i (con_sched c) →
  (∀ fl s', with_tasks (alter (λ t, set_channel (Some console_channel) (set_state sleep t)) i (process_tasks_ (con_sched c)))
      (con_sched c) s' →
    Q fl (Con (c_buf c) (read_index c) (write_index c) (lock_flag c) (is_writable_ c) (uart c) s')) →
  wp (on_sched (Sleep console_channel)) Q c.
Proof.
  intros (Hi & t & Ht & Hr) HQ. unfold wp, on_sched.
  assert (wp (Sleep console_channel) (λ _, with_tasks (alter (λ t, set_channel (Some console_channel) (set_state sleep t)) i
    (process_tasks_ (con_sched c))) (con_sched c)) (con_sched c)) as H.
  { unfold Sleep, ThisProcess. do 2 wp_step. rewrite Hi. wp_step. apply (wp_get_task _ t); [done|].
    rewrite bool_decide_eq_true_2 by done. wp_step. apply wp_ctor_core. intros fl s1 (E1 & E2 & E3 & E4 & E5).
    wp_step. apply wp_upd_task. wp_step. apply wp_upd_task. wp_step. cbn. rewrite list_alter_alter_eq.
    split_and!; cbn; try congruence. by rewrite E1. }
  apply wp_ok in H as (fl & s' & -> & H). by apply HQ.
Qed.
Lemma wp_read_loop i n : ∀ q p c, con_rep c q → reader_running i (con_sched c) →
  wp (read_loop n p) (read_post n p q i c) c.
Proof.
  induction n as [|n IH]; intros q p c Hq Hi; cbn [read_loop].
  { wp_step. split; [done|]. cbn. rewrite app_nil_r. by split_and!. }
  do 4 wp_step. pose proof (con_rep_nil c q Hq) as Hnil. destruct q as [|x q].
  { rewrite (proj2 Hnil), Z.eqb_refl by done. wp_step. apply (wp_con_sleep i); [done|]. intros fl s' Hs'.
    wp_step. unfold set_lock. wp_step. wp_step. split; [done|]. cbn. split_and!; [| |done|done].
    - exists fl. by rewrite app_nil_r.
    - by eapply con_rep_same; [|exact Hq]. }
  destruct (Z.eqb_spec (read_index c) (write_index c)) as [E|_]; [by apply Hnil in E|].
  destruct (con_rep_take c x q Hq) as [Hx Hq']. do 3 wp_step. rewrite Hx. cbn [of_option].
  wp_step. wp_step. unfold set_read. wp_step. set (c1 := Con _ _ _ _ _ _ _).
  assert (con_rep c1 q) as Hq1 by exact Hq'. cbn [take_line]. unfold read_post. cbn [take_line].
  destruct (_ =? 10) eqn:E10.
  { wp_step. by split_and!. }
  eapply wp_mono; [by apply (IH q)|]. intros r c2. unfold read_post. cbn.
  destruct (take_line n q) as [[l rest] []]; intros (Hu & H); (split; [done|]).
  - destruct H as (-> & H). split; [|done]. by rewrite <-app_assoc.
  - destruct H as ((fl & ->) & H). split; [|done]. exists fl. cbn. by rewrite <-app_assoc.
Qed.
Lemma read_post_core n p q i c c1 r c2 c3 :
  same_con c c1 → read_post n p q i c1 r c2 → same_con c2 c3 → read_post n p q i c r c3.
Proof.
  intros (_ & Hu & Hl & _ & Hc) (Eu & H) (Gr & Gu & Gl & _ & Gc). split; [congruence|].
  destruct (take_line n q) as [[l rest] []].
  - destruct H as (-> & Hq & El & Ec). split; [done|]. split; [by eapply con_rep_same|]. split; [congruence|].
    eapply same_core_trans; [exact Hc|]. by eapply same_core_trans.
  - destruct H as (Hfl & Hq & El & Ec). split; [done|]. split; [by eapply con_rep_same|]. split; [congruence|].
    unfold with_tasks in *. assert (process_tasks_ (con_sched c1) = process_tasks_ (con_sched c)) as E by apply Hc.
    rewrite E in Ec. eapply same_core_trans; [|exact Gc]. eapply same_core_trans; [|exact Ec].
    destruct Hc as (_ & C2 & C3 & C4 & C5). by split_and!.
Qed.
Lemma wp_read_leave n p q i c g r c' : read_post n p q i c r c' →
  wp (read_leave g r) (λ gr c2, read_post n p q i c gr.2 c2) c'.
Proof.
  intros H. unfold read_leave. pose proof (same_con_refl c). destruct r.
  - wp_step. apply wp_dtor_con. intros c2 Hc2. wp_step. by eapply read_post_core.
  - by wp_step.
Qed.
Lemma reader_running_core i s s' : same_core s s' → reader_running i s → reader_running i s'.
Proof. intros (E1 & E2 & _) (H1 & t & H2 & H3). split; [congruence|]. exists t. by rewrite E1. Qed.
Lemma wp_read len q i c : con_rep c q → reader_running i (con_sched c) →
  wp (read len) (λ gr c', read_post (Z.to_nat len) [] q i c gr.2 c') c.
Proof.
  intros Hq Hi. unfold read. wp_step. apply wp_ctor_con. intros g c1 Hc1. pose proof Hc1 as (Hr & _ & _ & _ & Hc). wp_step.
  eapply wp_mono; [apply (wp_read_loop i _ q)|]; [by eapply con_rep_same|by eapply reader_running_core|].
  intros r c2 H2. apply wp_read_leave. pose proof (same_con_refl c2). by eapply read_post_core.
Qed.
Lemma wp_read_resume fuel g n p fl q i c : con_rep c q → lock_flag c = false → reader_running i (con_sched c) →
  wp (read_resume (S fuel) g n p fl) (λ gr c', read_post n p q i (locked c) gr.2 c') c.
Proof.
  intros Hq Hl Hi. unfold read_resume. wp_step. unfold wp at 1. rewrite spin_lock_free by done.
  wp_step. apply wp_dtor_con. intros c1 Hc1.
  pose proof Hc1 as (Hr & _ & _ & _ & Hc). wp_step.
  assert (con_rep (locked c) q) as Hq' by (eapply con_rep_same; [|exact Hq]; done).
  eapply wp_mono; [apply (wp_read_loop i _ q)|]; [by eapply con_rep_same|by eapply reader_running_core|].
  intros r c2 H2. apply wp_read_leave. pose proof (same_con_refl c2). by eapply read_post_core.
Qed.
Lemma pwp_dtor_lock g (Q : () → con → Prop) c :
  (∀ c', lock_flag c' = lock_flag c → Q () c') → pwp (CriticalGuard_dtor g) Q c.
Proof. intros HQ. unfold CriticalGuard_dtor. destruct g; by apply HQ. Qed.
Lemma pwp_on_sched {A} (m : M sched A) (Q : A → con → Prop) c :
  (∀ a c', lock_flag c' = lock_flag c → Q a c') → pwp (on_sched m) Q c.
Proof. intros HQ. unfold pwp, on_sched. destruct (m (con_sched c)) as [[a s]|]; [by apply HQ|done]. Qed.
Lemma pwp_read_loop_lock n : ∀ p c,
  pwp (read_loop n p) (λ r c', match r with Returned _ => lock_flag c' = lock_flag c | _ => True end) c.
Proof.
  induction n as [|n IH]; intros p c; cbn [read_loop]; [done|].
  apply pwp_bind. change (pwp (gets read_index) ?Q c) with (Q (read_index c) c). cbv beta.
  apply pwp_bind. change (pwp (gets write_index) ?Q c) with (Q (write_index c) c). cbv beta.
  destruct (_ =? _).
  - apply pwp_bind, pwp_on_sched. intros fl c' _. done.
  - apply pwp_bind. change (pwp (gets c_buf) ?Q c) with (Q (c_buf c) c). cbv beta.
    apply pwp_bind, pwp_of_option. intros x _. cbv beta zeta. destruct (_ =? 10); [done|].
    apply (IH _ (Con _ _ _ _ _ _ _)).
Qed.
End console.

(** * Properties *)
(** C30: the console is a queue of at most 255 characters.  Typing appends each
    character, a backspace takes the last one back, each with its echo, and a
    carriage return wakes every reader; [read] takes a line (or [len] characters)
    from the queue, or, when there is no complete line yet, keeps what there is
    and sleeps on the console channel; a reader that is switched back to goes on
    the same way. *)
Theorem Console_refines_queue junk c q :
  con_rep c q →
  (∀ s, Forall byte s → (length q + length s ≤ 255)%nat → channels_ok (con_sched c) →
     wp (InterruptHandler junk s) (λ _ c', con_rep c' (foldl typed q s) ∧ uart c' = uart c ++ echoes q s ∧
       lock_flag c' = lock_flag c ∧ woken console_channel (existsb is_return s) (con_sched c) (con_sched c')) c) ∧
  (∀ i len, reader_running i (con_sched c) →
     wp (read len) (λ gr c', read_post (Z.to_nat len) [] q i c gr.2 c') c) ∧
  (∀ i fuel g n p fl, lock_flag c = false → reader_running i (con_sched c) →
     wp (read_resume (S fuel) g n p fl) (λ gr c', read_post n p q i (locked c) gr.2 c') c).
Proof.
  intros Hq. split; [|split].
  - intros s Hs Hlen Hc. by apply wp_InterruptHandler.
  - intros i len Hi. by apply wp_read.
  - intros i fuel g n p fl Hl Hi. by apply wp_read_resume.
Qed.
Definition demo_console (q : list Z) (r : Z) : con :=
  Con (foldr (λ i b, <[Z.to_nat ((r + Z.of_nat i) mod 256) := default 0 (q !! i)]> b) (replicate 256 0) (seq 0 (length q)))
    r ((r + Z.of_nat (length q)) mod 256) false true [] 
    (Sched [demo_task running None None; demo_task sleep (Some console_channel) None] (Some 0%nat) 0 None demo_idle_vm 2).
Lemma demo_console_rep : con_rep (demo_console [104; 105] 255) [104; 105].
Proof.
  split; try done. intros i x Hi. destruct i as [|[|i]]; [by injection Hi as <-|by injection Hi as <-|done].
Qed.
(** "hi" is pending across the wrap of the ring; "x", backspace and return are typed *)
Lemma Console_refines_queue_witness :
  wp (InterruptHandler 0 [120; 127; 13]) (λ _ c',
    con_rep c' [104; 105; 13] ∧ uart c' = [120; 8; 32; 8; 10] ∧
    state <$> process_tasks_ (con_sched c') = [running; runnable]) (demo_console [104; 105] 255).
Proof.
  eapply wp_mono; [apply (proj1 (Console_refines_queue 0 (demo_console [104; 105] 255) [104; 105] demo_console_rep))|].
  - repeat constructor; lia.
  - cbn. lia.
  - intros i t Ht Hs. destruct i as [|[|i]]; [|by injection Ht as <-; eexists|done].
    injection Ht as <-. discriminate Hs.
  - intros [] c' (H1 & H2 & _ & H4 & _). split; [exact H1|]. split; [exact H2|]. cbn in H4. by rewrite H4.
Defined.

(** The full test of the console can never succeed, because its indices are
    bytes and the ring has 256 entries: the character typed after 255 unread ones
    makes the indices equal, and all 256 characters are lost *)
Theorem Console_full_line_is_lost junk c q x :
  con_rep c q → length q = 255%nat → byte x → erasing x = false → channels_ok (con_sched c) →
  is_buffer_full c = Ok (false, c) ∧
  wp (InterruptHandler junk [x]) (λ _ c', con_rep c' [] ∧ uart c' = uart c ++ echo q x) c.
Proof.
  intros Hq Hlen Hx He Hch. split; [apply never_full; apply Hq|].
  unfold InterruptHandler, guarded. wp_step. apply wp_ctor_con. intros g c1 (Hr & Hu & _ & _ & Hc).
  pose proof (con_rep_same _ _ _ Hr Hq) as [Hb1 Hr1 Hw1 Hl1 _].
  wp_step. wp_step. unfold wp at 1. rewrite never_full by done.
  cbn [type_loop]. change ((x =? 127) || (x =? 8)) with (erasing x). rewrite He. do 4 wp_step. unfold set_buf, set_write. do 4 wp_step.
  wp_step. apply wp_EchoChar; [done|]. cbn. wp_step. set (c2 := with_uart _ _).
  assert (con_rep c2 [] ∧ uart c2 = uart c ++ echo q x ∧ channels_ok (con_sched c2)) as (Hq2 & Hu2 & Hch2).
  { split; [|split]; [|unfold c2, echo; cbn; by rewrite He, Hu|].
    - unfold byte in *. split; cbn; rewrite ?length_insert; try done.
      + unfold byte, wrap. change (2 ^ 8) with 256. dlia.
      + unfold wrap. change (2 ^ 8) with 256. dlia.
    - intros i t. change (con_sched c2) with (con_sched c1). destruct Hc as (-> & _). apply Hch. }
  assert (∀ c3, same_ring c2 c3 → uart c3 = uart c2 →
    wp (r ← mret (); CriticalGuard_dtor g ;; mret r) (λ _ c', con_rep c' [] ∧ uart c' = uart c ++ echo q x) c3) as Hend.
  { intros c3 Hr3 Hu3. wp_step. wp_step. wp_step. apply wp_dtor_con. intros c4 (Hr4 & Hu4 & _). wp_step.
    split; [by do 2 (eapply con_rep_same; [done|])|congruence]. }
  unfold wp at 1. rewrite never_full by apply Hq2. rewrite orb_false_r. destruct (x =? 13).
  - wp_step. apply wp_console_wakeup; [done|]. intros s' Hs'. by apply Hend.
  - by apply Hend.
Qed.
Definition full_console : con := demo_console (replicate 255 120) 7.
Lemma Console_full_line_is_lost_witness :
  is_buffer_full full_console = Ok (false, full_console) ∧
  wp (InterruptHandler 0 [121]) (λ _ c', con_rep c' [] ∧ uart c' = [121]) full_console.
Proof.
  apply (Console_full_line_is_lost 0 full_console (replicate 255 120) 121); try done.
  - split; try done. intros i x Hi. apply lookup_replicate in Hi as [-> Hi].
    assert (forallb (λ i, bool_decide (c_buf full_console !! Z.to_nat ((7 + Z.of_nat i) mod 256) = Some 120)) (seq 0 255) = true) as H
      by (vm_compute; reflexivity).
    rewrite List.forallb_forall in H. eapply bool_decide_eq_true_1, H, in_seq. lia.
  - intros i t Ht Hs. destruct i as [|[|i]]; [|by injection Ht as <-; eexists|done].
    injection Ht as <-. discriminate Hs.
Defined.

(** A reader that slept leaves [read] still holding the console's spin lock
    ([Sleep] takes it again, and the guard does not release it with one CPU), so
    that the next reader to be switched back to spins for ever, with interrupts
    off *)
Theorem Console_second_reader_hangs fuel g n p fl c g' s c' fuel2 g2 n2 p2 fl2 :
  read_resume fuel g n p fl c = Ok ((g', Returned s), c') →
  read_resume fuel2 g2 n2 p2 fl2 c' = Stop OutOfFuel.
Proof.
  intros H. unfold read_resume. apply bind_Stop, spin_lock_held; [done|].
  unfold read_resume in H. apply bind_inv in H as ([] & c1 & E1 & H). apply spin_lock_Ok in E1 as [-> _]; [|done].
  assert (pwp (CriticalGuard_dtor fl;; r ← read_loop n p; read_leave g r)
    (λ gr c2, match gr.2 with Returned _ => lock_flag c2 = true | _ => True end) (locked c)) as Hp.
  { apply pwp_bind, pwp_dtor_lock. intros c2 E2. apply pwp_bind. eapply pwp_mono; [apply pwp_read_loop_lock|].
    intros r c3 E3. unfold read_leave. destruct r; [|done]. apply pwp_bind, pwp_dtor_lock. intros c4 E4.
    change (lock_flag c4 = true). cbn in *. congruence. }
  pose proof (pwp_Ok _ _ _ _ _ Hp H) as E. cbn in E. congruence.
Qed.
Lemma Console_second_reader_hangs_witness :
  ∃ g c', read_resume 1 true 5 [] true (demo_console [104; 13] 255) = Ok ((g, Returned [104; 10]), c') ∧
    ∀ fuel, read_resume fuel true 9 [] true c' = Stop OutOfFuel.
Proof.
  eexists _, _. split; [vm_compute; reflexivity|]. intros fuel.
  eapply (Console_second_reader_hangs 1 true 5 [] true (demo_console [104; 13] 255)). vm_compute. reflexivity.
Defined.
