(* ===== verification/Virtio.v ===== *)
(** The virtio core of [driver/virtio.h], [driver/virtio.cc] and
    [driver/transport_mmio.h]: the rings a driver shares with its device, the
    descriptor allocator, the request chain of a transport and the wait for its
    completion.  The device is the environment: it fills the used ring. *)
From S2P Require Import Prelude Riscv Lock Process Scheduler.

(** * Constants and layouts (virtio.h) *)
Definition magic_num : Z := 0x74726976.
Definition queue_buffer_size : Z := 32.
Definition block_size : Z := 512.
Inductive mmio_addr :=
| MagicValue | Version | DeviceID | VendorID | DeviceFeatures | DeviceFeaturesSel | DriverFeatures | DriverFeaturesSel
| GuestPageSize | QueueSel | QueueNumMax | QueueNum | QueueAlign | QueuePFN | QueueReady | QueueNotify
| InterruptStatus | InterruptACK | Status | QueueDescLow | QueueDescHigh | QueueDriverLow | QueueDriverHigh
| QueueDeviceLow | QueueDeviceHigh | ConfigGeneration | Config.
Definition mmio_offset (r : mmio_addr) : Z :=
  match r with
  | MagicValue => 0x000 | Version => 0x004 | DeviceID => 0x008 | VendorID => 0x00c
  | DeviceFeatures => 0x010 | DeviceFeaturesSel => 0x014 | DriverFeatures => 0x020 | DriverFeaturesSel => 0x024
  | GuestPageSize => 0x028 | QueueSel => 0x030 | QueueNumMax => 0x034 | QueueNum => 0x038 | QueueAlign => 0x03c
  | QueuePFN => 0x040 | QueueReady => 0x044 | QueueNotify => 0x050 | InterruptStatus => 0x060 | InterruptACK => 0x064
  | Status => 0x070 | QueueDescLow => 0x080 | QueueDescHigh => 0x084 | QueueDriverLow => 0x090
  | QueueDriverHigh => 0x094 | QueueDeviceLow => 0x0a0 | QueueDeviceHigh => 0x0a4 | ConfigGeneration => 0x0fc
  | Config => 0x100
  end.
Definition used_buffer_notification : Z := Z.shiftl 1 0.
Definition configuration_change_notification : Z := Z.shiftl 1 1.
Definition device_version_Legacy : Z := 1.
Inductive device_id :=
| invalid | network_card | block_device | console_device | entropy_source | memory_ballooning | ioMemory | rpmsg | SCSI_host
| transport_9P | mac80211_wlan | rproc_serial | virtio_CAIF | memory_balloon | GPU_device | timer_device | input_device
| socket_device | crypto_device | signal_distribution_module | pstore_device | IOMMU_device | memory_device.
Definition device_id_value (d : device_id) : Z :=
  match d with
  | invalid => 0 | network_card => 1 | block_device => 2 | console_device => 3 | entropy_source => 4 | memory_ballooning => 5
  | ioMemory => 6 | rpmsg => 7 | SCSI_host => 8 | transport_9P => 9 | mac80211_wlan => 10 | rproc_serial => 11
  | virtio_CAIF => 12 | memory_balloon => 13 | GPU_device => 16 | timer_device => 17 | input_device => 18
  | socket_device => 19 | crypto_device => 20 | signal_distribution_module => 21 | pstore_device => 22
  | IOMMU_device => 23 | memory_device => 24
  end.
Inductive status_field := ACKNOWLEDGE | DRIVER | DRIVER_OK | FEATURES_OK | DEVICE_NEEDS_RESET | FAILED.
Definition status_bit (s : status_field) : Z :=
  match s with
  | ACKNOWLEDGE => 1 | DRIVER => 2 | DRIVER_OK => 4 | FEATURES_OK => 8 | DEVICE_NEEDS_RESET => 64 | FAILED => 128
  end.
Definition VIRTQ_DESC_F_NEXT : Z := 1.
Definition VIRTQ_DESC_F_WRITE : Z := 2.
Definition VIRTQ_DESC_F_INDIRECT : Z := 4.
Inductive feature_bit :=
| VIRTIO_F_NOTIFY_ON_EMPTY | VIRTIO_F_ANY_LAYOUT | VIRTIO_F_RING_INDIRECT_DESC | VIRTIO_F_RING_EVENT_IDX | UNUSED
| VIRTIO_F_VERSION_1 | VIRTIO_F_ACCESS_PLATFORM | VIRTIO_F_RING_PACKED | VIRTIO_F_IN_ORDER | VIRTIO_F_ORDER_PLATFORM
| VIRTIO_F_SR_IOV | VIRTIO_F_NOTIFICATION_DATA.
Definition feature_value (f : feature_bit) : Z :=
  match f with
  | VIRTIO_F_NOTIFY_ON_EMPTY => Z.shiftl 1 24 | VIRTIO_F_ANY_LAYOUT => Z.shiftl 1 27
  | VIRTIO_F_RING_INDIRECT_DESC => Z.shiftl 1 28 | VIRTIO_F_RING_EVENT_IDX => Z.shiftl 1 29 | UNUSED => Z.shiftl 1 30
  | VIRTIO_F_VERSION_1 => Z.shiftl 1 32 | VIRTIO_F_ACCESS_PLATFORM => Z.shiftl 1 33
  | VIRTIO_F_RING_PACKED => Z.shiftl 1 34 | VIRTIO_F_IN_ORDER => Z.shiftl 1 35
  | VIRTIO_F_ORDER_PLATFORM => Z.shiftl 1 36 | VIRTIO_F_SR_IOV => Z.shiftl 1 37
  | VIRTIO_F_NOTIFICATION_DATA => Z.shiftl 1 38
  end.
Definition max_queue_num : Z := 2.

Record virtq_desc := Desc { d_addr : Z; d_len : Z; d_flags : Z; d_next : Z }.
Definition desc0 : virtq_desc := Desc 0 0 0 0.
(** the fields of [virtq_avail] and [virtq_used] the code reads or writes *)
Record virtq_avail := Avail { avail_idx : Z; avail_ring : list Z }.
Record virtq_used := Used { used_idx : Z; used_ring : list (Z * Z) }.
Record virt_queue := Queue { desc : list virtq_desc; avail : virtq_avail; used : virtq_used }.

(** [class Device] and [DeviceViaMMIO]: [this_] is the address that makes
    [channel_], [notified] what has been written to [QueueNotify] *)
Record device := Dev {
  bit_map_ : list (list Z);
  queue : list (option virt_queue);
  waiting_flag : list bool;
  last_seen_used_idx_ : list Z;
  lk_ : list bool;
  this_ : Z;
  notified : list Z;
  dev_sched : sched;
}.
#[export, refine] Instance device_HasMstatus : HasMstatus device :=
  {| get_mstatus := λ d, get_mstatus (dev_sched d);
     put_mstatus := λ v d, Dev (bit_map_ d) (queue d) (waiting_flag d) (last_seen_used_idx_ d) (lk_ d) (this_ d)
                             (notified d) (put_mstatus v (dev_sched d)) |}.
Proof. all: by intros; repeat match goal with d : device |- _ => destruct d as [? ? ? ? ? ? ? [? ? ? ? [] ?]] end. Defined.

Definition set_bit_map (b : list (list Z)) (d : device) : device :=
  Dev b (queue d) (waiting_flag d) (last_seen_used_idx_ d) (lk_ d) (this_ d) (notified d) (dev_sched d).
Definition set_queue (q : list (option virt_queue)) (d : device) : device :=
  Dev (bit_map_ d) q (waiting_flag d) (last_seen_used_idx_ d) (lk_ d) (this_ d) (notified d) (dev_sched d).
Definition set_waiting (w : list bool) (d : device) : device :=
  Dev (bit_map_ d) (queue d) w (last_seen_used_idx_ d) (lk_ d) (this_ d) (notified d) (dev_sched d).
Definition set_last (l : list Z) (d : device) : device :=
  Dev (bit_map_ d) (queue d) (waiting_flag d) l (lk_ d) (this_ d) (notified d) (dev_sched d).
Definition set_lk (l : list bool) (d : device) : device :=
  Dev (bit_map_ d) (queue d) (waiting_flag d) (last_seen_used_idx_ d) l (this_ d) (notified d) (dev_sched d).
Definition notify (v : Z) (d : device) : device :=
  Dev (bit_map_ d) (queue d) (waiting_flag d) (last_seen_used_idx_ d) (lk_ d) (this_ d) (notified d ++ [v]) (dev_sched d).
Definition dev_on_sched {A} (m : M sched A) : M device A := λ d,
  match m (dev_sched d) with
  | Ok (a, s) => Ok (a, Dev (bit_map_ d) (queue d) (waiting_flag d) (last_seen_used_idx_ d) (lk_ d) (this_ d) (notified d) s)
  | Stop e => Stop e
  end.
(** [queue[q]->f()]: the queue, which must not be null, and writing it back *)
Definition get_queue (q : nat) : M device virt_queue :=
  l ← gets queue; of_option (Faulted "queue[queue_index]") (mjoin (l !! q)).
Definition put_queue (q : nat) (v : virt_queue) : M device () := modify (λ d, set_queue (<[q := Some v]> (queue d)) d).
Definition put_desc (q : nat) (i : Z) (x : virtq_desc) : M device () :=
  v ← get_queue q;
  if (Z.to_nat i <? length (desc v))%nat then put_queue q (Queue (<[Z.to_nat i := x]> (desc v)) (avail v) (used v))
  else stop_with (Faulted "desc[i]").

(** * virtio.cc: descriptors *)
Fixpoint alloc_loop (q : nat) (n : nat) (i : Z) : M device Z :=
  match n with
  | O => mret (-1)
  | S n =>
    bm ← gets bit_map_;
    row ← of_option (Faulted "bit_map_") (bm !! q);
    b ← of_option (Faulted "bit_map_") (row !! Z.to_nat (i / 8));
    if Z.land b (Z.shiftl 1 (i mod 8)) =? 0 then
      modify (set_bit_map (<[q := <[Z.to_nat (i / 8) := u8 (Z.lor b (Z.shiftl 1 (i mod 8)))]> row]> bm));;
      mret i
    else alloc_loop q n (i + 1)
  end.
Definition AllocDesc (q : nat) : M device Z := alloc_loop q (Z.to_nat queue_buffer_size) 0.
Definition FreeDesc (q : nat) (desc_index : Z) : M device () :=
  if queue_buffer_size <=? desc_index then stop_with (Panicked "Invalid desc_index in virt-io: too bigger")
  else
    bm ← gets bit_map_;
    row ← of_option (Faulted "bit_map_") (bm !! q);
    b ← of_option (Faulted "bit_map_") (row !! Z.to_nat (desc_index / 8));
    if Z.land b (Z.shiftl 1 (desc_index mod 8)) =? 0 then stop_with (Panicked "Invalid desc_index in virt-io: weird num")
    else
      modify (set_bit_map (<[q := <[Z.to_nat (desc_index / 8) :=
        u8 (Z.land b (Z.lnot (Z.shiftl 1 (desc_index mod 8))))]> row]> bm));;
      put_desc q desc_index desc0.
Fixpoint FreeDescs (q : nat) (desc_list : list Z) : M device () :=
  match desc_list with [] => mret () | d :: l => FreeDesc q d;; FreeDescs q l end.
(** the loop of [AllocMultiDesc] with [n] descriptors to go; the array holds
    [uint32_t]s, so a failed allocation is stored as [0xffffffff] *)
Fixpoint alloc_multi (q : nat) (n : nat) (descs : list Z) : M device (bool * list Z) :=
  match n with
  | O => mret (true, descs)
  | S n =>
    i ← AllocDesc q;
    let i := u32 i in
    if i =? 0xffffffff then FreeDescs q descs;; mret (false, descs ++ [i])
    else alloc_multi q n (descs ++ [i])
  end.
Definition AllocMultiDesc (q : nat) (n : nat) : M device (bool * list Z) := guarded (alloc_multi q n []).

(** * transport_mmio.h: one request *)
(** an argument of [mmio_transport]: a pointer, the size of what it points to, and
    whether the pointee is non-[const], i.e. written by the device *)
Record req := Req { r_addr : Z; r_size : Z; r_write : bool }.
Record transport := Transport { t_queue : nat; desc_alloc_succ : bool; descs_ : list Z }.

Definition fill_desc (addr size flag next : Z) : virtq_desc :=
  Desc (u64 addr) (u32 size) (u16 flag) (if nonzero (Z.land flag VIRTQ_DESC_F_NEXT) then u16 next else 0).
Definition desc_at (descs : list Z) (k : nat) : M device Z := of_option (Faulted "descs_") (descs !! k).
Fixpoint request (q : nat) (descs : list Z) (desc_index : nat) (reqs : list req) : M device () :=
  match reqs with
  | [] => mret ()
  | [r] =>
    i ← desc_at descs desc_index;
    put_desc q i (fill_desc (r_addr r) (r_size r) (if r_write r then VIRTQ_DESC_F_WRITE else 0) 0)
  | r :: reqs =>
    i ← desc_at descs desc_index;
    next ← desc_at descs (desc_index + 1);
    put_desc q i (fill_desc (r_addr r) (r_size r)
      (if r_write r then Z.lor VIRTQ_DESC_F_NEXT VIRTQ_DESC_F_WRITE else VIRTQ_DESC_F_NEXT) next);;
    request q descs (desc_index + 1) reqs
  end.
Definition mmio_transport (q : nat) (reqs : list req) : M device transport :=
  '(ret, descs) ← AllocMultiDesc q (length reqs);
  if (ret : bool) then request q descs 0 reqs;; mret (Transport q true descs) else mret (Transport q false descs).
Definition set_indirect_flag (t : transport) (desc_index : Z) : M device () :=
  v ← get_queue (t_queue t);
  d ← of_option (Faulted "desc[i]") (desc v !! Z.to_nat desc_index);
  put_desc (t_queue t) desc_index (Desc (d_addr d) (d_len d) (Z.lor (d_flags d) VIRTQ_DESC_F_INDIRECT) (d_next d)).
Definition trigger_notify (t : transport) : M device () :=
  if desc_alloc_succ t then
    guarded (
      v ← get_queue (t_queue t);
      head ← desc_at (descs_ t) 0;
      put_queue (t_queue t) (Queue (desc v)
        (Avail (u16 (avail_idx (avail v) + 1))
               (<[Z.to_nat (avail_idx (avail v) mod queue_buffer_size) := u16 head]> (avail_ring (avail v))))
        (used v));;
      modify (λ d, set_waiting (<[Z.to_nat head := true]> (waiting_flag d)) d);;
      modify (notify (Z.of_nat (t_queue t))))
  else mret ().

(** [wait_complete]: either the descriptors are freed, or the process sleeps, [fl]
    being what [Sleep]'s guard keeps, and tests the flag again when resumed *)
Inductive wait_state := Completed | Waiting (fl : bool).
Definition wait_loop (t : transport) : M device wait_state :=
  head ← desc_at (descs_ t) 0;
  w ← gets waiting_flag;
  flag ← of_option (Faulted "internal_data_") (w !! Z.to_nat head);
  if (flag : bool) then
    this ← gets this_;
    fl ← dev_on_sched (Sleep (device_channel this));
    modify (λ d, set_lk (<[t_queue t := false]> (lk_ d)) d);;
    mret (Waiting fl)
  else FreeDescs (t_queue t) (descs_ t);; mret Completed.
Definition wait_leave (guard : bool) (w : wait_state) : M device (bool * wait_state) :=
  match w with
  | Completed => CriticalGuard_dtor guard;; mret (guard, w)
  | Waiting _ => mret (guard, w)
  end.
Definition wait_complete (t : transport) : M device (bool * wait_state) :=
  if desc_alloc_succ t then guard ← CriticalGuard_ctor; w ← wait_loop t; wait_leave guard w
  else mret (false, Completed).
Definition lk_held (q : nat) (d : device) : bool := default false (lk_ d !! q).
Definition lk_take (q : nat) (d : device) : device := set_lk (<[q := true]> (lk_ d)) d.
Definition wait_resume (fuel : nat) (t : transport) (guard fl : bool) : M device (bool * wait_state) :=
  spin_lock (lk_held (t_queue t)) (lk_take (t_queue t)) fuel;;
  CriticalGuard_dtor fl;;
  w ← wait_loop t; wait_leave guard w.

(** * virtio.cc: interrupts and identification *)
Definition mmio (addr_ : Z) (r : mmio_addr) : Z := addr_ + mmio_offset r.
Definition Validate (addr_ : Z) (id : device_id) : io bool :=
  m ← R_WORD (mmio addr_ MagicValue);
  if negb (m =? magic_num) then mret false
  else
    v ← R_WORD (mmio addr_ Version);
    if negb (v =? device_version_Legacy) then mret false
    else
      i ← R_WORD (mmio addr_ DeviceID);
      if negb (i =? device_id_value id) then mret false
      else _ ← R_WORD (mmio addr_ VendorID); mret true.
(** which of the two handlers [ProcessInterrupt] calls *)
Definition ProcessInterrupt (addr_ : Z) : io (bool * bool) :=
  interrupt_status ← R_WORD (mmio addr_ InterruptStatus);
  W_WORD (mmio addr_ InterruptACK) (Z.land interrupt_status 0x3);;
  mret (nonzero (Z.land interrupt_status used_buffer_notification),
        nonzero (Z.land interrupt_status configuration_change_notification)).

(** * Descriptor rows *)
(** the effect of one allocation and of one release on a row of the bitmap *)
Definition set1 (row : list Z) (j : Z) : list Z :=
  <[Z.to_nat (j / 8) := u8 (Z.lor (default 0 (row !! Z.to_nat (j / 8))) (Z.shiftl 1 (j mod 8)))]> row.
Definition clear1 (row : list Z) (j : Z) : list Z :=
  <[Z.to_nat (j / 8) := u8 (Z.land (default 0 (row !! Z.to_nat (j / 8))) (Z.lnot (Z.shiftl 1 (j mod 8))))]> row.
Definition row_ok (row : list Z) : Prop := length row = 4%nat ∧ Forall (λ b, 0 ≤ b < 256) row.
Definition index (j : Z) : Prop := 0 ≤ j < 32.
(** the free descriptors, in the order of the search *)
Definition free_descs (row : list Z) : list Z := filter (λ i, bit_at row i = false) (seqZ 0 32).

Lemma row_lookup row j : row_ok row → index j → ∃ b, row !! Z.to_nat (j / 8) = Some b ∧ 0 ≤ b < 256.
Proof.
  intros [Hl Hb] Hj. unfold index in Hj. destruct (lookup_lt_is_Some_2 row (Z.to_nat (j / 8))) as [b Eb]; [dlia|].
  exists b. split; [done|]. by eapply Forall_lookup_1 in Hb.
Qed.
Lemma test_bit_at row j b : row !! Z.to_nat (j / 8) = Some b → index j → 
  (Z.land b (Z.shiftl 1 (j mod 8)) =? 0) = negb (bit_at row j).
Proof.
  intros Eb Hj. unfold bit_at, index in *. rewrite Eb. cbn [default from_option id].
  assert (0 ≤ j mod 8) by dlia. destruct (Z.testbit b (j mod 8)) eqn:E; cbn [negb].
  - apply Z.eqb_neq. intros H0. apply (f_equal (λ z, Z.testbit z (j mod 8))) in H0.
    rewrite Z.land_spec, E, Z.shiftl_1_l, Z.pow2_bits_true, Z.bits_0 in H0 by lia. done.
  - apply Z.eqb_eq. apply Z.bits_inj'. intros k Hk. rewrite Z.land_spec, Z.shiftl_1_l, Z.bits_0.
    destruct (decide (k = j mod 8)) as [->|]; [by rewrite E|].
    rewrite Z.pow2_bits_false by lia. apply andb_false_r.
Qed.
Lemma set1_ok row j : row_ok row → row_ok (set1 row j).
Proof.
  intros [Hl Hb]. split; [unfold set1; by rewrite length_insert|]. apply Forall_insert; [done|].
  apply (wrap_range 8). lia.
Qed.
Lemma clear1_ok row j : row_ok row → row_ok (clear1 row j).
Proof.
  intros [Hl Hb]. split; [unfold clear1; by rewrite length_insert|]. apply Forall_insert; [done|].
  apply (wrap_range 8). lia.
Qed.
Lemma bit_at_set1 row j i : row_ok row → index j → 0 ≤ i →
  bit_at (set1 row j) i = if decide (i = j) then true else bit_at row i.
Proof.
  intros Hr Hj Hi. destruct (row_lookup row j Hr Hj) as (b & Eb & _). unfold set1. rewrite Eb. cbn [default from_option id].
  unfold index in Hj. rewrite (bit_at_set row j b i) by (done || lia). by destruct (decide (i = j)), (decide (j = i)).
Qed.
Lemma bit_at_clear1 row j i : row_ok row → index j → 0 ≤ i →
  bit_at (clear1 row j) i = if decide (i = j) then false else bit_at row i.
Proof.
  intros Hr Hj Hi. destruct (row_lookup row j Hr Hj) as (b & Eb & _). unfold clear1. rewrite Eb. cbn [default from_option id].
  unfold index, bit_at in *. pose proof (lookup_lt_Some _ _ _ Eb). assert (0 ≤ i mod 8 < 8 ∧ 0 ≤ j mod 8 < 8) as [] by dlia.
  destruct (decide (i / 8 = j / 8)) as [Heq|Hne].
  - rewrite Heq, list_lookup_insert_eq, Eb by done. cbn [default from_option id].
    rewrite testbit_wrap, decide_True by lia. fold (Z.ldiff b (Z.shiftl 1 (j mod 8))).
    rewrite <-Z.ldiff_land, testbit_clear_bit by lia.
    destruct (decide (j mod 8 = i mod 8)), (decide (i = j)); done || (exfalso; dlia).
  - rewrite list_lookup_insert_ne by dlia. rewrite decide_False; [done|]. intros ->. by apply Hne.
Qed.
Lemma row_ext r1 r2 : row_ok r1 → row_ok r2 → (∀ i, index i → bit_at r1 i = bit_at r2 i) → r1 = r2.
Proof.
  intros [L1 B1] [L2 B2] H. apply list_eq_same_length with 4%nat; [done|done|]. intros k x y Hk E1 E2.
  eapply Forall_lookup_1 in B1, B2; [|done..]. apply Z.bits_inj'. intros j Hj. destruct (decide (j < 8)).
  - rewrite <-(bit_at_byte r1 k j x), <-(bit_at_byte r2 k j y) by (done || lia). apply H. unfold index. lia.
  - by rewrite !(range_bits 8) by lia.
Qed.
Lemma filter_agree {A} (P Q : A → Prop) `{∀ x, Decision (P x)} `{∀ x, Decision (Q x)} (l : list A) :
  (∀ x, x ∈ l → P x ↔ Q x) → filter P l = filter Q l.
Proof.
  induction l as [|x l IH]; intros Hl; [done|]. rewrite !filter_cons, IH by (intros; apply Hl; by right).
  destruct (Hl x ltac:(left)). do 2 case_decide; naive_solver.
Qed.
Lemma filter_true {A} (l : list A) : filter (λ _, True) l = l.
Proof. induction l as [|x l IH]; [done|]. rewrite filter_cons_True by done. by rewrite IH. Qed.
Lemma elem_of_free row j : j ∈ free_descs row ↔ index j ∧ bit_at row j = false.
Proof. unfold free_descs, index. rewrite list_elem_of_filter, elem_of_seqZ. lia. Qed.
Lemma NoDup_free row : NoDup (free_descs row).
Proof. apply NoDup_filter, NoDup_seqZ. Qed.
Lemma free_set1 row j t : row_ok row → free_descs row = j :: t → free_descs (set1 row j) = t.
Proof.
  intros Hr Hf. assert (index j) as Hj by (apply (elem_of_free row j); rewrite Hf; left).
  pose proof (NoDup_free row) as Hnd. rewrite Hf in Hnd. apply NoDup_cons in Hnd as [Hnj _].
  assert (free_descs (set1 row j) = filter (λ i, i ≠ j) (free_descs row)) as ->.
  { unfold free_descs. rewrite list_filter_filter. apply filter_agree. intros i Hi%elem_of_seqZ.
    rewrite bit_at_set1 by (done || lia). destruct (decide (i = j)); naive_solver. }
  rewrite Hf, filter_cons_False by naive_solver. rewrite (filter_agree (λ i, i ≠ j) (λ _, True)) by (intros i Hi; split; [done|by intros _ ->]). by apply filter_true.
Qed.

(** * Devices seen through one queue: its row of the bitmap and its rings *)
Definition upd (q : nat) (row : list Z) (v : virt_queue) (d : device) : device :=
  set_queue (<[q := Some v]> (queue d)) (set_bit_map (<[q := row]> (bit_map_ d)) d).
Definition with_desc (t : list virtq_desc) (v : virt_queue) : virt_queue := Queue t (avail v) (used v).
Record dev_ok (q : nat) (row : list Z) (v : virt_queue) (d : device) : Prop := {
  do_row : bit_map_ d !! q = Some row;
  do_queue : queue d !! q = Some (Some v);
  do_bits : row_ok row;
  do_len : length (desc v) = 32%nat;
  do_zero : ∀ i, index i → bit_at row i = false → desc v !! Z.to_nat i = Some desc0;
}.
Definition in_range (q : nat) (d : device) : Prop := (q < length (bit_map_ d) ∧ q < length (queue d))%nat.
Lemma dev_ok_range q row v d : dev_ok q row v d → in_range q d.
Proof. intros [H1 H2 _ _ _]. split; by eapply lookup_lt_Some. Qed.
Lemma upd_id q row v d : bit_map_ d !! q = Some row → queue d !! q = Some (Some v) → upd q row v d = d.
Proof. intros H1 H2. unfold upd, set_queue, set_bit_map. cbn. rewrite !list_insert_id by done. by destruct d. Qed.
Lemma upd_upd q r1 r2 v1 v2 d : upd q r2 v2 (upd q r1 v1 d) = upd q r2 v2 d.
Proof. unfold upd, set_queue, set_bit_map. cbn. by rewrite !list_insert_insert_eq. Qed.
Lemma upd_row q row v d : in_range q d → bit_map_ (upd q row v d) !! q = Some row.
Proof. intros [? ?]. by apply list_lookup_insert_eq. Qed.
Lemma upd_queue q row v d : in_range q d → queue (upd q row v d) !! q = Some (Some v).
Proof. intros [? ?]. by apply list_lookup_insert_eq. Qed.
Lemma get_queue_upd q row v d : in_range q d → get_queue q (upd q row v d) = Ok (v, upd q row v d).
Proof. intros H. unfold get_queue, mbind at 1, M_bind, gets. by rewrite upd_queue. Qed.
Lemma put_queue_upd q row v v' d : put_queue q v' (upd q row v d) = Ok ((), upd q row v' d).
Proof.
  unfold put_queue, modify. f_equal. f_equal. unfold upd, set_queue, set_bit_map. cbn. by rewrite list_insert_insert_eq.
Qed.
Lemma put_desc_upd q i x row v d : in_range q d → length (desc v) = 32%nat → index i →
  put_desc q i x (upd q row v d) = Ok ((), upd q row (with_desc (<[Z.to_nat i := x]> (desc v)) v) d).
Proof.
  intros H Hl Hi. unfold put_desc. rewrite (bind_Ok _ _ _ _ _ (get_queue_upd q row v d H)). unfold index in Hi.
  rewrite (proj2 (Nat.ltb_lt _ _)) by lia. apply put_queue_upd.
Qed.
Lemma alloc_loop_upd q row v d n : ∀ i, in_range q d → row_ok row → 0 ≤ i → i + Z.of_nat n = 32 →
  alloc_loop q n i (upd q row v d) =
  match filter (λ i, bit_at row i = false) (seqZ i (Z.of_nat n)) with
  | [] => Ok (-1, upd q row v d)
  | j :: _ => Ok (j, upd q (set1 row j) v d)
  end.
Proof.
  induction n as [|n IH]; intros i Hq Hr Hi Hn; [done|]. cbn [alloc_loop]. unfold mbind at 1, M_bind, gets.
  rewrite upd_row by done. unfold mbind at 1, M_bind. cbn [of_option mret M_ret].
  assert (index i) as Hidx by (unfold index; lia). destruct (row_lookup row i Hr Hidx) as (b & Eb & _).
  rewrite Eb. unfold mbind at 1, M_bind. cbn [of_option mret M_ret].
  rewrite (test_bit_at row i b Eb Hidx), seqZ_cons, filter_cons by lia. destruct (bit_at row i) eqn:E; cbn [negb].
  - rewrite decide_False by done. rewrite IH by (done || lia).
    replace (Z.pred (Z.of_nat (S n))) with (Z.of_nat n) by lia. by replace (Z.succ i) with (i + 1) by lia.
  - rewrite decide_True by done. rewrite (bind_Ok _ _ _ () (upd q (set1 row i) v d)); [done|].
    unfold modify. f_equal. f_equal. unfold set1. rewrite Eb. unfold upd, set_bit_map, set_queue. cbn.
    by rewrite list_insert_insert_eq.
Qed.
Lemma AllocDesc_upd q row v d : in_range q d → row_ok row →
  AllocDesc q (upd q row v d) =
  match free_descs row with [] => Ok (-1, upd q row v d) | j :: _ => Ok (j, upd q (set1 row j) v d) end.
Proof. intros. by apply alloc_loop_upd. Qed.
Lemma FreeDesc_upd q row v d j : in_range q d → row_ok row → length (desc v) = 32%nat → index j → bit_at row j = true →
  FreeDesc q j (upd q row v d) = Ok ((), upd q (clear1 row j) (with_desc (<[Z.to_nat j := desc0]> (desc v)) v) d).
Proof.
  intros Hq Hr Hl Hj Hb. unfold FreeDesc. replace (queue_buffer_size <=? j) with false by (unfold queue_buffer_size, index in *; lia).
  unfold mbind at 1, M_bind, gets. rewrite upd_row by done. unfold mbind at 1, M_bind. cbn [of_option mret M_ret].
  destruct (row_lookup row j Hr Hj) as (b & Eb & _). rewrite Eb. unfold mbind at 1, M_bind. cbn [of_option mret M_ret].
  rewrite (test_bit_at row j b Eb Hj), Hb. cbn [negb].
  rewrite (bind_Ok _ _ _ () (upd q (clear1 row j) v d)); [by apply put_desc_upd|].
  unfold modify. f_equal. f_equal. unfold clear1. rewrite Eb. unfold upd, set_bit_map, set_queue. cbn.
  by rewrite list_insert_insert_eq.
Qed.
(** several at once *)
Definition set_all (row l : list Z) : list Z := foldl set1 row l.
Definition clear_all (row l : list Z) : list Z := foldl clear1 row l.
Definition zero_all (t : list virtq_desc) (l : list Z) : list virtq_desc :=
  foldl (λ t j, <[Z.to_nat j := desc0]> t) t l.
Lemma set_all_ok row l : row_ok row → row_ok (set_all row l).
Proof. revert row. induction l; intros row Hr; [done|]. cbn. by apply IHl, set1_ok. Qed.
Lemma clear_all_ok row l : row_ok row → row_ok (clear_all row l).
Proof. revert row. induction l; intros row Hr; [done|]. cbn. by apply IHl, clear1_ok. Qed.
Lemma bit_at_set_all l : ∀ row i, row_ok row → Forall index l → 0 ≤ i →
  bit_at (set_all row l) i = if decide (i ∈ l) then true else bit_at row i.
Proof.
  induction l as [|j l IH]; intros row i Hr Hl Hi; [done|]. apply Forall_cons in Hl as [Hj Hl]. cbn.
  rewrite IH by (done || by apply set1_ok). rewrite bit_at_set1 by done.
  destruct (decide (i ∈ l)), (decide (i = j)), (decide (i ∈ j :: l)); try done; set_solver.
Qed.
Lemma bit_at_clear_all l : ∀ row i, row_ok row → Forall index l → 0 ≤ i →
  bit_at (clear_all row l) i = if decide (i ∈ l) then false else bit_at row i.
Proof.
  induction l as [|j l IH]; intros row i Hr Hl Hi; [done|]. apply Forall_cons in Hl as [Hj Hl]. cbn.
  rewrite IH by (done || by apply clear1_ok). rewrite bit_at_clear1 by done.
  destruct (decide (i ∈ l)), (decide (i = j)), (decide (i ∈ j :: l)); try done; set_solver.
Qed.
Lemma length_zero_all t l : length (zero_all t l) = length t.
Proof. revert t. induction l; intros t; [done|]. cbn. unfold zero_all in IHl. by rewrite IHl, length_insert. Qed.
Lemma lookup_zero_all l : ∀ t (i : Z), Forall index l → index i → length t = 32%nat →
  zero_all t l !! Z.to_nat i = if decide (i ∈ l) then Some desc0 else t !! Z.to_nat i.
Proof.
  unfold index. induction l as [|j l IH]; intros t i Hl Hi Ht; [done|]. apply Forall_cons in Hl as [Hj Hl]. cbn.
  unfold zero_all in IH. rewrite IH by (done || by rewrite length_insert). destruct (decide (i ∈ l)).
  - by rewrite decide_True by (by right).
  - destruct (decide (i = j)) as [->|].
    + rewrite list_lookup_insert_eq by lia. by rewrite decide_True by left.
    + rewrite list_lookup_insert_ne by lia. rewrite decide_False; [done|]. set_solver.
Qed.
Lemma FreeDescs_upd q l : ∀ row v d, in_range q d → row_ok row → length (desc v) = 32%nat → Forall index l → NoDup l →
  (∀ j, j ∈ l → bit_at row j = true) →
  FreeDescs q l (upd q row v d) = Ok ((), upd q (clear_all row l) (with_desc (zero_all (desc v) l) v) d).
Proof.
  induction l as [|j l IH]; intros row v d Hq Hr Hl Hidx Hnd Hb; [by destruct v|].
  apply Forall_cons in Hidx as [Hj Hidx]. apply NoDup_cons in Hnd as [Hn Hnd]. cbn [FreeDescs].
  rewrite (bind_Ok _ _ _ _ _ (FreeDesc_upd q row v d j Hq Hr Hl Hj (Hb j ltac:(left)))).
  rewrite IH; [done|done|by apply clear1_ok|cbn; by rewrite length_insert|done|done|].
  intros i Hi. assert (index i) by (by eapply Forall_forall in Hi). unfold index in *.
  rewrite bit_at_clear1 by (done || lia). rewrite decide_False by (intros ->; done). apply Hb. by right.
Qed.
Lemma clear_set_all row l : row_ok row → Forall index l → (∀ j, j ∈ l → bit_at row j = false) →
  clear_all (set_all row l) l = row.
Proof.
  intros Hr Hl Hb. apply row_ext; [by apply clear_all_ok, set_all_ok|done|]. intros i Hi. unfold index in Hi.
  rewrite bit_at_clear_all by (done || lia || by apply set_all_ok). case_decide; [by rewrite Hb|].
  rewrite bit_at_set_all by (done || lia). by rewrite decide_False.
Qed.
Lemma zero_all_id t l : length t = 32%nat → Forall index l → (∀ j, j ∈ l → t !! Z.to_nat j = Some desc0) → zero_all t l = t.
Proof.
  revert t. induction l as [|j l IH]; intros t Ht Hl Hz; [done|]. apply Forall_cons in Hl as [_ Hl]. cbn.
  rewrite list_insert_id by (apply Hz; left). apply IH; [done|done|]. intros i Hi. apply Hz. by right.
Qed.

(** ** AllocMultiDesc *)
Lemma alloc_multi_upd q n : ∀ descs row v d, in_range q d → row_ok row → 
  alloc_multi q n descs (upd q row v d) =
  (if decide (n ≤ length (free_descs row))%nat
   then mret (true, descs ++ take n (free_descs row))
   else FreeDescs q (descs ++ free_descs row);; mret (false, descs ++ free_descs row ++ [0xffffffff]))
  (upd q (set_all row (take n (free_descs row))) v d).
Proof.
  induction n as [|n IH]; intros descs row v d Hq Hr; cbn [alloc_multi].
  { rewrite decide_True by lia. by rewrite app_nil_r. }
  pose proof (AllocDesc_upd q row v d Hq Hr) as Ha. destruct (free_descs row) as [|j t] eqn:Ef.
  - rewrite (bind_Ok _ _ _ _ _ Ha). cbv zeta. change (u32 (-1)) with 0xffffffff. rewrite Z.eqb_refl.
    rewrite decide_False by (cbn; lia). by rewrite app_nil_r.
  - rewrite (bind_Ok _ _ _ _ _ Ha). cbv zeta.
    assert (index j) as Hj by (apply (elem_of_free row j); rewrite Ef; left). unfold index in Hj.
    rewrite wrap_small by lia. rewrite (proj2 (Z.eqb_neq j 0xffffffff)) by lia.
    rewrite IH by (done || by apply set1_ok). rewrite (free_set1 row j t Hr Ef), <-!app_assoc.
    cbn [length take app]. destruct (decide (n ≤ length t)%nat).
    + by rewrite decide_True by lia.
    + by rewrite decide_False by lia.
Qed.
Lemma masked_upd q row v d : masked (upd q row v d) = upd q row v (masked d).
Proof. by destruct d. Qed.
Lemma guarded_exact {A} (body : M device A) a d d' : mstatus_ok d → body (masked d) = Ok (a, d') →
  get_mstatus d' = get_mstatus (masked d) → guarded body d = Ok (a, put_mstatus (get_mstatus d) d').
Proof.
  intros Hok Hb Hm. assert (wp (guarded body) (λ a' d'', a' = a ∧ d'' = put_mstatus (get_mstatus d) d') d) as H.
  { apply wp_guarded; [done|]. unfold wp. by rewrite Hb. }
  apply wp_ok in H as (a' & d'' & E & -> & ->). exact E.
Qed.
Lemma put_masked_upd q row v d : put_mstatus (get_mstatus d) (upd q row v (masked d)) = upd q row v d.
Proof. by destruct d as [? ? ? ? ? ? ? [? ? ? ? [] ?]]. Qed.
Lemma in_range_masked q d : in_range q d → in_range q (masked d).
Proof. by destruct d. Qed.
Lemma free_index row : Forall index (free_descs row).
Proof. apply Forall_forall. intros j Hj. by apply (elem_of_free row j). Qed.
Lemma take_free row n j : j ∈ take n (free_descs row) → index j ∧ bit_at row j = false.
Proof. intros Hj. apply elem_of_free. apply (subseteq_take n (free_descs row)), Hj. Qed.
Lemma AllocMultiDesc_run q n row v d : dev_ok q row v d → mstatus_ok d →
  AllocMultiDesc q n d =
    if decide (n ≤ length (free_descs row))%nat
    then Ok ((true, take n (free_descs row)), upd q (set_all row (take n (free_descs row))) v d)
    else Ok ((false, free_descs row ++ [0xffffffff]), d).
Proof.
  intros Hd Hm. pose proof (dev_ok_range _ _ _ _ Hd) as Hq. destruct Hd as [E1 E2 Hr Hl Hz].
  unfold AllocMultiDesc. rewrite <-(upd_id q row v d) at 1 by done.
  pose proof (alloc_multi_upd q n [] row v (masked d) (in_range_masked _ _ Hq) Hr) as H.
  rewrite <-masked_upd in H. cbn [app] in H. destruct (decide _) as [Hn|Hn].
  - rewrite upd_id in H |- * by done. rewrite (guarded_exact _ _ _ _ Hm H); [by rewrite put_masked_upd|]. by destruct d.
  - rewrite take_ge in H by lia.
    assert (∀ j, j ∈ free_descs row → bit_at row j = false) as Hf by (intros j; apply elem_of_free).
    erewrite bind_Ok in H.
    2: { apply FreeDescs_upd; [by apply in_range_masked|by apply set_all_ok|done|apply free_index|apply NoDup_free|].
         intros j Hj. rewrite bit_at_set_all; [by rewrite decide_True|done|apply free_index|].
         apply elem_of_free in Hj as [[? ?] _]. done. }
    rewrite clear_set_all in H by (done || apply free_index).
    rewrite zero_all_id in H; [|done|apply free_index|].
    2: { intros j Hj. apply elem_of_free in Hj as [? ?]. by apply Hz. }
    rewrite upd_id in H |- * by done. rewrite (guarded_exact _ _ _ _ Hm H); [|by destruct d].
    replace (with_desc (desc v) v) with v by (by destruct v). rewrite put_masked_upd. f_equal. f_equal. by apply upd_id.
Qed.

(** ** The request chain *)
Definition desc_of (r : req) (next : option Z) : virtq_desc :=
  match next with
  | Some next => fill_desc (r_addr r) (r_size r)
      (if r_write r then Z.lor VIRTQ_DESC_F_NEXT VIRTQ_DESC_F_WRITE else VIRTQ_DESC_F_NEXT) next
  | None => fill_desc (r_addr r) (r_size r) (if r_write r then VIRTQ_DESC_F_WRITE else 0) 0
  end.
Fixpoint fill_all (t : list virtq_desc) (ds : list Z) (reqs : list req) {struct reqs} : list virtq_desc :=
  match reqs, ds with
  | r :: reqs, i :: ds =>
    fill_all (<[Z.to_nat i := desc_of r (match reqs with [] => None | _ => head ds end)]> t) ds reqs
  | _, _ => t
  end.
(** what a device reads from the table when it follows the chain from [i] *)
Definition desc_view (x : virtq_desc) : Z * Z * bool := (d_addr x, d_len x, nonzero (Z.land (d_flags x) VIRTQ_DESC_F_WRITE)).
Fixpoint walk (fuel : nat) (t : list virtq_desc) (i : Z) : list (Z * Z * bool) :=
  match fuel with
  | O => []
  | S fuel =>
    match t !! Z.to_nat i with
    | None => []
    | Some x => desc_view x :: if nonzero (Z.land (d_flags x) VIRTQ_DESC_F_NEXT) then walk fuel t (d_next x) else []
    end
  end.
Definition req_view (r : req) : Z * Z * bool := (u64 (r_addr r), u32 (r_size r), r_write r).
Lemma length_fill_all reqs : ∀ t ds, length (fill_all t ds reqs) = length t.
Proof. induction reqs as [|r reqs IH]; intros t [|i ds]; cbn [fill_all]; [done..|]. by rewrite IH, length_insert. Qed.
Lemma fill_all_ne reqs : ∀ t ds (i : Z), i ∉ ds → Forall index ds → index i → fill_all t ds reqs !! Z.to_nat i = t !! Z.to_nat i.
Proof.
  unfold index. induction reqs as [|r reqs IH]; intros t [|j ds] i Hi Hds Hidx; cbn [fill_all]; [done..|].
  apply Forall_cons in Hds as [Hj Hds]. apply not_elem_of_cons in Hi as [Hne Hi].
  rewrite IH by done. apply list_lookup_insert_ne. lia.
Qed.
Lemma request_cons q descs k r r' reqs : request q descs k (r :: r' :: reqs) =
  (i ← desc_at descs k; next ← desc_at descs (k + 1);
   put_desc q i (desc_of r (Some next));; request q descs (k + 1) (r' :: reqs)).
Proof. done. Qed.
Lemma request_upd q descs row d reqs : ∀ k v, in_range q d → length (desc v) = 32%nat → Forall index descs →
  (k + length reqs ≤ length descs)%nat →
  request q descs k reqs (upd q row v d) = Ok ((), upd q row (with_desc (fill_all (desc v) (drop k descs) reqs) v) d).
Proof.
  induction reqs as [|r reqs IH]; intros k v Hq Hl Hds Hk; [by destruct v|]. cbn [length] in Hk.
  destruct (lookup_lt_is_Some_2 descs k) as [i Ei]; [lia|]. assert (index i) as Hi by (by eapply Forall_lookup_1 in Hds).
  assert (desc_at descs k (upd q row v d) = Ok (i, upd q row v d)) as Ed by (unfold desc_at; by rewrite Ei).
  rewrite (drop_S _ _ _ Ei). destruct reqs as [|r' reqs].
  - cbn [request]. rewrite (bind_Ok _ _ _ _ _ Ed). cbn [fill_all]. by apply put_desc_upd.
  - rewrite request_cons, (bind_Ok _ _ _ _ _ Ed). destruct (lookup_lt_is_Some_2 descs (k + 1)) as [i' Ei']; [cbn in *; lia|].
    assert (desc_at descs (k + 1) (upd q row v d) = Ok (i', upd q row v d)) as Ed' by (unfold desc_at; by rewrite Ei').
    rewrite (bind_Ok _ _ _ _ _ Ed'). rewrite (bind_Ok _ _ _ _ _ (put_desc_upd q i _ row v d Hq Hl Hi)).
    rewrite IH; [|done|cbn; by rewrite length_insert|done|cbn in *; lia].
    f_equal. f_equal. rewrite Nat.add_1_r in *. rewrite (drop_S _ _ _ Ei'). reflexivity.
Qed.
Lemma walk_fill reqs : ∀ t i ds, NoDup (i :: ds) → Forall index (i :: ds) → length t = 32%nat → reqs ≠ [] →
  length (i :: ds) = length reqs → ∀ t' fuel, (∀ j, j ∈ i :: ds → t' !! Z.to_nat j = fill_all t (i :: ds) reqs !! Z.to_nat j) →
  (length reqs ≤ fuel)%nat → walk fuel t' i = req_view <$> reqs.
Proof.
  induction reqs as [|r reqs IH]; intros t i ds Hnd Hidx Ht Hr Hl t' fuel Ht' Hfu; [done|].
  destruct fuel as [|fuel]; [cbn in Hfu; lia|]. cbn [length] in Hfu. cbn [walk].
  apply NoDup_cons in Hnd as [Hn Hnd]. pose proof Hidx as [Hi Hds]%Forall_cons.
  rewrite (Ht' i ltac:(left)). cbn [fill_all]. rewrite fill_all_ne by done.
  unfold index in Hi. rewrite list_lookup_insert_eq by lia. cbn [fmap list_fmap].
  assert (∀ b : bool, nonzero (Z.land (u16 (if b then 2 else 0)) 2) = b ∧ nonzero (Z.land (u16 (if b then 2 else 0)) 1) = false ∧
    nonzero (Z.land (u16 (if b then Z.lor 1 2 else 1)) 2) = b ∧ nonzero (Z.land (u16 (if b then Z.lor 1 2 else 1)) 1) = true ∧
    nonzero (Z.land (if b then Z.lor 1 2 else 1) 1) = true) as Hfl by (by intros []).
  destruct (Hfl (r_write r)) as (F1 & F2 & F3 & F4 & F5).
  destruct reqs as [|r' reqs]; cbn [desc_of].
  - unfold desc_view, fill_desc. cbn [d_addr d_len d_flags d_next]. unfold VIRTQ_DESC_F_WRITE, VIRTQ_DESC_F_NEXT in *.
    by rewrite F1, F2.
  - destruct ds as [|i' ds]; [done|]. cbn [head desc_of].
    unfold desc_view, fill_desc. cbn [d_addr d_len d_flags d_next]. unfold VIRTQ_DESC_F_WRITE, VIRTQ_DESC_F_NEXT in *.
    rewrite F3, F4, F5. pose proof Hds as [Hi' _]%Forall_cons. unfold index in Hi'. rewrite (wrap_small 16 i') by lia. f_equal.
    eapply IH; [exact Hnd|exact Hds| |discriminate|cbn in *; lia| |lia].
    2: { intros j Hj. rewrite (Ht' j ltac:(by right)). reflexivity. }
    by rewrite length_insert.
Qed.

Lemma get_upd q row v d : get_mstatus (upd q row v d) = get_mstatus d.
Proof. done. Qed.
Lemma mmio_transport_run q reqs row v d : dev_ok q row v d → mstatus_ok d →
  let ds := take (length reqs) (free_descs row) in
  mmio_transport q reqs d =
    if decide (length reqs ≤ length (free_descs row))%nat
    then Ok (Transport q true ds, upd q (set_all row ds) (with_desc (fill_all (desc v) ds reqs) v) d)
    else Ok (Transport q false (free_descs row ++ [0xffffffff]), d).
Proof.
  intros Hd Hm ds. pose proof (dev_ok_range _ _ _ _ Hd) as Hq. unfold mmio_transport.
  pose proof (AllocMultiDesc_run q (length reqs) row v d Hd Hm) as H. fold ds in H. destruct (decide _) as [Hn|Hn].
  - rewrite (bind_Ok _ _ _ _ _ H). cbv beta iota.
    rewrite (bind_Ok _ _ _ () (upd q (set_all row ds) (with_desc (fill_all (desc v) ds reqs) v) d)); [done|].
    rewrite (request_upd q ds (set_all row ds) d reqs 0 v Hq); [done|by destruct Hd| |].
    + apply Forall_forall. intros j Hj. by apply take_free in Hj as [? _].
    + subst ds. rewrite length_take. lia.
  - by rewrite (bind_Ok _ _ _ _ _ H).
Qed.
Lemma ds_facts row n : let ds := take n (free_descs row) in
  Forall index ds ∧ NoDup ds ∧ ∀ j, j ∈ ds → bit_at row j = false.
Proof.
  intros ds. split; [|split].
  - apply Forall_forall. intros j Hj. by apply take_free in Hj as [? _].
  - eapply sublist_NoDup; [apply NoDup_free|]. apply sublist_take.
  - intros j Hj. by apply take_free in Hj as [_ ?].
Qed.

(** * Properties *)
(** Descriptors are allocated all or none: when at least [n] are free, the
    call takes the [n] lowest-numbered ones and marks exactly those; otherwise it
    gives back what it took and changes nothing.  Either way every descriptor
    marked free is zero. *)
Theorem AllocMultiDesc_all_or_none q n row v d :
  dev_ok q row v d → mstatus_ok d →
  if decide (n ≤ length (free_descs row))%nat then
    ∃ row' d', AllocMultiDesc q n d = Ok ((true, take n (free_descs row)), d') ∧ dev_ok q row' v d' ∧
      (∀ i, index i → bit_at row' i = bool_decide (i ∈ take n (free_descs row)) || bit_at row i) ∧
      free_descs row' = drop n (free_descs row)
  else ∃ ds, AllocMultiDesc q n d = Ok ((false, ds), d).
Proof.
  intros Hd Hm. pose proof (AllocMultiDesc_run q n row v d Hd Hm) as H.
  destruct (decide _) as [Hn|Hn]; [|by eexists].
  pose proof (dev_ok_range _ _ _ _ Hd) as Hq. destruct Hd as [_ _ Hr Hl Hz]. destruct (ds_facts row n) as (Hi & Hnd & Hb).
  eexists (set_all row (take n (free_descs row))), _. split; [exact H|].
  assert (∀ i, index i → bit_at (set_all row (take n (free_descs row))) i = bool_decide (i ∈ take n (free_descs row)) || bit_at row i) as Hbits.
  { intros i [Hi0 Hi1]. rewrite bit_at_set_all by done. by case_decide; [rewrite bool_decide_eq_true_2|rewrite bool_decide_eq_false_2]. }
  split; [|split; [done|]].
  - split; [by apply upd_row|by apply upd_queue|by apply set_all_ok|done|]. intros i Hidx Hbi.
    rewrite Hbits in Hbi by done. apply Hz; [done|]. by destruct (bit_at row i); [rewrite orb_true_r in Hbi|].
  - clear -Hr. revert row Hr. induction n as [|n IH]; intros row Hr; cbn [take drop]; [done|].
    destruct (free_descs row) as [|j t] eqn:E; [done|]. cbn [take drop set_all foldl].
    pose proof (free_set1 row j t Hr E) as <-. apply IH. by apply set1_ok.
Qed.
Definition demo_queue (t : list virtq_desc) : virt_queue := Queue t (Avail 5 (replicate 32 0)) (Used 5 (replicate 32 (0, 0))).
(** descriptors 0, 1 and 3 of queue 0 are taken *)
Definition demo_row : list Z := [11; 0; 0; 0].
Definition demo_device : device :=
  Dev [demo_row; [0; 0; 0; 0]]
    [Some (demo_queue (Desc 1 1 0 0 :: Desc 2 2 0 0 :: desc0 :: Desc 3 3 0 0 :: replicate 28 desc0)); None]
    (replicate 32 false) [5; 0] [false; false] 0x80020000 []
    (Sched [set_state running task0] (Some 0%nat) 0 None demo_idle_vm 2).
Lemma demo_device_ok : dev_ok 0 demo_row
  (demo_queue (Desc 1 1 0 0 :: Desc 2 2 0 0 :: desc0 :: Desc 3 3 0 0 :: replicate 28 desc0)) demo_device.
Proof.
  split; try done.
  - split; [done|]. repeat constructor; lia.
  - intros i [H0 H1] Hb. assert (i ∈ seqZ 0 32) as Hi by (apply elem_of_seqZ; lia).
    clear H0 H1. revert Hb. pattern i. revert i Hi. apply Forall_forall. repeat (constructor; [done|]). constructor.
Qed.
Lemma AllocMultiDesc_all_or_none_witness :
  ∃ row' d', AllocMultiDesc 0 2 demo_device = Ok ((true, [2; 4]), d') ∧
    bit_map_ d' !! 0%nat = Some row' ∧ row' = [31; 0; 0; 0].
Proof.
  pose proof (AllocMultiDesc_all_or_none 0 2 demo_row _ demo_device demo_device_ok) as H.
  rewrite decide_True in H by (vm_compute; lia).
  destruct H as (row' & d' & H1 & H2 & H3 & _); [vm_compute; split; [discriminate|reflexivity]|].
  exists row', d'. split; [exact H1|]. split; [by destruct H2|].
  apply row_ext; [by destruct H2|split; [done|repeat constructor; lia]|].
  intros i Hi. rewrite H3 by done. revert i Hi. intros i [H4 H5]. assert (i ∈ seqZ 0 32) as Hi by (apply elem_of_seqZ; lia).
  clear H4 H5. pattern i. revert i Hi. apply Forall_forall. vm_compute. repeat constructor.
Defined.

(** The chain of a transport.  With enough free descriptors, a device that
    follows the chain from the transport's first descriptor reads exactly the
    requests, in order, with their lengths and directions, and the chain ends
    there; no descriptor that was in use is touched.  Without, the transport is
    marked failed, nothing changes, and notifying and waiting do nothing. *)
Theorem transport_chain q reqs row v d :
  dev_ok q row v d → mstatus_ok d → reqs ≠ [] →
  if decide (length reqs ≤ length (free_descs row))%nat then
    ∃ t d' v' i, mmio_transport q reqs d = Ok (t, d') ∧ desc_alloc_succ t = true ∧ queue d' !! q = Some (Some v') ∧
      head (descs_ t) = Some i ∧ descs_ t = take (length reqs) (free_descs row) ∧
      walk 32 (desc v') i = req_view <$> reqs ∧
      (∀ j, index j → bit_at row j = true → desc v' !! Z.to_nat j = desc v !! Z.to_nat j)
  else ∃ t, mmio_transport q reqs d = Ok (t, d) ∧ trigger_notify t d = Ok ((), d) ∧
    wait_complete t d = Ok ((false, Completed), d).
Proof.
  intros Hd Hm Hne. pose proof (mmio_transport_run q reqs row v d Hd Hm) as H.
  pose proof (dev_ok_range _ _ _ _ Hd) as Hq. destruct Hd as [_ _ Hr Hl Hz].
  destruct (ds_facts row (length reqs)) as (Hi & Hnd & Hb). cbv zeta in H.
  destruct (decide _) as [Hn|Hn]; [|by eexists].
  set (ds := take (length reqs) (free_descs row)) in *.
  assert (length ds = length reqs) as Hlen by (subst ds; rewrite length_take; lia).
  assert (length reqs ≤ 32)%nat as H32.
  { rewrite <-Hlen. clear -Hi Hnd. change 32%nat with (length (seqZ 0 32)). apply submseteq_length, NoDup_submseteq; [done|].
    intros j Hj. eapply Forall_forall in Hj; [|exact Hi]. apply elem_of_seqZ. exact Hj. }
  destruct ds as [|i ds'] eqn:Eds; [by destruct reqs|].
  eexists _, _, _, i. split; [exact H|]. split; [done|]. split; [by apply upd_queue|]. split; [done|]. split; [done|]. split.
  - by eapply walk_fill.
  - intros j Hj Hbj. cbn [desc with_desc]. apply fill_all_ne; [|done|done]. intros Hin. apply Hb in Hin. congruence.
Qed.
Lemma transport_chain_witness :
  ∃ t d' v', mmio_transport 0 [Req 0x1000 16 false; Req 0x2000 512 true; Req 0x3000 1 true] demo_device = Ok (t, d') ∧
    queue d' !! 0%nat = Some (Some v') ∧ descs_ t = [2; 4; 5] ∧
    walk 32 (desc v') 2 = [(0x1000, 16, false); (0x2000, 512, true); (0x3000, 1, true)].
Proof.
  pose proof (transport_chain 0 [Req 0x1000 16 false; Req 0x2000 512 true; Req 0x3000 1 true] demo_row _ demo_device demo_device_ok) as H.
  rewrite decide_True in H by (vm_compute; lia).
  destruct H as (t & d' & v' & i & H1 & H2 & H3 & H4 & H5 & H6 & _); [vm_compute; split; [discriminate|reflexivity]|done|].
  exists t, d', v'. split; [exact H1|]. split; [exact H3|]. split; [by rewrite H5|].
  rewrite H5 in H4. assert (i = 2) as -> by (by injection H4). exact H6.
Defined.
