(* ===== verification/VirtioBlk.v ===== *)
(** The block device of [driver/virtio_blk.h] and [driver/virtio_blk.cc], with the
    negotiation of [driver/negotiater_mmio.h]: what it writes to its device, how a
    request is built, and what the used-buffer interrupt does with completions. *)
From S2P Require Import Prelude Riscv Lock MemoryList VirtualMemory Process Scheduler Virtio.

(** * virtio_blk.h *)
Definition unit : Z := 512.
Inductive blk_feature_bit :=
| VIRTIO_BLK_F_BARRIER | VIRTIO_BLK_F_SIZE_MAX | VIRTIO_BLK_F_SEG_MAX | VIRTIO_BLK_F_GEOMETRY | VIRTIO_BLK_F_RO
| VIRTIO_BLK_F_BLK_SIZE | VIRTIO_BLK_F_SCSI | VIRTIO_BLK_F_FLUSH | VIRTIO_BLK_F_TOPOLOGY | VIRTIO_BLK_F_CONFIG_WCE
| VIRTIO_BLK_F_MQ | VIRTIO_BLK_F_DISCARD | VIRTIO_BLK_F_WRITE_ZEROES.
Definition blk_feature_value (f : blk_feature_bit) : Z :=
  Z.shiftl 1 match f with
  | VIRTIO_BLK_F_BARRIER => 0 | VIRTIO_BLK_F_SIZE_MAX => 1 | VIRTIO_BLK_F_SEG_MAX => 2 | VIRTIO_BLK_F_GEOMETRY => 4
  | VIRTIO_BLK_F_RO => 5 | VIRTIO_BLK_F_BLK_SIZE => 6 | VIRTIO_BLK_F_SCSI => 7 | VIRTIO_BLK_F_FLUSH => 9
  | VIRTIO_BLK_F_TOPOLOGY => 10 | VIRTIO_BLK_F_CONFIG_WCE => 11 | VIRTIO_BLK_F_MQ => 12 | VIRTIO_BLK_F_DISCARD => 13
  | VIRTIO_BLK_F_WRITE_ZEROES => 14
  end.
Inductive req_type := VIRTIO_BLK_T_IN | VIRTIO_BLK_T_OUT | VIRTIO_BLK_T_FLUSH | VIRTIO_BLK_T_DISCARD | VIRTIO_BLK_T_WRITE_ZEROES.
Definition req_type_value (t : req_type) : Z :=
  match t with
  | VIRTIO_BLK_T_IN => 0 | VIRTIO_BLK_T_OUT => 1 | VIRTIO_BLK_T_FLUSH => 4 | VIRTIO_BLK_T_DISCARD => 11
  | VIRTIO_BLK_T_WRITE_ZEROES => 13
  end.
Record virtio_blk_req := BlkReq { type : req_type; reserved : Z; sector : Z }.
(** the 16 bytes of the request header the device reads *)
Definition enc_req (r : virtio_blk_req) : list Z :=
  le_bytes 4 (req_type_value (type r)) ++ le_bytes 4 (reserved r) ++ le_bytes 8 (sector r).
Inductive status_type := VIRTIO_BLK_S_OK | VIRTIO_BLK_S_IOERR | VIRTIO_BLK_S_UNSUPP.
Definition status_of (b : Z) : status_type :=
  if b =? 0 then VIRTIO_BLK_S_OK else if b =? 1 then VIRTIO_BLK_S_IOERR else VIRTIO_BLK_S_UNSUPP.
Inductive Operation := op_read | op_write.
Definition is_read (op : Operation) : bool := match op with op_read => true | op_write => false end.
Record MetaData := Meta { buf : Z; block_index : Z }.

Definition blk_header (op : Operation) (m : MetaData) : virtio_blk_req :=
  BlkReq (if is_read op then VIRTIO_BLK_T_IN else VIRTIO_BLK_T_OUT) 0 (block_index m).
(** [&req], [wrap_blk_data<op>(buf)] and [&resp]; [req_addr] and [resp_addr] are
    the addresses of the two locals *)
Definition blk_reqs (op : Operation) (req_addr resp_addr : Z) (m : MetaData) : list req :=
  [Req req_addr 16 false; Req (buf m) block_size (is_read op); Req resp_addr 1 true].
(** [Operate] up to its wait, and what it returns for the status byte it then finds *)
Definition Operate_submit (op : Operation) (req_addr resp_addr : Z) (m : MetaData) : M device transport :=
  if buf m =? 0 then stop_with (Panicked "BlockDevice::Operate: Got empty data buf")
  else
    t ← mmio_transport 0 (blk_reqs op req_addr resp_addr m);
    trigger_notify t;;
    mret t.
Definition Operate_result (resp_status : Z) : bool :=
  match status_of resp_status with VIRTIO_BLK_S_OK => true | _ => false end.

(** * virtio_blk.cc: completions.  [fuel] bounds the loop. *)
Definition complete_one (v : virt_queue) (last : Z) : M device () :=
  '(id, _) ← of_option (Faulted "used.ring") (used_ring (used v) !! Z.to_nat (last mod queue_buffer_size));
  w ← gets waiting_flag;
  (if (Z.to_nat id <? length w)%nat then modify (set_waiting (<[Z.to_nat id := false]> w))
   else stop_with (Faulted "internal_data_"));;
  l ← gets last_seen_used_idx_;
  modify (set_last (<[0%nat := u32 (last + 1)]> l));;
  this ← gets this_;
  dev_on_sched (Wakeup (Some (device_channel this))).
Fixpoint notify_loop (fuel : nat) : M device () :=
  v ← get_queue 0;
  l ← gets last_seen_used_idx_;
  last ← of_option (Faulted "last_seen_used_idx_") (l !! 0%nat);
  if last =? used_idx (used v) then mret ()
  else match fuel with
       | O => stop_with OutOfFuel
       | S fuel => complete_one v last;; notify_loop fuel
       end.
Definition UsedBufferNotify (fuel : nat) : M device () := guarded (notify_loop fuel).

(** * negotiater_mmio.h *)
(** the negotiater's members, the queue pages given to the device, and the page allocator *)
Record nego := Nego { has_init_ : bool; has_feature_ : list bool; pages : list Z; n_vm : vmstate }.
(** the two feature loops: [has_feature_] and [selected_feat] *)
Definition select (low : Z) (acc : list bool * Z) (feat : Z) : list bool * Z :=
  if nonzero (Z.land low feat) then (acc.1 ++ [true], u32 (Z.lor acc.2 feat)) else (acc.1 ++ [false], acc.2).
Definition select_features (low : Z) (independent spec : list Z) : list bool * Z :=
  foldl (select low) (foldl (select low) ([], 0) independent) spec.
Fixpoint init_queues (addr_ : Z) (n : nat) (queue_index : Z) (s : nego) : io (res (bool * nego)) :=
  match n with
  | O => mret (Ok (true, s))
  | S n =>
    W_WORD (mmio addr_ QueueSel) queue_index;;
    pfn ← R_WORD (mmio addr_ QueuePFN);
    if negb (pfn =? 0) then mret (Ok (false, s))
    else
      max_queue_buffer ← R_WORD (mmio addr_ QueueNumMax);
      if max_queue_buffer <? queue_buffer_size then mret (Ok (false, s))
      else
        W_WORD (mmio addr_ QueueNum) queue_buffer_size;;
        W_WORD (mmio addr_ QueueAlign) PGSIZE;;
        match AllocContinuousPage 2 (n_vm s) with
        | Stop e => mret (Stop e)
        | Ok (page, vm) =>
          let s := Nego (has_init_ s) (has_feature_ s) (pages s) vm in
          if page =? 0 then mret (Ok (false, s))
          else
            W_WORD (mmio addr_ QueuePFN) (page / PGSIZE);;
            init_queues addr_ n (queue_index + 1) (Nego (has_init_ s) (has_feature_ s) (pages s ++ [page]) vm)
        end
  end.
Definition init (addr_ : Z) (independent spec : list Z) (queue_num : nat) (s : nego) : io (res (bool * nego)) :=
  if has_init_ s then mret (Ok (false, s))
  else
    let status := 0 in
    W_WORD (mmio addr_ Status) status;;
    let status := Z.lor status (status_bit ACKNOWLEDGE) in
    W_WORD (mmio addr_ Status) status;;
    let status := Z.lor status (status_bit DRIVER) in
    W_WORD (mmio addr_ Status) status;;
    W_WORD (mmio addr_ DeviceFeaturesSel) 0;;
    feature_bits_low ← R_WORD (mmio addr_ DeviceFeatures);
    let '(has, selected_feat) := select_features feature_bits_low independent spec in
    W_WORD (mmio addr_ DriverFeaturesSel) 0;;
    W_WORD (mmio addr_ DriverFeatures) selected_feat;;
    W_WORD (mmio addr_ DeviceFeaturesSel) 1;;
    _ ← R_WORD (mmio addr_ DeviceFeatures);
    let status := Z.lor status (status_bit FEATURES_OK) in
    W_WORD (mmio addr_ Status) status;;
    device_status ← R_WORD (mmio addr_ Status);
    let s := Nego true has (pages s) (n_vm s) in
    if negb (nonzero (Z.land device_status (status_bit FEATURES_OK))) then mret (Ok (false, s))
    else
      W_WORD (mmio addr_ GuestPageSize) PGSIZE;;
      r ← init_queues addr_ queue_num 0 s;
      match r with
      | Ok (true, s) =>
        let status := Z.lor status (status_bit DRIVER_OK) in
        W_WORD (mmio addr_ Status) status;; mret (Ok (true, s))
      | r => mret r
      end.
(** [BlockDevice::Init]; the result holds the capacity in bytes *)
Definition BlockDevice_Init (addr_ : Z) (vm : vmstate) : io (res (option Z * nego)) :=
  let s := Nego false [] [] vm in
  ok ← Validate addr_ block_device;
  if negb ok then mret (Ok (None, s))
  else
    r ← init addr_ (feature_value <$> [VIRTIO_F_RING_INDIRECT_DESC; VIRTIO_F_NOTIFY_ON_EMPTY])
      (blk_feature_value <$> [VIRTIO_BLK_F_SEG_MAX; VIRTIO_BLK_F_GEOMETRY; VIRTIO_BLK_F_BLK_SIZE; VIRTIO_BLK_F_FLUSH;
        VIRTIO_BLK_F_TOPOLOGY; VIRTIO_BLK_F_DISCARD; VIRTIO_BLK_F_WRITE_ZEROES]) 1 s;
    match r with
    | Stop e => mret (Stop e)
    | Ok (false, s) => mret (Ok (None, s))
    | Ok (true, s) =>
      capacity ← R_DWORD (mmio addr_ Config);
      mret (Ok (Some (u64 (capacity * unit)), s))
    end.

(** * The device's side: one request completed *)
Definition device_complete (q : nat) (id len : Z) : M device () :=
  v ← get_queue q;
  put_queue q (Queue (desc v) (avail v)
    (Used (u16 (used_idx (used v) + 1)) (<[Z.to_nat (used_idx (used v) mod 32) := (id, len)]> (used_ring (used v))))).

(** * Negotiation: what the device sees *)
(** a device whose answers depend on all that has been written to it *)
Abbreviation history := (list (Z * Z)).
Definition watch {A} (f : history → Z → Z → Z) (m : io A) (h : history) : A * history :=
  io_run (λ h w a, (f h w a, h)) (λ h w a v, h ++ [(a, v)]) m h.
Definition writes_to (a : Z) (h : history) : list Z := (filter (λ w, w.1 = a) h).*2.
Lemma watch_bind {A B} f (m : io A) (k : A → io B) h :
  watch f (m ≫= k) h = let '(a, h') := watch f m h in watch f (k a) h'.
Proof. revert h. induction m as [a|w a v m IH|w a m IH]; intros h; cbn; [done|apply IH|apply IH]. Qed.
Lemma writes_to_app a h1 h2 : writes_to a (h1 ++ h2) = writes_to a h1 ++ writes_to a h2.
Proof. unfold writes_to. by rewrite list.filter_app, fmap_app. Qed.
Lemma select_features_spec low independent spec :
  (∀ x, x ∈ independent ++ spec → ∃ k, 0 ≤ k < 32 ∧ x = Z.shiftl 1 k) →
  let '(has, sel) := select_features low independent spec in
  has = (λ x, nonzero (Z.land low x)) <$> (independent ++ spec) ∧ sel = Z.land low (foldr Z.lor 0 (independent ++ spec)).
Proof.
  intros Hx. unfold select_features. rewrite <-foldl_app.
  assert (∀ l acc has, (∀ x, x ∈ l → ∃ k, 0 ≤ k < 32 ∧ x = Z.shiftl 1 k) → 0 ≤ acc < 2 ^ 32 →
    let '(has', sel) := foldl (select low) (has, acc) l in
    has' = has ++ ((λ x, nonzero (Z.land low x)) <$> l) ∧ sel = Z.lor acc (Z.land low (foldr Z.lor 0 l))) as H.
  { induction l as [|x l IH]; intros acc has Hl Hacc; cbn [foldl foldr fmap list_fmap].
    { rewrite app_nil_r, Z.land_0_r, Z.lor_0_r. done. }
    destruct (Hl x ltac:(left)) as (k & Hk & ->).
    assert (Z.land low (Z.shiftl 1 k) = if Z.testbit low k then Z.shiftl 1 k else 0) as Hland.
    { apply Z.bits_inj'. intros j Hj. rewrite Z.land_spec, Z.shiftl_1_l. destruct (decide (j = k)) as [->|].
      - rewrite Z.pow2_bits_true by lia. rewrite andb_true_r. destruct (Z.testbit low k); [by rewrite Z.pow2_bits_true by lia|by rewrite Z.bits_0].
      - rewrite Z.pow2_bits_false by lia. rewrite andb_false_r. destruct (Z.testbit low k); [by rewrite Z.pow2_bits_false by lia|by rewrite Z.bits_0]. }
    rewrite Z.land_lor_distr_r, Hland. unfold select at 2. cbn [fst snd]. rewrite Hland. destruct (Z.testbit low k).
    - assert (0 < Z.shiftl 1 k < 2 ^ 32).
      { rewrite Z.shiftl_1_l. split; [apply Z.pow_pos_nonneg; lia|]. apply Z.pow_lt_mono_r; lia. }
      assert (nonzero (Z.shiftl 1 k) = true) as -> by (apply nonzero_true; lia).
      assert (0 ≤ Z.lor acc (Z.shiftl 1 k) < 2 ^ 32) by (apply lor_range; lia).
      rewrite wrap_small by done. specialize (IH (Z.lor acc (Z.shiftl 1 k)) (has ++ [true])).
      destruct (foldl _ _ l). destruct IH as [-> ->]; [intros; apply Hl; by right|done|]. split; [by rewrite <-app_assoc|].
      by rewrite Z.lor_assoc.
    - change (nonzero 0) with false. specialize (IH acc (has ++ [false])).
      destruct (foldl _ _ l). destruct IH as [-> ->]; [intros; apply Hl; by right|done|]. by rewrite <-app_assoc. }
  specialize (H (independent ++ spec) 0 [] Hx ltac:(lia)). destruct (foldl _ _ _). destruct H as [-> ->]. done.
Qed.
#[export] Instance mmio_addr_eq_dec : EqDecision mmio_addr.
Proof. solve_decision. Defined.
Lemma mmio_inj addr_ r r' : mmio addr_ r = mmio addr_ r' → r = r'.
Proof. unfold mmio. intros H. assert (mmio_offset r = mmio_offset r') by lia. by destruct r, r'. Qed.
Lemma watch_W f addr_ r v h : watch f (W_WORD (mmio addr_ r) v) h = ((), h ++ [(mmio addr_ r, u32 v)]).
Proof. done. Qed.
Lemma watch_R f addr_ r h : watch f (R_WORD (mmio addr_ r)) h = (u32 (f h 32 (mmio addr_ r)), h).
Proof. done. Qed.
Lemma writes_to_snoc addr_ r r' v h :
  writes_to (mmio addr_ r) (h ++ [(mmio addr_ r', v)]) = writes_to (mmio addr_ r) h ++ if decide (r' = r) then [v] else [].
Proof.
  rewrite writes_to_app. f_equal. unfold writes_to. rewrite filter_cons. cbn [fst]. destruct (decide (r' = r)) as [->|Hne].
  - by rewrite decide_True.
  - rewrite decide_False; [done|]. intros H. by apply Hne, (mmio_inj addr_).
Qed.
Ltac watch_steps := repeat first [rewrite watch_bind, watch_W | rewrite watch_bind, watch_R]; cbv beta iota.
Ltac writes := repeat rewrite writes_to_snoc; repeat (rewrite decide_True by done || rewrite decide_False by done);
  rewrite ?app_nil_r, <-?app_assoc; cbn [app].

(** what the queue loop writes: it selects the queues in turn, gives each that is
    set up its page, and leaves the status and the features alone *)
Lemma watch_init_queues f addr_ n : ∀ i s h,
  0 ≤ i → i + Z.of_nat n ≤ 2 ^ 32 →
  let '(r, h') := watch f (init_queues addr_ n i s) h in
  (∀ a, a = Status ∨ a = DriverFeatures → writes_to (mmio addr_ a) h' = writes_to (mmio addr_ a) h) ∧
  match r with
  | Ok (true, s') => has_init_ s' = has_init_ s ∧ ∃ ps, pages s' = pages s ++ ps ∧ length ps = n ∧
      writes_to (mmio addr_ QueueSel) h' = writes_to (mmio addr_ QueueSel) h ++ seqZ i (Z.of_nat n) ∧
      writes_to (mmio addr_ QueuePFN) h' = writes_to (mmio addr_ QueuePFN) h ++ ((λ p, u32 (p / PGSIZE)) <$> ps)
  | _ => True
  end.
Proof.
  induction n as [|n IH]; intros i s h Hi Hn; cbn [init_queues].
  { split; [done|]. split; [done|]. exists []. by rewrite !app_nil_r. }
  watch_steps. destruct (negb _).
  { split; [|done]. intros a [-> | ->]; by writes. }
  watch_steps. destruct (_ <? _).
  { split; [|done]. intros a [-> | ->]; by writes. }
  watch_steps. destruct (AllocContinuousPage 2 (n_vm s)) as [[page vm]|e].
  2: { split; [|done]. intros a [-> | ->]; by writes. }
  destruct (page =? 0).
  { split; [|done]. intros a [-> | ->]; by writes. }
  watch_steps. match goal with |- context [init_queues addr_ n (i + 1) ?s1] => set (s' := s1) end.
  match goal with |- context [watch f (init_queues _ _ _ _) ?h1] => set (h0 := h1) end.
  specialize (IH (i + 1) s' h0 ltac:(lia) ltac:(lia)). destruct (watch f (init_queues addr_ n (i + 1) s') h0) as [r h'].
  destruct IH as [H1 H2]. split.
  - intros a Ha. rewrite H1 by done. unfold h0. destruct Ha as [-> | ->]; by writes.
  - destruct r as [[[] s2]|]; [|done|done]. destruct H2 as (E0 & ps & E1 & E2 & E3 & E4). split; [done|]. exists (page :: ps).
    split; [rewrite E1; unfold s'; cbn [pages]; by rewrite <-app_assoc|]. split; [cbn; lia|]. split.
    + rewrite E3. unfold h0. writes. rewrite (seqZ_cons i) by lia. rewrite wrap_small by lia.
      by replace (Z.pred (Z.of_nat (S n))) with (Z.of_nat n) by lia.
    + rewrite E4. unfold h0. by writes.
Qed.

(** * Completions *)
Definition entry_id (v : virt_queue) (i : Z) : Z := default 0 (fst <$> used_ring (used v) !! Z.to_nat (i mod 32)).
(** the completions between two values of the used index *)
Definition completed (v : virt_queue) (a : Z) (k : nat) : list Z := entry_id v <$> seqZ a (Z.of_nat k).
Definition clear_flags (w : list bool) (ids : list Z) : list bool := foldl (λ w id, <[Z.to_nat id := false]> w) w ids.
Record notify_ok (v : virt_queue) (a : Z) (d : device) : Prop := {
  nk_queue : queue d !! 0%nat = Some (Some v);
  nk_last : last_seen_used_idx_ d !! 0%nat = Some a;
  nk_flags : length (waiting_flag d) = 32%nat;
  nk_ring : length (used_ring (used v)) = 32%nat;
  nk_ids : Forall (λ e, 0 ≤ e.1 < 32) (used_ring (used v));
  nk_chan : channels_ok (dev_sched d);
}.
Lemma length_clear_flags ids : ∀ w, length (clear_flags w ids) = length w.
Proof. induction ids as [|i ids IH]; intros w; [done|]. cbn. unfold clear_flags in IH. by rewrite IH, length_insert. Qed.
Lemma lookup_clear_flags ids : ∀ w j, Forall (λ i, 0 ≤ i < 32) ids → length w = 32%nat → 0 ≤ j < 32 →
  clear_flags w ids !! Z.to_nat j = if decide (j ∈ ids) then Some false else w !! Z.to_nat j.
Proof.
  induction ids as [|i ids IH]; intros w j Hids Hw Hj; [done|]. apply Forall_cons in Hids as [Hi Hids]. cbn.
  unfold clear_flags in IH. rewrite IH by (done || by rewrite length_insert). destruct (decide (j ∈ ids)).
  - by rewrite decide_True by (by right).
  - destruct (decide (j = i)) as [->|].
    + rewrite list_lookup_insert_eq by lia. by rewrite decide_True by left.
    + rewrite list_lookup_insert_ne by lia. rewrite decide_False; [done|]. set_solver.
Qed.
Lemma entry_lookup v i : length (used_ring (used v)) = 32%nat → Forall (λ e, 0 ≤ e.1 < 32) (used_ring (used v)) → 0 ≤ i →
  ∃ len, used_ring (used v) !! Z.to_nat (i mod 32) = Some (entry_id v i, len) ∧ 0 ≤ entry_id v i < 32.
Proof.
  intros Hl Hr Hi. unfold entry_id. destruct (lookup_lt_is_Some_2 (used_ring (used v)) (Z.to_nat (i mod 32))) as [[id len] E]; [dlia|].
  exists len. rewrite E. cbn. split; [done|]. eapply Forall_lookup_1 in Hr; [|exact E]. done.
Qed.
Lemma wp_complete_one v a d (Q : () → device → Prop) : notify_ok v a d → 0 ≤ a →
  (∀ s', woken (device_channel (this_ d)) true (dev_sched d) s' →
    Q () (Dev (bit_map_ d) (queue d) (<[Z.to_nat (entry_id v a) := false]> (waiting_flag d))
            (<[0%nat := u32 (a + 1)]> (last_seen_used_idx_ d)) (lk_ d) (this_ d) (notified d) s')) →
  wp (complete_one v a) Q d.
Proof.
  intros [Hq Hl Hw Hr Hids Hch] Ha HQ. unfold complete_one.
  destruct (entry_lookup v a Hr Hids Ha) as (len & E & Hid). unfold queue_buffer_size. rewrite E. cbn [of_option].
  do 4 wp_step. rewrite (proj2 (Nat.ltb_lt _ _)) by lia. do 6 wp_step. cbn [set_waiting set_last last_seen_used_idx_ this_].
  pose proof (wp_Wakeup (device_channel (this_ d)) _ Hch) as Hwk. apply wp_ok in Hwk as ([] & s' & Es & Hwk).
  do 2 wp_step. unfold wp, dev_on_sched. cbn. rewrite Es. by apply HQ.
Qed.
Lemma wp_notify_loop v k : ∀ a d fuel, notify_ok v a d → 0 ≤ a → a + Z.of_nat k = used_idx (used v) →
  used_idx (used v) < 2 ^ 16 → (k ≤ fuel)%nat →
  wp (notify_loop fuel) (λ _ d', bit_map_ d' = bit_map_ d ∧ queue d' = queue d ∧ lk_ d' = lk_ d ∧ this_ d' = this_ d ∧
    notified d' = notified d ∧ last_seen_used_idx_ d' = <[0%nat := used_idx (used v)]> (last_seen_used_idx_ d) ∧
    waiting_flag d' = clear_flags (waiting_flag d) (completed v a k) ∧
    woken (device_channel (this_ d)) (0 <? k)%nat (dev_sched d) (dev_sched d')) d.
Proof.
  induction k as [|k IH]; intros a d fuel Hok Ha Hk Hu Hf; pose proof Hok as [Hq Hl Hw Hr Hids Hch];
    (destruct fuel as [|fuel]; [try (exfalso; lia)|]); cbn [notify_loop];
    unfold get_queue; wp_steps; rewrite Hq; cbn [mjoin option_join of_option]; wp_steps; rewrite Hl; cbn [of_option]; wp_steps.
  1,2: replace (a =? used_idx (used v)) with true by lia; wp_step; split_and!; try done;
    (rewrite list_insert_id; [done|rewrite Hl; f_equal; lia]).
  replace (a =? used_idx (used v)) with false by lia. wp_step. apply (wp_complete_one v a d); [done|done|].
  intros s' Hs'. set (d1 := Dev _ _ _ _ _ _ _ _). assert (u32 (a + 1) = a + 1) as Hu1 by (apply wrap_small; lia).
  eapply wp_mono; [apply (IH (a + 1) d1)|]; [|lia|lia|lia|lia|].
  - split; try done; cbn.
    + rewrite list_lookup_insert_eq by (by eapply lookup_lt_Some). by rewrite Hu1.
    + by rewrite length_insert.
    + by eapply woken_channels.
  - intros [] d' (H1 & H2 & H3 & H4 & H5 & H6 & H7 & H8). cbn in *. split_and!; try done.
    + by rewrite H6, list_insert_insert_eq.
    + rewrite H7. unfold completed, clear_flags. rewrite (seqZ_cons a) by lia.
      replace (Z.pred (Z.of_nat (S k))) with (Z.of_nat k) by lia. by replace (Z.succ a) with (a + 1) by lia.
    + pose proof (woken_trans _ _ _ _ _ _ Hs' H8) as H. exact H.
Qed.
Lemma notify_loop_spins v n : ∀ a d, notify_ok v a d → 2 ^ 16 ≤ a → a + Z.of_nat n ≤ 2 ^ 32 - 1 → used_idx (used v) < 2 ^ 16 →
  notify_loop n d = Stop OutOfFuel.
Proof.
  induction n as [|n IH]; intros a d Hok Ha Hn Hu; pose proof Hok as [Hq Hl Hw Hr Hids Hch];
    cbn [notify_loop]; unfold get_queue, mbind, M_bind, gets; rewrite Hq; cbn [mjoin option_join of_option mret M_ret];
    rewrite Hl; cbn [of_option mret M_ret]; replace (a =? used_idx (used v)) with false by lia; [done|].
  assert (wp (complete_one v a) (λ _ d1, notify_ok v (a + 1) d1) d) as H.
  { apply wp_complete_one; [done|lia|]. intros s' Hs'. split; try done; cbn.
    - rewrite list_lookup_insert_eq by (by eapply lookup_lt_Some). rewrite wrap_small by lia. done.
    - by rewrite length_insert.
    - by eapply woken_channels. }
  apply wp_ok in H as ([] & d1 & -> & H). apply (IH (a + 1)); [done|lia|lia|done].
Qed.
Lemma wp_trigger_notify t v head d : desc_alloc_succ t = true → queue d !! t_queue t = Some (Some v) → descs_ t !! 0%nat = Some head →
  wp (trigger_notify t) (λ _ d', bit_map_ d' = bit_map_ d ∧ lk_ d' = lk_ d ∧ this_ d' = this_ d ∧
    last_seen_used_idx_ d' = last_seen_used_idx_ d ∧ notified d' = notified d ++ [Z.of_nat (t_queue t)] ∧
    queue d' = <[t_queue t := Some (Queue (desc v) (Avail (u16 (avail_idx (avail v) + 1))
      (<[Z.to_nat (avail_idx (avail v) mod 32) := u16 head]> (avail_ring (avail v)))) (used v))]> (queue d) ∧
    waiting_flag d' = <[Z.to_nat head := true]> (waiting_flag d) ∧ process_tasks_ (dev_sched d') = process_tasks_ (dev_sched d)) d.
Proof.
  intros Ht Hq Hh. unfold trigger_notify. rewrite Ht. unfold guarded. wp_step. apply wp_ctor_any. intros g x.
  wp_step. unfold get_queue. wp_steps. cbn [queue put_mstatus device_HasMstatus]. rewrite Hq. cbn [mjoin option_join of_option].
  wp_steps. unfold desc_at. rewrite Hh. cbn [of_option]. wp_steps. unfold put_queue. wp_steps. cbn [waiting_flag set_queue put_mstatus device_HasMstatus].
  apply wp_dtor_any. intros y. wp_step. by split_and!.
Qed.
Lemma put_mstatus_id_fields x d : bit_map_ (put_mstatus x d) = bit_map_ d ∧ queue (put_mstatus x d) = queue d ∧
  waiting_flag (put_mstatus x d) = waiting_flag d.
Proof. done. Qed.
Lemma wp_wait_done t row v head d : desc_alloc_succ t = true → descs_ t !! 0%nat = Some head →
  bit_map_ d !! t_queue t = Some row → queue d !! t_queue t = Some (Some v) → row_ok row → length (desc v) = 32%nat →
  Forall index (descs_ t) → NoDup (descs_ t) → (∀ j, j ∈ descs_ t → bit_at row j = true) →
  waiting_flag d !! Z.to_nat head = Some false →
  wp (wait_complete t) (λ r d', r.2 = Completed ∧
    bit_map_ d' = <[t_queue t := clear_all row (descs_ t)]> (bit_map_ d) ∧
    queue d' = <[t_queue t := Some (with_desc (zero_all (desc v) (descs_ t)) v)]> (queue d) ∧
    last_seen_used_idx_ d' = last_seen_used_idx_ d) d.
Proof.
  intros Ht Hh Hr Hq Hrow Hlen Hidx Hnd Hb Hf. unfold wait_complete. rewrite Ht. wp_step. apply wp_ctor_any. intros g x.
  wp_step. unfold wait_loop, desc_at. rewrite Hh. cbn [of_option]. wp_steps.
  replace (waiting_flag (put_mstatus x d)) with (waiting_flag d) by done. rewrite Hf. cbn [of_option]. wp_steps.
  rewrite <-(upd_id (t_queue t) row v (put_mstatus x d)) by done.
  pose proof (FreeDescs_upd (t_queue t) (descs_ t) row v (put_mstatus x d)) as H.
  unfold wp at 1. rewrite H; [|split; [exact (lookup_lt_Some _ _ _ Hr)|exact (lookup_lt_Some _ _ _ Hq)]|done..].
  wp_step. unfold wait_leave. wp_step. apply wp_dtor_any. intros y. wp_step. by split_and!.
Qed.

(** the device answers the chain headed by [h], the interrupt handler runs *)
Lemma wp_device_answers v h len fuel d A (k : M device A) (Q : A → device → Prop) :
  notify_ok v (used_idx (used v)) d → index h → 0 ≤ used_idx (used v) < 2 ^ 16 - 1 →
  (∀ v' d', desc v' = desc v → used_idx (used v') = used_idx (used v) + 1 → bit_map_ d' = bit_map_ d →
    queue d' = <[0%nat := Some v']> (queue d) →
    last_seen_used_idx_ d' = <[0%nat := used_idx (used v) + 1]> (last_seen_used_idx_ d) →
    waiting_flag d' = <[Z.to_nat h := false]> (waiting_flag d) → wp k Q d') →
  wp (device_complete 0 h len;; UsedBufferNotify (S fuel);; k) Q d.
Proof.
  intros [Hq Hlast Hw Hring Hids Hch] Hh Hu HQ. unfold index in Hh.
  wp_step. unfold device_complete, get_queue. wp_steps. rewrite Hq. cbn [mjoin option_join of_option]. wp_steps.
  unfold put_queue. wp_steps. rewrite (wrap_small 16 (used_idx (used v) + 1)) by lia.
  set (u' := Used _ _). set (v2 := Queue _ _ _). set (d2 := set_queue _ d).
  unfold UsedBufferNotify, guarded. wp_step. apply wp_ctor_any. intros g x. wp_step.
  eapply wp_mono; [apply (wp_notify_loop v2 1 (used_idx (used v)) (put_mstatus x d2))|]; [|lia|done|cbn; lia|lia|].
  { split; unfold d2, v2, u'; cbn; rewrite ?length_insert; try done.
    - rewrite list_lookup_insert_eq; [done|]. by eapply lookup_lt_Some.
    - by apply Forall_insert. }
  intros [] d3 (C1 & C2 & C3 & C4 & C5 & C6 & C7 & _). wp_step. apply wp_dtor_any. intros y. wp_step.
  assert (completed v2 (used_idx (used v)) 1 = [h]) as Hcomp; [|rewrite Hcomp in C7; by apply (HQ v2)].
  unfold completed. rewrite seqZ_cons by lia. cbn [fmap list_fmap]. f_equal. unfold entry_id, v2, u'. cbn [used used_ring].
  rewrite list_lookup_insert_eq by dlia. done.
Qed.
(** zeroing the descriptors of a chain that were all zero before it was filled *)
Lemma zero_fill_all row t ds rs : length t = 32%nat → Forall index ds →
  (∀ i, index i → bit_at row i = false → t !! Z.to_nat i = Some desc0) → (∀ j, j ∈ ds → bit_at row j = false) →
  zero_all (fill_all t ds rs) ds = t.
Proof.
  intros Hl Hi Hz Hb. assert (length (fill_all t ds rs) = 32%nat) as Hf by (by rewrite length_fill_all).
  apply list_eq_same_length with 32%nat; [done|by rewrite length_zero_all|].
  intros j a b Hj Ea Eb. assert (index (Z.of_nat j)) as Hjx by (unfold index; lia).
  rewrite <-(Nat2Z.id j) in Ea, Eb. rewrite lookup_zero_all in Ea by done. case_decide as Hin.
  - rewrite Hz in Eb by (done || by apply Hb). congruence.
  - rewrite fill_all_ne in Ea by done. congruence.
Qed.

(** * Properties *)
(** C28: one block operation from submission to completion.  With three free
    descriptors the device finds the chain header, data, status with the right
    lengths and directions and is notified once; when it has completed the request,
    the interrupt handler clears the waiting flag, and the wait that follows gives the
    three descriptors back: the allocation bitmap and the descriptor table are those
    of before. *)
Theorem Operate_completes op ra rs m len fuel row v d :
  dev_ok 0 row v d → mstatus_ok d → notify_ok v (used_idx (used v)) d →
  0 ≤ used_idx (used v) < 2 ^ 16 - 1 → (3 ≤ length (free_descs row))%nat → buf m ≠ 0 →
  wp (Operate_submit op ra rs m) (λ t d1, ∃ i v1,
      head (free_descs row) = Some i ∧ descs_ t !! 0%nat = Some i ∧ queue d1 !! 0%nat = Some (Some v1) ∧
      avail_ring (avail v1) = <[Z.to_nat (avail_idx (avail v) mod 32) := i]> (avail_ring (avail v)) ∧
      avail_idx (avail v1) = u16 (avail_idx (avail v) + 1) ∧ notified d1 = notified d ++ [0] ∧
      walk 32 (desc v1) i = [(u64 ra, 16, false); (u64 (buf m), 512, is_read op); (u64 rs, 1, true)] ∧
      waiting_flag d1 !! Z.to_nat i = Some true ∧
      wp (device_complete 0 i len;; UsedBufferNotify (S fuel);; wait_complete t) (λ r d', r.2 = Completed ∧
        bit_map_ d' = bit_map_ d ∧ last_seen_used_idx_ d' !! 0%nat = Some (used_idx (used v) + 1) ∧
        ∃ v', queue d' !! 0%nat = Some (Some v') ∧ desc v' = desc v ∧ used_idx (used v') = used_idx (used v) + 1) d1) d.
Proof.
  intros Hd Hm Hn Hu Hfree Hbuf. unfold Operate_submit. rewrite (proj2 (Z.eqb_neq _ _) Hbuf).
  pose proof (mmio_transport_run 0 (blk_reqs op ra rs m) row v d Hd Hm) as Ht. cbv zeta in Ht. cbn [length blk_reqs] in Ht.
  rewrite decide_True in Ht by lia. pose proof (dev_ok_range _ _ _ _ Hd) as Hq. pose proof Hd as [Hrow Hque Hr Hl Hz].
  destruct Hn as [_ Hlast Hw Hring Hids Hch]. pose proof (ds_facts row 3) as Hds. cbv zeta in Hds.
  destruct (free_descs row) as [|h [|i1 [|i2 tl]]] eqn:Ef; cbn [length] in Hfree; try lia. cbn [take] in Ht, Hds. rewrite take_0 in Ht, Hds.
  set (ds := [h; i1; i2]) in *. destruct Hds as (Hi & Hnd & Hb).
  set (row1 := set_all row ds) in *. set (tb := fill_all (desc v) ds (blk_reqs op ra rs m)) in *.
  assert (row_ok row1) as Hr1 by by apply set_all_ok. assert (length tb = 32%nat) as Htb by (unfold tb; by rewrite length_fill_all).
  assert (index h) as Hh by (by apply Forall_cons in Hi as [? _]). unfold index in Hh.
  wp_step. unfold wp at 1. fold (blk_reqs op ra rs m) in Ht. rewrite Ht. wp_step.
  eapply wp_mono; [apply (wp_trigger_notify (Transport 0 true ds) (with_desc tb v) h); [done|by apply upd_queue|done]|].
  cbv beta. intros [] d1 (B1 & B2 & B3 & B4 & B5 & B6 & B7 & B8). wp_step.
  cbn [t_queue descs_ with_desc desc avail used] in *.
  assert (queue d1 !! 0%nat = Some (Some (Queue tb (Avail (u16 (avail_idx (avail v) + 1))
    (<[Z.to_nat (avail_idx (avail v) mod 32) := u16 h]> (avail_ring (avail v)))) (used v)))) as Q1.
  { rewrite B6, list_lookup_insert_eq; [done|]. cbn. rewrite length_insert. by apply Hq. }
  rewrite (wrap_small 16 h) in Q1 by lia.
  eexists h, _. split; [done|]. split; [done|]. split; [exact Q1|]. cbn [avail desc avail_ring avail_idx]. split; [done|]. split; [done|].
  split; [by rewrite B5|]. split.
  { eapply (walk_fill (blk_reqs op ra rs m) (desc v) h [i1; i2]); try done. cbn. lia. }
  split; [rewrite B7; apply list_lookup_insert_eq; cbn; lia|].
  (* the device, the interrupt, the wait *)
  match type of Q1 with _ = Some (Some ?q) => apply (wp_device_answers q h); [split; try done|done|done|] end.
  { by rewrite B4. } { by rewrite B7, length_insert. } { intros i tk. rewrite B8. apply Hch. }
  intros v2 d3 D1 D2 D3 D4 D5 D6. cbn [desc used] in D1, D2. eapply wp_mono; [apply (wp_wait_done (Transport 0 true ds) row1 v2 h); try done|].
  - cbn. rewrite D3, B1. by apply upd_row.
  - cbn. rewrite D4. apply list_lookup_insert_eq. by eapply lookup_lt_Some.
  - by rewrite D1.
  - intros j Hj. assert (index j) as [? _] by (by eapply Forall_forall in Hj; [|exact Hi]).
    unfold row1. rewrite bit_at_set_all by done. by rewrite decide_True.
  - rewrite D6, B7. apply list_lookup_insert_eq. rewrite length_insert. cbn. lia.
  - intros r d4 (E1 & E2 & E3 & E4). cbn [t_queue descs_] in *. split; [done|]. split; [|split].
    + assert (clear_all row1 ds = row) as Hclr by by apply clear_set_all.
      rewrite E2, Hclr, D3, B1. cbn. rewrite list_insert_insert_eq. by apply list_insert_id.
    + rewrite E4, D5, B4. apply list_lookup_insert_eq. by eapply lookup_lt_Some.
    + eexists. split; [rewrite E3; apply list_lookup_insert_eq; rewrite D4, length_insert; by eapply lookup_lt_Some|].
      split; [|done]. cbn [desc with_desc]. rewrite D1. by apply (zero_fill_all row).
Qed.
Lemma Operate_completes_witness :
  wp (Operate_submit op_write 0x90000000 0x90000100 (Meta 0x90001000 7)) (λ t d1, ∃ v1,
      queue d1 !! 0%nat = Some (Some v1) ∧
      walk 32 (desc v1) 2 = [(0x90000000, 16, false); (0x90001000, 512, false); (0x90000100, 1, true)] ∧
      wp (device_complete 0 2 1;; UsedBufferNotify 1;; wait_complete t) (λ r d', r.2 = Completed ∧
        bit_map_ d' = bit_map_ demo_device) d1) demo_device.
Proof.
  eapply wp_mono; [apply (Operate_completes op_write 0x90000000 0x90000100 (Meta 0x90001000 7) 1 0 demo_row _ demo_device demo_device_ok)|].
  - vm_compute. split; [discriminate|reflexivity].
  - split; try done.
    + by apply Forall_replicate.
    + intros i t Ht Hs. destruct i as [|i]; [|done]. injection Ht as <-. discriminate Hs.
  - cbn. lia.
  - vm_compute. lia.
  - done.
  - cbv beta. intros t d1 (i & v1 & Hi & _ & Hq & _ & _ & _ & Hwk & _ & H).
    assert (i = 2) as -> by (vm_compute in Hi; by injection Hi).
    exists v1. split; [exact Hq|]. split; [exact Hwk|].
    eapply wp_mono; [exact H|]. intros r d' (H1 & H2 & _). by split.
Defined.

(** The interrupt handler never returns after the 65536th completion: the
    driver counts completions in 32 bits and compares that count with the 16-bit
    index of the device, so from 65535, with the device's index wrapped to 0, the
    loop runs on through stale entries for as long as the 32-bit counter has not
    wrapped *)
Theorem UsedBufferNotify_wraps fuel v d :
  notify_ok v (2 ^ 16 - 1) d → used_idx (used v) = 0 → Z.of_nat fuel ≤ 2 ^ 32 - 2 ^ 16 →
  UsedBufferNotify fuel d = Stop OutOfFuel.
Proof.
  intros Hok Hu Hf. unfold UsedBufferNotify. rewrite guarded_unfold. apply bind_Stop.
  assert (notify_ok v (2 ^ 16 - 1) (masked d)) as Hok' by (destruct Hok; by split).
  destruct fuel as [|n].
  - pose proof Hok' as [Hq Hl _ _ _ _]. cbn [notify_loop]. unfold get_queue, mbind, M_bind, gets.
    rewrite Hq. cbn [mjoin option_join of_option mret M_ret]. rewrite Hl, Hu. done.
  - pose proof Hok' as [Hq Hl _ _ _ _]. cbn [notify_loop]. unfold get_queue, mbind, M_bind, gets.
    rewrite Hq. cbn [mjoin option_join of_option mret M_ret]. rewrite Hl. cbn [of_option mret M_ret].
    rewrite Hu. change (2 ^ 16 - 1 =? 0) with false. cbv iota.
    assert (wp (complete_one v (2 ^ 16 - 1)) (λ _ d1, notify_ok v (2 ^ 16) d1) (masked d)) as H.
    { apply wp_complete_one; [done|lia|]. intros s' Hs'. destruct Hok'. split; try done; cbn.
      - rewrite list_lookup_insert_eq by (by eapply lookup_lt_Some). done.
      - by rewrite length_insert.
      - by eapply woken_channels. }
    apply wp_ok in H as ([] & d1 & -> & H). apply (notify_loop_spins v n (2 ^ 16)); [done|lia|lia|lia].
Qed.
Definition wrapped_device : device :=
  Dev [demo_row; demo_row] [Some (Queue [] (Avail 0 []) (Used 0 (replicate 32 (3, 1))))] (replicate 32 true) [65535; 0]
    [false; false] 0 [] (dev_sched demo_device).
Lemma UsedBufferNotify_wraps_witness : UsedBufferNotify 4000 wrapped_device = Stop OutOfFuel.
Proof.
  apply (UsedBufferNotify_wraps 4000 (Queue [] (Avail 0 []) (Used 0 (replicate 32 (3, 1))))); [|done|].
  - split; try done.
    + by apply Forall_replicate.
    + intros i t Ht Hs. destruct i as [|i]; [|done]. injection Ht as <-. discriminate Hs.
  - vm_compute. discriminate.
Defined.

(** C38: the negotiation, whatever the device answers and however its answers
    depend on what it was sent.  The status register is written reset,
    ACKNOWLEDGE, + DRIVER, + FEATURES_OK in this order, and + DRIVER_OK last and
    only when the set-up succeeds; the one feature word accepted is the
    intersection of what the device offers and what the driver expects; success
    means that the device kept FEATURES_OK and that every queue was selected once
    and given a page. *)
Theorem init_negotiates f addr_ independent spec n s :
  has_init_ s = false → (∀ x, x ∈ independent ++ spec → ∃ k, 0 ≤ k < 32 ∧ x = Z.shiftl 1 k) → Z.of_nat n ≤ 2 ^ 32 →
  let '(r, h) := watch f (init addr_ independent spec n s) [] in
  writes_to (mmio addr_ Status) h = [0; 1; 3; 11] ++ match r with Ok (true, _) => [15] | _ => [] end ∧
  (∃ h0, writes_to (mmio addr_ DriverFeatures) h =
     [Z.land (u32 (f h0 32 (mmio addr_ DeviceFeatures))) (foldr Z.lor 0 (independent ++ spec))]) ∧
  match r with
  | Ok (true, s') =>
    has_init_ s' = true ∧
    (∃ h0, writes_to (mmio addr_ Status) h0 = [0; 1; 3; 11] ∧ Z.testbit (u32 (f h0 32 (mmio addr_ Status))) 3 = true) ∧
    ∃ ps, pages s' = pages s ++ ps ∧ length ps = n ∧ writes_to (mmio addr_ QueueSel) h = seqZ 0 (Z.of_nat n) ∧
      writes_to (mmio addr_ QueuePFN) h = (λ p, u32 (p / PGSIZE)) <$> ps
  | _ => True
  end.
Proof.
  intros Hs Hx Hn. unfold init. rewrite Hs. watch_steps.
  match goal with |- context [select_features ?low _ _] =>
    pose proof (select_features_spec low independent spec Hx) as Hsel;
    destruct (select_features low independent spec) as [has sel]; destruct Hsel as [_ ->]; set (l0 := low) in * end.
  watch_steps.
  match goal with |- context [f ?h0 32 (mmio addr_ Status)] => set (h1 := h0) in * end.
  assert (writes_to (mmio addr_ Status) h1 = [0; 1; 3; 11] ∧
    writes_to (mmio addr_ DriverFeatures) h1 = [Z.land l0 (foldr Z.lor 0 (independent ++ spec))] ∧
    writes_to (mmio addr_ QueueSel) h1 = [] ∧ writes_to (mmio addr_ QueuePFN) h1 = []) as (W1 & W2 & W3 & W4).
  { unfold h1. split_and!; writes; try done. change (writes_to (mmio addr_ DriverFeatures) []) with (@nil Z). cbn [app].
    by rewrite (wrap_small 32 (Z.land _ _)) by (apply land_range_l; [lia|apply wrap_range; lia]). }
  clearbody h1. destruct (nonzero (Z.land (u32 (f h1 32 (mmio addr_ Status))) (status_bit FEATURES_OK))) eqn:Hok; cbn [negb].
  2: { split_and!; [done|by eexists|done]. }
  watch_steps. rewrite watch_bind. set (s1 := Nego _ _ _ _). set (h2 := h1 ++ _).
  pose proof (watch_init_queues f addr_ n 0 s1 h2 ltac:(lia) ltac:(lia)) as Hq.
  destruct (watch f (init_queues addr_ n 0 s1) h2) as [r h3]. destruct Hq as [Hst Hr].
  assert (writes_to (mmio addr_ Status) h3 = [0; 1; 3; 11] ∧
    writes_to (mmio addr_ DriverFeatures) h3 = [Z.land l0 (foldr Z.lor 0 (independent ++ spec))]) as (V1 & V2).
  { rewrite !Hst by auto. unfold h2. writes. by rewrite W1, W2. }
  destruct r as [[[] s2]|]; [|split_and!; [done|by eexists|done]..].
  watch_steps. destruct Hr as (E0 & ps & E1 & E2 & E3 & E4). change (watch f (mret ?x) ?h) with (x, h). cbv beta iota.
  split; [writes; by rewrite V1|]. split; [eexists; writes; by rewrite V2|].
  split; [done|]. split.
  - exists h1. split; [done|]. apply nonzero_true in Hok. destruct (Z.testbit _ 3) eqn:E; [done|]. exfalso. apply Hok.
    apply Z.bits_inj'. intros j Hj. rewrite Z.land_spec, Z.bits_0. change (status_bit FEATURES_OK) with (2 ^ 3).
    destruct (decide (j = 3)) as [->|]; [by rewrite E|]. rewrite Z.pow2_bits_false by lia. apply andb_false_r.
  - exists ps. split_and!; [done|done| |].
    + writes. rewrite E3. unfold h2. writes. by rewrite W3.
    + writes. rewrite E4. unfold h2. writes. by rewrite W4.
Qed.
(** a device that offers everything, has no queue yet and keeps FEATURES_OK *)
Definition eager_device (h : history) (w a : Z) : Z :=
  if a =? 0x10 then 0xffffffff else if a =? 0x34 then 128 else if a =? 0x70 then default 0 (list.last (writes_to 0x70 h)) else 0.
(** decides a test without variables *)
Ltac closed_test := match goal with |- context [if ?b then _ else _] => let x := eval vm_compute in b in change b with x end; cbv iota.
(** with an allocator that gives a page the negotiation with it succeeds *)
Lemma eager_accepts v page v' : AllocContinuousPage 2 v = Ok (page, v') → page ≠ 0 →
  match fst (watch eager_device (init 0 [Z.shiftl 1 28; Z.shiftl 1 24] [Z.shiftl 1 2] 1 (Nego false [] [] v)) []) with
  | Ok (true, _) => True
  | _ => False
  end.
Proof.
  intros E Hp. apply Z.eqb_neq in Hp.
  unfold init. cbn [has_init_]. watch_steps.
  match goal with |- context [select_features ?l ?a ?b] => let x := eval vm_compute in (select_features l a b) in change (select_features l a b) with x end.
  cbv beta iota. watch_steps. closed_test. watch_steps. cbn [init_queues]. rewrite watch_bind. watch_steps. closed_test. watch_steps. closed_test.
  watch_steps. cbn [n_vm]. rewrite E, Hp. watch_steps. exact I.
Qed.
Lemma init_negotiates_witness :
  let '(r, h) := watch eager_device (init 0 [Z.shiftl 1 28; Z.shiftl 1 24] [Z.shiftl 1 2] 1 (Nego false [] [] demo_vm)) [] in
  (∃ s', r = Ok (true, s') ∧ length (pages s') = 1%nat) ∧ writes_to 0x70 h = [0; 1; 3; 11; 15] ∧
  writes_to 0x20 h = [0x11000004].
Proof.
  pose proof (init_negotiates eager_device 0 [Z.shiftl 1 28; Z.shiftl 1 24] [Z.shiftl 1 2] 1 (Nego false [] [] demo_vm) eq_refl) as H.
  destruct (watch eager_device _ []) as [r h] eqn:E.
  assert (match r with Ok (true, _) => True | _ => False end) as Hr.
  { apply (f_equal fst) in E. cbn [fst] in E. rewrite <-E.
    destruct (AllocContinuousPage_2_finds demo_vm (demo_root :: demo_free) demo_vm_inv) as (page & v' & Ea & Hp).
    - intros d Hd. apply elem_of_boot_pages with (n := 16%nat). exists (15 - Z.to_nat d)%nat. unfold demo_beg, PGSIZE. lia.
    - cbn. lia.
    - exact (first_byte_full _ _ demo_vm_inv demo_free_high).
    - exact (eager_accepts _ _ _ Ea Hp). }
  destruct H as (H1 & (h0 & H2) & H3).
  - intros x Hx. cbn in Hx. rewrite !elem_of_cons, elem_of_nil in Hx.
    destruct Hx as [-> |[-> |[-> |[]]]]; eexists; (split; [|reflexivity]); lia.
  - cbn. lia.
  - destruct r as [[[] s']|]; [|destruct Hr..]. split; [|split].
    + exists s'. split; [done|]. destruct H3 as (_ & _ & ps & -> & <- & _). done.
    + exact H1.
    + exact H2.
Defined.
