(* ===== verification/FsCommon.v ===== *)
(** [filesystem/common.cc]: inodes, block allocation, path parsing, lookup,
    creation and writing, over any block device.  Buffers are byte lists; a C
    string argument is the bytes from the pointer to the end of its object. *)
From S2P Require Import Prelude Mem Inode.

(** [junk] is what an uninitialised 512-byte stack buffer holds; [cwd] is
    [ThisProcess()->current_path] from its first byte. *)
Record fsstate (D : Type) := FsState { disk : D; junk : list Z; cwd : list Z }.
Arguments FsState {D} disk junk cwd.
Arguments disk {D} _.
Arguments junk {D} _.
Arguments cwd {D} _.
Definition set_disk {D} (d : D) (s : fsstate D) : fsstate D := FsState d (junk s) (cwd s).

Section fs.
Context {D : Type} `{BlockDevice D}.
Abbreviation FS := (M (fsstate D)).

(** [BlockDevice::Operate], whose result every caller ignores: a refused read
    leaves the buffer as it was *)
Definition Operate_read (buf : list Z) (block_index : Z) : FS (list Z) :=
  gets (λ s, if (0 <=? block_index) && (block_index <? sectors (disk s)) then sector (disk s) block_index else buf).
Definition Operate_write (buf : list Z) (block_index : Z) : FS () :=
  modify (λ s, if (0 <=? block_index) && (block_index <? sectors (disk s))
               then set_disk (put_sector (disk s) block_index buf) s else s).

Definition inode_block (i : Z) : Z := u32 (u32 (i * INODE_ELEMENT_SIZE) / BLOCK_SIZE + 1).
Definition inode_off (i : Z) : nat := Z.to_nat (u32 (i * INODE_ELEMENT_SIZE) mod BLOCK_SIZE).
Definition GetInode (i : Z) : FS InodeDef :=
  buf ← gets junk;
  buf ← Operate_read buf (inode_block i);
  mret (dec_inode (slice buf (inode_off i) 64)).
Definition UpdateInode (i : Z) (inode : InodeDef) : FS () :=
  buf ← gets junk;
  buf ← Operate_read buf (inode_block i);
  Operate_write (splice buf (inode_off i) (enc_inode inode)) (inode_block i).
Definition GetSuperNode : FS SuperBlock :=
  buf ← gets junk;
  buf ← Operate_read buf 0;
  mret (dec_super buf).

(** ** IteratorDir: the entries of one block, then the blocks *)
Inductive dir_scan := Found (n : Z) | Continue (offset : Z).
Fixpoint scan_entries (todo : nat) (p : list Z) (offset size : Z) (target_name : list Z) : FS dir_scan :=
  match todo with
  | O => mret (Continue offset)
  | S todo =>
    if size <=? offset then mret (Continue offset) else
    c ← of_option (Faulted "strcmp") (strcmp target_name (drop 2 p));
    if c =? 0 then mret (Found (get_le p 0 2))
    else scan_entries todo (drop 16 p) (u32 (offset + DIR_ELEMENT_SIZE)) size target_name
  end.
Fixpoint IteratorDir_loop (fuel : nat) (inode : InodeDef) (offset : Z) (target_name : list Z) : FS Z :=
  if ino_size inode <=? offset then mret (-1) else
  match fuel with
  | O => stop_with OutOfFuel
  | S fuel =>
    a ← of_option (Faulted "inode->addr") (addr inode !! Z.to_nat (offset / BLOCK_SIZE));
    if a =? 0 then stop_with (Panicked "Invalid inode") else
    buf ← gets junk;
    buf ← Operate_read buf a;
    r ← scan_entries 32 buf offset (ino_size inode) target_name;
    match r with
    | Found n => mret n
    | Continue offset => IteratorDir_loop fuel inode offset target_name
    end
  end.
Definition IteratorDir (inode : InodeDef) (target_name : list Z) : FS Z :=
  IteratorDir_loop (Z.to_nat (ino_size inode / BLOCK_SIZE + 1)) inode 0 target_name.

(** ** Paths: a pointer into the string is its suffix from there; [None] is the
    early [return -1] *)
Definition slash : Z := 47.
Fixpoint path_scan (p : list Z) (paths : list (list Z)) : FS (option (list (list Z))) :=
  match p with
  | [] => stop_with (Faulted "path")
  | c :: p' =>
    if c =? 0 then mret (Some paths)
    else if negb (c =? slash) then path_scan p' paths
    else
      match p' with
      | [] => stop_with (Faulted "path")
      | c1 :: _ =>
        if c1 =? 0 then mret (Some paths)
        else if c1 =? slash then mret None
        else if (16 <=? length paths)%nat then stop_with (Faulted "paths")
        else path_scan p' (paths ++ [p'])
      end
  end.
(** row [i] of [out_paths] receives a copy *)
Definition copy_row (rows : list (list Z)) (i : Z) (data : list Z) : FS (list (list Z)) :=
  if (0 <=? i) then
    row ← of_option (Faulted "out_paths") (rows !! Z.to_nat i);
    mret (<[Z.to_nat i := splice row 0 data]> rows)
  else stop_with (Faulted "out_paths").
Fixpoint path_copy (paths : list (list Z)) (i : Z) (rows : list (list Z)) : FS (bool * list (list Z)) :=
  match paths with
  | [] => mret (true, rows)
  | p :: rest =>
    len ← of_option (Faulted "strlen")
            (match rest with q :: _ => Some (length p - length q)%nat | [] => strlen p end);
    if MAX_FILE_NAME_LEN <=? Z.of_nat len then mret (false, rows) else
    c ← of_option (Faulted "paths[i][len - 1]") (match len with O => None | S k => p !! k end);
    let len := if c =? slash then (len - 1)%nat else len in
    rows ← copy_row rows i (take len p);
    path_copy rest (i + 1) rows
  end.
(** [base] is the row [out_paths] points to *)
Definition ParsePathImpl (p : list Z) (base : Z) (rows : list (list Z)) (is_relative : bool) : FS (Z * list (list Z)) :=
  r ← path_scan p (if is_relative then [p] else []);
  match r with
  | None => mret (-1, rows)
  | Some paths =>
    '(ok, rows) ← path_copy paths base rows;
    mret (if (ok : bool) then Z.of_nat (length paths) else -1, rows)
  end.
(** [path_name = None] is the null pointer *)
Definition ParsePath (path_name : option (list Z)) (rows : list (list Z)) : FS (Z * list (list Z)) :=
  match path_name with
  | None => mret (-1, rows)
  | Some p =>
    n ← of_option (Faulted "strlen") (strlen p);
    if (n =? 0)%nat then mret (-1, rows) else
    c ← of_option (Faulted "path_name[0]") (head p);
    if negb (c =? slash) then
      w ← gets cwd;
      '(level, rows) ← ParsePathImpl w 0 rows false;
      '(r, rows) ← ParsePathImpl p level rows true;
      mret (r + level, rows)
    else ParsePathImpl p 0 rows false
  end.
Definition zero_rows : list (list Z) := replicate 16 (replicate 14 0).
(** the pointer [paths[i]]: that row and the rows after it *)
Definition row_ptr (rows : list (list Z)) (i : nat) : list Z := concat (drop i rows).

(** ** Open *)
Fixpoint OpenImpl_loop (n : nat) (rows : list (list Z)) (i : nat) (current : Z) : FS (option Z) :=
  match n with
  | O => mret (Some current)
  | S n =>
    inode ← GetInode current;
    if negb (ino_type inode =? FT_directory) then mret None else
    inum ← IteratorDir inode (row_ptr rows i);
    if inum <? 0 then mret None else OpenImpl_loop n rows (S i) inum
  end.
(** the inode index, or -1 with [output_inode] untouched ([None]) *)
Definition OpenImpl (rows : list (list Z)) (i : nat) (path_level : Z) (entry_inode : Z) : FS (Z * option InodeDef) :=
  let current := if 0 <=? entry_inode then entry_inode else ROOT_INODE in
  r ← OpenImpl_loop (Z.to_nat path_level) rows i current;
  match r with
  | None => mret (-1, None)
  | Some current => inode ← GetInode current; mret (current, Some inode)
  end.
Definition Open (path_name : option (list Z)) : FS (Z * option InodeDef) :=
  '(path_level, rows) ← ParsePath path_name zero_rows;
  if path_level <? 0 then mret (-1, None) else
  OpenImpl rows 0 path_level (-1).

(** ** Allocation *)
(** the first clear bit among bits [bit .. 7] of a byte *)
Fixpoint clear_bit_of (todo : nat) (bit byte : Z) : option Z :=
  match todo with
  | O => None
  | S todo => if Z.land (Z.shiftl 1 bit) byte =? 0 then Some bit else clear_bit_of todo (bit + 1) byte
  end.
(** the loop of [AllocDataBlock] from byte [i]: the block index and the new byte *)
Fixpoint find_block (buf : list Z) (i : Z) (count : Z) : option (Z * Z) :=
  match buf with
  | [] => None
  | b :: buf =>
    if count <=? i * 8 then None
    else if b =? 0xff then find_block buf (i + 1) count
    else match clear_bit_of 8 0 b with
         | Some bit => Some (i * 8 + bit, u8 (Z.lor b (Z.shiftl 1 bit)))
         | None => find_block buf (i + 1) count
         end
  end.
Definition AllocDataBlock : FS (option Z) :=
  sb ← GetSuperNode;
  buf ← gets junk;
  buf ← Operate_read buf (bmap_start sb);
  match find_block buf 0 (datablocks_count sb) with
  | Some (t, b') =>
    if datablocks_count sb <=? t then mret None else
    Operate_write (<[Z.to_nat (t / 8) := b']> buf) (bmap_start sb) ;;
    mret (Some (u32 (t + bmap_start sb + 1)))
  | None => mret None
  end.
(** the first free inode of one block *)
Fixpoint free_inode (todo : nat) (j : Z) (buf : list Z) : option Z :=
  match todo with
  | O => None
  | S todo => if get_le buf 4 1 =? FT_none then Some j else free_inode todo (j + 1) (drop 64 buf)
  end.
Fixpoint AllocInode_loop (todo : nat) (i : Z) (sb : SuperBlock) (buf : list Z) : FS (option Z) :=
  match todo with
  | O => mret None
  | S todo =>
    buf ← Operate_read buf (u32 (inode_start sb + i));
    match free_inode 8 0 buf with
    | Some j => mret (Some (u32 (i * 8 + j)))
    | None => AllocInode_loop todo (i + 1) sb buf
    end
  end.
Definition AllocInode : FS (option Z) :=
  sb ← GetSuperNode;
  buf ← gets junk;
  AllocInode_loop (Z.to_nat (u32 (inodes_count sb * INODE_ELEMENT_SIZE) / BLOCK_SIZE)) 0 sb buf.

(** ** Write *)
(** the data block of [addr_index], allocated when there is none; [None] when the
    allocation fails.  The first indirect block is written as the stack todo it,
    but for its first entry. *)
Definition target_block (inode : InodeDef) (addr_index : Z) : FS (option Z * InodeDef) :=
  if addr_index <? DIRECT_ADDR_SIZE then
    a ← of_option (Faulted "inode->addr") (addr inode !! Z.to_nat addr_index);
    if a =? 0 then
      r ← AllocDataBlock;
      match r with
      | None => mret (None, inode)
      | Some b => mret (Some b, set_addr inode (Z.to_nat addr_index) b)
      end
    else mret (Some a, inode)
  else if indirect_addr inode =? 0 then
    ib ← AllocDataBlock;
    db ← AllocDataBlock;
    match ib, db with
    | Some ib, Some db =>
      buf ← gets junk;
      Operate_write (splice buf 0 (le_bytes 4 db)) ib ;;
      mret (Some db, set_indirect inode ib)
    | _, _ => mret (None, inode)
    end
  else
    let k := Z.to_nat (addr_index - DIRECT_ADDR_SIZE) in
    buf ← gets junk;
    buf ← Operate_read buf (indirect_addr inode);
    if (128 <=? k)%nat then stop_with (Faulted "indirect_block") else
    let a := get_le buf (4 * k) 4 in
    if a =? 0 then
      r ← AllocDataBlock;
      match r with
      | None => mret (None, inode)
      | Some b =>
        Operate_write (splice buf (4 * k) (le_bytes 4 b)) (indirect_addr inode) ;;
        mret (Some b, inode)
      end
    else mret (Some a, inode).
(** [buf] holds the [size] bytes to write, [size <= BLOCK_SIZE - pos % BLOCK_SIZE] *)
Definition WriteImpl (inode : InodeDef) (buf : list Z) (pos : Z) : FS (bool * InodeDef) :=
  let size := Z.of_nat (length buf) in
  '(t, inode) ← target_block inode (u32 (pos / BLOCK_SIZE));
  match t with
  | None => mret (false, inode)
  | Some t =>
    (if negb (size =? BLOCK_SIZE) then
       data ← gets junk;
       data ← Operate_read data t;
       Operate_write (splice data (Z.to_nat (pos mod BLOCK_SIZE)) buf) t
     else Operate_write buf t) ;;
    if ino_size inode <? u64 (pos + size) then
      let inode := set_size inode (u32 (pos + size)) in
      UpdateInode (inode_index inode) inode ;; mret (true, inode)
    else mret (true, inode)
  end.
Fixpoint Write_loop (fuel : nat) (inode : InodeDef) (buf : list Z) (pos total : Z) : FS (Z * InodeDef) :=
  match buf with
  | [] => mret (total, inode)
  | _ =>
    match fuel with
    | O => stop_with OutOfFuel
    | S fuel =>
      let n := Z.to_nat (Z.min (Z.of_nat (length buf)) (BLOCK_SIZE - pos mod BLOCK_SIZE)) in
      '(ok, inode) ← WriteImpl inode (take n buf) pos;
      if (ok : bool) then Write_loop fuel inode (drop n buf) (u64 (pos + Z.of_nat n)) total
      else mret (total - Z.of_nat (length buf), inode)
    end
  end.
Definition Write (inode : InodeDef) (buf : list Z) (pos : Z) : FS (Z * InodeDef) :=
  if ino_size inode <? pos then mret (0, inode) else
  Write_loop (length buf) inode buf pos (Z.of_nat (length buf)).

(** ** Create *)
(** [name] points to a row of [paths] *)
Definition CreateImpl (i type : Z) (name : list Z) (mj mn : Z) : FS (option InodeDef) :=
  n ← of_option (Faulted "strlen") (strlen name);
  if MAX_FILE_NAME_LEN <? Z.of_nat n then mret None else
  inode ← GetInode i;
  if negb (ino_type inode =? FT_directory) then mret None else
  r ← AllocInode;
  match r with
  | None => mret None
  | Some new =>
    let dir := MkDirElement (u16 new) (splice (replicate 14 0) 0 (take n name)) in
    Write inode (enc_dir dir) (ino_size inode) ;;
    let is_dev := type =? FT_device in
    let target := MkInode new type 1 (if is_dev then mj else 0) (if is_dev then mn else 0) 0 (replicate 12 0) 0 in
    UpdateInode new target ;;
    mret (Some target)
  end.
Fixpoint Create_loop (todo : nat) (rows : list (list Z)) (i path_level : nat) (type mj mn : Z)
    (entry_inode : Z) (inode : InodeDef) : FS (option InodeDef) :=
  match todo with
  | O => mret (Some inode)
  | S todo =>
    '(open_ret, o) ← OpenImpl rows i 1 entry_inode;
    let inode := default inode o in
    let is_last := (S i =? path_level)%nat in
    if open_ret <? 0 then
      r ← CreateImpl entry_inode (if is_last then type else FT_directory) (row_ptr rows i) mj mn;
      match r with
      | None => mret None
      | Some new => Create_loop todo rows (S i) path_level type mj mn (inode_index new) new
      end
    else if is_last && negb (ino_type inode =? type) then mret None
    else Create_loop todo rows (S i) path_level type mj mn open_ret inode
  end.
(** the inode [*target_inode] receives, or false *)
Definition Create (path_name : option (list Z)) (type mj mn : Z) : FS (option InodeDef) :=
  '(path_level, rows) ← ParsePath path_name zero_rows;
  if path_level <? 0 then mret None else
  Create_loop (Z.to_nat path_level) rows 0 (Z.to_nat path_level) type mj mn ROOT_INODE inode0.
End fs.
