(* ===== verification/FileData.v ===== *)
(** What [filesystem/common.cc] does to a disk: the layout invariant, the block
    bitmap, the inode table, and the bytes of a file as a function of its inode,
    with the correctness of [AllocDataBlock], [UpdateInode], [WriteImpl] and
    [Write] for files held in the direct blocks. *)
From S2P Require Import Prelude Mem Inode FsCommon.

Section ghost.
Context {D : Type} `{BlockDevice D}.

(** the disk as [mkfs] lays it out: super block, inode table, one bitmap block, data *)
Record fs_layout (s : fsstate D) (sb : SuperBlock) : Prop := {
  lay_super : dec_super (sector (disk s) 0) = sb;
  lay_junk : length (junk s) = 512%nat;
  lay_start : inode_start sb = 1;
  lay_inodes : 0 ≤ inodes_count sb ≤ 8 * (bmap_start sb - 1);
  lay_26 : inodes_count sb < 2 ^ 26;
  lay_bmap : 1 < bmap_start sb;
  lay_count : 0 ≤ datablocks_count sb ≤ 4096;
  lay_end : bmap_start sb + datablocks_count sb < sectors (disk s);
  lay_32 : sectors (disk s) < 2 ^ 32;
  lay_bytes : Forall (λ b, 0 ≤ b < 256) (sector (disk s) (bmap_start sb));
}.
Definition bitmap (s : fsstate D) (sb : SuperBlock) : list Z := sector (disk s) (bmap_start sb).
(** data block [b] and its bit *)
Definition data_block (sb : SuperBlock) (b : Z) : Prop := bmap_start sb < b ≤ bmap_start sb + datablocks_count sb.
Definition block_bit (s : fsstate D) (sb : SuperBlock) (b : Z) : bool := bit_at (bitmap s sb) (b - bmap_start sb - 1).
Definition free_blocks (s : fsstate D) (sb : SuperBlock) : list Z :=
  filter (λ t, bit_at (bitmap s sb) t = false) (seqZ 0 (datablocks_count sb)).
Definition unmapped (i : InodeDef) : nat := length (filter (λ a, a = 0) (addr i)).

(** an inode whose direct blocks are its own *)
Record file_inv (s : fsstate D) (sb : SuperBlock) (i : InodeDef) : Prop := {
  fi_layout : fs_layout s sb;
  fi_ok : inode_ok i;
  fi_index : inode_index i < inodes_count sb;
  fi_size : ino_size i ≤ 6144;
  fi_alloc : ∀ k a, addr i !! k = Some a → a ≠ 0 → data_block sb a ∧ block_bit s sb a = true;
  fi_distinct : ∀ j k a, addr i !! j = Some a → addr i !! k = Some a → a ≠ 0 → j = k;
  fi_mapped : ∀ k a, addr i !! k = Some a → 512 * Z.of_nat k < ino_size i → a ≠ 0;
}.
(** the bytes of a file *)
Definition blocks_of (d : D) (i : InodeDef) : list (list Z) := sector d <$> addr i.
Definition file_data (d : D) (i : InodeDef) : list Z := take (Z.to_nat (ino_size i)) (concat (blocks_of d i)).
(** blocks of other files: allocated, and not among [i]'s *)
Definition foreign (s : fsstate D) (sb : SuperBlock) (i : InodeDef) (b : Z) : Prop :=
  (b < bmap_start sb ∧ b ≠ inode_block (inode_index i)) ∨
  (data_block sb b ∧ block_bit s sb b = true ∧ b ∉ addr i).

(** * Lemmas: device, inodes *)
Lemma wp_Operate_read buf b (Q : list Z → fsstate D → Prop) s :
  0 ≤ b < sectors (disk s) → Q (sector (disk s) b) s → wp (Operate_read buf b) Q s.
Proof.
  intros Hb HQ. apply wp_gets. replace ((0 <=? b) && (b <? sectors (disk s))) with true by lia. done.
Qed.
Lemma wp_Operate_write x b (Q : () → fsstate D → Prop) s :
  0 ≤ b < sectors (disk s) → Q () (set_disk (put_sector (disk s) b x) s) → wp (Operate_write x b) Q s.
Proof.
  intros Hb HQ. apply wp_modify. replace ((0 <=? b) && (b <? sectors (disk s))) with true by lia. done.
Qed.
Lemma inode_block_val i : 0 ≤ i < 2 ^ 26 → inode_block i = i / 8 + 1.
Proof.
  intros Hi. unfold inode_block, INODE_ELEMENT_SIZE, BLOCK_SIZE. rewrite (wrap_small 32 (i * 64)) by lia. rewrite wrap_small; dlia.
Qed.
Lemma inode_off_val i : 0 ≤ i < 2 ^ 26 → inode_off i = (64 * Z.to_nat (i mod 8))%nat.
Proof.
  intros Hi. unfold inode_off, INODE_ELEMENT_SIZE, BLOCK_SIZE. rewrite wrap_small by lia. dlia.
Qed.
Lemma lay_inode s sb i : fs_layout s sb → 0 ≤ i < inodes_count sb →
  0 < inode_block i < bmap_start sb ∧ 0 ≤ inode_block i < sectors (disk s) ∧ (inode_off i + 64 ≤ 512)%nat.
Proof.
  intros [] Hi. rewrite inode_block_val, inode_off_val by lia. dlia.
Qed.

(** a disk update that leaves the super block in place keeps the layout *)
Lemma layout_put s sb b x : fs_layout s sb → length x = 512%nat → 0 < b < sectors (disk s) →
  (b = bmap_start sb → Forall (λ b, 0 ≤ b < 256) x) →
  fs_layout (set_disk (put_sector (disk s) b x) s) sb.
Proof.
  intros [] Hx Hb Hbm. constructor; cbn; rewrite ?sectors_put; try done.
  - rewrite sector_put, decide_False by (done || lia). done.
  - rewrite sector_put by (done || lia). case_decide; auto.
Qed.
Lemma wp_GetSuperNode s sb Q : fs_layout s sb → Q sb s → wp GetSuperNode Q s.
Proof.
  intros Hlay HQ. unfold GetSuperNode. wp_steps. apply wp_Operate_read; [destruct Hlay; lia|].
  apply wp_ret. by rewrite (lay_super _ _ Hlay).
Qed.
Lemma wp_GetInode s sb i Q : fs_layout s sb → 0 ≤ i < inodes_count sb →
  Q (dec_inode (slice (sector (disk s) (inode_block i)) (inode_off i) 64)) s → wp (GetInode i) Q s.
Proof.
  intros Hlay Hi HQ. destruct (lay_inode s sb i Hlay Hi) as (_ & Hb & _). unfold GetInode. wp_steps.
  apply wp_Operate_read; [done|]. by apply wp_ret.
Qed.
Lemma wp_UpdateInode s sb i ino Q : fs_layout s sb → 0 ≤ i < inodes_count sb →
  Q () (set_disk (put_sector (disk s) (inode_block i)
          (splice (sector (disk s) (inode_block i)) (inode_off i) (enc_inode ino))) s) →
  wp (UpdateInode i ino) Q s.
Proof.
  intros Hlay Hi HQ. destruct (lay_inode s sb i Hlay Hi) as (_ & Hb & _). unfold UpdateInode. wp_steps.
  apply wp_Operate_read; [done|]. by apply wp_Operate_write.
Qed.
Lemma inode_splice_len s sb i ino : fs_layout s sb → 0 ≤ i < inodes_count sb → length (addr ino) = 12%nat →
  length (splice (sector (disk s) (inode_block i)) (inode_off i) (enc_inode ino)) = 512%nat.
Proof.
  intros Hlay Hi Hl. destruct (lay_inode s sb i Hlay Hi) as (_ & _ & Ho).
  rewrite length_splice; [apply sector_len|]. rewrite sector_len, length_enc_inode by done. lia.
Qed.

(** * Lemmas: the block bitmap *)
Lemma clear_bit_of_spec n bit byte : 0 ≤ bit →
  match clear_bit_of n bit byte with
  | Some r => bit ≤ r < bit + Z.of_nat n ∧ Z.testbit byte r = false ∧ ∀ j, bit ≤ j < r → Z.testbit byte j = true
  | None => ∀ j, bit ≤ j < bit + Z.of_nat n → Z.testbit byte j = true
  end.
Proof.
  assert (Hland : ∀ k, 0 ≤ k → (Z.land (Z.shiftl 1 k) byte =? 0) = negb (Z.testbit byte k)).
  { intros k Hk. destruct (Z.testbit byte k) eqn:E; simpl.
    - apply Z.eqb_neq. intros H0. apply (f_equal (λ z, Z.testbit z k)) in H0.
      rewrite Z.land_spec, E, Z.shiftl_1_l, Z.pow2_bits_true, Z.bits_0 in H0 by lia. done.
    - apply Z.eqb_eq. apply Z.bits_inj'. intros j Hj. rewrite Z.land_spec, Z.bits_0, Z.shiftl_1_l.
      rewrite Z.pow2_bits_eqb by lia. destruct (Z.eqb_spec k j) as [->|]; [by rewrite E|done]. }
  revert bit. induction n as [|n IH]; intros bit Hb; cbn [clear_bit_of]; [intros; lia|].
  rewrite Hland by done. destruct (Z.testbit byte bit) eqn:E; cbn [negb].
  - specialize (IH (bit + 1) ltac:(lia)). destruct (clear_bit_of n (bit + 1) byte) as [r|].
    + destruct IH as (Hr & Hc & Hs). split_and!; [lia|lia|done|].
      intros j Hj. destruct (decide (j = bit)) as [->|]; [done|]. apply Hs. lia.
    + intros j Hj. destruct (decide (j = bit)) as [->|]; [done|]. apply IH. lia.
  - split_and!; [lia|lia|done|]. intros j Hj. lia.
Qed.
(** first fit: the bit found is clear, every lower one is set *)
Lemma find_block_spec bm i count :
  0 ≤ i → Forall (λ b, 0 ≤ b < 256) bm →
  match find_block bm i count with
  | Some (t, b') => ∃ b, bm !! Z.to_nat (t / 8 - i) = Some b ∧ 8 * i ≤ t ∧ b' = u8 (Z.lor b (Z.shiftl 1 (t mod 8))) ∧
      Z.testbit b (t mod 8) = false ∧ ∀ j, 8 * i ≤ j < t → bit_at bm (j - 8 * i) = true
  | None => ∀ j, 8 * i ≤ j < count → j < 8 * (i + Z.of_nat (length bm)) → bit_at bm (j - 8 * i) = true
  end.
Proof.
  revert i. induction bm as [|b bm IH]; intros i Hi Hbm; cbn [find_block]; [intros j; simpl; lia|].
  apply Forall_cons in Hbm as [Hb Hbm]. specialize (IH (i + 1) ltac:(lia) Hbm).
  assert (Hhd : ∀ j, 8 * i ≤ j < 8 * i + 8 → bit_at (b :: bm) (j - 8 * i) = Z.testbit b (j - 8 * i)).
  { intros j Hj. rewrite <-(bit_at_byte (b :: bm) 0 (j - 8 * i) b) by (done || lia). f_equal. }
  assert (Htl : ∀ j, 8 * (i + 1) ≤ j → bit_at (b :: bm) (j - 8 * i) = bit_at bm (j - 8 * (i + 1))).
  { intros j Hj. unfold bit_at.
    replace (Z.to_nat ((j - 8 * i) / 8)) with (S (Z.to_nat ((j - 8 * (i + 1)) / 8))) by dlia.
    cbn [lookup list_lookup]. f_equal. dlia. }
  assert (Hskip : (∀ j, 0 ≤ j < 8 → Z.testbit b j = true) →
    match find_block bm (i + 1) count with
    | Some (t, b') => ∃ b0, (b :: bm) !! Z.to_nat (t / 8 - i) = Some b0 ∧ 8 * i ≤ t ∧
        b' = u8 (Z.lor b0 (Z.shiftl 1 (t mod 8))) ∧ Z.testbit b0 (t mod 8) = false ∧
        ∀ j, 8 * i ≤ j < t → bit_at (b :: bm) (j - 8 * i) = true
    | None => ∀ j, 8 * i ≤ j < count → j < 8 * (i + Z.of_nat (length (b :: bm))) → bit_at (b :: bm) (j - 8 * i) = true
    end).
  { intros Hall. destruct (find_block bm (i + 1) count) as [[t b']|].
    - destruct IH as (b0 & Hl & Ht & Hb' & Hc & Hs). exists b0. split_and!; [|lia|done|done|].
      + replace (Z.to_nat (t / 8 - i)) with (S (Z.to_nat (t / 8 - (i + 1)))) by dlia. done.
      + intros j Hj. destruct (decide (j < 8 * (i + 1))).
        * rewrite Hhd by lia. apply Hall. lia.
        * rewrite Htl by lia. apply Hs. lia.
    - intros j Hj Hj2. cbn [length] in Hj2. destruct (decide (j < 8 * (i + 1))).
      + rewrite Hhd by lia. apply Hall. lia.
      + rewrite Htl by lia. apply IH; lia. }
  destruct (Z.leb_spec count (i * 8)); [intros j; lia|].
  destruct (Z.eqb_spec b 0xff) as [->|Hff].
  { apply Hskip. intros j Hj. change 0xff with (Z.ones 8). rewrite Z.testbit_ones_nonneg by lia. lia. }
  pose proof (clear_bit_of_spec 8 0 b ltac:(lia)) as Hcb.
  destruct (clear_bit_of 8 0 b) as [bit|]; [|apply Hskip; intros; apply Hcb; lia].
  destruct Hcb as (Hbit & Hc & Hs). exists b.
  replace ((i * 8 + bit) mod 8) with bit by dlia. replace (Z.to_nat ((i * 8 + bit) / 8 - i)) with 0%nat by dlia.
  split_and!; [done|lia|done|done|]. intros j Hj. rewrite Hhd by lia. apply Hs. lia.
Qed.

(** what a successful [AllocDataBlock] does *)
Record block_taken (sb : SuperBlock) (b : Z) (s s' : fsstate D) : Prop := {
  bt_data : data_block sb b;
  bt_free : block_bit s sb b = false;
  bt_layout : fs_layout s' sb;
  bt_bits : ∀ b', data_block sb b' → block_bit s' sb b' = if decide (b = b') then true else block_bit s sb b';
  bt_other : ∀ b', b' ≠ bmap_start sb → sector (disk s') b' = sector (disk s) b';
  bt_count : length (free_blocks s sb) = S (length (free_blocks s' sb));
  bt_first : ∀ b', data_block sb b' → b' < b → block_bit s sb b' = true;
}.
Lemma filter_remove_one (P P' : Z → Prop) `{!∀ x, Decision (P x), !∀ x, Decision (P' x)} (l : list Z) t :
  NoDup l → t ∈ l → P t → (∀ x, x ∈ l → P' x ↔ P x ∧ x ≠ t) →
  length (filter P l) = S (length (filter P' l)).
Proof.
  intros Hnd Ht HP HP'.
  assert (filter P l ≡ₚ t :: filter P' l) as ->%Permutation_length; [|done].
  apply NoDup_Permutation.
  - by apply NoDup_filter.
  - constructor; [|by apply NoDup_filter]. rewrite list_elem_of_filter. intros [Hx1 Hx2]. apply HP' in Hx1; naive_solver.
  - intros x. rewrite elem_of_cons, !list_elem_of_filter. destruct (decide (x = t)) as [->|]; [naive_solver|].
    split; [intros [? ?]; right; split; [apply HP'|]; done|].
    intros [?|[Hx Hin]]; [done|]. apply HP' in Hx; naive_solver.
Qed.
Lemma wp_AllocDataBlock s sb (Q : option Z → fsstate D → Prop) :
  fs_layout s sb →
  (∀ b s', block_taken sb b s s' → Q (Some b) s') →
  ((∀ b, data_block sb b → block_bit s sb b = true) → Q None s) →
  wp AllocDataBlock Q s.
Proof.
  intros Hlay HS HN. pose proof Hlay as [Hsup Hjunk Hst Hino H26 Hbm Hcnt Hend H32 Hby].
  unfold AllocDataBlock. apply wp_bind, (wp_GetSuperNode s sb); [done|]. wp_steps.
  apply wp_Operate_read; [lia|]. fold (bitmap s sb).
  pose proof (find_block_spec (bitmap s sb) 0 (datablocks_count sb) ltac:(lia) Hby) as Hfb.
  assert (Hbl : length (bitmap s sb) = 512%nat) by apply sector_len.
  destruct (find_block _ _ _) as [[t b']|].
  - destruct Hfb as (b & Hb & Ht & -> & Hc & Hs). rewrite Z.sub_0_r in Hb.
    destruct (Z.leb_spec (datablocks_count sb) t) as [Hge|Hlt].
    + apply wp_ret, HN. intros a Ha. unfold data_block in Ha. unfold block_bit.
      rewrite <-(Hs (a - bmap_start sb - 1)) by lia. f_equal. lia.
    + apply wp_bind, wp_Operate_write; [lia|]. apply wp_ret. rewrite wrap_small by lia.
      set (bm' := <[_ := _]> (bitmap s sb)).
      assert (Hbm' : length bm' = 512%nat) by (unfold bm'; by rewrite length_insert).
      assert (Hbits : ∀ j, 0 ≤ j → bit_at bm' j = if decide (t = j) then true else bit_at (bitmap s sb) j).
      { intros j Hj. unfold bm'. apply bit_at_set; [done|lia|done]. }
      assert (Hclear : bit_at (bitmap s sb) t = false) by (unfold bit_at; by rewrite Hb).
      assert (Hnew : bitmap (set_disk (put_sector (disk s) (bmap_start sb) bm') s) sb = bm').
      { unfold bitmap. cbn. by rewrite sector_put, decide_True by (done || lia). }
      apply HS. constructor.
      * unfold data_block. lia.
      * unfold block_bit. replace (t + bmap_start sb + 1 - bmap_start sb - 1) with t by lia. done.
      * apply layout_put; [done|done|lia|]. intros _. apply Forall_insert; [done|]. apply (wrap_range 8). lia.
      * intros a Ha. unfold data_block in Ha. unfold block_bit. rewrite Hnew, Hbits by lia.
        destruct (decide (t = _)), (decide (_ = a)); done || lia.
      * intros a Ha. cbn. rewrite sector_put, decide_False by (done || lia). done.
      * unfold free_blocks. rewrite Hnew. apply (filter_remove_one _ _ _ t); [apply NoDup_seqZ|apply elem_of_seqZ; lia|done|].
        intros x Hx%elem_of_seqZ. rewrite Hbits by lia. case_decide; naive_solver.
      * intros a Ha Hlta. unfold data_block in Ha. unfold block_bit. rewrite <-(Hs (a - bmap_start sb - 1)) by lia. f_equal. lia.
  - apply wp_ret, HN. intros a Ha. unfold data_block in Ha. unfold block_bit.
    rewrite <-(Hfb (a - bmap_start sb - 1)) by lia. f_equal. lia.
Qed.

(** * Lemmas: writing inside the direct blocks *)
(** the block a write goes to, after [target_block] *)
Record targeted (sb : SuperBlock) (k : nat) (s : fsstate D) (i : InodeDef) (t : Z) (s1 : fsstate D) (i1 : InodeDef) : Prop := {
  tg_inv : file_inv s1 sb i1;
  tg_addr : addr i1 !! k = Some t;
  tg_nz : t ≠ 0;
  tg_size : ino_size i1 = ino_size i;
  tg_index : inode_index i1 = inode_index i;
  tg_type : ino_type i1 = ino_type i;
  tg_blocks : i1 = i ∧ s1 = s ∨
    concat (blocks_of (disk s1) i1) = splice (concat (blocks_of (disk s) i)) (k * 512) (sector (disk s) t) ∧
    ino_size i ≤ 512 * Z.of_nat k;
  tg_foreign : ∀ b, foreign s sb i b → foreign s1 sb i1 b ∧ sector (disk s1) b = sector (disk s) b;
  tg_free : (unmapped i ≤ length (free_blocks s sb))%nat → (unmapped i1 ≤ length (free_blocks s1 sb))%nat;
}.
Lemma blocks_len d i : Forall (λ x, length x = 512%nat) (blocks_of d i).
Proof. unfold blocks_of. apply Forall_fmap, Forall_true. intros a. apply sector_len. Qed.
Lemma length_blocks d i : length (addr i) = 12%nat → length (concat (blocks_of d i)) = (12 * 512)%nat.
Proof. intros Ha. rewrite (length_concat_eq _ 512) by apply blocks_len. unfold blocks_of. by rewrite length_fmap, Ha. Qed.
Lemma unmapped_set i k b : addr i !! k = Some 0 → b ≠ 0 → unmapped i = S (unmapped (set_addr i k b)).
Proof.
  intros Hk Hb. unfold unmapped. cbn [addr set_addr]. pose proof (lookup_lt_Some _ _ _ Hk).
  rewrite insert_take_drop by done. rewrite <-(take_drop_middle _ _ _ Hk) at 1.
  rewrite !filter_app, !filter_cons, decide_True, decide_False by done. rewrite !length_app. cbn [length]. lia.
Qed.
Lemma wp_target_direct s sb i k :
  file_inv s sb i → (k < 12)%nat → (unmapped i ≤ length (free_blocks s sb))%nat →
  wp (target_block i (Z.of_nat k)) (λ '(t, i1) s1, ∃ b, t = Some b ∧ targeted sb k s i b s1 i1) s.
Proof.
  intros Hinv Hk Hfree. pose proof Hinv as [Hlay Hok Hidx Hsz Hal Hdis Hmap].
  unfold target_block. replace (Z.of_nat k <? DIRECT_ADDR_SIZE) with true by (unfold DIRECT_ADDR_SIZE; lia).
  destruct (lookup_lt_is_Some_2 (addr i) k) as [a Ha]; [rewrite (iok_len _ Hok); lia|].
  rewrite Nat2Z.id, Ha. cbn [of_option]. wp_steps. destruct (Z.eqb_spec a 0) as [->|Hnz].
  - apply wp_bind, (wp_AllocDataBlock s sb); [done| |].
    + intros b s' Hbt. apply wp_ret. exists b. split; [done|]. destruct Hbt as [Hd Hf Hlay' Hbits Hoth Hcnt].
      assert (Hb0 : b ≠ 0) by (destruct Hlay; unfold data_block in Hd; lia).
      assert (Hbni : b ∉ addr i).
      { intros Hin. apply list_elem_of_lookup_1 in Hin as [j Hj]. destruct (Hal j b Hj Hb0). congruence. }
      assert (Hsz' : ino_size i ≤ 512 * Z.of_nat k).
      { destruct (decide (512 * Z.of_nat k < ino_size i)); [|lia]. by destruct (Hmap k 0 Ha). }
      constructor; try done.
      * constructor; cbn [inode_index ino_size addr set_addr]; try done.
        -- destruct Hok. constructor; cbn; try done; [by rewrite length_insert|].
           apply Forall_insert; [done|]. destruct Hlay. unfold data_block, u32_ok in *. lia.
        -- intros j c Hj Hc. apply list_lookup_insert_Some in Hj as [(-> & -> & _)|[Hne Hj]].
           ++ split; [done|]. rewrite Hbits, decide_True by done. done.
           ++ destruct (Hal j c Hj Hc) as [Hdc Hbc]. split; [done|]. rewrite Hbits by done. by case_decide.
        -- intros j1 j2 c Hj1 Hj2 Hc. apply list_lookup_insert_Some in Hj1 as [(-> & -> & _)|[Hn1 Hj1]];
             apply list_lookup_insert_Some in Hj2 as [(-> & Heq & _)|[Hn2 Hj2]]; subst; try done.
           ++ exfalso. by apply Hbni, (list_elem_of_lookup_2 _ j2).
           ++ exfalso. by apply Hbni, (list_elem_of_lookup_2 _ j1).
           ++ by eapply Hdis.
        -- intros j c Hj Hlt. apply list_lookup_insert_Some in Hj as [(-> & -> & _)|[Hne Hj]]; [done|]. by eapply Hmap.
      * cbn. rewrite list_lookup_insert_eq; [done|]. rewrite (iok_len _ Hok). lia.
      * right. split; [|done].
        assert (blocks_of (disk s') (set_addr i k b) = <[k := sector (disk s) b]> (blocks_of (disk s) i)) as ->.
        { unfold blocks_of. cbn [addr set_addr]. rewrite list_fmap_insert.
          destruct Hlay. unfold data_block in Hd. rewrite Hoth by lia. f_equal.
          apply list_fmap_ext. intros j c Hj. apply Hoth. destruct (decide (c = 0)) as [->|Hc0]; [lia|].
          destruct (Hal j c Hj Hc0) as [Hdc _]. unfold data_block in Hdc. lia. }
        apply concat_insert; [apply blocks_len|apply sector_len|]. unfold blocks_of. rewrite length_fmap, (iok_len _ Hok). lia.
      * intros c [[Hlt Hne]|(Hdc & Hbc & Hni)].
        -- split; [left; done|]. apply Hoth. lia.
        -- assert (b ≠ c) by congruence. split; [|apply Hoth; unfold data_block in Hdc; lia].
           right. split_and!; [done|by rewrite Hbits, decide_False|]. cbn. intros Hin.
           apply list_elem_of_lookup_1 in Hin as [j Hj].
           apply list_lookup_insert_Some in Hj as [(-> & -> & _)|[_ Hj]]; [done|]. by apply Hni, (list_elem_of_lookup_2 _ j).
      * intros Hu. rewrite (unmapped_set i k b) in Hu by done. lia.
    + intros Hfull. exfalso. assert (0 < unmapped i)%nat as Hpos by (rewrite (unmapped_set i k 1) by done; lia).
      destruct (free_blocks s sb) as [|x l] eqn:E; [simpl in Hfree; lia|].
      assert (x ∈ free_blocks s sb) as Hx by (rewrite E; left). unfold free_blocks in Hx.
      apply list_elem_of_filter in Hx as [Hx1 Hx2%elem_of_seqZ].
      specialize (Hfull (x + bmap_start sb + 1)). unfold block_bit, data_block in Hfull.
      replace (x + bmap_start sb + 1 - bmap_start sb - 1) with x in Hfull by lia. rewrite Hx1 in Hfull. lia.
  - apply wp_ret. exists a. split; [done|]. constructor; try done. by left.
Qed.

(** an update of a block that is neither the super block nor the bitmap *)
Lemma put_inv s sb i b x :
  file_inv s sb i → length x = 512%nat → 0 < b < sectors (disk s) → b ≠ bmap_start sb →
  file_inv (set_disk (put_sector (disk s) b x) s) sb i.
Proof.
  intros [Hlay Hok Hidx Hsz Hal Hdis Hmap] Hx Hb Hne. constructor; try done.
  - by apply layout_put.
  - intros k a Hk Ha. destruct (Hal k a Hk Ha) as [Hd Hbit]. split; [done|].
    unfold block_bit, bitmap in *. cbn. rewrite sector_put, decide_False by (done || lia). done.
Qed.
Lemma put_foreign s sb i b x c :
  length x = 512%nat → 0 < b < sectors (disk s) → b ≠ bmap_start sb → ¬ foreign s sb i b →
  foreign s sb i c →
  foreign (set_disk (put_sector (disk s) b x) s) sb i c ∧ sector (put_sector (disk s) b x) c = sector (disk s) c.
Proof.
  intros Hx Hb Hne Hnf Hc.
  assert (b ≠ c) by (by intros ->).
  split; [|by rewrite sector_put, decide_False by (done || lia)].
  destruct Hc as [Hc|(Hd & Hbit & Hni)]; [by left|right]. split_and!; [done| |done].
  unfold block_bit, bitmap in *. cbn. rewrite sector_put, decide_False by (done || lia). done.
Qed.
Lemma blocks_put s sb i k a x :
  file_inv s sb i → addr i !! k = Some a → a ≠ 0 → length x = 512%nat →
  blocks_of (put_sector (disk s) a x) i = <[k := x]> (blocks_of (disk s) i).
Proof.
  intros Hinv Hk Ha Hx. pose proof Hinv as [Hlay Hok _ _ Hal Hdis _]. destruct (Hal k a Hk Ha) as [Hd _].
  assert (0 ≤ a < sectors (disk s)) by (destruct Hlay; unfold data_block in Hd; lia).
  apply list_eq. intros j. unfold blocks_of. rewrite list_lookup_fmap.
  destruct (addr i !! j) as [c|] eqn:Hj; cbn [fmap option_fmap option_map].
  - rewrite sector_put by done. case_decide as Hac.
    + subst c. assert (j = k) as -> by (by eapply Hdis). rewrite list_lookup_insert_eq; [done|].
      rewrite length_fmap. by eapply lookup_lt_Some.
    + rewrite list_lookup_insert_ne by congruence. by rewrite list_lookup_fmap, Hj.
  - symmetry. apply lookup_ge_None_2. rewrite length_insert, length_fmap. by apply lookup_ge_None_1.
Qed.
Lemma blocks_put_other s sb i b x :
  file_inv s sb i → length x = 512%nat → 0 < b < bmap_start sb →
  blocks_of (put_sector (disk s) b x) i = blocks_of (disk s) i.
Proof.
  intros [Hlay _ _ _ Hal _ _] Hx Hb. unfold blocks_of. apply list_fmap_ext. intros j c Hj.
  destruct Hlay. rewrite sector_put, decide_False; [done| |done|lia].
  intros ->. destruct (Hal j c Hj) as [Hd _]; [lia|]. unfold data_block in Hd. lia.
Qed.
(** the new contents of the blocks, cut to the new size *)
Lemma write_contents sb k s i t s1 i1 pos buf :
  file_inv s sb i → targeted sb k s i t s1 i1 → Z.to_nat (pos / 512) = k → 0 ≤ pos ≤ ino_size i →
  (0 < length buf)%nat → pos mod 512 + Z.of_nat (length buf) ≤ 512 →
  let x := splice (sector (disk s1) t) (Z.to_nat (pos mod 512)) buf in
  length x = 512%nat ∧ take (Nat.max (Z.to_nat (ino_size i)) (Z.to_nat pos + length buf)) (concat (blocks_of (put_sector (disk s1) t x) i1)) =
  splice (file_data (disk s) i) (Z.to_nat pos) buf.
Proof.
  intros Hinv Htg Hk Hpos Hbuf Hfit x. pose proof Htg as [Hinv1 Haddr Hnz Hsz _ _ Hblk _ _].
  pose proof (fi_size _ _ _ Hinv) as H6144. pose proof (iok_len _ (fi_ok _ _ _ Hinv)) as H12.
  assert (Hx : length x = 512%nat) by (unfold x; rewrite length_splice; rewrite sector_len; [done|dlia]).
  assert (Hk12 : (k < 12)%nat) by (apply lookup_lt_Some in Haddr; by rewrite (iok_len _ (fi_ok _ _ _ Hinv1)) in Haddr).
  split; [done|]. rewrite (blocks_put s1 sb i1 k t x) by done.
  rewrite (concat_insert _ 512); [|apply blocks_len|done|unfold blocks_of; rewrite length_fmap, (iok_len _ (fi_ok _ _ _ Hinv1)); lia].
  unfold file_data. pose proof (length_blocks (disk s) i H12) as HL. set (L := concat (blocks_of (disk s) i)) in *.
  destruct Hblk as [[-> ->]|[HL1 Hle]].
  - fold L. unfold x. rewrite splice_splice_block.
    + replace (k * 512 + Z.to_nat (pos mod 512))%nat with (Z.to_nat pos) by dlia. apply take_splice. lia.
    + rewrite sector_len. lia.
    + rewrite sector_len. apply list_eq. intros j. destruct (decide (j < 512)%nat) as [Hj|Hj].
      * rewrite lookup_take_lt, lookup_drop by done. unfold L.
        apply lookup_concat; [apply blocks_len| |done]. unfold blocks_of. by rewrite list_lookup_fmap, Haddr.
      * rewrite lookup_take_ge, lookup_ge_None_2 by (rewrite ?sector_len; lia). done.
    + rewrite sector_len. dlia.
  - assert (Hoff : pos mod 512 = 0) by dlia. assert (Hsz0 : Z.to_nat (ino_size i) = (k * 512)%nat) by dlia.
    assert (Hpk : Z.to_nat pos = (k * 512)%nat) by dlia.
    rewrite HL1, splice_splice_same by (rewrite ?sector_len; lia). unfold x. rewrite Hoff, Hpk, Hsz0.
    rewrite Nat.max_r, take_splice_head by (rewrite ?sector_len; lia).
    rewrite <-(take_splice L (k * 512) (k * 512) buf) by lia. by rewrite Nat.max_r by lia.
Qed.

(** the inode as the inode table holds it *)
Definition stored (s : fsstate D) (i : InodeDef) : Prop :=
  dec_inode (slice (sector (disk s) (inode_block (inode_index i))) (inode_off (inode_index i)) 64) = i.
(** [buf] has been written at [pos] of the file [i] *)
Record written (sb : SuperBlock) (pos : Z) (buf : list Z) (s : fsstate D) (i : InodeDef) (s' : fsstate D) (i' : InodeDef) : Prop := {
  wr_inv : file_inv s' sb i';
  wr_data : file_data (disk s') i' = splice (file_data (disk s) i) (Z.to_nat pos) buf;
  wr_size : ino_size i' = Z.max (ino_size i) (pos + Z.of_nat (length buf));
  wr_index : inode_index i' = inode_index i;
  wr_type : ino_type i' = ino_type i;
  wr_foreign : ∀ b, foreign s sb i b → foreign s' sb i' b ∧ sector (disk s') b = sector (disk s) b;
  wr_free : (unmapped i ≤ length (free_blocks s sb))%nat → (unmapped i' ≤ length (free_blocks s' sb))%nat;
  wr_stored : stored s i → stored s' i';
}.
Lemma free_blocks_put s sb b x : b ≠ bmap_start sb → length x = 512%nat → 0 ≤ b < sectors (disk s) →
  free_blocks (set_disk (put_sector (disk s) b x) s) sb = free_blocks s sb.
Proof.
  intros Hne Hx Hb. unfold free_blocks, bitmap. cbn. by rewrite sector_put, decide_False by done.
Qed.
Lemma inode_written s sb i : file_inv s sb i →
  let b := inode_block (inode_index i) in
  let x := splice (sector (disk s) b) (inode_off (inode_index i)) (enc_inode i) in
  length x = 512%nat ∧ 0 < b < bmap_start sb ∧ 0 ≤ b < sectors (disk s) ∧ stored (set_disk (put_sector (disk s) b x) s) i.
Proof.
  intros [Hlay Hok Hidx _ _ _ _] b x. pose proof (iok_index _ Hok) as [Hi0 _].
  destruct (lay_inode s sb (inode_index i) Hlay ltac:(lia)) as (Hb & Hbs & Ho).
  assert (Hx : length x = 512%nat) by (apply (inode_splice_len s sb); [done|lia|apply Hok]).
  split_and!; [done|lia..|]. unfold stored. cbn. fold b. rewrite sector_put, decide_True by done.
  unfold x, slice. rewrite <-(length_enc_inode i) at 1 by apply Hok. rewrite splice_same.
  - by apply dec_enc_inode.
  - rewrite sector_len, length_enc_inode by apply Hok. lia.
Qed.
Lemma wp_WriteImpl s sb i pos buf :
  file_inv s sb i → 0 ≤ pos ≤ ino_size i → (0 < length buf)%nat → pos mod 512 + Z.of_nat (length buf) ≤ 512 →
  pos + Z.of_nat (length buf) ≤ 6144 → (unmapped i ≤ length (free_blocks s sb))%nat →
  wp (WriteImpl i buf pos) (λ '(ok, i') s', ok = true ∧ written sb pos buf s i s' i') s.
Proof.
  intros Hinv Hpos Hbuf Hfit H6144 Hfree. set (k := Z.to_nat (pos / 512)).
  unfold WriteImpl, BLOCK_SIZE. rewrite (wrap_small 32 (pos / 512)) by dlia.
  assert (Hkz : Z.of_nat k = pos / 512) by (unfold k; dlia). rewrite <-Hkz.
  apply wp_bind. eapply wp_mono; [apply (wp_target_direct s sb i k); [done|unfold k; dlia|done]|].
  intros [t0 i1] s1 (t & -> & Htg).
  destruct (write_contents sb k s i t s1 i1 pos buf Hinv Htg eq_refl Hpos Hbuf Hfit) as [Hx Hcont].
  set (x := splice (sector (disk s1) t) (Z.to_nat (pos mod 512)) buf) in *.
  pose proof Htg as [Hinv1 Haddr Hnz Hsz1 Hidx1 Hty1 Hblk Hfor1 Hfree1].
  pose proof (fi_layout _ _ _ Hinv1) as Hlay1. destruct (fi_alloc _ _ _ Hinv1 k t Haddr Hnz) as [Hd Hbit].
  assert (Ht : 0 < t < sectors (disk s1) ∧ t ≠ bmap_start sb) by (destruct Hlay1; unfold data_block in Hd; lia).
  set (s2 := set_disk (put_sector (disk s1) t x) s1).
  assert (Hinv2 : file_inv s2 sb i1) by (apply put_inv; [done|done|lia|lia]).
  assert (Hfor2 : ∀ b, foreign s sb i b → foreign s2 sb i1 b ∧ sector (disk s2) b = sector (disk s) b).
  { intros b Hb. destruct (Hfor1 b Hb) as [Hb1 Hs1].
    destruct (put_foreign s1 sb i1 t x b Hx) as [? ?]; [lia|lia| |done|split; [done|by etrans]].
    intros [[? ?]|(_ & _ & Hni)]; [unfold data_block in Hd; lia|]. by apply Hni, (list_elem_of_lookup_2 _ k). }
  assert (Hfree2 : free_blocks s2 sb = free_blocks s1 sb) by (apply free_blocks_put; [lia|done|lia]).
  assert (Hwr : ∀ K Q, wp K Q s2 →
    wp ((if negb (Z.of_nat (length buf) =? 512) then
           data ← gets junk; data ← Operate_read data t;
           Operate_write (splice data (Z.to_nat (pos mod 512)) buf) t
         else Operate_write buf t) ;; K : M (fsstate D) (bool * InodeDef)) Q s1).
  { intros K Q HK. apply wp_bind. destruct (Z.eqb_spec (Z.of_nat (length buf)) 512) as [H512|H512]; cbn [negb].
    - assert (Hbx : x = buf).
      { unfold x, splice. replace (Z.to_nat (pos mod 512)) with 0%nat by dlia.
        rewrite drop_ge by (rewrite sector_len; lia). by rewrite take_0, app_nil_r. }
      apply wp_Operate_write; [lia|]. unfold s2 in HK. by rewrite Hbx in HK.
    - wp_steps. apply wp_Operate_read; [lia|]. apply wp_Operate_write; [lia|done]. }
  apply Hwr. pose proof (fi_size _ _ _ Hinv).
  rewrite wrap_small by lia. rewrite Hsz1. destruct (Z.ltb_spec (ino_size i) (pos + Z.of_nat (length buf))) as [Hgrow|Hsame].
  - rewrite wrap_small by lia. set (i2 := set_size i1 (pos + Z.of_nat (length buf))).
    assert (Hinv2' : file_inv s2 sb i2).
    { destruct Hinv2 as [Hl Ho Hi Hs Ha Hdd Hm]. constructor; try done.
      - destruct Ho. constructor; try done. cbn. unfold u32_ok. lia.
      - intros j a Hj Hlt. cbn [ino_size set_size i2 addr] in Hj, Hlt. destruct (decide (512 * Z.of_nat j < ino_size i1)) as [|Hge]; [by eapply Hm|].
        rewrite Hsz1 in Hge. assert (j = k) as -> by (clearbody k; dlia). congruence. }
    destruct (inode_written s2 sb i2 Hinv2') as (Hxl & Hib & Hibs & Hst).
    pose proof (iok_index _ (fi_ok _ _ _ Hinv2')) as [? _]. pose proof (fi_index _ _ _ Hinv2').
    apply wp_bind, (wp_UpdateInode s2 sb); [apply Hinv2'|lia|]. apply wp_ret. split; [done|].
    set (b := inode_block (inode_index i2)) in *. set (y := splice _ _ (enc_inode i2)) in *.
    assert (Hnf : ¬ foreign s2 sb i1 b).
    { intros [[_ Hn]|(Hdb & _)]; [by apply Hn|unfold data_block in Hdb; lia]. }
    constructor; try done.
    + apply put_inv; [done|done|lia|lia].
    + rewrite <-Hcont. unfold file_data. cbn [disk set_disk ino_size set_size i2]. rewrite (blocks_put_other s2 sb i2) by done.
      change (blocks_of (disk s2) i2) with (blocks_of (put_sector (disk s1) t x) i1). f_equal. lia.
    + cbn. lia.
    + intros c Hc. destruct (Hfor2 c Hc) as [Hc2 Hs2].
      destruct (put_foreign s2 sb i1 b y c Hxl) as [? ?]; try done; [lia|lia|]. split; [done|by etrans].
    + intros Hu. rewrite free_blocks_put by (done || lia). rewrite Hfree2. by apply Hfree1.
  - apply wp_ret. split; [done|]. constructor; try done.
    + rewrite <-Hcont. unfold file_data. cbn [disk set_disk s2]. rewrite Hsz1. f_equal. lia.
    + lia.
    + intros Hu. rewrite Hfree2. by apply Hfree1.
    + destruct Hblk as [[-> ->]|[_ Hle]]; [|unfold k in Hle; dlia]. unfold stored. intros Hst. cbn.
      rewrite sector_put, decide_False; [done| |done|lia].
      pose proof (iok_index _ (fi_ok _ _ _ Hinv)) as [? _]. pose proof (fi_index _ _ _ Hinv).
      destruct (lay_inode s sb (inode_index i) Hlay1 ltac:(lia)) as (Hb & _). unfold data_block in Hd. lia.
Qed.

Lemma length_file_data s sb i : file_inv s sb i → length (file_data (disk s) i) = Z.to_nat (ino_size i).
Proof.
  intros Hinv. unfold file_data. rewrite length_take, length_blocks by apply Hinv.
  pose proof (fi_size _ _ _ Hinv). lia.
Qed.
Lemma written_nil s sb i pos : file_inv s sb i → 0 ≤ pos ≤ ino_size i → written sb pos [] s i s i.
Proof. intros Hinv Hpos. constructor; try done; [by rewrite splice_nil|simpl; lia]. Qed.
Lemma written_app s sb i pos x y s1 i1 s2 i2 :
  file_inv s sb i → 0 ≤ pos ≤ ino_size i → written sb pos x s i s1 i1 →
  written sb (pos + Z.of_nat (length x)) y s1 i1 s2 i2 → written sb pos (x ++ y) s i s2 i2.
Proof.
  intros Hinv Hpos Hw1 Hw2. destruct Hw1 as [I1 D1 S1 N1 Y1 F1 U1 T1], Hw2 as [I2 D2 S2 N2 Y2 F2 U2 T2].
  constructor; auto.
  - rewrite D2, D1, <-splice_app by (rewrite (length_file_data s sb) by done; lia). f_equal. lia.
  - rewrite S2, S1, length_app. lia.
  - congruence.
  - congruence.
  - intros b Hb. destruct (F1 b Hb) as [Hb1 E1]. destruct (F2 b Hb1) as [Hb2 E2]. split; [done|congruence].
Qed.
Lemma wp_Write_loop fuel s sb i pos buf total :
  file_inv s sb i → 0 ≤ pos ≤ ino_size i → pos + Z.of_nat (length buf) ≤ 6144 →
  (unmapped i ≤ length (free_blocks s sb))%nat → (length buf ≤ fuel)%nat →
  wp (Write_loop fuel i buf pos total) (λ '(r, i') s', r = total ∧ written sb pos buf s i s' i') s.
Proof.
  revert s i pos buf. induction fuel as [|fuel IH]; intros s i pos buf Hinv Hpos Hend Hfree Hfuel.
  { destruct buf; [|simpl in Hfuel; lia]. apply wp_ret. split; [done|]. by apply written_nil. }
  destruct buf as [|c buf0]; [apply wp_ret; split; [done|by apply written_nil]|].
  set (buf := c :: buf0) in *. cbn [Write_loop]. unfold buf at 1.
  set (n := Z.to_nat (Z.min (Z.of_nat (length buf)) (BLOCK_SIZE - pos mod BLOCK_SIZE))).
  assert (Hmod : 0 ≤ pos mod 512 < 512) by dlia.
  assert (Hn : (0 < n ≤ length buf)%nat ∧ pos mod 512 + Z.of_nat n ≤ 512).
  { unfold n, BLOCK_SIZE. assert (0 < length buf)%nat by (simpl; lia). lia. }
  assert (Htake : length (take n buf) = n) by (rewrite length_take; lia).
  apply wp_bind. eapply wp_mono.
  - apply (wp_WriteImpl s sb i pos (take n buf)); rewrite ?Htake; try done; lia.
  - intros [ok i1] s1 (-> & Hw). rewrite wrap_small by (pose proof (fi_size _ _ _ Hinv); lia).
    eapply wp_mono; [apply (IH s1 i1 (pos + Z.of_nat n) (drop n buf))|].
    + apply Hw.
    + rewrite (wr_size _ _ _ _ _ _ _ Hw), Htake. lia.
    + rewrite length_drop. lia.
    + by apply Hw.
    + rewrite length_drop. lia.
    + intros [r i2] s2 (-> & Hw2). split; [done|]. rewrite <-(take_drop n buf).
      eapply written_app; [done|done|exact Hw|]. by rewrite Htake.
Qed.
Lemma wp_Write s sb i pos buf :
  file_inv s sb i → 0 ≤ pos ≤ ino_size i → pos + Z.of_nat (length buf) ≤ 6144 →
  (unmapped i ≤ length (free_blocks s sb))%nat →
  wp (Write i buf pos) (λ '(r, i') s', r = Z.of_nat (length buf) ∧ written sb pos buf s i s' i') s.
Proof.
  intros. unfold Write. replace (ino_size i <? pos) with false by lia. by apply wp_Write_loop.
Qed.
End ghost.

(** * A small disk: 100 blocks, laid out as mkfs does, holding an empty root *)
Definition demo_sb : SuperBlock := MkSuperBlock (le_value FSMAGIC) 100 58 320 1 41.
Definition demo_root_inode : InodeDef := MkInode 0 FT_directory 1 0 0 0 (replicate 12 0) 0.
Definition demo_file : InodeDef := MkInode 1 FT_regular_file 1 0 0 0 (replicate 12 0) 0.
Definition demo_disk : ramdisk := RamDisk 100
  {[ 0 := enc_super demo_sb ++ replicate 488 0; 1 := enc_inode demo_root_inode ++ replicate 448 0 ]}.
Definition demo_fs : fsstate ramdisk := FsState demo_disk (replicate 512 0xaa) [slash; 97; 0].
Lemma demo_layout : fs_layout demo_fs demo_sb.
Proof. constructor; try (by vm_compute). by apply (bool_decide_unpack _). Qed.
Lemma demo_inv i : i = demo_root_inode ∨ i = demo_file → file_inv demo_fs demo_sb i.
Proof.
  intros Hi. assert (addr i = replicate 12 0 ∧ ino_size i = 0) as [Ha Hs] by (by destruct Hi as [->| ->]).
  constructor.
  - apply demo_layout.
  - destruct Hi as [->| ->]; (constructor; [by vm_compute..|by apply (bool_decide_unpack _)|by vm_compute]).
  - by destruct Hi as [->| ->].
  - by rewrite Hs.
  - intros k a. rewrite Ha. intros [-> _]%lookup_replicate. done.
  - intros j k a. rewrite Ha. intros [-> _]%lookup_replicate. done.
  - intros k a. rewrite Hs. lia.
Qed.
Lemma demo_free_enough i : i = demo_root_inode ∨ i = demo_file →
  (unmapped i ≤ length (free_blocks demo_fs demo_sb))%nat.
Proof. intros [->| ->]; apply Nat.leb_le; by vm_compute. Qed.

(** * The properties of block allocation and of the inode table *)
Section props.
Context {D : Type} `{BlockDevice D}.


End props.
