(* ===== verification/FileStream.v ===== *)
(** [filesystem/filestream.cc], [lib/streambase.cc] and [lib/stringstream.cc]: the
    streams.  A stream is its position; [FileStream] reads the blocks of an inode
    and [StringStream] a buffer. *)
From S2P Require Import Prelude Mem Inode FsCommon FileData.

(** * FileStream *)
Section filestream.
Context {D : Type} `{BlockDevice D}.
Abbreviation FS := (M (fsstate D)).

(** [driver::virtio::block_size] is 512 *)
Definition ConvertFsBlockToDriveBlock (fs_block : Z) : Z := u64 (fs_block * BLOCK_SIZE) / 512.
(** the loop of [FileStream::Read]; [indirect] is [indirect_block], [buf] the
    destination's old bytes from the pointer on, [out] what it has received.  A
    whole block is read straight into the destination. *)
Fixpoint Read_loop (fuel : nat) (inode : InodeDef) (position remain : Z) (indirect buf out : list Z) : FS (list Z * Z) :=
  if remain <=? 0 then mret (out, position) else
  match fuel with
  | O => stop_with OutOfFuel
  | S fuel =>
    let remain_size := BLOCK_SIZE - position mod BLOCK_SIZE in
    let len := if remain_size <? remain then remain_size else remain in
    let data_block_index := position / BLOCK_SIZE in
    indirect ← (if (DIRECT_ADDR_SIZE <=? data_block_index) && (get_le indirect 0 4 =? 0)
                then Operate_read indirect (ConvertFsBlockToDriveBlock (indirect_addr inode))
                else mret indirect);
    fs_block ← (if data_block_index <? DIRECT_ADDR_SIZE
                then of_option (Faulted "inode_.addr") (addr inode !! Z.to_nat data_block_index)
                else
                  let k := Z.to_nat (data_block_index - DIRECT_ADDR_SIZE) in
                  if (128 <=? k)%nat then stop_with (Faulted "indirect_block") else mret (get_le indirect (4 * k) 4));
    piece ← (if len =? BLOCK_SIZE
             then Operate_read (take 512 buf) (ConvertFsBlockToDriveBlock fs_block)
             else
               sector_data ← gets junk;
               sector_data ← Operate_read sector_data (ConvertFsBlockToDriveBlock fs_block);
               mret (slice sector_data (Z.to_nat (position mod BLOCK_SIZE)) (Z.to_nat len)));
    Read_loop fuel inode (u64 (position + len)) (remain - len) indirect (drop (Z.to_nat len) buf) (out ++ piece)
  end.
(** the bytes copied to [buf], the size returned, and the new position *)
Definition FileStream_Read (inode : InodeDef) (position : Z) (buf : list Z) (size : Z) : FS (list Z * Z * Z) :=
  let size := Z.min (u64 (ino_size inode - position)) size in
  '(out, position) ← Read_loop (Z.to_nat size) inode position size (replicate 512 0) buf [];
  mret (out, size, position).
Definition FileStream_Seek (pos : Z) : Z := pos.
Definition FileStream_Size (inode : InodeDef) : Z := ino_size inode.
(** [write] leaves [position_] where it was *)
Definition FileStream_write (inode : InodeDef) (position : Z) (buf : list Z) : FS (Z * InodeDef * Z) :=
  '(n, inode) ← Write inode buf position;
  mret (n, inode, position).

(** ** Reading the direct blocks *)
Lemma drive_block b : 0 ≤ b < 2 ^ 32 → ConvertFsBlockToDriveBlock b = b.
Proof. intros Hb. unfold ConvertFsBlockToDriveBlock, BLOCK_SIZE. rewrite wrap_small by lia. dlia. Qed.
Lemma slice_split (l : list Z) o n m : slice l o (n + m) = slice l o n ++ slice l (o + n) m.
Proof.
  unfold slice. rewrite <-drop_drop. rewrite <-(take_drop n (drop o l)) at 1.
  apply list_eq. intros j. destruct (decide (j < n)%nat).
  - rewrite lookup_take_lt by lia. rewrite take_drop.
    destruct (decide (j < length (take n (drop o l)))%nat).
    + rewrite lookup_app_l by done. by rewrite lookup_take_lt.
    + rewrite lookup_app_r by lia. rewrite length_take in *.
      rewrite !lookup_ge_None_2; [done| |]; rewrite ?length_take, ?length_drop in *; lia.
  - rewrite take_drop.
    destruct (decide (length (drop o l) ≤ n)%nat).
    + rewrite !lookup_ge_None_2; [done| |]; rewrite ?length_app, ?length_take, ?length_drop in *; lia.
    + rewrite lookup_app_r; rewrite length_take, Nat.min_l by lia; [|lia].
      destruct (decide (j < n + m)%nat).
      * rewrite !lookup_take_lt, !lookup_drop by lia. f_equal. lia.
      * by rewrite !lookup_take_ge by lia.
Qed.
(** the data blocks [bl] of a file as the inode gives them: twelve direct ones, the
    others in the indirect block *)
Record file_shape (s : fsstate D) (i : InodeDef) (bl : list Z) : Prop := {
  sh_len : length (addr i) = 12%nat;
  sh_size : 0 ≤ ino_size i ≤ 512 * Z.of_nat (length bl);
  sh_max : (length bl ≤ 140)%nat;
  sh_sectors : sectors (disk s) < 2 ^ 32;
  sh_blocks : ∀ k x, bl !! k = Some x → 512 * Z.of_nat k < ino_size i → 0 ≤ x < sectors (disk s);
  sh_direct : ∀ k x, bl !! k = Some x → 512 * Z.of_nat k < ino_size i → (k < 12)%nat → addr i !! k = Some x;
  sh_indirect : 6144 < ino_size i → 0 ≤ indirect_addr i < sectors (disk s);
  sh_entries : ∀ k x, bl !! k = Some x → 512 * Z.of_nat k < ino_size i → (12 ≤ k)%nat →
    get_le (sector (disk s) (indirect_addr i)) (4 * (k - 12)) 4 = x;
}.
Definition shape_data (d : D) (i : InodeDef) (bl : list Z) : list Z := take (Z.to_nat (ino_size i)) (concat (sector d <$> bl)).
Lemma sectors_len (d : D) bl : Forall (λ x, length x = 512%nat) (sector d <$> bl).
Proof. apply Forall_fmap, Forall_true. intros x. apply sector_len. Qed.
Lemma length_shape_data s i bl : file_shape s i bl → length (shape_data (disk s) i bl) = Z.to_nat (ino_size i).
Proof.
  intros Hsh. unfold shape_data. rewrite length_take, (length_concat_eq _ 512), length_fmap by apply sectors_len.
  pose proof (sh_size _ _ _ Hsh). lia.
Qed.
Lemma file_inv_shape s sb i : file_inv s sb i → file_shape s i (addr i).
Proof.
  intros Hinv. pose proof (fi_size _ _ _ Hinv). pose proof (iok_len _ (fi_ok _ _ _ Hinv)) as Hl.
  pose proof (iok_size _ (fi_ok _ _ _ Hinv)) as [? _]. pose proof (fi_layout _ _ _ Hinv) as Hlay. split; try done; try lia.
  - apply Hlay.
  - intros k x Hk Hlt. destruct (fi_alloc _ _ _ Hinv k x Hk (fi_mapped _ _ _ Hinv _ _ Hk Hlt)) as [Hd _].
    destruct Hlay. unfold data_block in Hd. lia.
Qed.
(** a piece of one block is a piece of the file *)
Lemma piece_of_file s i bl pos len a :
  file_shape s i bl → 0 ≤ pos → 0 ≤ len → pos mod 512 + len ≤ 512 → pos + len ≤ ino_size i →
  bl !! Z.to_nat (pos / 512) = Some a →
  slice (sector (disk s) a) (Z.to_nat (pos mod 512)) (Z.to_nat len) =
  slice (shape_data (disk s) i bl) (Z.to_nat pos) (Z.to_nat len).
Proof.
  intros Hinv Hpos Hlen Hfit Hend Ha. unfold slice, shape_data. apply list_eq. intros j.
  destruct (decide (j < Z.to_nat len)%nat) as [Hj|Hj]; [|by rewrite !lookup_take_ge by lia].
  rewrite !lookup_take_lt, !lookup_drop by lia. rewrite lookup_take_lt by lia.
  replace (Z.to_nat pos + j)%nat with (Z.to_nat (pos / 512) * 512 + (Z.to_nat (pos mod 512) + j))%nat by dlia.
  symmetry. apply lookup_concat; [apply sectors_len| |dlia]. by rewrite list_lookup_fmap, Ha.
Qed.
(** the indirect block, read when it is first needed *)
Lemma wp_indirect s i bl pos ind (Q : list Z → fsstate D → Prop) :
  file_shape s i bl → 0 ≤ pos < ino_size i → (get_le ind 0 4 = 0 ∨ ind = sector (disk s) (indirect_addr i)) →
  (∀ ind', (12 ≤ pos / 512 → ind' = sector (disk s) (indirect_addr i)) →
     (get_le ind' 0 4 = 0 ∨ ind' = sector (disk s) (indirect_addr i)) → Q ind' s) →
  wp (if (12 <=? pos / 512) && (get_le ind 0 4 =? 0)
      then Operate_read ind (ConvertFsBlockToDriveBlock (indirect_addr i)) else mret ind) Q s.
Proof.
  intros Hsh Hpos Hind HQ. destruct (Z.leb_spec 12 (pos / 512)) as [Hge|Hlt]; cbn [andb].
  - pose proof (sh_indirect _ _ _ Hsh ltac:(dlia)) as Hib. pose proof (sh_sectors _ _ _ Hsh).
    destruct (Z.eqb_spec (get_le ind 0 4) 0) as [E|E].
    + rewrite drive_block by lia. apply wp_Operate_read; [done|]. apply HQ; auto.
    + destruct Hind as [|Hind]; [done|]. apply wp_ret, HQ; auto.
  - apply wp_ret, HQ; [lia|done].
Qed.
Lemma wp_fs_block s i bl pos ind a (Q : Z → fsstate D → Prop) :
  file_shape s i bl → 0 ≤ pos < ino_size i → bl !! Z.to_nat (pos / 512) = Some a →
  (12 ≤ pos / 512 → ind = sector (disk s) (indirect_addr i)) → Q a s →
  wp (if pos / 512 <? 12 then of_option (Faulted "inode_.addr") (addr i !! Z.to_nat (pos / 512))
      else if (128 <=? Z.to_nat (pos / 512 - 12))%nat then stop_with (Faulted "indirect_block")
      else mret (get_le ind (4 * Z.to_nat (pos / 512 - 12)) 4)) Q s.
Proof.
  intros Hsh Hpos Ha Hind HQ. pose proof (lookup_lt_Some _ _ _ Ha) as Hlt. pose proof (sh_max _ _ _ Hsh).
  destruct (Z.ltb_spec (pos / 512) 12) as [H12|H12].
  - rewrite (sh_direct _ _ _ Hsh _ _ Ha) by dlia. by apply wp_ret.
  - replace (128 <=? _)%nat with false by lia. rewrite Hind by done. apply wp_ret.
    replace (Z.to_nat (pos / 512 - 12)) with (Z.to_nat (pos / 512) - 12)%nat by lia.
    by rewrite (sh_entries _ _ _ Hsh _ _ Ha) by dlia.
Qed.
Lemma wp_Read_loop fuel s i bl : ∀ pos remain ind buf out,
  file_shape s i bl → 0 ≤ pos → 0 ≤ remain → pos + remain ≤ ino_size i → remain ≤ Z.of_nat fuel →
  (get_le ind 0 4 = 0 ∨ ind = sector (disk s) (indirect_addr i)) →
  wp (Read_loop fuel i pos remain ind buf out) (λ '(r, p) s', s' = s ∧ p = pos + remain ∧
    r = out ++ slice (shape_data (disk s) i bl) (Z.to_nat pos) (Z.to_nat remain)) s.
Proof.
  induction fuel as [|fuel IH]; intros pos remain ind buf out Hsh Hpos Hrem Hend Hfuel Hind; cbn [Read_loop];
    destruct (Z.leb_spec remain 0) as [Hz|Hz]; try lia;
    try (apply wp_ret; replace remain with 0 by lia; split_and!; [done|lia|by rewrite app_nil_r]).
  pose proof (sh_size _ _ _ Hsh) as Hsize. pose proof (sh_max _ _ _ Hsh) as Hmax.
  unfold BLOCK_SIZE, DIRECT_ADDR_SIZE. assert (Hmod : 0 ≤ pos mod 512 < 512) by dlia.
  set (len := if 512 - pos mod 512 <? remain then 512 - pos mod 512 else remain).
  assert (Hlen : 0 < len ≤ remain ∧ pos mod 512 + len ≤ 512) by (unfold len; destruct (Z.ltb_spec (512 - pos mod 512) remain); lia).
  destruct (lookup_lt_is_Some_2 bl (Z.to_nat (pos / 512))) as [a Ha]; [dlia|].
  cbv zeta. apply wp_bind, (wp_indirect s i bl); [done|lia|done|]. intros ind' Hind1 Hind2.
  apply wp_bind, (wp_fs_block s i bl pos ind' a); [done|lia|done|done|].
  assert (Hab : 0 ≤ a < sectors (disk s)) by (apply (sh_blocks _ _ _ Hsh _ _ Ha); dlia).
  pose proof (sh_sectors _ _ _ Hsh). rewrite drive_block by lia.
  assert (Hrest : ∀ piece, piece = slice (sector (disk s) a) (Z.to_nat (pos mod 512)) (Z.to_nat len) →
    wp (Read_loop fuel i (u64 (pos + len)) (remain - len) ind' (drop (Z.to_nat len) buf) (out ++ piece))
      (λ '(r, p) s', s' = s ∧ p = pos + remain ∧
         r = out ++ slice (shape_data (disk s) i bl) (Z.to_nat pos) (Z.to_nat remain)) s).
  { intros piece ->. rewrite wrap_small by lia. eapply wp_mono; [apply IH; done || lia|].
    intros [r p] s' (-> & -> & ->). split_and!; [done|lia|].
    rewrite (piece_of_file s i bl) by (done || lia). rewrite <-app_assoc. f_equal.
    replace (Z.to_nat remain) with (Z.to_nat len + Z.to_nat (remain - len))%nat by lia.
    rewrite slice_split. do 2 f_equal. lia. }
  apply wp_bind. destruct (Z.eqb_spec len 512) as [H512|H512].
  - apply wp_Operate_read; [lia|]. apply Hrest. rewrite H512. replace (pos mod 512) with 0 by lia.
    unfold slice. rewrite drop_0, take_ge; [done|]. rewrite sector_len. done.
  - wp_steps. apply wp_Operate_read; [lia|]. apply wp_ret. by apply Hrest.
Qed.
Lemma shape_FileStream_Read s i bl pos buf n :
  file_shape s i bl → 0 ≤ pos ≤ ino_size i → 0 ≤ n →
  wp (FileStream_Read i pos buf n) (λ '(out, size, p) s', s' = s ∧ size = Z.min (ino_size i - pos) n ∧
    p = pos + size ∧ out = slice (shape_data (disk s) i bl) (Z.to_nat pos) (Z.to_nat size)) s.
Proof.
  intros Hsh Hpos Hn. pose proof (sh_size _ _ _ Hsh). pose proof (sh_max _ _ _ Hsh). unfold FileStream_Read.
  rewrite wrap_small by lia. apply wp_bind. eapply wp_mono.
  - apply (wp_Read_loop _ s i bl pos (Z.min (ino_size i - pos) n)); [done|lia..|by left].
  - intros [out p] s' (-> & -> & ->). apply wp_ret. done.
Qed.
Lemma wp_FileStream_Read s sb i pos buf n :
  file_inv s sb i → 0 ≤ pos ≤ ino_size i → 0 ≤ n →
  wp (FileStream_Read i pos buf n) (λ '(out, size, p) s', s' = s ∧ size = Z.min (ino_size i - pos) n ∧
    p = pos + size ∧ out = slice (file_data (disk s) i) (Z.to_nat pos) (Z.to_nat size)) s.
Proof. intros Hinv. by apply shape_FileStream_Read, (file_inv_shape _ sb). Qed.
End filestream.

(** * StringStream and StreamBase *)
Record StringStream := MkStringStream { ss_buf : list Z; ss_size : Z; ss_position : Z }.
Definition StringStream_Seek (s : StringStream) (pos : Z) : StringStream :=
  MkStringStream (ss_buf s) (ss_size s) (Z.min pos (u64 (ss_size s - 1))).
Definition StringStream_Read (s : StringStream) (size : Z) : list Z * Z * StringStream :=
  let size := Z.min (u64 (ss_size s - ss_position s)) size in
  (slice (ss_buf s) (Z.to_nat (ss_position s)) (Z.to_nat size), size,
   MkStringStream (ss_buf s) (ss_size s) (ss_position s + size)).
(** [GetLine]: one byte at a time up to and including the terminator; a read at the
    end leaves the byte of [buf] as it was ([old], the destination's bytes) *)
Fixpoint GetLine (fuel : nat) (s : StringStream) (old out : list Z) : option (list Z * StringStream) :=
  match fuel with
  | O => None
  | S fuel =>
    let '(d, _, s) := StringStream_Read s 1 in
    match (match d with c :: _ => Some c | [] => head old end) with
    | None => None
    | Some c => if c =? 0 then Some (out ++ [c], s) else GetLine fuel s (tail old) (out ++ [c])
    end
  end.

(** * The properties of the file streams *)
Section props.
Context {D : Type} `{BlockDevice D}.


(** [FileStream::write] does not advance the stream: a second write on the same
    stream starts at the same position and replaces what the first one wrote. *)
Theorem stream_writes_overwrite (s : fsstate D) sb i pos b1 b2 :
  file_inv s sb i → 0 ≤ pos ≤ ino_size i →
  pos + Z.of_nat (length b1) ≤ 6144 → pos + Z.of_nat (length b2) ≤ 6144 →
  (unmapped i ≤ length (free_blocks s sb))%nat →
  wp ('(_, i1, p1) ← FileStream_write i pos b1; FileStream_write i1 p1 b2) (λ '(_, i2, p2) s2,
    p2 = pos ∧ file_data (disk s2) i2 = splice (splice (file_data (disk s) i) (Z.to_nat pos) b1) (Z.to_nat pos) b2 ∧
    slice (file_data (disk s2) i2) (Z.to_nat pos) (length b2) = b2) s.
Proof.
  intros Hinv Hpos H1 H2 Hfree. apply wp_bind. unfold FileStream_write at 1. apply wp_bind.
  eapply wp_mono; [by apply (wp_Write s sb)|]. intros [r1 i1] s1 (_ & Hw1). apply wp_ret.
  unfold FileStream_write. apply wp_bind.
  pose proof (wr_size _ _ _ _ _ _ _ Hw1) as Hsz1.
  eapply wp_mono; [apply (wp_Write s1 sb i1 pos b2); [apply Hw1|lia|done|by apply Hw1]|].
  intros [r2 i2] s2 (_ & Hw2). apply wp_ret. pose proof (wr_data _ _ _ _ _ _ _ Hw2) as Hd2.
  split_and!; [done|by rewrite Hd2, (wr_data _ _ _ _ _ _ _ Hw1)|].
  rewrite Hd2. unfold slice, splice at 1. pose proof (length_file_data _ _ _ (wr_inv _ _ _ _ _ _ _ Hw1)) as Hl.
  rewrite drop_app_length' by (rewrite length_take; lia). apply take_app_length.
Qed.
End props.
Lemma stream_writes_overwrite_witness :
  wp ('(_, i1, p1) ← FileStream_write demo_file 0 [1; 2]; FileStream_write i1 p1 [3; 4]) (λ '(_, i2, p2) s2,
    p2 = 0 ∧ file_data (disk s2) i2 = [3; 4] ∧ slice (file_data (disk s2) i2) 0 2 = [3; 4]) demo_fs.
Proof.
  apply (stream_writes_overwrite demo_fs demo_sb demo_file 0 [1; 2] [3; 4]);
    [apply demo_inv; by right|done|done|done|apply demo_free_enough; by right].
Defined.
