(* ===== verification/Directory.v ===== *)
(** Directories and paths of [filesystem/common.cc]: a directory's bytes as a list
    of entries, what [IteratorDir] and [OpenImpl] find in it, what [CreateImpl]
    adds to it, and what [ParsePath] makes of a path. *)
From S2P Require Import Prelude Mem Inode FsCommon FileData.

(** * Names, entries and paths *)
(** a name as the code keeps it: 14 bytes, zero padded *)
Definition padded (n : list Z) : list Z := n ++ replicate (14 - length n) 0.
Definition name_ok (n : list Z) : Prop := n ≠ [] ∧ Forall (λ c, c ≠ 0 ∧ c ≠ slash) n ∧ (length n ≤ 13)%nat.
Record dirent := MkDirent { de_inum : Z; de_name : list Z }.
Definition dirent_ok (e : dirent) : Prop := 0 ≤ de_inum e < 2 ^ 16 ∧ no_nul (de_name e) ∧ (length (de_name e) ≤ 13)%nat.
Definition enc_dirent (e : dirent) : list Z := enc_dir (MkDirElement (de_inum e) (padded (de_name e))).
Definition dir_bytes (es : list dirent) : list Z := concat (enc_dirent <$> es).
(** the first entry with that name, -1 when there is none *)
Fixpoint dir_find (es : list dirent) (name : list Z) : Z :=
  match es with
  | [] => -1
  | e :: es => if decide (de_name e = name) then de_inum e else dir_find es name
  end.
(** "/n1/n2/.../nk" *)
Fixpoint render (names : list (list Z)) (rest : list Z) : list Z :=
  match names with
  | [] => 0 :: rest
  | n :: names => slash :: n ++ render names rest
  end.
(** the pointers [ParsePathImpl] collects *)
Fixpoint ptrs (names : list (list Z)) (rest : list Z) : list (list Z) :=
  match names with
  | [] => []
  | n :: names => (n ++ render names rest) :: ptrs names rest
  end.
(** only the last component may have 13 characters: the length the code checks for
    the others includes the '/' *)
Fixpoint names_ok (names : list (list Z)) : Prop :=
  match names with
  | [] => True
  | n :: names => name_ok n ∧ (names ≠ [] → (length n ≤ 12)%nat) ∧ names_ok names
  end.

Lemma render_cstr names rest : names_ok names →
  ∃ p, render names rest = p ++ 0 :: rest ∧ no_nul p ∧ (names ≠ [] → p ≠ []).
Proof.
  induction names as [|n names IH]; intros Hok; [exists []; split_and!; [done|constructor|done]|].
  destruct Hok as ((_ & Hc & _) & _ & Hok). destruct (IH Hok) as (p & Hp & Hnn & _).
  exists (slash :: n ++ p). cbn [render]. rewrite Hp, <-app_comm_cons, <-app_assoc. split_and!; [done| |done].
  constructor; [done|]. apply Forall_app. split; [|done]. eapply Forall_impl; [exact Hc|]. naive_solver.
Qed.

(** * Lemmas: entries *)
Lemma length_padded n : (length n ≤ 14)%nat → length (padded n) = 14%nat.
Proof. intros. unfold padded. rewrite length_app, length_replicate. lia. Qed.
Lemma padded_cstr n r : (length n ≤ 13)%nat → ∃ r', padded n ++ r = n ++ 0 :: r'.
Proof.
  intros Hn. unfold padded. rewrite <-app_assoc. destruct (14 - length n)%nat as [|k] eqn:E; [lia|].
  simpl. by eexists.
Qed.
Lemma length_enc_dirent e : dirent_ok e → length (enc_dirent e) = 16%nat.
Proof.
  intros (_ & _ & Hn). unfold enc_dirent, enc_dir. cbn [inum dir_name].
  rewrite length_app, length_le_bytes, length_padded by lia. done.
Qed.
Lemma enc_dirents_len es : Forall dirent_ok es → Forall (λ x, length x = 16%nat) (enc_dirent <$> es).
Proof. intros H. apply Forall_fmap. eapply Forall_impl; [exact H|]. intros e He. by apply length_enc_dirent. Qed.
Lemma length_dir_bytes es : Forall dirent_ok es → length (dir_bytes es) = (16 * length es)%nat.
Proof.
  intros H. unfold dir_bytes. rewrite (length_concat_eq _ 16) by (by apply enc_dirents_len).
  rewrite length_fmap. lia.
Qed.
Lemma dir_bytes_app es1 es2 : dir_bytes (es1 ++ es2) = dir_bytes es1 ++ dir_bytes es2.
Proof. unfold dir_bytes. by rewrite fmap_app, concat_app. Qed.
Lemma dir_find_app es1 es2 name :
  dir_find (es1 ++ es2) name = if decide (dir_find es1 name = -1 ∧ Forall (λ e, de_name e ≠ name) es1)
                               then dir_find es2 name else dir_find es1 name.
Proof.
  induction es1 as [|e es1 IH]; cbn [app dir_find].
  { rewrite decide_True; [done|]. split; [done|constructor]. }
  destruct (decide (de_name e = name)) as [He|He].
  - rewrite decide_False; [done|]. intros [_ [Hn _]%Forall_cons]. done.
  - rewrite IH. apply decide_ext. rewrite Forall_cons. naive_solver.
Qed.

Section dir.
Context {D : Type} `{BlockDevice D}.

(** one block's worth of entries *)
Lemma wp_scan_entries todo j p es name r (s : fsstate D) :
  Forall dirent_ok es → no_nul name → Z.of_nat (16 * (length es + 1)) < 2 ^ 32 →
  (∀ m e, (j ≤ m < j + todo)%nat → es !! m = Some e → ∃ q, drop (16 * (m - j)) p = enc_dirent e ++ q) →
  wp (scan_entries todo p (16 * Z.of_nat j) (16 * Z.of_nat (length es)) (name ++ 0 :: r)) (λ x s', s' = s ∧
    match x with
    | Found n => 0 ≤ n ∧ dir_find (drop j es) name = n
    | Continue off => ∃ j', off = 16 * Z.of_nat j' ∧ j' = Nat.min (j + todo) (Nat.max j (length es)) ∧
        dir_find (drop j es) name = dir_find (drop j' es) name
    end) s.
Proof.
  intros Hes Hname H32. revert j p. induction todo as [|todo IH]; intros j p Hp; cbn [scan_entries].
  { apply wp_ret. split; [done|]. exists j. split_and!; [done|lia|done]. }
  destruct (Z.leb_spec (16 * Z.of_nat (length es)) (16 * Z.of_nat j)) as [Hge|Hlt].
  { apply wp_ret. split; [done|]. exists j. split_and!; [done|lia|done]. }
  destruct (lookup_lt_is_Some_2 es j) as [e He]; [lia|].
  pose proof (proj1 (Forall_lookup _ _) Hes _ _ He) as (Hin & Hnn & Hl).
  destruct (Hp j e ltac:(lia) He) as [q Hq]. rewrite Nat.sub_diag, Nat.mul_0_r, drop_0 in Hq.
  assert (Hd2 : drop 2 p = padded (de_name e) ++ q).
  { rewrite Hq. unfold enc_dirent, enc_dir. cbn [inum dir_name]. rewrite <-app_assoc.
    rewrite (drop_app_length' (le_bytes 2 _)) by (by rewrite length_le_bytes). done. }
  destruct (padded_cstr (de_name e) q Hl) as [r' Hr']. rewrite Hd2, Hr'.
  destruct (strcmp_defined name (de_name e) r r' Hname Hnn) as [c Hc]. rewrite Hc. cbn [of_option]. wp_steps.
  rewrite (drop_S _ _ _ He). cbn [dir_find].
  destruct (Z.eqb_spec c 0) as [->|Hc0].
  - apply strcmp_cstr_0 in Hc as ->; [|done..]. apply wp_ret. split; [done|]. rewrite decide_True by done.
    assert (get_le p 0 2 = de_inum e) as ->; [|lia].
    rewrite Hq. unfold enc_dirent, enc_dir. cbn [inum dir_name]. rewrite <-app_assoc.
    apply (get_le_small [] 2); [done|exact Hin].
  - assert (de_name e ≠ name) as Hne.
    { intros <-. apply Hc0. assert (strcmp (de_name e ++ 0 :: r) (de_name e ++ 0 :: r') = Some 0) as H0
        by (by apply strcmp_cstr_0). congruence. }
    rewrite decide_False by done. rewrite wrap_small by (unfold DIR_ELEMENT_SIZE; lia).
    replace (16 * Z.of_nat j + DIR_ELEMENT_SIZE) with (16 * Z.of_nat (S j)) by (unfold DIR_ELEMENT_SIZE; lia).
    eapply wp_mono; [apply (IH (S j) (drop 16 p))|].
    + intros m e' Hm He'. destruct (Hp m e' ltac:(lia) He') as [q' Hq']. exists q'.
      rewrite drop_drop. rewrite <-Hq'. f_equal. lia.
    + intros [n|off] s' (-> & Hx); (split; [done|]); [done|].
      destruct Hx as (j' & -> & -> & Hf). eexists. split; [reflexivity|]. split; [lia|done].
Qed.

(** [i] is a directory holding the entries [es] *)
Record is_dir (s : fsstate D) (sb : SuperBlock) (i : InodeDef) (es : list dirent) : Prop := {
  dir_inv : file_inv s sb i;
  dir_type : ino_type i = FT_directory;
  dir_entries : file_data (disk s) i = dir_bytes es;
  dir_ok : Forall dirent_ok es;
}.
Lemma dir_size s sb i es : is_dir s sb i es → ino_size i = 16 * Z.of_nat (length es).
Proof.
  intros [Hinv _ Hd Hok]. pose proof (length_file_data _ _ _ Hinv) as Hl.
  rewrite Hd, length_dir_bytes in Hl by done. pose proof (iok_size _ (fi_ok _ _ _ Hinv)) as [? _]. lia.
Qed.
(** entry [m] of the directory, in its block *)
Lemma dir_entry_bytes s sb i es m e a k :
  is_dir s sb i es → es !! m = Some e → addr i !! k = Some a → (32 * k ≤ m < 32 * k + 32)%nat →
  ∃ q, drop (16 * (m - 32 * k)) (sector (disk s) a) = enc_dirent e ++ q.
Proof.
  intros Hdir He Ha Hm. pose proof (dir_size _ _ _ _ Hdir) as Hsz. destruct Hdir as [Hinv _ Hd Hok].
  pose proof (lookup_lt_Some _ _ _ He) as Hml. pose proof (proj1 (Forall_lookup _ _) Hok _ _ He) as Heok.
  exists (drop 16 (drop (16 * (m - 32 * k)) (sector (disk s) a))).
  rewrite <-(take_drop 16 (drop (16 * (m - 32 * k)) (sector (disk s) a))) at 1. f_equal.
  apply list_eq. intros j. destruct (decide (j < 16)%nat) as [Hj|Hj].
  2:{ rewrite lookup_take_ge, lookup_ge_None_2 by (rewrite ?length_enc_dirent by done; lia). done. }
  rewrite lookup_take_lt, lookup_drop by lia.
  rewrite <-(lookup_concat (enc_dirent <$> es) 16 m (enc_dirent e) j);
    [|by apply enc_dirents_len|by rewrite list_lookup_fmap, He|done].
  fold (dir_bytes es). rewrite <-Hd. unfold file_data. rewrite lookup_take_lt by lia.
  replace (m * 16 + j)%nat with (k * 512 + (16 * (m - 32 * k) + j))%nat by lia.
  symmetry. apply lookup_concat; [apply blocks_len| |lia]. unfold blocks_of. by rewrite list_lookup_fmap, Ha.
Qed.
Lemma wp_IteratorDir_loop fuel j s sb i es name r :
  is_dir s sb i es → no_nul name → (j mod 32 = 0 ∨ length es ≤ j)%nat → (length es ≤ j + 32 * fuel)%nat →
  wp (IteratorDir_loop fuel i (16 * Z.of_nat j) (name ++ 0 :: r)) (λ x s', s' = s ∧ x = dir_find (drop j es) name) s.
Proof.
  intros Hdir Hname. pose proof (dir_size _ _ _ _ Hdir) as Hsz. pose proof (dir_inv _ _ _ _ Hdir) as Hinv.
  pose proof (fi_size _ _ _ Hinv) as H6144. pose proof (fi_layout _ _ _ Hinv) as Hlay.
  revert j. induction fuel as [|fuel IH]; intros j Hj Hfuel; cbn [IteratorDir_loop]; rewrite Hsz;
    (destruct (Z.leb_spec (16 * Z.of_nat (length es)) (16 * Z.of_nat j)) as [Hge|Hlt];
     [apply wp_ret; split; [done|]; by rewrite drop_ge by lia|]); [lia|].
  destruct Hj as [Hj|]; [|lia]. set (k := (j / 32)%nat).
  assert (Hjk : j = (32 * k)%nat) by (unfold k; pose proof (Nat.div_mod_eq j 32); lia).
  assert (Hk : Z.to_nat (16 * Z.of_nat j / BLOCK_SIZE) = k) by (unfold BLOCK_SIZE; rewrite Hjk; dlia).
  destruct (lookup_lt_is_Some_2 (addr i) k) as [a Ha]; [rewrite (iok_len _ (fi_ok _ _ _ Hinv)); lia|].
  rewrite Hk, Ha. cbn [of_option]. wp_steps.
  assert (Hnz : a ≠ 0) by (apply (fi_mapped _ _ _ Hinv k a Ha); lia).
  destruct (fi_alloc _ _ _ Hinv k a Ha Hnz) as [Hd _]. replace (a =? 0) with false by lia. wp_steps.
  apply wp_Operate_read; [destruct Hlay; unfold data_block in Hd; lia|]. wp_steps.
  eapply wp_mono; [apply (wp_scan_entries 32 j _ es name r s)|].
  - apply Hdir.
  - done.
  - lia.
  - intros m e Hm He. rewrite Hjk in *. by eapply dir_entry_bytes.
  - intros [n|off] s' (-> & Hx).
    + apply wp_ret. naive_solver.
    + destruct Hx as (j' & -> & Hj' & Hf). rewrite Hf. apply IH; [|lia].
      destruct (decide (length es ≤ j')%nat); [by right|left].
      assert (j' = 32 * (k + 1))%nat as -> by lia. rewrite Nat.mul_comm. by apply Nat.Div0.mod_mul.
Qed.
Lemma wp_IteratorDir s sb i es name r :
  is_dir s sb i es → no_nul name →
  wp (IteratorDir i (name ++ 0 :: r)) (λ x s', s' = s ∧ x = dir_find es name) s.
Proof.
  intros Hdir Hname. unfold IteratorDir. pose proof (dir_size _ _ _ _ Hdir) as Hsz.
  apply (wp_IteratorDir_loop _ 0 s sb i es); [done|done|by left|].
  rewrite Hsz. unfold BLOCK_SIZE. dlia.
Qed.

(** * Lemmas: allocating and updating inodes *)
Definition inode_at (s : fsstate D) (n : Z) : InodeDef :=
  dec_inode (slice (sector (disk s) (inode_block n)) (inode_off n) 64).
Lemma slice_slice (l : list Z) o n o' n' : (o' + n' ≤ n)%nat → slice (slice l o n) o' n' = slice l (o + o') n'.
Proof.
  intros Hle. unfold slice. apply list_eq. intros j. destruct (decide (j < n')%nat).
  - rewrite !lookup_take_lt, !lookup_drop, lookup_take_lt, lookup_drop by lia. f_equal. lia.
  - by rewrite !lookup_take_ge by lia.
Qed.
Lemma inode_at_type s n : 0 ≤ n < 2 ^ 26 →
  ino_type (inode_at s n) = get_le (drop (64 * Z.to_nat (n mod 8)) (sector (disk s) (n / 8 + 1))) 4 1.
Proof.
  intros Hn. unfold inode_at, dec_inode. cbn [ino_type]. rewrite inode_block_val, inode_off_val by done.
  unfold get_le. rewrite slice_slice by lia. unfold slice. rewrite drop_drop. done.
Qed.
Lemma free_inode_spec n j buf :
  match free_inode n j buf with
  | Some x => j ≤ x < j + Z.of_nat n ∧ get_le (drop (64 * Z.to_nat (x - j)) buf) 4 1 = FT_none
  | None => ∀ x, j ≤ x < j + Z.of_nat n → get_le (drop (64 * Z.to_nat (x - j)) buf) 4 1 ≠ FT_none
  end.
Proof.
  revert j buf. induction n as [|n IH]; intros j buf; cbn [free_inode]; [intros; lia|].
  destruct (Z.eqb_spec (get_le buf 4 1) FT_none) as [E|E].
  - split; [lia|]. by replace (64 * Z.to_nat (j - j))%nat with 0%nat by lia.
  - specialize (IH (j + 1) (drop 64 buf)).
    assert (Hsh : ∀ x, j + 1 ≤ x → drop (64 * Z.to_nat (x - (j + 1))) (drop 64 buf) = drop (64 * Z.to_nat (x - j)) buf).
    { intros x Hx. rewrite drop_drop. f_equal. lia. }
    destruct (free_inode n (j + 1) (drop 64 buf)) as [x|].
    + destruct IH as [Hx Hf]. rewrite Hsh in Hf by lia. split; [lia|done].
    + intros x Hx. destruct (decide (x = j)) as [->|Hne].
      * by replace (64 * Z.to_nat (j - j))%nat with 0%nat by lia.
      * rewrite <-Hsh by lia. apply IH. lia.
Qed.
Lemma wp_AllocInode_loop todo k s sb buf (Q : option Z → fsstate D → Prop) :
  fs_layout s sb → 0 ≤ k → k + Z.of_nat todo = inodes_count sb / 8 →
  (∀ n, 0 ≤ n < inodes_count sb → ino_type (inode_at s n) = FT_none → Q (Some n) s) →
  ((∀ n, 8 * k ≤ n < 8 * (inodes_count sb / 8) → ino_type (inode_at s n) ≠ FT_none) → Q None s) →
  wp (AllocInode_loop todo k sb buf) Q s.
Proof.
  intros Hlay Hk Hend HS. pose proof Hlay as [_ _ Hst Hino H26 Hbm _ Hsec H32 _].
  revert k buf Hk Hend. induction todo as [|todo IH]; intros k buf Hk Hend HN; cbn [AllocInode_loop].
  { apply wp_ret, HN. intros n Hn. lia. }
  assert (Hkb : k < inodes_count sb / 8) by lia. assert (8 * k + 8 ≤ inodes_count sb) by dlia.
  rewrite Hst, wrap_small by lia. apply wp_bind, wp_Operate_read; [destruct Hlay; lia|].
  replace (1 + k) with (k + 1) by lia.
  pose proof (free_inode_spec 8 0 (sector (disk s) (k + 1))) as Hf.
  assert (Hty : ∀ x, 0 ≤ x < 8 → ino_type (inode_at s (8 * k + x)) =
    get_le (drop (64 * Z.to_nat (x - 0)) (sector (disk s) (k + 1))) 4 1).
  { intros x Hx. rewrite inode_at_type by lia. replace ((8 * k + x) mod 8) with x by dlia.
    replace ((8 * k + x) / 8) with k by dlia. by rewrite Z.sub_0_r. }
  destruct (free_inode _ _ _) as [x|].
  - destruct Hf as [Hx Hf]. apply wp_ret. rewrite wrap_small by lia.
    replace (k * 8 + x) with (8 * k + x) by lia. apply HS; [lia|]. rewrite Hty by lia. done.
  - apply IH; [lia|lia|]. intros Hall. apply HN. intros n Hn. destruct (decide (n < 8 * (k + 1))).
    + replace n with (8 * k + (n - 8 * k)) by lia. rewrite Hty by lia. apply Hf. lia.
    + apply Hall. lia.
Qed.
Lemma wp_AllocInode s sb (Q : option Z → fsstate D → Prop) :
  fs_layout s sb →
  (∀ n, 0 ≤ n < inodes_count sb → ino_type (inode_at s n) = FT_none → Q (Some n) s) →
  ((∀ n, 0 ≤ n < 8 * (inodes_count sb / 8) → ino_type (inode_at s n) ≠ FT_none) → Q None s) →
  wp AllocInode Q s.
Proof.
  intros Hlay HS HN. unfold AllocInode. apply wp_bind, (wp_GetSuperNode s sb); [done|]. wp_steps.
  pose proof Hlay as [_ _ _ Hino H26 _ _ _ _ _].
  unfold INODE_ELEMENT_SIZE, BLOCK_SIZE. rewrite wrap_small by lia.
  apply (wp_AllocInode_loop _ 0 s sb); [done|lia|dlia|done|done].
Qed.
(** writing inode [n] leaves the others *)
Lemma inode_at_update s sb n ino m :
  fs_layout s sb → 0 ≤ n < inodes_count sb → 0 ≤ m < inodes_count sb → length (addr ino) = 12%nat → m ≠ n →
  inode_at (set_disk (put_sector (disk s) (inode_block n)
    (splice (sector (disk s) (inode_block n)) (inode_off n) (enc_inode ino))) s) m = inode_at s m.
Proof.
  intros Hlay Hn Hm Hl Hne. destruct (lay_inode s sb n Hlay Hn) as (_ & Hb & Ho).
  destruct (lay_inode s sb m Hlay Hm) as (_ & _ & Ho').
  unfold inode_at. f_equal. cbn. rewrite sector_put by (done || by apply (inode_splice_len s sb)).
  case_decide as Heq; [|done]. rewrite <-Heq. pose proof (lay_26 _ _ Hlay).
  rewrite !inode_block_val in Heq by lia. unfold slice. apply splice_take_ne.
  - rewrite sector_len, length_enc_inode by done. lia.
  - rewrite length_enc_inode by done. rewrite !inode_off_val by lia. dlia.
Qed.
Lemma inode_at_same s sb n ino :
  fs_layout s sb → 0 ≤ n < inodes_count sb → inode_ok ino →
  inode_at (set_disk (put_sector (disk s) (inode_block n)
    (splice (sector (disk s) (inode_block n)) (inode_off n) (enc_inode ino))) s) n = ino.
Proof.
  intros Hlay Hn Hok. destruct (lay_inode s sb n Hlay Hn) as (_ & Hb & Ho).
  unfold inode_at. cbn. rewrite sector_put, decide_True by (done || by apply (inode_splice_len s sb); [..|apply Hok]).
  unfold slice. rewrite <-(length_enc_inode ino) at 1 by apply Hok. rewrite splice_same; [by apply dec_enc_inode|].
  rewrite sector_len, length_enc_inode by apply Hok. lia.
Qed.

(** * Lemmas: creating an entry *)
Definition new_inode (n type mj mn : Z) : InodeDef :=
  MkInode n type 1 (if type =? FT_device then mj else 0) (if type =? FT_device then mn else 0) 0 (replicate 12 0) 0.
Lemma splice_padded n : (length n ≤ 13)%nat → splice (replicate 14 0) 0 n = padded n.
Proof. intros Hn. unfold splice, padded. rewrite take_0, drop_replicate. done. Qed.
Lemma wp_CreateImpl s sb i es name r type mj mn :
  is_dir s sb i es → stored s i → no_nul name → (length name ≤ 13)%nat → u8_ok type → u8_ok mj → u8_ok mn →
  ino_size i + 16 ≤ 6144 → (unmapped i ≤ length (free_blocks s sb))%nat → inodes_count sb ≤ 2 ^ 16 →
  wp (CreateImpl (inode_index i) type (name ++ 0 :: r) mj mn) (λ o s',
    match o with
    | None => s' = s ∧ ∀ n, 0 ≤ n < 8 * (inodes_count sb / 8) → ino_type (inode_at s n) ≠ FT_none
    | Some t => ∃ n i', t = new_inode n type mj mn ∧ 0 ≤ n < inodes_count sb ∧ n ≠ inode_index i ∧
        ino_type (inode_at s n) = FT_none ∧ inode_at s' n = t ∧
        inode_index i' = inode_index i ∧ stored s' i' ∧ is_dir s' sb i' (es ++ [MkDirent n name])
    end) s.
Proof.
  intros Hdir Hst Hname Hlen Ht Hmj Hmn Hsz Hfree H16. pose proof Hdir as [Hinv Htype Hents Hok].
  pose proof (fi_layout _ _ _ Hinv) as Hlay. pose proof (fi_index _ _ _ Hinv) as Hidx.
  pose proof (iok_index _ (fi_ok _ _ _ Hinv)) as [Hidx0 _].
  unfold CreateImpl. rewrite strlen_cstr by done. cbn [of_option]. wp_steps.
  replace (MAX_FILE_NAME_LEN <? Z.of_nat (length name)) with false by (unfold MAX_FILE_NAME_LEN; lia).
  apply wp_bind, (wp_GetInode s sb); [done|lia|]. fold (inode_at s (inode_index i)).
  change (inode_at s (inode_index i) = i) in Hst. rewrite Hst, Htype. cbn [Z.eqb FT_directory Pos.eqb negb].
  apply wp_bind, (wp_AllocInode s sb); [done| |].
  - intros n Hn Hnt. rewrite take_app_length, splice_padded, (wrap_small 16) by lia.
    assert (Hni : n ≠ inode_index i) by (intros ->; rewrite Hst, Htype in Hnt; done).
    change (enc_dir _) with (enc_dirent (MkDirent n name)).
    assert (Hdok : dirent_ok (MkDirent n name)) by (split_and!; cbn; [lia|lia|done|done]).
    pose proof (length_enc_dirent _ Hdok) as H16'. pose proof (dir_size _ _ _ _ Hdir) as Hdsz.
    apply wp_bind. eapply wp_mono.
    { apply (wp_Write s sb i (ino_size i) (enc_dirent (MkDirent n name))); rewrite ?H16'; try done; lia. }
    intros [w i'] s1 (_ & [Hinv1 Hd1 Hsz1 Hix1 Hty1 _ _ Hst1]). specialize (Hst1 Hst).
    rewrite <-Hix1 in *. pose proof (fi_layout _ _ _ Hinv1) as Hlay1.
    assert (Hnok : inode_ok (new_inode n type mj mn)).
    { constructor; cbn; unfold u32_ok, u8_ok in *; try lia; try done.
      - by destruct (type =? FT_device).
      - by destruct (type =? FT_device).
      - repeat (constructor; [lia|]). constructor. }
    fold (new_inode n type mj mn). apply wp_bind, (wp_UpdateInode s1 sb); [done|lia|].
    apply wp_ret. exists n, i'. split_and!; [done|lia|lia|done|done| |done| |].
    + by apply (inode_at_same s1 sb).
    + unfold stored. etransitivity; [exact (inode_at_update s1 sb n (new_inode n type mj mn) (inode_index i') Hlay1 Hn ltac:(lia) eq_refl ltac:(done))|].
      exact Hst1.
    + destruct (lay_inode s1 sb n Hlay1 Hn) as (Hb & Hb2 & _).
      assert (Hx : length (splice (sector (disk s1) (inode_block n)) (inode_off n) (enc_inode (new_inode n type mj mn))) = 512%nat)
        by (by apply (inode_splice_len s1 sb)).
      constructor.
      * apply put_inv; [done|done|lia|lia].
      * by rewrite Hty1.
      * unfold file_data. cbn [disk set_disk]. rewrite (blocks_put_other s1 sb) by done. fold (file_data (disk s1) i').
        rewrite Hd1, Hents, dir_bytes_app. unfold dir_bytes at 3. cbn [fmap list_fmap concat]. rewrite app_nil_r.
        unfold splice. rewrite take_ge, drop_ge, app_nil_r; [done| |]; rewrite length_dir_bytes by done; lia.
      * apply Forall_app. split; [done|]. by apply Forall_singleton.
  - intros Hfull. by apply wp_ret.
Qed.

(** * Lemmas: paths *)
Lemma path_scan_chars n X acc (s : fsstate D) :
  Forall (λ c, c ≠ 0 ∧ c ≠ slash) n → path_scan (n ++ X) acc s = path_scan X acc s.
Proof.
  induction 1 as [|c n [H0 Hs] _ IH]; [done|]. cbn [app path_scan].
  replace (c =? 0) with false by lia. replace (c =? slash) with false by lia. done.
Qed.
Lemma path_scan_names names rest acc (s : fsstate D) :
  names_ok names → (length acc + length names ≤ 16)%nat →
  path_scan (render names rest) acc s = Ok (Some (acc ++ ptrs names rest), s).
Proof.
  revert acc. induction names as [|n names IH]; intros acc Hok Hlen; [by rewrite app_nil_r|].
  destruct Hok as ((Hne & Hc & _) & _ & Hok). cbn [render ptrs].
  destruct n as [|c n]; [done|]. apply Forall_cons in Hc as [[Hc0 Hcs] Hc]. cbn [length] in Hlen.
  change (slash :: (c :: n) ++ render names rest) with (slash :: c :: (n ++ render names rest)).
  cbn [path_scan]. change (slash =? 0) with false. change (slash =? slash) with true. cbn [negb].
  replace (c =? 0) with false by lia. replace (c =? slash) with false by lia.
  replace (16 <=? length acc)%nat with false by (symmetry; apply Nat.leb_gt; lia).
  cbn [negb]. rewrite path_scan_chars by done. rewrite IH by (done || (rewrite length_app; simpl; lia)).
  by rewrite <-app_assoc.
Qed.
Lemma strlen_name n r : Forall (λ c, c ≠ 0 ∧ c ≠ slash) n → strlen (n ++ 0 :: r) = Some (length n).
Proof. intros Hn. apply strlen_cstr. eapply Forall_impl; [exact Hn|]. naive_solver. Qed.
Lemma copy_row_ok pre m n (s : fsstate D) :
  (length n ≤ 13)%nat →
  copy_row (pre ++ replicate (S m) (replicate 14 0)) (Z.of_nat (length pre)) n s =
  Ok (pre ++ padded n :: replicate m (replicate 14 0), s).
Proof.
  intros Hn. unfold copy_row. replace (0 <=? Z.of_nat (length pre)) with true by lia. rewrite Nat2Z.id.
  erewrite bind_Ok by (rewrite lookup_app_r, Nat.sub_diag by lia; reflexivity).
  rewrite splice_padded by done. by rewrite insert_app_r_alt, Nat.sub_diag by lia.
Qed.
(** what a component's pointer and length select *)
Lemma path_copy_names names rest pre m (s : fsstate D) :
  names_ok names →
  path_copy (ptrs names rest) (Z.of_nat (length pre)) (pre ++ replicate (length names + m) (replicate 14 0)) s =
  Ok ((true, pre ++ (padded <$> names) ++ replicate m (replicate 14 0)), s).
Proof.
  revert pre. induction names as [|n names IH]; intros pre Hok; [done|].
  destruct Hok as ((Hne & Hc & H13) & H12 & Hok). cbn [ptrs path_copy].
  assert (Hlast : ∃ k c, length n = S k ∧ n !! k = Some c ∧ c ≠ slash).
  { destruct n as [|c n _] using rev_ind; [done|]. exists (length n), c. apply Forall_app in Hc as [_ [[_ ?] _]%Forall_cons].
    rewrite length_app, lookup_app_r, Nat.sub_diag by lia. split_and!; [simpl; lia|done|done]. }
  destruct Hlast as (k & c & Hk & Hkc & Hcs).
  assert (Hrest : ∀ rows, rows = (true, pre ++ (padded <$> n :: names) ++ replicate m (replicate 14 0)) →
    (rows ← copy_row (pre ++ replicate (length (n :: names) + m) (replicate 14 0)) (Z.of_nat (length pre)) n;
     path_copy (ptrs names rest) (Z.of_nat (length pre) + 1) rows) s = Ok (rows, s)).
  { intros rows ->. erewrite bind_Ok by (by apply (copy_row_ok pre (length names + m))).
    specialize (IH (pre ++ [padded n]) Hok). rewrite <-!app_assoc in IH. cbn [app] in IH.
    rewrite length_app in IH. cbn [length] in IH. rewrite Nat2Z.inj_add in IH. exact IH. }
  destruct names as [|n2 names].
  - cbn [ptrs render]. rewrite strlen_name by done. erewrite bind_Ok by done.
    replace (MAX_FILE_NAME_LEN <=? Z.of_nat (length n)) with false by (unfold MAX_FILE_NAME_LEN; lia).
    rewrite Hk. erewrite bind_Ok by (rewrite lookup_app_l, Hkc by lia; reflexivity). cbv zeta.
    replace (c =? slash) with false by lia. rewrite <-Hk, take_app_length. by apply Hrest.
  - assert (Hlen : (length (n ++ render (n2 :: names) rest) - length (n2 ++ render names rest))%nat = S (length n)).
    { cbn [render]. rewrite !length_app. cbn [length]. rewrite length_app. lia. }
    cbn [ptrs]. rewrite Hlen. specialize (H12 ltac:(done)). erewrite bind_Ok by done.
    replace (MAX_FILE_NAME_LEN <=? Z.of_nat (S (length n))) with false by (unfold MAX_FILE_NAME_LEN; lia).
    erewrite bind_Ok by (rewrite lookup_app_r, Nat.sub_diag by lia; reflexivity). cbv zeta.
    change (slash =? slash) with true. rewrite Nat.sub_succ, Nat.sub_0_r, take_app_length. by apply Hrest.
Qed.
Lemma length_ptrs names rest : length (ptrs names rest) = length names.
Proof. induction names; simpl; auto. Qed.
Lemma ParsePathImpl_names names rest m (s : fsstate D) :
  names_ok names → (length names ≤ 16)%nat →
  ParsePathImpl (render names rest) 0 (replicate (length names + m) (replicate 14 0)) false s =
  Ok ((Z.of_nat (length names), (padded <$> names) ++ replicate m (replicate 14 0)), s).
Proof.
  intros Hok Hlen. unfold ParsePathImpl. erewrite bind_Ok by (apply path_scan_names; [done|simpl; lia]).
  cbn [app]. erewrite bind_Ok by (by apply (path_copy_names names rest [])).
  cbn [app]. by rewrite length_ptrs.
Qed.
Lemma ParsePath_names names rest (s : fsstate D) :
  names_ok names → names ≠ [] → (length names ≤ 16)%nat →
  ParsePath (Some (render names rest)) zero_rows s =
  Ok ((Z.of_nat (length names), (padded <$> names) ++ replicate (16 - length names) (replicate 14 0)), s).
Proof.
  intros Hok Hne Hlen. assert (∃ k, strlen (render names rest) = Some (S k)) as [k Hk].
  { destruct (render_cstr names rest Hok) as (p & -> & Hp & Hpne). specialize (Hpne Hne).
    destruct p as [|c p]; [done|]. exists (length p). by apply (strlen_cstr (c :: p)). }
  unfold ParsePath. erewrite bind_Ok by (rewrite Hk; done). cbn [Nat.eqb].
  destruct names as [|n names]; [done|]. erewrite bind_Ok by done. change (slash =? slash) with true. cbn [negb].
  rewrite <-(ParsePathImpl_names (n :: names) rest (16 - length (n :: names)) s Hok Hlen).
  unfold zero_rows. do 2 f_equal. lia.
Qed.
End dir.

(** * The properties of directories and paths *)
Section props.
Context {D : Type} `{BlockDevice D}.

(** [UpdateInode] followed by [GetInode] gives back the inode written, and every
    other inode of the table as it was, even those in the same block. *)
Theorem UpdateInode_GetInode (s : fsstate D) sb n ino m :
  fs_layout s sb → 0 ≤ n < inodes_count sb → 0 ≤ m < inodes_count sb → inode_ok ino →
  wp (UpdateInode n ino ;; GetInode m) (λ r s', r = (if decide (m = n) then ino else inode_at s m) ∧
    ∀ b, b ≠ inode_block n → sector (disk s') b = sector (disk s) b) s.
Proof.
  intros Hlay Hn Hm Hok. destruct (lay_inode s sb n Hlay Hn) as (Hb & Hb2 & _).
  assert (Hx : length (splice (sector (disk s) (inode_block n)) (inode_off n) (enc_inode ino)) = 512%nat)
    by (by apply (inode_splice_len s sb); [..|apply Hok]).
  apply wp_bind, (wp_UpdateInode s sb); [done..|].
  apply (wp_GetInode _ sb); [apply layout_put; [done|done|lia|lia]|done|]. split.
  - case_decide as Hmn; [subst; by apply (inode_at_same s sb)|]. apply (inode_at_update s sb); [done..|apply Hok|done].
  - intros b Hne. cbn [disk set_disk]. rewrite sector_put, decide_False by done. done.
Qed.

(** [IteratorDir] searches the whole directory, across its blocks, and returns the
    inode number of the first entry with the given name, -1 when there is none. *)
Theorem IteratorDir_finds (s : fsstate D) sb i es name r :
  is_dir s sb i es → no_nul name →
  wp (IteratorDir i (name ++ 0 :: r)) (λ x s', s' = s ∧ x = dir_find es name) s.
Proof. apply wp_IteratorDir. Qed.


(** [ParsePath] on an absolute path of at most 16 legal components (at most 13
    characters, 12 unless last) returns their number and leaves each component, zero
    padded, in its row of the output. *)
Theorem ParsePath_absolute names rest (s : fsstate D) :
  names_ok names → names ≠ [] → (length names ≤ 16)%nat →
  ParsePath (Some (render names rest)) zero_rows s =
  Ok ((Z.of_nat (length names), (padded <$> names) ++ replicate (16 - length names) (replicate 14 0)), s).
Proof. apply ParsePath_names. Qed.
End props.
Lemma demo_is_dir : is_dir demo_fs demo_sb demo_root_inode [].
Proof. constructor; [apply demo_inv; by left|done|done|constructor]. Qed.
Lemma UpdateInode_GetInode_witness :
  wp (UpdateInode 1 demo_file ;; GetInode 0) (λ r s', r = demo_root_inode ∧
    ∀ b, b ≠ inode_block 1 → sector (disk s') b = sector (disk demo_fs) b) demo_fs.
Proof.
  apply (UpdateInode_GetInode demo_fs demo_sb 1 demo_file 0 demo_layout); [done|done|].
  apply (fi_ok _ _ _ (demo_inv demo_file ltac:(by right))).
Defined.
Lemma IteratorDir_finds_witness :
  wp (IteratorDir demo_root_inode [97; 0]) (λ x s', s' = demo_fs ∧ x = -1) demo_fs.
Proof. apply (IteratorDir_finds demo_fs demo_sb demo_root_inode [] [97] [] demo_is_dir). by repeat constructor. Defined.
Lemma ParsePath_absolute_witness :
  ParsePath (Some [47; 98; 105; 110; 47; 115; 104; 0]) zero_rows demo_fs =
  Ok ((2, padded [98; 105; 110] :: padded [115; 104] :: replicate 14 (replicate 14 0)), demo_fs).
Proof.
  apply (ParsePath_absolute [[98; 105; 110]; [115; 104]] [] demo_fs); [|done|simpl; lia].
  assert (H1 : name_ok [98; 105; 110]) by (split_and!; [done|by apply (bool_decide_unpack _)|simpl; lia]).
  assert (H2 : name_ok [115; 104]) by (split_and!; [done|by apply (bool_decide_unpack _)|simpl; lia]).
  split; [exact H1|]. split; [intros _; simpl; lia|]. split; [exact H2|]. split; [done|exact I].
Defined.

(** A malformed relative path is not always refused: its -1 is added to the depth of
    the current directory, so in "/a" the path "b//c" parses as zero components and
    [Open] returns the root directory. *)
Theorem ParsePath_relative_error :
  (∃ rows, ParsePath (Some [98; 47; 47; 99; 0]) zero_rows demo_fs = Ok ((0, rows), demo_fs)) ∧
  Open (Some [98; 47; 47; 99; 0]) demo_fs = Ok ((ROOT_INODE, Some demo_root_inode), demo_fs).
Proof. split; [eexists|]; by vm_compute. Qed.
