(* ===== verification/Syscalls.v ===== *)
(** [kernel/syscalls/utils.cc], [manager.cc], [syscall.cc] and the system calls of
    [impl.cc], over the whole kernel state: scheduler and processes, console, page
    tables and disk.  A call that puts its process to sleep gives what it will go on
    with.  Messages printed to the console are left out, as in the file system. *)
From S2P Require Import Prelude Riscv Lock Mem MemoryList VirtualMemory Inode Process Scheduler Console FsCommon FileData FileStream.

(** * The kernel's state *)
Record kernel (D : Type) := Kernel { k_con : con; k_disk : D; k_junk : list Z }.
Arguments Kernel {D} _ _ _.
Arguments k_con {D} _.
Arguments k_disk {D} _.
Arguments k_junk {D} _.
Definition k_sched {D} (k : kernel D) : sched := con_sched (k_con k).
Definition set_con {D} (c : con) (k : kernel D) : kernel D := Kernel c (k_disk k) (k_junk k).

(** ** kernel/utils.h: [safe_copy] over any state.  [translate] is the lambda
    [f]; [fun_] is the callback with the state it captures. *)
Section safe_copy.
Context {S X : Type} (translate : Z → M S Z) (fun_ : X → Z → Z → M S (Z * X)).
Fixpoint safe_copy_loop (fuel : nat) (dst size copyout_size : Z) (x : X) : M S (Z * X) :=
  if 0 <? size then
    match fuel with
    | O => stop_with OutOfFuel
    | Datatypes.S fuel =>
      pa ← translate dst;
      let remain := PGSIZE - pa mod PGSIZE in
      let len := if size <? remain then size else remain in
      '(ret, x) ← fun_ x pa len;
      let copyout_size := u64 (copyout_size + ret) in
      if ret <? len then mret (copyout_size, x)
      else safe_copy_loop fuel (u64 (dst + len)) (size - len) copyout_size x
    end
  else mret (copyout_size, x).
Definition safe_copy (dst size : Z) (x : X) : M S (Z * X) := safe_copy_loop (Z.to_nat size) dst size 0 x.
End safe_copy.

(** bytes in physical memory *)
Fixpoint store_bytes (m : mem) (a : Z) (l : list Z) : mem :=
  match l with [] => m | b :: l => store_bytes (store8 m a b) (a + 1) l end.
Definition vm_read (a n : Z) : M vmstate (list Z) := λ s,
  if (n =? 0) || ram_ok a n then Ok (load_bytes (Z.to_nat n) (vm_mem s) a, s) else Stop (Faulted "read").
Definition vm_write (a : Z) (l : list Z) : M vmstate () := λ s,
  if (length l =? 0)%nat || ram_ok a (Z.of_nat (length l)) then Ok ((), set_mem (store_bytes (vm_mem s) a l) s)
  else Stop (Faulted "write").
(** a C string in memory, up to its NUL; strings of two pages and more are cut *)
Fixpoint cstring_at (n : nat) (m : mem) (a : Z) : list Z :=
  match n with
  | O => []
  | S n => let b := load8 m a in b :: if b =? 0 then [] else cstring_at n m (a + 1)
  end.
Definition max_string : nat := Z.to_nat (2 * PGSIZE).
(** a [const char*] argument of the file system: [None] is null *)
Definition vm_cstring (pa : Z) : M vmstate (option (list Z)) := λ s,
  if pa =? 0 then Ok (None, s) else Ok (Some (cstring_at max_string (vm_mem s) pa), s).

Section syscalls.
Context {D : Type} `{BlockDevice D}.
(** the address of [ExecuteRet] and the first value of the vararg union *)
Context (ExecuteRet_addr vjunk : Z).
Abbreviation K := (M (kernel D)).

(** ** Member functions of the parts *)
Definition on_con {A} (m : M con A) : K A := λ k,
  match m (k_con k) with Ok (a, c) => Ok (a, set_con c k) | Stop e => Stop e end.
Definition k_on_sched {A} (m : M sched A) : K A := on_con (on_sched m).
Definition this_index : K nat := i ← k_on_sched ThisProcess; of_option (Faulted "ThisProcess()") i.
Definition on_this {A} (m : M tstate A) : K A := i ← this_index; k_on_sched (on_task i m).
Definition on_vm {A} (m : M vmstate A) : K A := on_this (lift_vm m).
Definition ThisTask : K ProcessTask := on_this this.
(** a file-system operation, which finds [current_path] in the process *)
Definition on_fs_from {A} (cwd : list Z) (m : M (fsstate D) A) : K A := λ k,
  match m (FsState (k_disk k) (k_junk k) cwd) with
  | Ok (a, s) => Ok (a, Kernel (k_con k) (disk s) (junk s))
  | Stop e => Stop e
  end.
Definition on_fs {A} (m : M (fsstate D) A) : K A := t ← ThisTask; on_fs_from (current_path t) m.

(** * syscalls/utils.cc *)
Definition GetRawArg (order : Z) : K Z :=
  if (6 <? order) || (order <? 0) then stop_with (Panicked "Invalid arg order")
  else t ← ThisTask; on_vm (ld64 (frame t + RegFrame_a order)).
Definition SetRawArg (order value : Z) : K () :=
  if (6 <? order) || (order <? 0) then stop_with (Panicked "Invalid arg order")
  else t ← ThisTask; on_vm (st64 (frame t + RegFrame_a order) (u64 value)).
Definition GetIntArg (order : Z) : K Z := v ← GetRawArg order; mret (s32 v).
Definition SetIntArg (order value : Z) : K () := SetRawArg order (s32 value).
Definition user_pa (va : Z) : K Z := t ← ThisTask; '(pa, _) ← on_vm (VAToPA (page_table t) va); mret pa.
Definition GetAddrArg (order : Z) : K Z :=
  user_addr ← GetRawArg order;
  if user_addr =? 0 then mret 0
  else
    t ← ThisTask;
    '(pa, pte) ← on_vm (VAToPA (page_table t) user_addr);
    if (pa =? 0) || negb (nonzero (Z.land (default 0 pte) PTE_U)) then mret 0 else mret pa.
(** the callback of [GetStrArg]: [x] is what it has stored in [buf] *)
Fixpoint str_piece (l : list Z) (i : Z) (x : list Z) : Z * list Z :=
  match l with
  | [] => (i, x)
  | b :: l => if nonzero b then str_piece l (i + 1) (x ++ [b]) else (i, x ++ [0])
  end.
Definition GetStrArg (order size : Z) : K (list Z) :=
  dst ← GetRawArg order;
  '(_, x) ← safe_copy user_pa (λ x pa len, l ← on_vm (vm_read pa len); mret (str_piece l 0 x)) dst size [];
  mret x.
Definition path_arg (order : Z) : K (option (list Z)) :=
  va ← GetRawArg order; pa ← user_pa va; on_vm (vm_cstring pa).

(** * syscalls/impl.cc: descriptors *)
Definition GetFileDescriptor (fd_index : Z) : K (option (nat * FileDescriptor)) :=
  t ← ThisTask;
  if (fd_index <? 0) || (Z.of_nat (length (file_descriptor t)) <=? fd_index) then mret None
  else
    fd ← of_option (Faulted "file_descriptor") (file_descriptor t !! Z.to_nat fd_index);
    if file_type fd =? FT_none then mret None else mret (Some (Z.to_nat fd_index, fd)).
Definition set_fd (i : nat) (fd : FileDescriptor) : K () :=
  on_this (upd (λ t, set_fds (<[i := fd]> (file_descriptor t)) t)).
(** [return size] of a [size_t] from an [int] function *)
Definition int_of (v : Z) : Z := s32 v.
Definition is_file (fd : FileDescriptor) : bool := (file_type fd =? FT_regular_file) || (file_type fd =? FT_directory).
(** [ResourceFactory::GetResource]: the one resource is the console *)
Definition GetResource (major minor : Z) : K () :=
  if (major =? 0) && (minor =? 0) then mret () else stop_with (Faulted "resource_index").

Definition sys_write : K Z :=
  i ← GetIntArg 0;
  o ← GetFileDescriptor i;
  match o with
  | None => mret (-1)
  | Some (n, fd) =>
    size ← GetRawArg 2;
    if is_file fd then
      dst ← GetRawArg 1;
      '(size, inode) ← safe_copy user_pa (λ inode pa len,
          l ← on_vm (vm_read pa len);
          '(ret, inode, _) ← on_fs (FileStream_write inode (FileStream_Seek (fd_offset fd)) l);
          mret (ret, inode)) dst size (fd_inode fd);
      set_fd n (MkFd (file_type fd) (u64 (fd_offset fd + size)) (fd_inode_index fd) inode);;
      mret (int_of size)
    else if negb (file_type fd =? FT_device) then mret (int_of size)
    else
      GetResource (major (fd_inode fd)) (minor (fd_inode fd));;
      dst ← GetRawArg 1;
      '(size, _) ← safe_copy user_pa (λ (_ : ()) pa len,
          l ← on_vm (vm_read pa len); ret ← on_con (Console.write l); mret (ret, ())) dst size ();
      mret (int_of size)
  end.

(** ** Calls that may sleep *)
(** the console read of [sys_read]: where in [safe_copy] it is; a sleeping reader *)
Record reading := Reading { r_dst : Z; r_size : Z; r_copied : Z; r_pa : Z; r_len : Z }.
Inductive blocked :=
| B_sleep (current_tick sleep_time : Z) (fl : bool)
| B_wait (fl : bool)
| B_read (r : reading) (guard : bool) (n : nat) (p : list Z) (fl : bool)
| B_exit.
Inductive sysret := Return (v : Z) | Blocked (b : blocked).

(** [safe_copy] with the console's [read], from the loop test on; [fuel] bounds
    the number of pages.  The characters a reader has been given are in its memory
    when [read] returns. *)
Fixpoint console_read (fuel : nat) (dst size copied : Z) : K sysret :=
  if 0 <? size then
    match fuel with
    | O => stop_with OutOfFuel
    | S fuel =>
      pa ← user_pa dst;
      let remain := PGSIZE - pa mod PGSIZE in
      let len := if size <? remain then size else remain in
      '(guard, r) ← on_con (Console.read len);
      match r with
      | Asleep n p fl => mret (Blocked (B_read (Reading dst size copied pa len) guard n p fl))
      | Returned p =>
        on_vm (vm_write pa p);;
        let ret := Z.of_nat (length p) in
        if ret <? len then mret (Return (int_of (copied + ret)))
        else console_read fuel (u64 (dst + len)) (size - len) (copied + ret)
      end
    end
  else mret (Return (int_of copied)).
Definition console_resume (spin : nat) (r : reading) (guard : bool) (n : nat) (p : list Z) (fl : bool) : K sysret :=
  '(guard, st) ← on_con (read_resume spin guard n p fl);
  match st with
  | Asleep n p fl => mret (Blocked (B_read r guard n p fl))
  | Returned p =>
    on_vm (vm_write (r_pa r) p);;
    let ret := Z.of_nat (length p) in
    if ret <? r_len r then mret (Return (int_of (r_copied r + ret)))
    else console_read (Z.to_nat (r_size r - r_len r)) (u64 (r_dst r + r_len r)) (r_size r - r_len r) (r_copied r + ret)
  end.
Definition sys_read : K sysret :=
  i ← GetIntArg 0;
  o ← GetFileDescriptor i;
  match o with
  | None => mret (Return (-1))
  | Some (n, fd) =>
    size ← GetRawArg 2;
    if is_file fd then
      dst ← GetRawArg 1;
      '(size, _) ← safe_copy user_pa (λ position pa len,
          old ← on_vm (vm_read pa len);
          '(l, ret, position) ← on_fs (FileStream_Read (fd_inode fd) position old len);
          on_vm (vm_write pa l);;
          mret (ret, position)) dst size (FileStream_Seek (fd_offset fd));
      set_fd n (MkFd (file_type fd) (u64 (fd_offset fd + size)) (fd_inode_index fd) (fd_inode fd));;
      mret (Return (int_of size))
    else if negb (file_type fd =? FT_device) then mret (Return (int_of size))
    else
      GetResource (major (fd_inode fd)) (minor (fd_inode fd));;
      dst ← GetRawArg 1;
      console_read (Z.to_nat size) dst size 0
  end.

(** [sys_sleep] from its loop test on *)
Definition sleep_test (current_tick sleep_time : Z) : K sysret :=
  now ← k_on_sched SystemTick;
  if u64 (now - current_tick) <? sleep_time then
    fl ← k_on_sched (Sleep sleep_channel); mret (Blocked (B_sleep current_tick sleep_time fl))
  else mret (Return 0).
Definition sys_sleep : K sysret :=
  current_tick ← k_on_sched SystemTick; sleep_time ← GetRawArg 0; sleep_test current_tick sleep_time.

(** [sys_wait] from the top of its loop on *)
Definition sys_wait : K sysret :=
  i ← this_index;
  '(has_child, child) ← k_on_sched (FindFirslZombieChild i);
  if negb has_child then mret (Return (-1))
  else match child with
       | Some j =>
         is_intr_on ← k_on_sched CriticalGuard_ctor;
         c ← k_on_sched (get_task j);
         a ← GetRawArg 0;
         (if a =? 0 then mret ()
          else pa ← user_pa a; on_vm (vm_write pa (le_bytes 4 (exit_code c))));;
         k_on_sched (on_task j ResetProcess);;
         k_on_sched (CriticalGuard_dtor is_intr_on);;
         mret (Return (pid c))
       | None => fl ← k_on_sched (Sleep (owned_channel i)); mret (Blocked (B_wait fl))
       end.
(** a blocked call, when the scheduler switches back to its process *)
Definition resume_syscall (spin : nat) (b : blocked) : K sysret :=
  match b with
  | B_sleep current_tick sleep_time fl => k_on_sched (CriticalGuard_dtor fl);; sleep_test current_tick sleep_time
  | B_wait fl => k_on_sched (CriticalGuard_dtor fl);; sys_wait
  | B_read r guard n p fl => console_resume spin r guard n p fl
  | B_exit => stop_with (Faulted "a zombie runs")
  end.

(** ** Files *)
(** the first free descriptor *)
Fixpoint free_fd (fds : list FileDescriptor) (i : nat) : option nat :=
  match fds with
  | [] => None
  | fd :: fds => if file_type fd =? FT_none then Some i else free_fd fds (S i)
  end.
Definition install_fd (fd : FileDescriptor) : K Z :=
  t ← ThisTask;
  match free_fd (file_descriptor t) 0 with
  | Some i => set_fd i fd;; mret (Z.of_nat i)
  | None => mret (-1)
  end.
Definition sys_open : K Z :=
  path_name ← path_arg 0;
  '(inode_index, o) ← on_fs (Open path_name);
  if inode_index <? 0 then mret (-1)
  else let inode := default inode0 o in install_fd (MkFd (ino_type inode) 0 inode_index inode).
Definition sys_close : K Z :=
  i ← GetIntArg 0;
  o ← GetFileDescriptor i;
  match o with None => mret (-1) | Some (n, _) => set_fd n fd0;; mret 0 end.
(** the bytes of [fs::FileState]: 4, 1 and 3 of padding, 4, 1 *)
Definition sys_fstat : K Z :=
  i ← GetIntArg 0;
  o ← GetFileDescriptor i;
  match o with
  | None => mret (-1)
  | Some (_, fd) =>
    addr ← GetRawArg 1;
    if addr =? 0 then mret (-1)
    else
      pa ← user_pa addr;
      on_vm (vm_write pa (le_bytes 4 (fd_inode_index fd)));;
      on_vm (vm_write (pa + 4) [link_count (fd_inode fd)]);;
      on_vm (vm_write (pa + 8) (le_bytes 4 (ino_size (fd_inode fd))));;
      on_vm (vm_write (pa + 12) [file_type fd]);;
      mret 0
  end.
Definition sys_mknod : K Z :=
  path_name ← path_arg 0;
  mj ← GetIntArg 1; mn ← GetIntArg 2;
  r ← on_fs (Create path_name FT_device (u8 mj) (u8 mn));
  mret (if bool_decide (is_Some r) then 0 else -1).
Definition sys_mkdir : K Z :=
  path_name ← path_arg 0;
  r ← on_fs (Create path_name FT_directory 0 0);
  mret (if bool_decide (is_Some r) then 0 else -1).
Definition sys_create : K Z :=
  path_name ← path_arg 0;
  v ← GetIntArg 1;
  let file_type := u8 v in
  if negb (file_type =? FT_directory) && negb (file_type =? FT_regular_file) then mret (-1)
  else
    r ← on_fs (Create path_name file_type 0 0);
    match r with
    | None => mret (-1)
    | Some target_inode => install_fd (MkFd file_type 0 (inode_index target_inode) target_inode)
    end.

(** ** The working directory *)
Definition sys_getcwd : K Z :=
  t ← ThisTask;
  va ← GetRawArg 0; addr ← user_pa va;
  max_len ← GetRawArg 1;
  path_len ← of_option (Faulted "strlen") (strlen (current_path t));
  if max_len <? Z.of_nat path_len then mret (-1)
  else
    on_vm (vm_write addr (take path_len (current_path t)));;
    on_vm (vm_write (addr + Z.of_nat path_len) [0]);;
    mret 0.
(** a store of bytes inside [current_path[128]] *)
Definition path_store (cur : list Z) (off : nat) (l : list Z) : option (list Z) :=
  if (off + length l <=? length cur)%nat then Some (splice cur off l) else None.
(** what [sys_chdir] does to [current_path] *)
Definition chdir_path (cur path_name : list Z) : option (list Z) :=
  path_len ← strlen path_name;
  cur ← (if negb (default 0 (head path_name) =? slash) then
           cur_path_len ← strlen cur;
           last ← (if (cur_path_len =? 0)%nat then None else cur !! (cur_path_len - 1)%nat);
           cur ← (if negb (last =? slash) then path_store cur cur_path_len [slash; 0] else Some cur);
           n ← strlen cur;
           path_store cur n (take (S path_len) path_name)
         else path_store cur 0 (take (S path_len) path_name));
  n ← strlen cur;
  if (1 <? n)%nat && (default 0 (cur !! (n - 1)%nat) =? slash) then path_store cur (n - 1) [0] else Some cur.
Definition sys_chdir : K Z :=
  path_name ← path_arg 0;
  '(inode_index, o) ← on_fs (Open path_name);
  if inode_index <? 0 then mret (-2)
  else if negb (ino_type (default inode0 o) =? FT_directory) then mret (-1)
  else
    t ← ThisTask;
    path_name ← of_option (Faulted "strlen") path_name;
    cur ← of_option (Faulted "current_path") (chdir_path (current_path t) path_name);
    on_this (upd (set_path cur));;
    mret 0.

(** ** Processes *)
Definition sys_fork : K Z :=
  i ← this_index;
  r ← k_on_sched (fork_task ExecuteRet_addr i);
  match r with
  | None => mret (-1)
  | Some j => c ← k_on_sched (get_task j); mret (pid c)
  end.
Definition sys_getpid : K Z := t ← ThisTask; mret (pid t).
(** [Exit] does not return *)
Definition sys_exit : K sysret :=
  exit_code ← GetIntArg 0; k_on_sched (Exit exit_code);; mret (Blocked B_exit).
Definition sys_sbrk : K Z := v ← GetRawArg 0; r ← on_this (ExpandMemory (u32 v)); mret (int_of r).
Definition sys_uptime : K Z := v ← k_on_sched SystemTick; mret (int_of v).
Definition sys_dlclose : K Z := mret 0.

(** * syscalls/manager.cc and syscall.cc.  The calls that load programs or drive
    the display are defined in Loader.v, DynamicLoader.v and Display.v: [other] stands for them. *)
Context (other : Z → K sysret).
Definition ret (m : K Z) : K sysret := v ← m; mret (Return v).
Definition syscalls : list (K sysret) :=
  [ret sys_fork; ret sys_write; sys_read; other 3; ret sys_close; sys_exit; sys_sleep; ret sys_open; ret sys_fstat;
   ret sys_mknod; ret sys_getpid; sys_wait; ret sys_getcwd; ret sys_chdir; ret sys_mkdir; ret sys_sbrk; ret sys_uptime;
   ret sys_create; other 18; other 19; other 20; other 21; other 22; other 23; other 24; ret sys_dlclose].
Definition Sum : Z := Z.of_nat (length syscalls).
Definition DoWork (num : Z) : K sysret :=
  if (Sum <=? num) || (num <? 0) then mret (Return (-1))
  else f ← of_option (Faulted "syscalls[num]") (syscalls !! Z.to_nat num); f.
(** [process->frame->a0 = DoWork(process->frame->a7)] *)
Definition set_a0 (r : sysret) : K sysret :=
  match r with
  | Return v => t ← ThisTask; on_vm (st64 (frame t + RegFrame_a 0) (u64 v));; mret r
  | Blocked _ => mret r
  end.
Definition ProcessSystemCall : K sysret :=
  t ← ThisTask;
  num ← on_vm (ld64 (frame t + RegFrame_a 7));
  r ← DoWork (s32 num); set_a0 r.
End syscalls.

(** * Specification *)
(** the directory that [path] names from [cwd] *)
Definition last_is (c : Z) (s : list Z) : bool := bool_decide (list.last s = Some c).
Definition join (cwd path : list Z) : list Z :=
  if default 0 (head path) =? slash then path else if last_is slash cwd then cwd ++ path else cwd ++ slash :: path.
Definition strip (s : list Z) : list Z := if (1 <? length s)%nat && last_is slash s then removelast s else s.

(** * Lemmas *)
(** ** [chdir_path] *)
Lemma strlen_take (s r : list Z) : no_nul s → take (S (length s)) (s ++ 0 :: r) = s ++ [0].
Proof. intros _. rewrite take_app_ge by lia. by replace (S (length s) - length s)%nat with 1%nat by lia. Qed.
Lemma path_store_app (s l j : list Z) : no_nul s →
  path_store (s ++ 0 :: j) (length s) (l ++ [0]) =
    if (length (s ++ l) <? length (s ++ 0%Z :: j))%nat then Some (s ++ l ++ 0 :: drop (length l) j) else None.
Proof.
  intros _. unfold path_store. rewrite !length_app. cbn [length].
  destruct (Nat.leb_spec (length s + (length l + 1)) (length s + S (length j))) as [Hle|Hgt].
  - rewrite (proj2 (Nat.ltb_lt _ _)) by lia. f_equal. unfold splice. rewrite take_app_length, length_app. cbn [length].
    rewrite <-!app_assoc. f_equal. f_equal. cbn [app]. f_equal. rewrite drop_app_ge by lia.
    by replace (length s + (length l + 1) - length s)%nat with (S (length l)) by lia.
  - by rewrite (proj2 (Nat.ltb_ge _ _)) by lia.
Qed.
Lemma path_store_0 (cur l : list Z) :
  path_store cur 0 (l ++ [0]) = if (length l <? length cur)%nat then Some (l ++ 0 :: drop (S (length l)) cur) else None.
Proof.
  unfold path_store. rewrite length_app. cbn [length Nat.add]. destruct (Nat.leb_spec (length l + 1) (length cur)).
  - rewrite (proj2 (Nat.ltb_lt _ _)) by lia. f_equal. unfold splice. rewrite take_0, length_app. cbn [length app Nat.add].
    rewrite <-app_assoc. by rewrite Nat.add_1_r.
  - by rewrite (proj2 (Nat.ltb_ge _ _)) by lia.
Qed.
Lemma last_lookup (s r : list Z) : s ≠ [] → (s ++ r) !! (length s - 1)%nat = list.last s.
Proof.
  intros Hs. destruct s as [|x s _] using rev_ind; [done|]. rewrite last_snoc, length_app. cbn [length].
  replace (length s + 1 - 1)%nat with (length s) by lia. rewrite <-app_assoc. by apply list_lookup_middle.
Qed.
Lemma strip_store (s j : list Z) : no_nul s → s ≠ [] → ∃ j',
  (n ← strlen (s ++ 0 :: j);
   if (1 <? n)%nat && (default 0 ((s ++ 0 :: j) !! (n - 1)%nat) =? slash) then path_store (s ++ 0 :: j) (n - 1) [0]
   else Some (s ++ 0 :: j)) = Some (strip s ++ 0 :: j') ∧ length (strip s ++ 0 :: j') = length (s ++ 0 :: j).
Proof.
  intros Hs Hne. rewrite strlen_cstr by done. cbn [mbind option_bind]. rewrite last_lookup by done. unfold strip, last_is.
  destruct s as [|x s _] using rev_ind; [done|]. rewrite last_snoc. cbn [default from_option].
  destruct (decide (x = slash)) as [->|Hx].
  - rewrite bool_decide_eq_true_2 by done. rewrite Z.eqb_refl, !andb_true_r. destruct (1 <? _)%nat eqn:E; [|by exists j].
    exists (0 :: j). rewrite removelast_last. rewrite length_app. cbn [length]. replace (length s + 1 - 1)%nat with (length s) by lia.
    unfold path_store. rewrite (proj2 (Nat.leb_le _ _)) by (rewrite !length_app; cbn; lia).
    rewrite !length_app. cbn [length]. split; [|lia]. f_equal. unfold splice. rewrite <-app_assoc, take_app_length. f_equal. cbn [length app].
    f_equal. rewrite drop_app_ge by lia. by replace (length s + 1 - length s)%nat with 1%nat by lia.
  - rewrite bool_decide_eq_false_2 by congruence. unfold id. rewrite (proj2 (Z.eqb_neq x slash)), !andb_false_r by done. by exists j.
Qed.
Lemma chdir_path_spec (cwd j path r : list Z) : no_nul cwd → cwd ≠ [] → no_nul path → path ≠ [] →
  if (length (join cwd path) <? length (cwd ++ 0%Z :: j))%nat
  then ∃ j', chdir_path (cwd ++ 0 :: j) (path ++ 0 :: r) = Some (strip (join cwd path) ++ 0 :: j') ∧
    length (strip (join cwd path) ++ 0 :: j') = length (cwd ++ 0 :: j)
  else chdir_path (cwd ++ 0 :: j) (path ++ 0 :: r) = None.
Proof.
  intros Hc Hcne Hp Hpne. unfold chdir_path. rewrite (strlen_cstr path) by done. cbn [mbind option_bind].
  rewrite strlen_take by done.
  assert (default 0 (head (path ++ 0 :: r)) = default 0 (head path)) as -> by by destruct path.
  assert (∀ s, no_nul s → s ≠ [] → length s = length (join cwd path) → s = join cwd path → ∀ cur j1, cur = s ++ 0 :: j1 →
    length cur = length (cwd ++ 0 :: j) → ∃ j',
    (n ← strlen cur; if (1 <? n)%nat && (default 0 (cur !! (n - 1)%nat) =? slash) then path_store cur (n - 1) [0] else Some cur) =
      Some (strip (join cwd path) ++ 0 :: j') ∧ length (strip (join cwd path) ++ 0 :: j') = length (cwd ++ 0 :: j)) as Hend.
  { intros s H1 H2 _ <- cur j1 -> Hl. destruct (strip_store s j1 H1 H2) as (j' & E1 & E2). exists j'. split; [exact E1|]. by rewrite E2. }
  assert (no_nul [slash]) as Hsl by (constructor; [done|constructor]).
  unfold join in *. destruct (default 0 (head path) =? slash) eqn:Eabs; cbn [negb].
  - (* absolute *)
    rewrite path_store_0. destruct (length path <? length (cwd ++ 0%Z :: j))%nat eqn:Elt; [|done]. cbn [mbind option_bind].
    eapply (Hend path); [done..|]. apply Nat.ltb_lt in Elt. rewrite !length_app in *. cbn [length] in *.
    rewrite length_drop, length_app. cbn [length]. lia.
  - rewrite (strlen_cstr cwd) by done. cbn [mbind option_bind].
    destruct (Nat.eqb_spec (length cwd) 0) as [E0|_]; [by apply length_zero_iff_nil in E0|].
    rewrite last_lookup by done. unfold last_is in *.
    destruct cwd as [|c0 cwd _] using rev_ind; [done|]. rewrite last_snoc in *. cbn [mbind option_bind].
    destruct (decide (c0 = slash)) as [->|Hc0].
    + rewrite bool_decide_eq_true_2 in * by done. rewrite Z.eqb_refl. cbn [negb mbind option_bind].
      rewrite (strlen_cstr _ j) by done. cbn [mbind option_bind].
      rewrite (path_store_app _ path j) by done. destruct (_ <? _)%nat eqn:Elt; [|done]. cbn [mbind option_bind].
      eapply (Hend ((cwd ++ [slash]) ++ path)); [by apply Forall_app|by destruct cwd|done|done|by rewrite (app_assoc (cwd ++ [slash]) path)|].
      rewrite Nat.ltb_lt in Elt. rewrite !length_app in *. cbn [length] in *. rewrite length_drop. lia.
    + rewrite bool_decide_eq_false_2 in * by congruence. rewrite (proj2 (Z.eqb_neq c0 slash)) by done. cbn [negb mbind option_bind].
      change [slash; 0] with ([slash] ++ [0]). rewrite (path_store_app _ [slash] j) by done.
      destruct (length ((cwd ++ [c0]) ++ [slash]) <? _)%nat eqn:E1; cbn [mbind option_bind].
      * rewrite app_assoc. rewrite (strlen_cstr ((cwd ++ [c0]) ++ [slash])) by (by apply Forall_app). cbn [mbind option_bind].
        rewrite (path_store_app _ path) by (by apply Forall_app).
        assert ((length (((cwd ++ [c0]) ++ [slash]) ++ path) <? length (((cwd ++ [c0]) ++ [slash]) ++ 0%Z :: drop (length [slash]) j))%nat =
          (length ((cwd ++ [c0]) ++ slash :: path) <? length ((cwd ++ [c0]) ++ 0%Z :: j))%nat) as ->.
        { apply Nat.ltb_lt in E1. rewrite !length_app in *. cbn [length] in *. rewrite length_drop. apply eq_true_iff_eq. rewrite !Nat.ltb_lt. lia. }
        destruct (length ((cwd ++ [c0]) ++ slash :: path) <? length ((cwd ++ [c0]) ++ 0%Z :: j))%nat eqn:E2; [|done]. cbn [mbind option_bind].
        eapply (Hend ((cwd ++ [c0]) ++ slash :: path)); [|by destruct cwd|done|done| |].
        { apply Forall_app. split; [done|]. by constructor. }
        { rewrite <-!app_assoc. reflexivity. }
        apply Nat.ltb_lt in E1, E2. rewrite !length_app in *. cbn [length] in *. rewrite !length_drop. lia.
      * apply Nat.ltb_ge in E1. rewrite (proj2 (Nat.ltb_ge _ _)); [done|]. rewrite !length_app in *. cbn [length] in *.
        destruct path; [done|]. cbn. lia.
Qed.

(** ** [safe_copy] *)
Section safe_copy_lemmas.
Context {S X : Type} (translate : Z → M S Z) (fun_ : X → Z → Z → M S (Z * X)).
Context (translate_terminates : ∀ va s, translate va s ≠ Stop OutOfFuel).
Context (fun_terminates : ∀ x pa len s, fun_ x pa len s ≠ Stop OutOfFuel).
Lemma safe_copy_loop_terminates fuel : ∀ dst size n x s, size ≤ Z.of_nat fuel →
  safe_copy_loop translate fun_ fuel dst size n x s ≠ Stop OutOfFuel.
Proof using translate_terminates fun_terminates.
  induction fuel as [|fuel IH]; intros dst size n x s Hf; cbn [safe_copy_loop]; (destruct (Z.ltb_spec 0 size); [|done]); [lia|].
  unfold mbind at 1, M_bind. destruct (translate dst s) as [[pa s1]|e] eqn:E1; [|intros [= ->]; by eapply translate_terminates].
  cbv zeta. set (len := if size <? PGSIZE - pa mod PGSIZE then _ else _).
  assert (1 ≤ len ≤ size) as Hlen.
  { subst len. pose proof (Z.mod_pos_bound pa PGSIZE ltac:(done)). destruct (Z.ltb_spec size (PGSIZE - pa mod PGSIZE)); lia. }
  unfold mbind at 1, M_bind. destruct (fun_ x pa len s1) as [[[r x'] s2]|e] eqn:E2; [|intros [= ->]; by eapply fun_terminates].
  destruct (r <? len); [done|]. apply IH. lia.
Qed.
Lemma safe_copy_loop_bound fuel : ∀ dst size n x s r x' s',
  (∀ x pa len s r x' s', fun_ x pa len s = Ok ((r, x'), s') → 0 ≤ r ≤ len) →
  0 ≤ n → 0 ≤ size → n + size < 2 ^ 64 →
  safe_copy_loop translate fun_ fuel dst size n x s = Ok ((r, x'), s') → n ≤ r ≤ n + size.
Proof.
  induction fuel as [|fuel IH]; intros dst size n x s r x' s' Hfun Hn Hs Hb; cbn [safe_copy_loop];
    (destruct (Z.ltb_spec 0 size); [|intros [= <- <- <-]; lia]); [done|].
  intros Hr. inv_bind Hr. cbv zeta in Hr. set (len := if size <? PGSIZE - a mod PGSIZE then _ else _) in *.
  assert (1 ≤ len ≤ size) as Hlen.
  { subst len. pose proof (Z.mod_pos_bound a PGSIZE ltac:(done)). destruct (Z.ltb_spec size (PGSIZE - a mod PGSIZE)); lia. }
  apply bind_inv in Hr as ([r1 x1] & s1 & E1 & Hr). pose proof (Hfun _ _ _ _ _ _ _ E1). rewrite wrap_small in Hr by lia.
  destruct (Z.ltb_spec r1 len); [injection Hr as <- <- <-; lia|]. apply IH in Hr; [|done|lia|lia|lia]. lia.
Qed.
End safe_copy_lemmas.

(** ** The kernel around one process *)
Section kernel_lemmas.
Context {D : Type} `{BlockDevice D}.
Definition with_this (i : nat) (ts : tstate) (k : kernel D) : kernel D :=
  let c := k_con k in let s := con_sched c in
  set_con (Con (c_buf c) (read_index c) (write_index c) (lock_flag c) (is_writable_ c) (uart c)
    (Sched (<[i := ts_task ts]> (process_tasks_ s)) (process_task s) (ticks s) (init_process_ s) (ts_vm ts) (ts_cur_pid ts))) k.
Definition with_task (i : nat) (t : ProcessTask) (k : kernel D) : kernel D :=
  with_this i (TState (sc_vm (k_sched k)) (sc_cur_pid (k_sched k)) t) k.
Definition current (i : nat) (t : ProcessTask) (k : kernel D) : Prop :=
  process_task (k_sched k) = Some i ∧ process_tasks_ (k_sched k) !! i = Some t.
(** the argument registers and the user pointers of the process *)
Definition arg (k : kernel D) (t : ProcessTask) (n v : Z) : Prop :=
  ld64 (frame t + RegFrame_a n) (sc_vm (k_sched k)) = Ok (v, sc_vm (k_sched k)).
Definition points (k : kernel D) (t : ProcessTask) (va pa : Z) : Prop :=
  ∃ pr, VAToPA (page_table t) va (sc_vm (k_sched k)) = Ok ((pa, pr), sc_vm (k_sched k)).
Context (i : nat) (t : ProcessTask) (k : kernel D) (Hcur : current i t k).
Lemma on_this_run {A} (m : M tstate A) a ts :
  m (TState (sc_vm (k_sched k)) (sc_cur_pid (k_sched k)) t) = Ok (a, ts) → on_this m k = Ok (a, with_this i ts k).
Proof using Hcur.
  intros Hm. destruct Hcur as [H1 H2]. destruct k as [[? ? ? ? ? ? []] ? ?]. cbn in *.
  unfold on_this, this_index, k_on_sched, on_con, on_sched, ThisProcess, gets, mbind, M_bind. cbn. rewrite H1. cbn.
  unfold on_task. cbn. by rewrite H2, Hm.
Qed.
Lemma with_this_id : with_this i (TState (sc_vm (k_sched k)) (sc_cur_pid (k_sched k)) t) k = k.
Proof using Hcur.
  destruct Hcur as [H1 H2]. destruct k as [[? ? ? ? ? ? []] ? ?]. unfold with_this, set_con. cbn in *. by rewrite list_insert_id.
Qed.
Lemma on_vm_pure {A} (m : M vmstate A) a : m (sc_vm (k_sched k)) = Ok (a, sc_vm (k_sched k)) → on_vm m k = Ok (a, k).
Proof using Hcur.
  intros Hm. unfold on_vm. erewrite on_this_run; [|unfold lift_vm; cbn; rewrite Hm; reflexivity]. by rewrite with_this_id.
Qed.
Lemma ThisTask_run : ThisTask k = Ok (t, k).
Proof using Hcur. unfold ThisTask. erewrite on_this_run; [|reflexivity]. by rewrite with_this_id. Qed.
Lemma GetRawArg_run n v : 0 ≤ n ≤ 6 → arg k t n v → GetRawArg n k = Ok (v, k).
Proof using Hcur.
  intros Hn Ha. unfold GetRawArg. replace ((6 <? n) || (n <? 0)) with false by lia.
  rewrite (bind_Ok _ _ _ _ _ ThisTask_run). by apply on_vm_pure.
Qed.
Lemma GetIntArg_run n v : 0 ≤ n ≤ 6 → arg k t n v → GetIntArg n k = Ok (s32 v, k).
Proof using Hcur. intros Hn Ha. unfold GetIntArg. by rewrite (bind_Ok _ _ _ _ _ (GetRawArg_run n v Hn Ha)). Qed.
Lemma user_pa_run va pa : points k t va pa → user_pa va k = Ok (pa, k).
Proof using Hcur.
  intros (pr & Hp). unfold user_pa. rewrite (bind_Ok _ _ _ _ _ ThisTask_run).
  by rewrite (bind_Ok _ _ _ _ _ (on_vm_pure _ _ Hp)).
Qed.
Lemma path_arg_run n va pa : 0 ≤ n ≤ 6 → arg k t n va → points k t va pa → pa ≠ 0 →
  path_arg n k = Ok (Some (cstring_at max_string (vm_mem (sc_vm (k_sched k))) pa), k).
Proof using Hcur.
  intros Hn Ha Hp H0. unfold path_arg. rewrite (bind_Ok _ _ _ _ _ (GetRawArg_run n va Hn Ha)).
  rewrite (bind_Ok _ _ _ _ _ (user_pa_run va pa Hp)). apply on_vm_pure. unfold vm_cstring. by rewrite (proj2 (Z.eqb_neq pa 0)).
Qed.
Definition lookup_fd (v : Z) : option (nat * FileDescriptor) :=
  match (if 0 <=? v then file_descriptor t !! Z.to_nat v else None) with
  | Some fd => if file_type fd =? FT_none then None else Some (Z.to_nat v, fd)
  | None => None
  end.
Lemma GetFileDescriptor_run v : GetFileDescriptor v k = Ok (lookup_fd v, k).
Proof using Hcur.
  unfold GetFileDescriptor, lookup_fd. rewrite (bind_Ok _ _ _ _ _ ThisTask_run).
  destruct (Z.leb_spec 0 v) as [Hv|Hv].
  2: { by replace (v <? 0) with true by lia. }
  replace (v <? 0) with false by lia. cbn [orb].
  destruct (file_descriptor t !! Z.to_nat v) as [fd|] eqn:E.
  - pose proof (lookup_lt_Some _ _ _ E). replace (Z.of_nat (length (file_descriptor t)) <=? v) with false by lia.
    erewrite bind_Ok by (cbn; reflexivity). by destruct (file_type fd =? FT_none).
  - apply lookup_ge_None in E. by replace (Z.of_nat (length (file_descriptor t)) <=? v) with true by lia.
Qed.
Lemma set_fd_run n fd : set_fd n fd k = Ok ((), with_task i (set_fds (<[n := fd]> (file_descriptor t)) t) k).
Proof using Hcur. unfold set_fd. by erewrite on_this_run. Qed.
Lemma on_fs_run {A} (m : M (fsstate D) A) a s :
  m (FsState (k_disk k) (k_junk k) (current_path t)) = Ok (a, s) → on_fs m k = Ok (a, Kernel (k_con k) (disk s) (junk s)).
Proof using Hcur. intros Hm. unfold on_fs. rewrite (bind_Ok _ _ _ _ _ ThisTask_run). unfold on_fs_from. by rewrite Hm. Qed.
End kernel_lemmas.
Lemma free_fd_spec fds : ∀ i,
  match free_fd fds i with
  | Some j => (i ≤ j)%nat ∧ (∃ fd, fds !! (j - i)%nat = Some fd ∧ file_type fd = FT_none) ∧
      ∀ j' fd, (i ≤ j' < j)%nat → fds !! (j' - i)%nat = Some fd → file_type fd ≠ FT_none
  | None => ∀ fd, fd ∈ fds → file_type fd ≠ FT_none
  end.
Proof.
  induction fds as [|fd fds IH]; intros i; cbn [free_fd]; [by intros fd Hfd%elem_of_nil|].
  destruct (Z.eqb_spec (file_type fd) FT_none) as [E|E].
  - split; [done|]. rewrite Nat.sub_diag. split; [by exists fd|]. lia.
  - specialize (IH (S i)). destruct (free_fd fds (S i)) as [j|].
    + destruct IH as (Hle & (fd' & E1 & E2) & Hlt). split; [lia|]. replace (j - i)%nat with (S (j - S i)) by lia.
      split; [by exists fd'|]. intros j' fd0 Hj'. destruct (decide (j' = i)) as [->|].
      * rewrite Nat.sub_diag. by intros [= <-].
      * replace (j' - i)%nat with (S (j' - S i)) by lia. apply Hlt. lia.
    + intros fd' [-> |Hin]%elem_of_cons; [done|]. by apply IH.
Qed.

(** a kernel with one process, whose page 0x1000 holds its arguments' strings *)
Definition demo_kvm (a0 : Z) (str : list Z) : vmstate :=
  let pte pa fl := Z.lor (Z.shiftr pa 2) fl in
  let m := store64 (store64 (store64 ∅ 0x80010000 (pte 0x80011000 PTE_V)) 0x80011000 (pte 0x80012000 PTE_V))
             0x80012008 (pte 0x80014000 (Z.lor PTE_V (Z.lor PTE_R PTE_U))) in
  let m := store_bytes (store64 m (0x80013000 + RegFrame_a 0) a0) 0x80014000 str in
  VmState m (MkMemoryList 0 0 0) [] true 0x1888 0x80020000.
Definition demo_ktask : ProcessTask :=
  set_path ([47; 97; 0] ++ replicate 125 0)
    (set_fds (repeat fd0 16) (set_pages 0x80013000 0x80010000 0 0 (set_state running task0))).
Definition demo_kernel (a0 : Z) (str : list Z) : kernel ramdisk :=
  Kernel (Con (replicate 256 0) 0 0 false true []
    (Sched [demo_ktask] (Some 0%nat) 0 None (demo_kvm a0 str) 2)) demo_disk (replicate 512 0xaa).
(** * Properties *)
(** C39: [safe_copy] terminates, whatever the user's size and address, when the
    translation and the callback do, within one iteration per byte; when the
    callback moves at most what it is asked to, the count returned is at most the
    size requested. *)
Theorem safe_copy_terminates {S X} (translate : Z → M S Z) (fun_ : X → Z → Z → M S (Z * X)) dst size x s :
  (∀ va s, translate va s ≠ Stop OutOfFuel) → (∀ x pa len s, fun_ x pa len s ≠ Stop OutOfFuel) →
  (∀ x pa len s r x' s', fun_ x pa len s = Ok ((r, x'), s') → 0 ≤ r ≤ len) →
  0 ≤ size < 2 ^ 64 →
  safe_copy translate fun_ dst size x s ≠ Stop OutOfFuel ∧
  ∀ r x' s', safe_copy translate fun_ dst size x s = Ok ((r, x'), s') → 0 ≤ r ≤ size.
Proof.
  intros Ht Hf Hb Hs. split.
  - apply safe_copy_loop_terminates; [done|done|lia].
  - intros r x' s' E. apply safe_copy_loop_bound in E; [lia|done|lia..].
Qed.
Lemma safe_copy_terminates_witness :
  let take_ x pa len := λ s : (), Ok ((Z.min len 5000, x ++ [(pa, len)]), s) in
  safe_copy (λ va s, Ok (va + 0x1000000, s)) take_ 4000 9000 [] () =
    Ok ((9000, [(0x1000fa0, 96); (0x1001000, 4096); (0x1002000, 4096); (0x1003000, 712)]), ()) ∧
  0 ≤ 9000 ≤ 9000.
Proof.
  set (take_ := λ (x : list (Z * Z)) (pa len : Z), λ s : (), Ok ((Z.min len 5000, x ++ [(pa, len)]), s)).
  intros take_'. assert (safe_copy (λ va s, Ok (va + 0x1000000, s)) take_ 4000 9000 [] () =
    Ok ((9000, [(0x1000fa0, 96); (0x1001000, 4096); (0x1002000, 4096); (0x1003000, 712)]), ())) as E by (vm_compute; reflexivity).
  split; [exact E|].
  refine (proj2 (safe_copy_terminates (λ va s, Ok (va + 0x1000000, s)) (λ x pa len s, if 0 <=? len then take_ x pa len s else Stop (Panicked "")) 4000 9000 [] () _ _ _ _) 9000
    [(0x1000fa0, 96); (0x1001000, 4096); (0x1002000, 4096); (0x1003000, 712)] () _).
  - done.
  - intros x pa len s. by destruct (0 <=? len).
  - intros x pa len s r x' s'. destruct (Z.leb_spec 0 len); [|done]. intros [= <- <- <-]. lia.
  - lia.
  - vm_compute. reflexivity.
Defined.

(** [sys_chdir], given a mapped path that ends within two pages, reports a
    path that does not open or is no directory and keeps the working directory, and
    otherwise makes it the path resolved against the old one, without a last
    slash; a result that does not fit in the 128 bytes of [current_path] is
    written past its end. *)
Theorem sys_chdir_resolves {D} `{BlockDevice D} (k : kernel D) i t va pa path cwd j :
  current i t k → arg k t 0 va → points k t va pa → pa ≠ 0 →
  cstring_at max_string (vm_mem (sc_vm (k_sched k))) pa = path ++ [0] → no_nul path → path ≠ [] →
  current_path t = cwd ++ 0 :: j → no_nul cwd → cwd ≠ [] →
  match Open (Some (path ++ [0])) (FsState (k_disk k) (k_junk k) (current_path t)) with
  | Stop e => sys_chdir k = Stop e
  | Ok ((index, o), fs) =>
    let k1 := Kernel (k_con k) (disk fs) (junk fs) in
    if index <? 0 then sys_chdir k = Ok (-2, k1)
    else if negb (ino_type (default inode0 o) =? FT_directory) then sys_chdir k = Ok (-1, k1)
    else if (length (join cwd path) <? length (current_path t))%nat then
      ∃ j', sys_chdir k = Ok (0, with_task i (set_path (strip (join cwd path) ++ 0 :: j') t) k1) ∧
        length (strip (join cwd path) ++ 0 :: j') = length (current_path t)
    else sys_chdir k = Stop (Faulted "current_path")
  end.
Proof.
  intros Hcur Ha Hp Hpa Hs Hn Hne Hcw Hc Hcne.
  pose proof (path_arg_run i t k Hcur 0 va pa ltac:(lia) Ha Hp Hpa) as Hpath. rewrite Hs in Hpath.
  destruct (Open _ _) as [[[index o] fs]|e] eqn:Eo; cbv zeta.
  2: { unfold sys_chdir. rewrite (bind_Ok _ _ _ _ _ Hpath). apply bind_Stop. unfold on_fs.
       rewrite (bind_Ok _ _ _ _ _ (ThisTask_run i t k Hcur)). unfold on_fs_from. by rewrite Eo. }
  pose proof (on_fs_run i t k Hcur _ _ _ Eo) as Hfs. unfold sys_chdir.
  rewrite (bind_Ok _ _ _ _ _ Hpath), (bind_Ok _ _ _ _ _ Hfs). destruct (index <? 0); [done|]. destruct (negb _); [done|].
  set (k1 := Kernel _ _ _) in *. assert (current i t k1) as Hcur1 by exact Hcur.
  rewrite (bind_Ok _ _ _ _ _ (ThisTask_run i t k1 Hcur1)), (bind_Ok _ _ _ (path ++ [0]) k1) by done.
  rewrite Hcw. pose proof (chdir_path_spec cwd j path [] Hc Hcne Hn Hne) as Hch. destruct (_ <? _)%nat.
  - destruct Hch as (j' & E & El). rewrite E. exists j'. split; [|done].
    rewrite (bind_Ok _ _ _ (strip (join cwd path) ++ 0 :: j') k1) by done.
    by rewrite (bind_Ok _ _ _ _ _ (on_this_run i t k1 Hcur1 (upd (set_path (strip (join cwd path) ++ 0 :: j'))) () _ eq_refl)).
  - rewrite Hch. by apply bind_Stop.
Qed.

Lemma sys_chdir_resolves_witness :
  let k := demo_kernel 0x1008 [1; 2; 3; 4; 5; 6; 7; 8; 47; 0] in
  ∃ j' d jk, sys_chdir k = Ok (0, with_task 0 (set_path ([47] ++ 0 :: j') demo_ktask) (Kernel (k_con k) d jk)).
Proof.
  intros k. pose proof (sys_chdir_resolves k 0 demo_ktask 0x1008 0x80014008 [47] [47; 97] (replicate 125 0)) as H.
  assert (fst <$> (match Open (Some ([47] ++ [0])) (FsState (k_disk k) (k_junk k) (current_path demo_ktask)) with Ok x => Some x | Stop _ => None end)
    = Some (0, Some demo_root_inode)) as Ho by (vm_compute; reflexivity).
  destruct (Open _ _) as [[[index o] fs]|]; [|discriminate Ho]. injection Ho as -> ->. cbv zeta in H.
  change (if (0 <? 0)%Z then ?a else ?b) with b in H.
  change (negb (ino_type (default inode0 (Some demo_root_inode)) =? FT_directory)) with false in H. cbv iota in H.
  change (length (join [47%Z; 97%Z] [47%Z]) <? length (current_path demo_ktask))%nat with true in H. cbv iota in H.
  destruct H as (j' & E & _).
  - by split.
  - vm_compute. reflexivity.
  - eexists. vm_compute. reflexivity.
  - discriminate.
  - vm_compute. reflexivity.
  - repeat constructor; discriminate.
  - discriminate.
  - reflexivity.
  - repeat constructor; discriminate.
  - discriminate.
  - exists j', (disk fs), (junk fs). exact E.
Defined.

(** The descriptor table.  A file is installed at the lowest free index, and
    not at all when every index is taken; [sys_close] frees the descriptor it is
    given and refuses an index out of range or free, without changing anything. *)
Theorem descriptor_table {D} `{BlockDevice D} (k : kernel D) i t fd :
  current i t k →
  match free_fd (file_descriptor t) 0 with
  | Some n => install_fd fd k = Ok (Z.of_nat n, with_task i (set_fds (<[n := fd]> (file_descriptor t)) t) k) ∧
      (∃ old, file_descriptor t !! n = Some old ∧ file_type old = FT_none) ∧
      (∀ n' old, (n' < n)%nat → file_descriptor t !! n' = Some old → file_type old ≠ FT_none)
  | None => install_fd fd k = Ok (-1, k) ∧ ∀ old, old ∈ file_descriptor t → file_type old ≠ FT_none
  end ∧
  ∀ v, arg k t 0 v →
    match (if 0 <=? s32 v then file_descriptor t !! Z.to_nat (s32 v) else None) with
    | Some old => if file_type old =? FT_none then sys_close k = Ok (-1, k)
                  else sys_close k = Ok (0, with_task i (set_fds (<[Z.to_nat (s32 v) := fd0]> (file_descriptor t)) t) k)
    | None => sys_close k = Ok (-1, k)
    end.
Proof.
  intros Hcur. split.
  - pose proof (free_fd_spec (file_descriptor t) 0) as Hf. unfold install_fd. rewrite (bind_Ok _ _ _ _ _ (ThisTask_run i t k Hcur)).
    destruct (free_fd _ 0) as [n|].
    + rewrite (bind_Ok _ _ _ _ _ (set_fd_run i t k Hcur n fd)). destruct Hf as (_ & Hfree & Hlt). rewrite Nat.sub_0_r in Hfree.
      split; [done|]. split; [done|]. intros n' old Hn' E. apply (Hlt n'); [lia|]. by rewrite Nat.sub_0_r.
    + done.
  - intros v Ha. unfold sys_close. rewrite (bind_Ok _ _ _ _ _ (GetIntArg_run i t k Hcur 0 v ltac:(lia) Ha)).
    rewrite (bind_Ok _ _ _ _ _ (GetFileDescriptor_run i t k Hcur (s32 v))). unfold lookup_fd.
    destruct (if 0 <=? s32 v then _ else _) as [old|]; [|done]. destruct (file_type old =? FT_none); [done|].
    by rewrite (bind_Ok _ _ _ _ _ (set_fd_run i t k Hcur _ _)).
Qed.
Lemma descriptor_table_witness :
  let k := demo_kernel 3 [0] in
  let fd := MkFd FT_regular_file 0 1 demo_file in
  install_fd fd k = Ok (0, with_task 0 (set_fds (<[0%nat := fd]> (file_descriptor demo_ktask)) demo_ktask) k) ∧
  sys_close k = Ok (-1, k).
Proof.
  intros k fd. destruct (descriptor_table k 0 demo_ktask fd) as [H1 H2]; [by split|]. split.
  - exact (proj1 H1).
  - apply (H2 3). vm_compute. reflexivity.
Defined.
