(* ===== verification/Trap.v ===== *)
(** [kernel/trap.cc], the return to user mode of [kernel/syscalls/execute.cc],
    [kernel/extern_controller.cc] and the device table of
    [driver/device_factory.cc]: what the kernel does from a trap to the [mret]
    that ends it.  The devices are behind [BasicDevice]'s virtual functions, a
    parameter here; [restore_user_context] and the trap vectors are assembly and
    the model stops at them.  [mstatus] is the kernel's (its critical sections
    change it), the other CSRs are in a register file. *)
From S2P Require Import Prelude Riscv Lock Mem MemoryList VirtualMemory Inode Process Scheduler Console FsCommon FileData FileStream Syscalls.

(** * driver/device_factory: the devices and their table *)
Inductive DeviceList := device_list_begin | disk0 | disk1 | gpu0 | mouse0 | net0 | uart0 | device_list_end.
#[export] Instance DeviceList_eq_dec : EqDecision DeviceList.
Proof. solve_decision. Defined.
Definition DeviceList_values : list DeviceList :=
  [device_list_begin; disk0; disk1; gpu0; mouse0; net0; uart0; device_list_end].
Fixpoint index_of (e : DeviceList) (l : list DeviceList) : nat :=
  match l with [] => 0 | e' :: l => if bool_decide (e = e') then 0 else S (index_of e l) end%nat.
Definition device_literal (e : DeviceList) : nat := index_of e DeviceList_values.
(** [iota(literal(front) + 1, literal(back))], cast back to the enum *)
Definition enum_range (front back : DeviceList) : list DeviceList :=
  omap (λ i, DeviceList_values !! i) (seq (S (device_literal front)) (device_literal back - S (device_literal front))).
Definition device_info : list (Z * Z) :=
  [(0, irq_NONE); (VIRTIO0, VIRTIO0_IRQ); (VIRTIO1, VIRTIO1_IRQ); (VIRTIO2, VIRTIO2_IRQ); (VIRTIO3, VIRTIO3_IRQ);
   (VIRTIO4, VIRTIO4_IRQ); (UART0, UARRT0_IRQ)].
(** the members of [DeviceFactory] *)
Inductive device_object := blk_device0_ | blk_device1_ | gpu_device0_ | input_device0_ | net0_ | uart_.
#[export] Instance device_object_eq_dec : EqDecision device_object.
Proof. solve_decision. Defined.
Definition GetDevice (device : DeviceList) : option device_object :=
  if bool_decide (device = disk0) then Some blk_device0_
  else if bool_decide (device = disk1) then Some blk_device1_
  else if bool_decide (device = gpu0) then Some gpu_device0_
  else if bool_decide (device = uart0) then Some uart_
  else if bool_decide (device = mouse0) then Some input_device0_
  else if bool_decide (device = net0) then Some net0_
  else None.

(** * The hart: the kernel, the other CSRs, the members of [ExternController] (the
    [device_list_size_] entries in use) and the interrupts completed at the PLIC *)
Record hart (D : Type) := Hart {
  h_kernel : kernel D;
  h_csrs : csrs;
  device_list_ : list (Z * device_object);
  completed : list Z;
}.
Arguments Hart {D} _ _ _ _.
Arguments h_kernel {D} _.
Arguments h_csrs {D} _.
Arguments device_list_ {D} _.
Arguments completed {D} _.
Definition device_list_max : nat := 8.

(** where a trap ends: at [restore_user_context], back in the interrupted kernel
    code, or in a switch to the scheduler, with what the process will go on with *)
Inductive waiting := In_syscall (b : blocked) | In_interrupt (fl : bool) | In_kernel_trap (fl : bool) | In_exit.
Inductive trap_result := To_user (frame : Z) | To_kernel | Switched (w : waiting).

Section trap.
Context {D : Type} `{BlockDevice D}.
Context (ExecuteRet_addr : Z) (other : Z → M (kernel D) sysret) (user_exception_table : Z).
(** class [BasicDevice] *)
Context (device_Init : device_object → Z → M (kernel D) bool).
Context (device_ProcessInterrupt : device_object → M (kernel D) ()).
Abbreviation HM := (M (hart D)).

Definition on_kernel {A} (m : M (kernel D) A) : HM A := λ h,
  match m (h_kernel h) with
  | Ok (a, k) => Ok (a, Hart k (h_csrs h) (device_list_ h) (completed h))
  | Stop e => Stop e
  end.
Definition on_csrs (f : csrs → csrs) : HM () :=
  modify (λ h, Hart (h_kernel h) (f (h_csrs h)) (device_list_ h) (completed h)).
Definition mstatus_of (h : hart D) : Z := get_mstatus (k_con (h_kernel h)).
Definition upd_mstatus (f : Z → Z) : HM () := on_kernel (on_con (modify (λ c, put_mstatus (u64 (f (get_mstatus c))) c))).
Definition cpu_id : HM Z := gets (λ h, h_csrs h c_tp).

(** * extern_controller.cc *)
Definition Register (e : Z) (device : device_object) : HM () := λ h,
  if (device_list_max <=? length (device_list_ h))%nat then Stop (Faulted "device_list_")
  else Ok ((), Hart (h_kernel h) (h_csrs h) (device_list_ h ++ [(e, device)]) (completed h)).
Fixpoint find_irq (irq : Z) (l : list (Z * device_object)) : option device_object :=
  match l with [] => None | (e, d) :: l => if e =? irq then Some d else find_irq irq l end.
Definition GetDeviceByIRQ (irq : Z) : HM (option device_object) := gets (λ h, find_irq irq (device_list_ h)).
(** [irq] is what the PLIC answers to the read of its claim register *)
Definition ExternController_DoWork (irq : Z) : HM () :=
  device ← GetDeviceByIRQ irq;
  match device with
  | None => stop_with (Panicked "No device satisfied irq")
  | Some device =>
    on_kernel (device_ProcessInterrupt device);;
    modify (λ h, Hart (h_kernel h) (h_csrs h) (device_list_ h) (completed h ++ [irq]))
  end.

(** * DeviceFactory::InitDevices *)
Definition init_one (device_enum : DeviceList) : HM () :=
  match GetDevice device_enum with
  | None => stop_with (Panicked "Got empty device")
  | Some device =>
    '(addr, target_irq) ← of_option (Faulted "device_info") (device_info !! device_literal device_enum);
    ok ← on_kernel (device_Init device addr);
    if negb ok then stop_with (Panicked "Init device failed")
    else if negb (target_irq =? irq_NONE) then Register target_irq device else mret ()
  end.
Fixpoint init_each (l : list DeviceList) : HM () :=
  match l with [] => mret () | e :: l => init_one e;; init_each l end.
Definition InitDevices : HM () := init_each (enum_range device_list_begin device_list_end).

(** * syscalls/execute.cc: the way back to user mode *)
Definition TrapRet (process : ProcessTask) : HM trap_result :=
  on_kernel (on_con global_interrunpt_off);;
  on_csrs (satp_write Sv39 (page_table process));;
  mepc ← on_kernel (on_vm (ld64 (frame process + RegFrame_mepc)));
  on_csrs (reg_write c_mepc mepc);;
  on_csrs (mtvec_write_vec user_exception_table true);;
  upd_mstatus (set_mpp MPP_user_mode);;
  upd_mstatus (clear_bit (StatusBit_val mpie));;
  mret (To_user (frame process)).
(** the first code of a new process; its lock, which one hart never takes, has no model *)
Definition ExecuteRet : HM trap_result := process ← on_kernel ThisTask; TrapRet process.

(** * trap.cc *)
Definition back_to_user : HM trap_result := process ← on_kernel ThisTask; TrapRet process.
Definition syscall_done (r : sysret) : HM trap_result :=
  match r with Return _ => back_to_user | Blocked b => mret (Switched (In_syscall b)) end.
Definition ProcessException : HM trap_result :=
  process ← on_kernel ThisTask;
  mcause ← on_kernel (on_vm (ld64 (frame process + RegFrame_mcause)));
  let e_code := cause_code mcause in
  if e_code =? Exception_environment_call_from_u_mode then
    on_kernel (on_con global_interrunpt_on);;
    mepc ← on_kernel (on_vm (ld64 (frame process + RegFrame_mepc)));
    on_kernel (on_vm (st64 (frame process + RegFrame_mepc) (u64 (mepc + 4))));;
    r ← on_kernel (ProcessSystemCall ExecuteRet_addr other);
    syscall_done r
  else if (e_code =? Exception_store_page_fault) || (e_code =? Exception_load_page_fault) then
    on_kernel (k_on_sched (Exit (-1)));; mret (Switched In_exit)
  else stop_with (Panicked "Unexpted exception code").
Definition clock : HM () :=
  id ← cpu_id; if id =? 0 then on_kernel (k_on_sched ClockInterrupt) else mret ().
Definition ProcessInterrupt (claim : Z) : HM trap_result :=
  process ← on_kernel ThisTask;
  mcause ← on_kernel (on_vm (ld64 (frame process + RegFrame_mcause)));
  let i_code := cause_code mcause in
  if i_code =? Interrupt_m_timer then
    clock;; fl ← on_kernel (k_on_sched Yield); mret (Switched (In_interrupt fl))
  else if i_code =? Interrupt_m_external then ExternController_DoWork claim;; back_to_user
  else stop_with (Panicked "Unexpectd interrunpt code").
Definition ProcessUserTrap (claim : Z) : HM trap_result :=
  mstatus ← gets mstatus_of;
  if negb (read_mpp mstatus =? MPP_user_mode) then stop_with (Panicked "Invalid privilege mode, expected: user_mode")
  else if read_bit (StatusBit_val mie) mstatus then stop_with (Panicked "Invalid mstatus mie bit, interrupt enabled")
  else
    process ← on_kernel ThisTask;
    mcause ← on_kernel (on_vm (ld64 (frame process + RegFrame_mcause)));
    if is_interrupt mcause then ProcessInterrupt claim else ProcessException.
Definition kernel_return : HM trap_result :=
  upd_mstatus (set_mpp MPP_machine_mode);; upd_mstatus (set_bit (StatusBit_val mpie));; mret To_kernel.
Definition ProcessKernelTrap (claim : Z) : HM trap_result :=
  mstatus ← gets mstatus_of;
  if negb (read_mpp mstatus =? MPP_machine_mode) then stop_with (Panicked "Invalid privilege mode, expected: machine_mode")
  else if read_bit (StatusBit_val mie) mstatus then stop_with (Panicked "Invalid mstatus mie bit, interrupt enabled")
  else
    i_code ← gets (λ h, cause_code (h_csrs h c_mcause));
    if i_code =? Interrupt_m_timer then
      clock;;
      current ← on_kernel (k_on_sched ThisProcess);
      match current with
      | None => mret To_kernel
      | Some _ => fl ← on_kernel (k_on_sched Yield); mret (Switched (In_kernel_trap fl))
      end
    else if i_code =? Interrupt_m_external then ExternController_DoWork claim;; kernel_return
    else kernel_return.
(** the trap goes on when the scheduler has switched back to the process *)
Definition resume_trap (spin : nat) (w : waiting) : HM trap_result :=
  match w with
  | In_syscall b => r ← on_kernel (resume_syscall spin b); r ← on_kernel (set_a0 r); syscall_done r
  | In_interrupt fl => on_kernel (on_con (CriticalGuard_dtor fl));; back_to_user
  | In_kernel_trap fl => on_kernel (on_con (CriticalGuard_dtor fl));; kernel_return
  | In_exit => stop_with (Faulted "a zombie runs")
  end.
End trap.

(** * Lemmas *)
(** ** The kernel's [mstatus] and memory *)
Definition k_mem {D} (k : kernel D) : mem := vm_mem (sc_vm (k_sched k)).
Definition with_mstatus {D} (v : Z) (k : kernel D) : kernel D := set_con (put_mstatus v (k_con k)) k.
Definition with_vm {D} (vm : vmstate) (k : kernel D) : kernel D :=
  let c := k_con k in let s := con_sched c in
  set_con (Con (c_buf c) (read_index c) (write_index c) (lock_flag c) (is_writable_ c) (uart c)
    (Sched (process_tasks_ s) (process_task s) (ticks s) (init_process_ s) vm (sc_cur_pid s))) k.
Definition with_mem {D} (m : mem) (k : kernel D) : kernel D := with_vm (set_mem m (sc_vm (k_sched k))) k.
(** the [mstatus] that [TrapRet] leaves, and the CSRs *)
Definition user_mstatus (v : Z) : Z :=
  Z.land v (Z.land (u64 (Z.lnot (StatusBit_val mie))) (Z.land MPP_MASK (u64 (Z.lnot (StatusBit_val mpie))))).
Definition user_csrs (table : Z) (t : ProcessTask) (mepc : Z) (σ : csrs) : csrs :=
  mtvec_write_vec table true (reg_write c_mepc mepc (satp_write Sv39 (page_table t) σ)).

Lemma mstatus_with {D} v (k : kernel D) : get_mstatus (k_con (with_mstatus v k)) = v.
Proof. apply get_put_mstatus. Qed.
Section trap_lemmas.
Context {D : Type} `{BlockDevice D}.
Context (i : nat) (t : ProcessTask).
Lemma current_with_mstatus v (k : kernel D) : current i t k → current i t (with_mstatus v k).
Proof. done. Qed.
Lemma current_with_vm vm (k : kernel D) : current i t k → current i t (with_vm vm k).
Proof. done. Qed.
Lemma k_mem_with_mstatus v (k : kernel D) : k_mem (with_mstatus v k) = k_mem k.
Proof. done. Qed.
Lemma on_vm_run {A} (m : M vmstate A) a vm (k : kernel D) : current i t k →
  m (sc_vm (k_sched k)) = Ok (a, vm) → on_vm m k = Ok (a, with_vm vm k).
Proof.
  intros Hc Hm. unfold on_vm. erewrite on_this_run; [|done|unfold lift_vm; cbn; rewrite Hm; reflexivity].
  destruct Hc as [H1 H2]. destruct k as [[? ? ? ? ? ? []] ? ?]. unfold with_this, with_vm, set_con. cbn in *. by rewrite list_insert_id.
Qed.
Lemma on_vm_ld64 a (k : kernel D) : current i t k → ram_ok a 8 = true → on_vm (ld64 a) k = Ok (load64 (k_mem k) a, k).
Proof. intros Hc Hr. eapply on_vm_pure; [done|]. unfold ld64. by rewrite Hr. Qed.
Lemma on_vm_st64 a v (k : kernel D) : current i t k → ram_ok a 8 = true →
  on_vm (st64 a v) k = Ok ((), with_mem (store64 (k_mem k) a v) k).
Proof. intros Hc Hr. unfold with_mem. apply on_vm_run; [done|]. unfold st64. by rewrite Hr. Qed.
Lemma land_shrink v c b : Z.land c b = 0 → Z.land (Z.land v c) b = 0.
Proof. intros E. rewrite <-Z.land_assoc, E. apply Z.land_0_r. Qed.
Lemma user_mstatus_range v : 0 ≤ v < 2 ^ 64 → 0 ≤ user_mstatus v < 2 ^ 64.
Proof. intros Hv. by apply land_range_l. Qed.
Lemma user_mstatus_bits v : read_mpp (user_mstatus v) = MPP_user_mode ∧
  read_bit (StatusBit_val mie) (user_mstatus v) = false ∧ read_bit (StatusBit_val mpie) (user_mstatus v) = false.
Proof.
  unfold read_mpp, read_bit, user_mstatus. rewrite !land_shrink by (vm_compute; reflexivity). done.
Qed.
Lemma upd_mstatus_run f (h : hart D) v : u64 (f (mstatus_of h)) = v →
  upd_mstatus f h = Ok ((), Hart (with_mstatus v (h_kernel h)) (h_csrs h) (device_list_ h) (completed h)).
Proof. by intros <-. Qed.
Lemma TrapRet_run table (h : hart D) : current i t (h_kernel h) → ram_ok (frame t + RegFrame_mepc) 8 = true →
  0 ≤ mstatus_of h < 2 ^ 64 →
  TrapRet table t h = Ok (To_user (frame t),
    Hart (with_mstatus (user_mstatus (mstatus_of h)) (h_kernel h))
      (user_csrs table t (load64 (k_mem (h_kernel h)) (frame t + RegFrame_mepc)) (h_csrs h)) (device_list_ h) (completed h)).
Proof.
  intros Hc Hr Hm. destruct h as [k σ devs done_]. unfold mstatus_of in *. cbn [h_kernel h_csrs device_list_ completed] in *. unfold TrapRet.
  set (v1 := clear_bit (StatusBit_val mie) (get_mstatus (k_con k))).
  erewrite (bind_Ok _ _ _ () (Hart (with_mstatus v1 k) σ devs done_)) by done.
  erewrite (bind_Ok _ _ _ ()) by done. cbn [h_kernel h_csrs device_list_ completed].
  erewrite (bind_Ok (on_kernel _)).
  2: { unfold on_kernel. cbn [h_kernel]. rewrite (on_vm_ld64 _ (with_mstatus v1 k)) by done. reflexivity. }
  erewrite (bind_Ok _ _ _ ()) by done. erewrite (bind_Ok _ _ _ ()) by done. cbn [h_kernel h_csrs device_list_ completed].
  assert (0 ≤ v1 < 2 ^ 64) as H1 by by apply land_range_l.
  erewrite (bind_Ok (upd_mstatus _)) by (by apply upd_mstatus_run).
  erewrite (bind_Ok (upd_mstatus _)) by (by apply upd_mstatus_run).
  assert (0 ≤ set_mpp MPP_user_mode v1 < 2 ^ 64) as H2.
  { unfold set_mpp, MPP_user_mode. rewrite Z.lor_0_r. by apply land_range_l. }
  unfold mret, M_ret. do 3 f_equal. unfold mstatus_of. cbn [h_kernel with_mstatus set_con k_con].
  rewrite !get_put_mstatus. rewrite (wrap_small 64 (set_mpp _ _)) by done. rewrite wrap_small by (by apply land_range_l).
  unfold with_mstatus, set_con. cbn [k_con k_disk k_junk]. rewrite !put_put_mstatus. do 2 f_equal.
  unfold user_mstatus, clear_bit, set_mpp, MPP_user_mode. subst v1. unfold clear_bit. by rewrite Z.lor_0_r, <-!Z.land_assoc.
Qed.
End trap_lemmas.
Lemma read_bit_set_bit b v : read_bit (StatusBit_val b) (set_bit (StatusBit_val b) v) = true.
Proof.
  unfold read_bit, set_bit.
  assert (Z.land (Z.lor v (StatusBit_val b)) (StatusBit_val b) = StatusBit_val b) as ->.
  { apply Z.bits_inj. intros j. rewrite Z.land_spec, Z.lor_spec. by destruct (Z.testbit v j), (Z.testbit _ j). }
  by destruct b.
Qed.
Lemma frame_ok f off : ram_ok f sizeof_RegFrame = true → 0 ≤ off → off + 8 ≤ sizeof_RegFrame → ram_ok (f + off) 8 = true.
Proof. unfold ram_ok. lia. Qed.

(** ** System calls from a trap *)
Section ecall.
Context {D : Type} `{BlockDevice D} (ra : Z) (other : Z → M (kernel D) sysret) (table : Z).
Context (i : nat) (t : ProcessTask).
(** the kernel that the system call starts from *)
Definition ecall_kernel (t : ProcessTask) (k : kernel D) : kernel D :=
  let pc := frame t + RegFrame_mepc in
  with_mem (store64 (k_mem k) pc (u64 (load64 (k_mem k) pc + 4)))
    (with_mstatus (set_bit (StatusBit_val mie) (get_mstatus (k_con k))) k).
(** [process->frame->a0 = v] *)
Definition a0_kernel (t : ProcessTask) (v : Z) (k : kernel D) : kernel D :=
  with_mem (store64 (k_mem k) (frame t + RegFrame_a 0) (u64 v)) k.
Lemma ProcessSystemCall_run k : current i t k → ram_ok (frame t) sizeof_RegFrame = true →
  ProcessSystemCall ra other k =
    (r ← DoWork ra other (s32 (load64 (k_mem k) (frame t + RegFrame_a 7))); set_a0 r) k.
Proof.
  intros Hc Hr. unfold ProcessSystemCall. rewrite (bind_Ok _ _ _ _ _ (ThisTask_run i t k Hc)).
  by rewrite (bind_Ok _ _ _ _ _ (on_vm_ld64 i t _ k Hc (frame_ok _ (RegFrame_a 7) Hr ltac:(done) ltac:(done)))).
Qed.
Lemma set_a0_run v k : current i t k → ram_ok (frame t) sizeof_RegFrame = true →
  set_a0 (Return v) k = Ok (Return v, a0_kernel t v k).
Proof.
  intros Hc Hr. unfold set_a0. rewrite (bind_Ok _ _ _ _ _ (ThisTask_run i t k Hc)).
  by rewrite (bind_Ok _ _ _ _ _ (on_vm_st64 i t _ _ k Hc (frame_ok _ (RegFrame_a 0) Hr ltac:(done) ltac:(done)))).
Qed.
Lemma back_to_user_run (h : hart D) : current i t (h_kernel h) → ram_ok (frame t) sizeof_RegFrame = true →
  0 ≤ mstatus_of h < 2 ^ 64 →
  back_to_user table h = Ok (To_user (frame t),
    Hart (with_mstatus (user_mstatus (mstatus_of h)) (h_kernel h))
      (user_csrs table t (load64 (k_mem (h_kernel h)) (frame t + RegFrame_mepc)) (h_csrs h)) (device_list_ h) (completed h)).
Proof.
  intros Hc Hr Hm. unfold back_to_user. erewrite (bind_Ok (on_kernel _)).
  2: { unfold on_kernel. rewrite (ThisTask_run i t _ Hc). reflexivity. }
  destruct h as [k σ devs done_]. apply (TrapRet_run i); [done|by apply frame_ok|done].
Qed.
(** the tests at the head of [ProcessUserTrap] *)
Lemma ProcessUserTrap_run pi claim (h : hart D) : current i t (h_kernel h) → ram_ok (frame t) sizeof_RegFrame = true →
  read_mpp (mstatus_of h) = MPP_user_mode → read_bit (StatusBit_val mie) (mstatus_of h) = false →
  ProcessUserTrap ra other table pi claim h =
    (if is_interrupt (load64 (k_mem (h_kernel h)) (frame t + RegFrame_mcause)) then ProcessInterrupt table pi claim h
     else ProcessException ra other table h).
Proof.
  intros Hc Hr H1 H2. destruct h as [k σ devs done_]. unfold ProcessUserTrap. erewrite (bind_Ok (gets _)) by done. rewrite H1, H2. cbn [negb Z.eqb].
  change (negb (MPP_user_mode =? MPP_user_mode)) with false. cbv iota.
  erewrite (bind_Ok (on_kernel _)).
  2: { unfold on_kernel. rewrite (ThisTask_run i t _ Hc). reflexivity. }
  erewrite (bind_Ok (on_kernel _)).
  2: { unfold on_kernel. cbn [h_kernel]. rewrite (on_vm_ld64 i t _ _ Hc) by (by apply frame_ok). reflexivity. }
  by destruct (is_interrupt _).
Qed.
Lemma current_ecall k : current i t k → current i t (ecall_kernel t k).
Proof. done. Qed.
Lemma ProcessException_ecall (h : hart D) : current i t (h_kernel h) → ram_ok (frame t) sizeof_RegFrame = true →
  cause_code (load64 (k_mem (h_kernel h)) (frame t + RegFrame_mcause)) = Exception_environment_call_from_u_mode →
  ProcessException ra other table h =
    (r ← on_kernel (ProcessSystemCall ra other); syscall_done table r)
      (Hart (ecall_kernel t (h_kernel h)) (h_csrs h) (device_list_ h) (completed h)).
Proof.
  intros Hc Hr He. destruct h as [k σ devs done_]. cbn [h_kernel h_csrs device_list_ completed] in *. unfold ProcessException.
  erewrite (bind_Ok (on_kernel _)).
  2: { unfold on_kernel. cbn [h_kernel]. rewrite (ThisTask_run i t _ Hc). reflexivity. }
  erewrite (bind_Ok (on_kernel _)).
  2: { unfold on_kernel. cbn [h_kernel]. rewrite (on_vm_ld64 i t _ _ Hc) by (by apply frame_ok). reflexivity. }
  cbv zeta. rewrite He, Z.eqb_refl. set (k0 := with_mstatus (set_bit (StatusBit_val mie) (get_mstatus (k_con k))) k).
  assert (current i t k0) as Hc0 by done. cbn [h_kernel h_csrs device_list_ completed].
  rewrite (bind_Ok _ _ _ () (Hart k0 σ devs done_)) by done.
  erewrite (bind_Ok (on_kernel _)).
  2: { unfold on_kernel. cbn [h_kernel]. rewrite (on_vm_ld64 i t _ _ Hc0) by (by apply frame_ok). reflexivity. }
  erewrite (bind_Ok (on_kernel _)).
  2: { unfold on_kernel. cbn [h_kernel]. rewrite (on_vm_st64 i t _ _ _ Hc0) by (by apply frame_ok). reflexivity. }
  reflexivity.
Qed.
End ecall.

(** ** The device table *)
Definition all_init {D} (device_Init : device_object → Z → M (kernel D) bool) : Prop :=
  ∀ d a k, ∃ k', device_Init d a k = Ok (true, k').
Definition registered : list (Z * device_object) :=
  [(VIRTIO0_IRQ, blk_device0_); (VIRTIO1_IRQ, blk_device1_); (VIRTIO2_IRQ, gpu_device0_); (VIRTIO3_IRQ, input_device0_);
   (VIRTIO4_IRQ, net0_); (UARRT0_IRQ, uart_)].
Lemma init_one_run {D} (init : device_object → Z → M (kernel D) bool) e d addr irq (h : hart D) k' :
  init d addr (h_kernel h) = Ok (true, k') → GetDevice e = Some d → device_info !! device_literal e = Some (addr, irq) → irq ≠ irq_NONE →
  (length (device_list_ h) < device_list_max)%nat →
  init_one init e h = Ok ((), Hart k' (h_csrs h) (device_list_ h ++ [(irq, d)]) (completed h)).
Proof.
  intros E Hd He Hn Hl. unfold init_one. rewrite Hd.
  rewrite He. rewrite (bind_Ok _ _ _ (addr, irq) h) by done. cbv beta iota.
  erewrite (bind_Ok (on_kernel _)) by (unfold on_kernel; by rewrite E).
  cbn [negb]. rewrite (proj2 (Z.eqb_neq irq irq_NONE)) by done. cbn [negb]. unfold Register. cbn [device_list_].
  by rewrite (proj2 (Nat.leb_gt _ _)).
Qed.
(** the devices are initialised and registered, and keep what each of them keeps *)
Lemma InitDevices_keeps {D} (init : device_object → Z → M (kernel D) bool) (I : kernel D → Prop) k σ done_ :
  (∀ d a k, I k → ∃ k', init d a k = Ok (true, k') ∧ I k') → I k →
  ∃ k', InitDevices init (Hart k σ [] done_) = Ok ((), Hart k' σ registered done_) ∧ I k'.
Proof.
  intros Hi HI. change (InitDevices init) with (init_each init [disk0; disk1; gpu0; mouse0; net0; uart0]). cbn [init_each].
  repeat match goal with
  | HI : I ?k |- ∃ k', mbind _ (init_one init ?e) (Hart ?k ?s ?l ?o) = _ ∧ _ =>
    let d := eval vm_compute in (default uart_ (GetDevice e)) in
    let r := eval vm_compute in (default (0, 0) (device_info !! device_literal e)) in
    destruct (Hi d (fst r) k HI) as (? & E & ?); clear HI;
    rewrite (bind_Ok _ _ _ _ _ (init_one_run init e d (fst r) (snd r) (Hart k s l o) _ E eq_refl eq_refl
      ltac:(vm_compute; congruence) ltac:(vm_compute; lia))); clear E; cbn [h_csrs device_list_ completed app]
  end.
  eexists. split; [reflexivity|done].
Qed.
Lemma InitDevices_run {D} (init : device_object → Z → M (kernel D) bool) k σ done_ :
  all_init init → ∃ k', InitDevices init (Hart k σ [] done_) = Ok ((), Hart k' σ registered done_).
Proof.
  intros Hi. destruct (InitDevices_keeps init (λ _, True) k σ done_) as (k' & E & _); [|done|by exists k'].
  intros d a k0 _. destruct (Hi d a k0) as [k' E]. by exists k'.
Qed.

(** ** A hart whose process has called [getpid] *)
Definition demo_trap_kernel : kernel ramdisk :=
  let k := with_mstatus 0x80 (demo_kernel 0 [0]) in
  with_mem (store64 (store64 (store64 (k_mem k) (0x80013000 + RegFrame_mcause) 8) (0x80013000 + RegFrame_a 7) 10)
    (0x80013000 + RegFrame_mepc) 0x100) k.
Definition demo_hart : hart ramdisk := Hart demo_trap_kernel (λ _, 0) registered [].
Definition demo_irq_kernel : kernel ramdisk :=
  with_mem (store64 (k_mem demo_trap_kernel) (0x80013000 + RegFrame_mcause) (Z.lor EXCEPTION_MASK Interrupt_m_external)) demo_trap_kernel.
Definition no_other {D} (n : Z) : M (kernel D) sysret := stop_with (Panicked "Non-implement syscall").
Definition no_interrupt {D} (d : device_object) : M (kernel D) () := mret ().
Lemma getpid_run {D} `{BlockDevice D} ra other i t (k : kernel D) : current i t k →
  DoWork ra other 10 k = Ok (Return (pid t), k).
Proof.
  intros Hc. change (DoWork ra other 10 k) with ((v ← sys_getpid; mret (Return v)) k). unfold sys_getpid.
  erewrite bind_Ok; [reflexivity|]. by rewrite (bind_Ok _ _ _ _ _ (ThisTask_run i t k Hc)).
Qed.

(** * Properties *)
(** C8: a system call from user mode, up to the return.  The call starts with
    interrupts on and the program counter past the [ecall]; when it returns, its
    value is in the frame's [a0], the rest of the frame is what the call left, and
    the hart is set up for the program: its page table, its program counter, the
    user trap table, user mode, interrupts off until [mret].  A call that sleeps
    leaves for the scheduler with what it was doing, and a fault in it stops the
    kernel. *)
Theorem ecall_returns {D} `{BlockDevice D} ra other table pi claim (h : hart D) i t :
  let k1 := ecall_kernel t (h_kernel h) in
  current i t (h_kernel h) → ram_ok (frame t) sizeof_RegFrame = true →
  read_mpp (mstatus_of h) = MPP_user_mode → read_bit (StatusBit_val mie) (mstatus_of h) = false →
  load64 (k_mem (h_kernel h)) (frame t + RegFrame_mcause) = Exception_environment_call_from_u_mode →
  match DoWork ra other (s32 (load64 (k_mem (h_kernel h)) (frame t + RegFrame_a 7))) k1 with
  | Stop e => ProcessUserTrap ra other table pi claim h = Stop e
  | Ok (Blocked b, k2) =>
    ProcessUserTrap ra other table pi claim h =
      Ok (Switched (In_syscall b), Hart k2 (h_csrs h) (device_list_ h) (completed h))
  | Ok (Return v, k2) => ∀ t2, current i t2 k2 → ram_ok (frame t2) sizeof_RegFrame = true →
    0 ≤ get_mstatus (k_con k2) < 2 ^ 64 →
    ∃ h', ProcessUserTrap ra other table pi claim h = Ok (To_user (frame t2), h') ∧
      load64 (k_mem (h_kernel h')) (frame t2 + RegFrame_a 0) = u64 v ∧
      (∀ n, 0 ≤ n → 8 * n ≠ RegFrame_a 0 →
        load64 (k_mem (h_kernel h')) (frame t2 + 8 * n) = load64 (k_mem k2) (frame t2 + 8 * n)) ∧
      h_csrs h' c_satp = u64 (Z.lor Sv39 (Z.shiftr (page_table t2) 12)) ∧
      h_csrs h' c_mepc = u64 (load64 (k_mem k2) (frame t2 + RegFrame_mepc)) ∧
      h_csrs h' c_mtvec = u64 (table + 1) ∧
      read_mpp (mstatus_of h') = MPP_user_mode ∧
      read_bit (StatusBit_val mie) (mstatus_of h') = false ∧ read_bit (StatusBit_val mpie) (mstatus_of h') = false
  end ∧
  load64 (k_mem k1) (frame t + RegFrame_mepc) = u64 (load64 (k_mem (h_kernel h)) (frame t + RegFrame_mepc) + 4) ∧
  read_bit (StatusBit_val mie) (get_mstatus (k_con k1)) = true.
Proof.
  intros k1 Hc Hr H1 H2 H3. pose proof (current_ecall i t _ Hc) as Hc1. fold k1 in Hc1.
  assert (load64 (k_mem k1) (frame t + RegFrame_a 7) = load64 (k_mem (h_kernel h)) (frame t + RegFrame_a 7)) as Ha7.
  { subst k1. cbn. apply load64_store64_ne. unfold RegFrame_mepc, RegFrame_a. lia. }
  rewrite (ProcessUserTrap_run ra other table i t pi claim h Hc Hr H1 H2), H3. change (is_interrupt _) with false. cbv iota.
  rewrite (ProcessException_ecall ra other table i t h Hc Hr) by (by rewrite H3). fold k1.
  split; [|split; [subst k1; cbn; by rewrite load64_store64, wrap_wrap|]].
  2: { subst k1. cbn. apply read_bit_set_bit. }
  pose proof (ProcessSystemCall_run ra other i t k1 Hc1 Hr) as Hsys. rewrite Ha7 in Hsys.
  destruct (DoWork _ _ _ _) as [[[v|b] k2]|e] eqn:Ew.
  - intros t2 Hc2 Hr2 Hm2. rewrite (bind_Ok _ _ _ _ _ Ew), (set_a0_run i t2 v k2 Hc2 Hr2) in Hsys.
    eexists. split.
    { erewrite (bind_Ok (on_kernel _)) by (unfold on_kernel; cbn [h_kernel]; rewrite Hsys; reflexivity).
      by apply (back_to_user_run table i t2). } cbn [h_kernel h_csrs mstatus_of with_mstatus set_con k_con k_mem].
    assert (∀ n, 0 ≤ n → 8 * n ≠ RegFrame_a 0 → load64 (k_mem (a0_kernel t2 v k2)) (frame t2 + 8 * n) = load64 (k_mem k2) (frame t2 + 8 * n)) as Hne.
    { intros n Hn Hne. unfold a0_kernel. cbn. apply load64_store64_ne. unfold RegFrame_a in *. lia. }
    split; [cbn; by rewrite load64_store64, wrap_wrap|]. split; [exact Hne|].
    unfold user_csrs, mtvec_write_vec, satp_write, reg_write.
    split; [by rewrite !csrw_ne, csrw_same by done|]. split.
    { rewrite csrw_ne, csrw_same by done. f_equal. apply (Hne 31); done. }
    split; [by rewrite csrw_same|]. unfold mstatus_of. cbn [h_kernel]. rewrite !mstatus_with. apply user_mstatus_bits.
  - rewrite (bind_Ok _ _ _ _ _ Ew) in Hsys.
    by erewrite (bind_Ok (on_kernel _)) by (unfold on_kernel; cbn [h_kernel]; rewrite Hsys; reflexivity).
  - rewrite (bind_Stop _ _ _ _ Ew) in Hsys. apply bind_Stop. unfold on_kernel. cbn [h_kernel]. by rewrite Hsys.
Qed.
Lemma ecall_returns_witness : ∃ h',
  ProcessUserTrap 0 no_other 0x80000100 no_interrupt 0 demo_hart = Ok (To_user 0x80013000, h') ∧
  load64 (k_mem (h_kernel h')) (0x80013000 + RegFrame_a 0) = u64 (pid demo_ktask) ∧
  h_csrs h' c_mepc = u64 (load64 (k_mem (ecall_kernel demo_ktask demo_trap_kernel)) (0x80013000 + RegFrame_mepc)).
Proof.
  assert (current 0 demo_ktask demo_trap_kernel) as Hc by (by split).
  destruct (ecall_returns 0 no_other 0x80000100 no_interrupt 0 demo_hart 0 demo_ktask) as [Hcall _].
  - exact Hc.
  - reflexivity.
  - reflexivity.
  - reflexivity.
  - vm_compute. reflexivity.
  - assert (s32 (load64 (k_mem (h_kernel demo_hart)) (frame demo_ktask + RegFrame_a 7)) = 10) as E by (vm_compute; reflexivity).
    rewrite E, (getpid_run 0 no_other 0 demo_ktask _ (current_ecall 0 demo_ktask _ Hc)) in Hcall.
    destruct (Hcall demo_ktask) as (h' & E1 & E2 & _ & _ & E3 & _).
    + exact (current_ecall 0 demo_ktask _ Hc).
    + reflexivity.
    + vm_compute. by split.
    + exists h'. split; [exact E1|]. split; [exact E2|exact E3].
Defined.

(** C33: every interrupt the kernel enables has a device.  Once the devices have
    been initialised, an external interrupt from user mode with a source that
    [hartinit] enables runs the handler of the device registered for it, completes
    the interrupt at the PLIC and goes back to the process; any other source
    panics.  The table of eight entries holds every device. *)
Theorem enabled_interrupts_have_devices {D} `{BlockDevice D} ra other table init pi (k0 : kernel D) σ0 done0 :
  all_init init →
  ∃ k1 devs, InitDevices init (Hart k0 σ0 [] done0) = Ok ((), Hart k1 σ0 devs done0) ∧
    (length devs ≤ device_list_max)%nat ∧
    ∀ i t k σ done_ irq, let h := Hart k σ devs done_ in
      current i t k → ram_ok (frame t) sizeof_RegFrame = true →
      read_mpp (mstatus_of h) = MPP_user_mode → read_bit (StatusBit_val mie) (mstatus_of h) = false →
      load64 (k_mem k) (frame t + RegFrame_mcause) = Z.lor EXCEPTION_MASK Interrupt_m_external →
      if decide (irq ∈ enabled_irqs) then
        ∃ d e addr, GetDevice e = Some d ∧ device_info !! device_literal e = Some (addr, irq) ∧
          ProcessUserTrap ra other table pi irq h =
            match pi d k with
            | Ok (_, k') => back_to_user table (Hart k' σ devs (done_ ++ [irq]))
            | Stop e => Stop e
            end
      else ∃ msg, ProcessUserTrap ra other table pi irq h = Stop (Panicked msg).
Proof.
  intros Hi. destruct (InitDevices_run init k0 σ0 done0 Hi) as [k1 Ei]. exists k1, registered. split; [exact Ei|].
  split; [vm_compute; lia|]. intros i t k σ done_ irq h Hc Hr H1 H2 H3.
  rewrite (ProcessUserTrap_run ra other table i t pi irq h Hc Hr H1 H2). subst h. cbn [h_kernel]. rewrite H3.
  change (is_interrupt _) with true. cbv iota. unfold ProcessInterrupt.
  erewrite (bind_Ok (on_kernel _)) by (unfold on_kernel; cbn [h_kernel]; rewrite (ThisTask_run i t _ Hc); reflexivity).
  erewrite (bind_Ok (on_kernel _)).
  2: { unfold on_kernel. cbn [h_kernel]. rewrite (on_vm_ld64 i t _ _ Hc) by (by apply frame_ok). rewrite H3. reflexivity. }
  change (cause_code (Z.lor EXCEPTION_MASK Interrupt_m_external)) with Interrupt_m_external.
  change (Interrupt_m_external =? Interrupt_m_timer) with false. change (Interrupt_m_external =? Interrupt_m_external) with true.
  cbv zeta iota. cbn [h_csrs device_list_ completed]. unfold ExternController_DoWork, GetDeviceByIRQ.
  set (h := Hart k σ registered done_). case_decide as Hirq.
  - assert (∃ d e addr, GetDevice e = Some d ∧ device_info !! device_literal e = Some (addr, irq) ∧
      find_irq irq (device_list_ h) = Some d) as (d & e & addr & E1 & E2 & E3).
    { unfold enabled_irqs in Hirq. repeat (apply elem_of_cons in Hirq as [-> |Hirq]); [..|by apply elem_of_nil in Hirq].
      - by exists blk_device0_, disk0, VIRTIO0.
      - by exists blk_device1_, disk1, VIRTIO1.
      - by exists gpu_device0_, gpu0, VIRTIO2.
      - by exists input_device0_, mouse0, VIRTIO3.
      - by exists net0_, net0, VIRTIO4.
      - by exists uart_, uart0, UART0. }
    exists d, e, addr. split; [done|]. split; [done|]. unfold mbind, M_bind, gets. rewrite E3.
    unfold on_kernel. subst h. cbn [h_kernel]. by destruct (pi d k) as [[[] k']|].
  - assert (find_irq irq (device_list_ h) = None) as E.
    { destruct (find_irq irq (device_list_ h)) eqn:E; [|done]. exfalso. apply Hirq. clear -E. subst h. cbn [device_list_] in E. unfold registered in E. cbn [find_irq] in E. unfold enabled_irqs.
      repeat match type of E with (if ?a =? irq then _ else _) = _ => destruct (Z.eqb_spec a irq) as [<- |_]; [set_solver|] end. done. }
    eexists. unfold mbind, M_bind, gets. by rewrite E.
Qed.
Lemma enabled_interrupts_have_devices_witness :
  ∃ k1 devs, InitDevices (λ _ _ k, Ok (true, k)) (Hart demo_trap_kernel (λ _, 0) [] []) = Ok ((), Hart k1 (λ _, 0) devs []) ∧
    (∃ d, ProcessUserTrap 0 no_other 0x80000100 no_interrupt 10 (Hart demo_irq_kernel (λ _, 0) devs []) =
      match no_interrupt d demo_irq_kernel with
      | Ok (_, k') => back_to_user 0x80000100 (Hart k' (λ _, 0) devs ([] ++ [10]))
      | Stop e => Stop e
      end) ∧
    ∃ msg, ProcessUserTrap 0 no_other 0x80000100 no_interrupt 6 (Hart demo_irq_kernel (λ _, 0) devs []) = Stop (Panicked msg).
Proof.
  destruct (enabled_interrupts_have_devices 0 no_other 0x80000100 (λ _ _ k, Ok (true, k)) no_interrupt demo_trap_kernel (λ _, 0) [])
    as (k1 & devs & E1 & _ & E2).
  - intros d a k'. by exists k'.
  - exists k1, devs. split; [exact E1|].
    assert (load64 (k_mem demo_irq_kernel) (frame demo_ktask + RegFrame_mcause) = Z.lor EXCEPTION_MASK Interrupt_m_external) as Ec
      by (vm_compute; reflexivity).
    pose proof (E2 0%nat demo_ktask demo_irq_kernel (λ _, 0) [] 10 (conj eq_refl eq_refl) eq_refl eq_refl eq_refl Ec) as E10.
    pose proof (E2 0%nat demo_ktask demo_irq_kernel (λ _, 0) [] 6 (conj eq_refl eq_refl) eq_refl eq_refl eq_refl Ec) as E6.
    destruct (decide (10 ∈ enabled_irqs)) as [_|Hn]; [|exfalso; apply Hn; do 5 right; left].
    destruct (decide (6 ∈ enabled_irqs)) as [Hy|_]; [exfalso; repeat (apply elem_of_cons in Hy as [Hy|Hy]; [discriminate Hy|]); by apply elem_of_nil in Hy|].
    split; [|exact E6]. destruct E10 as (d & _ & _ & _ & _ & E). exists d. exact E.
Defined.
