(* ===== verification/Loader.v ===== *)
(** Program loading: [kernel/syscalls/static_loader.cc], [ExecuteImpl] and
    [ExcuteInitProcess] of [execute.cc] and [sys_exec] of [impl.cc].  The loader
    reads an ELF file through the interface of [lib/streambase.h], which a file and
    a buffer implement; what it needs of a stream is the class [StreamLaw], proved
    of both.  The field offsets and constants are those of the ELF-64 format. *)
From S2P Require Import Prelude Riscv Lock Mem MemoryList VirtualMemory Inode Process Scheduler Console FsCommon FileData FileStream Syscalls.

(** * lib/streambase.h.  [Read] gives the bytes it stores at the start of the
    buffer, whose old contents it is given, and the size it returns. *)
Class StreamBase (St : Type) := {
  Seek : Z → M St ();
  Read : list Z → Z → M St (list Z * Z);
}.
(** a buffer after bytes have been stored at its start *)
Definition into (old new : list Z) : list Z := new ++ drop (length new) old.
(** [junk] is what the object holds before, all of its bytes *)
Definition ReadForType {St} `{StreamBase St} (junk : list Z) : M St (list Z) :=
  '(l, _) ← Read junk (Z.of_nat (length junk)); mret (into junk l).
#[export] Instance StringStream_StreamBase : StreamBase StringStream := {|
  Seek pos := modify (λ s, StringStream_Seek s pos);
  Read old size := λ s, let '(l, n, s) := StringStream_Read s size in Ok ((l, n), s);
|}.
Record fstream (D : Type) := Fstream { fs_inode : InodeDef; fs_position : Z; fs_state : fsstate D }.
Arguments Fstream {D} _ _ _.
Arguments fs_inode {D} _.
Arguments fs_position {D} _.
Arguments fs_state {D} _.
#[export] Instance FileStream_StreamBase {D} `{BlockDevice D} : StreamBase (fstream D) := {|
  Seek pos := modify (λ s, Fstream (fs_inode s) (FileStream_Seek pos) (fs_state s));
  Read old size := λ s,
    match FileStream_Read (fs_inode s) (fs_position s) old size (fs_state s) with
    | Ok ((l, n, p), f) => Ok ((l, n), Fstream (fs_inode s) p f)
    | Stop e => Stop e
    end;
|}.

(** * elf.h *)
Definition sizeof_Ehdr : nat := 64.
Definition sizeof_Phdr : nat := 56.
Definition ET_EXEC : Z := 2.
Definition ET_DYN : Z := 3.
Definition EM_RISCV : Z := 243.
Definition PT_LOAD : Z := 1.
Definition PT_DYNAMIC : Z := 2.
Definition PF_X : Z := 1.
Definition PF_W : Z := 2.
Definition PF_R : Z := 4.
Definition e_ident (h : list Z) (i : nat) : Z := get_le h i 1.
Definition e_type (h : list Z) : Z := get_le h 16 2.
Definition e_machine (h : list Z) : Z := get_le h 18 2.
Definition e_entry (h : list Z) : Z := get_le h 24 8.
Definition e_phoff (h : list Z) : Z := get_le h 32 8.
Definition e_phentsize (h : list Z) : Z := get_le h 54 2.
Definition e_phnum (h : list Z) : Z := get_le h 56 2.
Definition p_type (h : list Z) : Z := get_le h 0 4.
Definition p_flags (h : list Z) : Z := get_le h 4 4.
Definition p_offset (h : list Z) : Z := get_le h 8 8.
Definition p_vaddr (h : list Z) : Z := get_le h 16 8.
Definition p_filesz (h : list Z) : Z := get_le h 32 8.
Definition p_memsz (h : list Z) : Z := get_le h 40 8.

(** * static_loader.cc *)
(** the stream, and the process with the page allocator *)
Record loader (St : Type) := Loader { l_stream : St; l_task : tstate }.
Arguments Loader {St} _ _.
Arguments l_stream {St} _.
Arguments l_task {St} _.

Section loader.
Context {St : Type} `{StreamBase St}.
Abbreviation L := (M (loader St)).
Definition on_stream {A} (m : M St A) : L A := λ s,
  match m (l_stream s) with Ok (a, t) => Ok (a, Loader t (l_task s)) | Stop e => Stop e end.
Definition on_process {A} (m : M tstate A) : L A := λ s,
  match m (l_task s) with Ok (a, t) => Ok (a, Loader (l_stream s) t) | Stop e => Stop e end.
Definition on_memory {A} (m : M vmstate A) : L A := on_process (lift_vm m).

Definition memory_batch : Z := 512.
(** every iteration but the last moves 512 bytes *)
Fixpoint batch_load (fuel : nat) (len dst : Z) : L () :=
  if 0 <? len then
    match fuel with
    | O => stop_with OutOfFuel
    | S fuel =>
      let remain := if memory_batch <? len then memory_batch else len in
      let p := replicate (Z.to_nat memory_batch) 0 in
      '(l, _) ← on_stream (Read p remain);
      on_memory (vm_write dst (take (Z.to_nat remain) (into p l)));;
      batch_load fuel (len - remain) (dst + remain)
    end
  else mret ().
(** every iteration loads a byte at least *)
Fixpoint LoadSegment_loop (fuel : nat) (root_page va size : Z) : L bool :=
  if size =? 0 then mret true
  else match fuel with
       | O => stop_with OutOfFuel
       | S fuel =>
         '(pa, _) ← on_memory (VAToPA root_page va);
         if pa =? 0 then mret false
         else
           let remain_size := PGSIZE - pa mod PGSIZE in
           let len := if remain_size <? size then remain_size else size in
           batch_load (Z.to_nat len) len pa;;
           LoadSegment_loop fuel root_page (u64 (AddrCastDown va + PGSIZE)) (size - len)
       end.
Definition LoadSegment (root_page va size : Z) : L bool := LoadSegment_loop (Z.to_nat size) root_page va size.

Definition elf_ok (target_type : Z) (h : list Z) : bool :=
  (e_ident h 0 =? 0x7f) && (e_ident h 1 =? 69) && (e_ident h 2 =? 76) && (e_ident h 3 =? 70) &&
  (e_ident h 4 =? 2) && (e_ident h 5 =? 1) && (e_ident h 6 =? 1) && (e_type h =? target_type) && (e_machine h =? EM_RISCV).
Definition segment_privilege (flags : Z) : Z :=
  Z.lor (Z.lor (if nonzero (Z.land flags PF_R) then PTE_R else 0) (if nonzero (Z.land flags PF_W) then PTE_W else 0))
    (if nonzero (Z.land flags PF_X) then PTE_X else 0).
(** one program header: false makes [Load] return false.  [info] is [*dynamic_info]. *)
Definition load_header (target_type offset_ : Z) (ph : list Z) (info : option DynamicInfo) : L (bool * option DynamicInfo) :=
  info ← (if p_type ph =? PT_DYNAMIC then
            let i := MkDynamicInfo (u64 (p_vaddr ph + offset_)) (p_memsz ph) in
            (if target_type =? ET_EXEC then on_process (upd (set_dynamic i)) else mret ());; mret (Some i)
          else mret info);
  if negb (p_type ph =? PT_LOAD) then mret (true, info)
  else if p_memsz ph <? p_filesz ph then mret (false, info)
  else
    t ← on_process this;
    let va_beg := u64 (p_vaddr ph + offset_) in
    on_memory (MapMemory (page_table t) va_beg (u64 (va_beg + p_memsz ph)) (Z.lor (segment_privilege (p_flags ph)) PTE_U));;
    on_stream (Seek (p_offset ph));;
    ok ← LoadSegment (page_table t) va_beg (p_filesz ph);
    if negb ok then mret (false, info)
    else
      t ← on_process this;
      if Z.of_nat (length (used_address t)) <=? used_address_size t then mret (false, info)
      else
        on_process (upd (set_regions (used_address_size t + 1)
          (<[Z.to_nat (used_address_size t) := (va_beg, u64 (va_beg + p_memsz ph))]> (used_address t))));;
        mret (true, info).
(** [n] headers from the [i]-th on; [junk] is the stack under [ph] *)
Fixpoint load_headers (junk : list Z) (target_type offset_ : Z) (h : list Z) (n : nat) (i : Z) (info : option DynamicInfo) :
    L (bool * option DynamicInfo) :=
  match n with
  | O => mret (true, info)
  | S n =>
    on_stream (Seek (u64 (e_phoff h + i * e_phentsize h)));;
    ph ← on_stream (ReadForType (take sizeof_Phdr junk));
    '(ok, info) ← load_header target_type offset_ ph info;
    if (ok : bool) then load_headers junk target_type offset_ h n (i + 1) info else mret (false, info)
  end.
(** the entry point and [*dynamic_info], or false *)
Definition Load (junk : list Z) (target_type offset_ : Z) : L (option Z * option DynamicInfo) :=
  on_stream (Seek 0);;
  h ← on_stream (ReadForType (take sizeof_Ehdr junk));
  if negb (elf_ok target_type h) then mret (None, None)
  else
    '(ok, info) ← load_headers junk target_type offset_ h (Z.to_nat (e_phnum h)) 0 None;
    mret (if (ok : bool) then Some (e_entry h) else None, info).

(** * execute.cc *)
Definition ExecuteImpl (junk : list Z) : L Z :=
  '(entry, _) ← Load junk ET_EXEC 0;
  match entry with
  | None => mret (-1)
  | Some entry => t ← on_process this; on_memory (st64 (frame t + RegFrame_mepc) entry);; mret 0
  end.
End loader.

(** * impl.cc: [sys_exec] *)
#[export, refine] Instance kernel_HasMstatus {D} : HasMstatus (kernel D) :=
  {| get_mstatus := λ k, get_mstatus (k_con k); put_mstatus := λ v k, set_con (put_mstatus v (k_con k)) k |}.
Proof.
  - intros v k. apply get_put_mstatus.
  - intros [c d j]. change (Kernel (put_mstatus (get_mstatus c) c) d j = Kernel c d j). by rewrite put_get_mstatus.
  - intros v w [c d j]. change (Kernel (put_mstatus v (put_mstatus w c)) d j = Kernel (put_mstatus v c) d j). by rewrite put_put_mstatus.
Defined.
(** the [ProcessTask] in a cleared page, but for [kernel_sp] *)
Definition cleared_task (ksp : Z) : ProcessTask :=
  MkTask 0 0 0 0 (replicate 16 (0, 0)) ksp 0 unused context0 None None (replicate 16 fd0) (replicate 128 0) 0 (MkDynamicInfo 0 0).

Section exec.
Context {D : Type} `{BlockDevice D}.
(** the address of [ExecuteRet], and the stack under the loader's headers *)
Context (ExecuteRet_addr : Z) (stack : list Z).
Abbreviation K := (M (kernel D)).
(** a member function of a process that is not in the process table *)
Definition on_tmp {A} (t : ProcessTask) (m : M tstate A) : K (A * ProcessTask) := k_on_sched (λ s,
  match m (TState (sc_vm s) (sc_cur_pid s) t) with
  | Ok (a, ts) => Ok ((a, ts_task ts), Sched (process_tasks_ s) (process_task s) (ticks s) (init_process_ s) (ts_vm ts) (ts_cur_pid ts))
  | Stop e => Stop e
  end).
(** [ExecuteImpl] of a file into such a process *)
Definition exec_file (inode : InodeDef) (t : ProcessTask) : K (Z * ProcessTask) := λ k,
  let s := k_sched k in
  match ExecuteImpl stack (Loader (Fstream inode 0 (FsState (k_disk k) (k_junk k) [])) (TState (sc_vm s) (sc_cur_pid s) t)) with
  | Ok (r, l) =>
    let ts := l_task l in
    let c := k_con k in
    let s' := Sched (process_tasks_ s) (process_task s) (ticks s) (init_process_ s) (ts_vm ts) (ts_cur_pid ts) in
    let fs := fs_state (l_stream l) in
    Ok ((r, ts_task ts), Kernel (Con (c_buf c) (read_index c) (write_index c) (lock_flag c) (is_writable_ c) (uart c) s') (disk fs) (junk fs))
  | Stop e => Stop e
  end.
(** a string of the program, at a physical address *)
Definition user_string (pa : Z) : K (list Z) :=
  o ← on_vm (vm_cstring pa); s ← of_option (Faulted "str") o; _ ← of_option (Faulted "strlen") (strlen s); mret s.
(** the loop over [argv], from [argc] on: the strings are copied below the top of
    the new stack, the page at [user_sp_begin - PGSIZE]; [fr] is the new frame, and
    [fuel] the room left in [argv_addr] *)
Fixpoint exec_args (fuel : nat) (root argv argc fr user_sp_begin user_sp : Z) (argv_addr : list Z) : K (Z * Z * list Z) :=
  match fuel with
  | O => stop_with (Faulted "argv_addr")
  | S fuel =>
    p ← on_vm (ld64 (argv + 8 * argc));
    if p =? 0 then
      let user_sp := u64 (user_sp - (argc + 1) * 8) in
      mret (argc, user_sp - user_sp mod 16, argv_addr ++ [0])
    else
      '(pa, _) ← on_vm (VAToPA root p);
      str ← user_string pa;
      let user_sp := u64 (user_sp - Z.of_nat (length str)) in
      let user_sp := user_sp - user_sp mod 16 in
      sp ← on_vm (ld64 (fr + RegFrame_sp));
      on_vm (vm_write user_sp str);;
      exec_args fuel root argv (argc + 1) fr user_sp_begin user_sp (argv_addr ++ [u64 (sp - (user_sp_begin - user_sp))])
  end.
Definition argv_addr_size : nat := 17.
Definition sys_exec : K Z :=
  i ← this_index;
  process ← ThisTask;
  va ← GetRawArg 0; pa ← user_pa va; path_name ← on_vm (vm_cstring pa);
  va ← GetRawArg 1; argv ← user_pa va;
  if argv =? 0 then mret (-1) else
  '(inode_index, o) ← on_fs (Open path_name);
  if inode_index <? 0 then mret (-1) else
  new_page ← on_vm Alloc;
  if new_page =? 0 then mret (-1) else
  '(ok, tmp) ← on_tmp (cleared_task (kernel_sp process)) (ProcessTask_Init ExecuteRet_addr false);
  if negb ok then mret (-1) else
  guarded (
    '(ret, tmp) ← exec_file (default inode0 o) tmp;
    if ret <? 0 then on_tmp tmp (FreePageTable false);; mret (-1)
    else
      let user_sp_begin := u64 (user_sp tmp + PGSIZE) in
      '(argc, user_sp, argv_addr) ← exec_args argv_addr_size (page_table process) argv 0 (frame tmp) user_sp_begin user_sp_begin [];
      on_vm (vm_write user_sp (concat (le_bytes 8 <$> argv_addr)));;
      sp ← on_vm (ld64 (frame tmp + RegFrame_sp));
      let sp := u64 (sp - (user_sp_begin - user_sp)) in
      on_vm (st64 (frame tmp + RegFrame_sp) sp);;
      on_vm (st64 (frame tmp + RegFrame_a 1) sp);;
      k_on_sched (on_task i (FreePageTable false));;
      k_on_sched (on_task i (CopyMemoryFrom tmp));;
      on_vm (FreePage_pa new_page);;
      mret argc).
(** [sys_exec] at its place in the table of system calls *)
Definition with_exec (other : Z → K sysret) (num : Z) : K sysret := if num =? 3 then ret sys_exec else other num.

(** [ExcuteInitProcess]: the program is in the kernel's image *)
Definition ExcuteInitProcess (code : list Z) (size : Z) : M sched () :=
  process ← AllocProc ExecuteRet_addr;
  j ← of_option (Faulted "process") process;
  on_task j (λ ts,
    match ExecuteImpl stack (Loader (MkStringStream code size 0) ts) with
    | Ok (r, l) => Ok (r, l_task l)
    | Stop e => Stop e
    end);;
  upd_task j (set_state runnable);;
  SetInitProcess (Some j).
End exec.

(** * Interface: what the loader needs of a stream.  [at_ s l]: the bytes of [l]
    are ahead. *)
Class StreamLaw (St : Type) `{StreamBase St} := {
  at_ : St → list Z → Prop;
  Read_at s l old n : at_ s l → 0 ≤ n ≤ Z.of_nat (length l) →
    ∃ s', Read old n s = Ok ((take (Z.to_nat n) l, n), s') ∧ at_ s' (drop (Z.to_nat n) l);
}.
#[export, refine] Instance StringStream_law : StreamLaw StringStream := {|
  at_ s l := 0 ≤ ss_position s ≤ ss_size s ∧ ss_size s ≤ Z.of_nat (length (ss_buf s)) ∧ ss_size s < 2 ^ 64 ∧
    l = drop (Z.to_nat (ss_position s)) (take (Z.to_nat (ss_size s)) (ss_buf s)) |}.
Proof.
  intros [buf size pos] l old n (Hp & Hs & Hw & ->) Hn. cbn in *. rewrite length_drop, length_take in Hn.
  unfold StringStream_Read. cbn. rewrite wrap_small by lia. rewrite Z.min_r by lia.
  assert (take (Z.to_nat n) (drop (Z.to_nat pos) (take (Z.to_nat size) buf)) = slice buf (Z.to_nat pos) (Z.to_nat n)) as ->.
  { unfold slice. rewrite !take_drop_commute. rewrite take_take. do 2 f_equal. lia. }
  eexists. split; [reflexivity|]. cbn. split_and!; [lia|lia|done|done|]. rewrite drop_drop. f_equal. lia.
Defined.
#[export, refine] Instance FileStream_law {D} `{BlockDevice D} : StreamLaw (fstream D) := {|
  at_ s l := 0 ≤ fs_position s ≤ ino_size (fs_inode s) ∧ ∃ bl, file_shape (fs_state s) (fs_inode s) bl ∧
    l = drop (Z.to_nat (fs_position s)) (shape_data (disk (fs_state s)) (fs_inode s) bl) |}.
Proof.
  intros [i pos fs] l old n (Hpos & bl & Hsh & ->) Hn. cbn in *. rewrite length_drop, (length_shape_data _ _ _ Hsh) in Hn.
  pose proof (shape_FileStream_Read fs i bl pos old n Hsh Hpos ltac:(lia)) as Hr.
  apply wp_ok in Hr as ([[out size] p] & fs' & E & -> & -> & -> & ->). rewrite E. rewrite Z.min_r by lia.
  eexists. split; [reflexivity|]. cbn. split; [lia|]. exists bl. split; [done|]. rewrite drop_drop. f_equal. lia.
Defined.

(** * Lemmas *)
Lemma load8_store_bytes l : ∀ m a b, load8 (store_bytes m a l) b =
  if decide (a ≤ b < a + Z.of_nat (length l)) then u8 (default 0 (l !! Z.to_nat (b - a))) else load8 m b.
Proof.
  induction l as [|x l IH]; intros m a b; cbn [store_bytes length]; [by rewrite decide_False by lia|].
  rewrite IH, load8_store8. destruct (decide (a = b)) as [->|Hne].
  - rewrite decide_False by lia. rewrite decide_True by lia. by rewrite Z.sub_diag.
  - destruct (decide (a + 1 ≤ b < a + 1 + Z.of_nat (length l))).
    + rewrite decide_True by lia. replace (Z.to_nat (b - a)) with (S (Z.to_nat (b - (a + 1)))) by lia. done.
    + by rewrite decide_False by lia.
Qed.
Lemma store_bytes_app l1 l2 : ∀ m a, store_bytes m a (l1 ++ l2) = store_bytes (store_bytes m a l1) (a + Z.of_nat (length l1)) l2.
Proof.
  induction l1 as [|x l1 IH]; intros m a; cbn [store_bytes app length]; [by rewrite Z.add_0_r|]. rewrite IH. f_equal. lia.
Qed.
Lemma load_le_value n : ∀ m a, load_le n m a = le_value (load_bytes n m a).
Proof. induction n as [|n IH]; intros m a; [done|].
  change (load_le (S n) m a) with (load8 m a + 256 * load_le n m (a + 1)). cbn [load_bytes le_value]. by rewrite IH.
Qed.
Lemma load_bytes_lookup n : ∀ m a i, (i < n)%nat → load_bytes n m a !! i = Some (load8 m (a + Z.of_nat i)).
Proof.
  induction n as [|n IH]; intros m a [|i] Hi; [lia|lia|cbn; by rewrite Z.add_0_r|].
  cbn [load_bytes lookup list_lookup]. rewrite IH by lia. do 2 f_equal. lia.
Qed.
(** a field of a structure that has been stored *)
Lemma load_le_stored n v pre post m a : 
  load_le n (store_bytes m a (pre ++ le_bytes n v ++ post)) (a + Z.of_nat (length pre)) = v mod 2 ^ (8 * Z.of_nat n).
Proof.
  rewrite load_le_value, <-le_value_bytes. f_equal.
  apply list_eq_same_length with n; [by rewrite length_le_bytes|apply length_load_bytes|].
  intros i x y Hi Ex Ey. rewrite load_bytes_lookup in Ex by done. injection Ex as <-.
  rewrite load8_store_bytes, !length_app, length_le_bytes, decide_True by lia.
  replace (Z.to_nat (a + Z.of_nat (length pre) + Z.of_nat i - a)) with (length pre + i)%nat by lia.
  rewrite lookup_app_r by lia. replace (length pre + i - length pre)%nat with i by lia.
  rewrite lookup_app_l by (by rewrite length_le_bytes). rewrite Ey. cbn.
  pose proof (le_bytes_range n v) as Hr. eapply Forall_lookup_1 in Hr; [|exact Ey]. by apply wrap_small.
Qed.
(** the byte the program sees at [va] *)
Definition user_byte (m : mem) (T : ptree) (va : Z) : option Z :=
  '(p, _) ← translate m T va; Some (load8 m (p + va mod PGSIZE)).
(** the pages from [va]'s on are mapped to the data pages [ps] *)
Definition mapped (vm : vmstate) (fl : list Z) (T : ptree) (va : Z) (ps : list Z) : Prop :=
  ∀ j p, ps !! j = Some p → data_page fl T p ∧
    ∀ o, 0 ≤ o < PGSIZE → ∃ f, translate (vm_mem vm) T (range_base va + Z.of_nat j * PGSIZE + o) = Some (p, f).

Abbreviation l_mem s := (vm_mem (ts_vm (l_task s))).
Abbreviation l_vm s := (ts_vm (l_task s)).
Section segment.
Context {St : Type} `{StreamLaw St}.
Definition with_loader_mem (m : mem) (st : St) (s : loader St) : loader St :=
  let ts := l_task s in Loader st (TState (set_mem m (ts_vm ts)) (ts_cur_pid ts) (ts_task ts)).
Lemma batch_load_run fuel : ∀ len dst l s, at_ (l_stream s) l → 0 ≤ len ≤ Z.of_nat (length l) → len ≤ Z.of_nat fuel →
  KERNEL_BASE ≤ dst → dst + len ≤ MEMORY_END →
  ∃ st, batch_load fuel len dst s = Ok ((), with_loader_mem (store_bytes (l_mem s) dst (take (Z.to_nat len) l)) st s) ∧
    at_ st (drop (Z.to_nat len) l).
Proof.
  induction fuel as [|fuel IH]; intros len dst l s Hat Hlen Hf Hd1 Hd2; cbn [batch_load];
    (destruct (Z.ltb_spec 0 len); [|replace len with 0 by lia; exists (l_stream s); by destruct s as [st [[] ? ?]]]); [lia|].
  unfold memory_batch. set (n := if 512 <? len then 512 else len). assert (1 ≤ n ≤ len ∧ n ≤ 512) as Hn by (subst n; destruct (Z.ltb_spec 512 len); lia).
  cbv zeta. fold n. destruct (Read_at (l_stream s) l (replicate (Z.to_nat 512) 0) n Hat ltac:(lia)) as (st1 & E1 & Hat1).
  erewrite (bind_Ok (on_stream _)) by (unfold on_stream; by rewrite E1).
  assert (Hpiece : take (Z.to_nat n) (into (replicate (Z.to_nat 512) 0) (take (Z.to_nat n) l)) = take (Z.to_nat n) l).
  { unfold into. rewrite take_app_le by (rewrite length_take; lia). by rewrite take_take, Nat.min_id. }
  cbv beta iota. rewrite Hpiece. set (m1 := store_bytes (l_mem s) dst (take (Z.to_nat n) l)).
  erewrite (bind_Ok (on_memory _) _ _ () (with_loader_mem m1 st1 s)).
  2: { unfold on_memory, on_process, lift_vm, vm_write. cbn [l_task ts_vm]. rewrite length_take.
       replace (ram_ok dst (Z.of_nat (Nat.min (Z.to_nat n) (length l)))) with true by (unfold ram_ok; lia). rewrite orb_true_r. by destruct s as [? []]. }
  destruct (IH (len - n) (dst + n) (drop (Z.to_nat n) l) (with_loader_mem m1 st1 s)) as (st2 & E2 & Hat2); [done|rewrite length_drop; lia|lia..|].
  exists st2. rewrite E2. rewrite drop_drop in Hat2. replace (Z.to_nat n + Z.to_nat (len - n))%nat with (Z.to_nat len) in Hat2 by lia.
  split; [|done]. destruct s as [st [[m ml bm hi ms self] cp t]]. unfold with_loader_mem. cbn in *. do 4 f_equal.
  subst m1. replace (Z.to_nat len) with (Z.to_nat n + Z.to_nat (len - n))%nat by lia. unfold set_mem. cbn. f_equal.
  rewrite <-(take_drop (Z.to_nat n) l) at 3. rewrite take_app_ge by (rewrite length_take; lia).
  rewrite store_bytes_app, length_take. do 2 f_equal; [lia|]. f_equal. lia.
Qed.
(** one page *)
Lemma page_written m p o l a : page_ok p → 0 ≤ o → o + Z.of_nat (length l) ≤ PGSIZE → (a < p ∨ p + PGSIZE ≤ a) →
  load8 (store_bytes m (p + o) l) a = load8 m a.
Proof. intros Hp Ho Hl Ha. rewrite load8_store_bytes, decide_False by lia. done. Qed.
Lemma rep_written s fl root T p o l : pt_rep s fl root T → data_page fl T p → 0 ≤ o → o + Z.of_nat (length l) ≤ PGSIZE →
  let s' := set_mem (store_bytes (vm_mem s) (p + o) l) s in
  pt_rep s' fl root T ∧ ∀ va, translate (vm_mem s') T va = translate (vm_mem s) T va.
Proof.
  intros Hpt (Hp & Hpf & HpT) Ho Hl s'. assert (∀ k q a, T !! k = Some q → q ≤ a < q + 4096 → load8 (vm_mem s') a = load8 (vm_mem s) a) as Hsame.
  { intros k q a Hk Ha. destruct (pt_page _ _ _ _ Hpt _ _ Hk) as [Hq _]. apply page_written; [done|done|done|].
    apply (page_apart_byte p q a); [done|done| |done]. intros ->. apply HpT, pt_pages_elem. by exists k. }
  split; [eapply pt_rep_mem; [done|]; intros; by eapply Hsame|]. intros va. apply translate_mem. intros; by eapply Hsame.
Qed.
Lemma range_base_next va : 0 ≤ va → range_base (range_base va + PGSIZE) = range_base va + PGSIZE ∧
  (range_base va + PGSIZE) mod PGSIZE = 0 ∧ 0 ≤ va mod PGSIZE < PGSIZE ∧ va = range_base va + va mod PGSIZE.
Proof. intros Hva. unfold range_base, PGSIZE. dlia. Qed.
Lemma LoadSegment_run ps : ∀ fuel va size l fl root T s,
  pt_rep (l_vm s) fl root T → mapped (l_vm s) fl T va ps → NoDup ps → 0 ≤ va → 0 ≤ size →
  va + size ≤ range_base va + Z.of_nat (length ps) * PGSIZE → range_base va + Z.of_nat (length ps) * PGSIZE + PGSIZE ≤ 2 ^ 63 →
  at_ (l_stream s) l → size ≤ Z.of_nat (length l) → size ≤ Z.of_nat fuel →
  ∃ st m, LoadSegment_loop fuel root va size s = Ok (true, with_loader_mem m st s) ∧ at_ st (drop (Z.to_nat size) l) ∧
    pt_rep (set_mem m (l_vm s)) fl root T ∧ (∀ va, translate m T va = translate (vm_mem (l_vm s)) T va) ∧
    mem_frame ps (l_vm s) (set_mem m (l_vm s)) ∧
    (∀ k, 0 ≤ k < size → user_byte m T (va + k) = u8 <$> l !! Z.to_nat k) ∧
    (∀ j p o, ps !! j = Some p → 0 ≤ o < PGSIZE →
       (let a := range_base va + Z.of_nat j * PGSIZE + o in a < va ∨ va + size ≤ a) →
       load8 m (p + o) = load8 (vm_mem (l_vm s)) (p + o)).
Proof.
  induction ps as [|p ps IH]; intros fuel va size l fl root T s Hpt Hmap Hnd Hva Hsize Hfit Hmax Hat Hlen Hf.
  { pose proof (Z.mod_pos_bound va PGSIZE ltac:(done)). unfold range_base in Hfit. cbn [length] in Hfit. replace size with 0 by lia. exists (l_stream s), (vm_mem (l_vm s)).
    assert (with_loader_mem (vm_mem (l_vm s)) (l_stream s) s = s) as -> by (by destruct s as [st [[] ? ?]]).
    split; [by destruct fuel|]. destruct s as [st [[] ? ?]]. cbn in *. split_and!; [done..| |done]. intros. lia. }
  destruct (Z.eqb_spec size 0) as [-> |Hnz].
  { exists (l_stream s), (vm_mem (l_vm s)). assert (with_loader_mem (vm_mem (l_vm s)) (l_stream s) s = s) as -> by (by destruct s as [st [[] ? ?]]).
    split; [by destruct fuel|]. destruct s as [st [[] ? ?]]. cbn in *. split_and!; [done..| |done]. intros. lia. }
  destruct fuel as [|fuel]; [lia|]. cbn [LoadSegment_loop]. rewrite (proj2 (Z.eqb_neq size 0)) by done.
  unfold mapped in Hmap. destruct (range_base_next va Hva) as (Hb1 & Hb2 & Hoff & Hbase). set (o := va mod PGSIZE) in *. set (b := range_base va) in *.
  assert (b + PGSIZE + PGSIZE ≤ 2 ^ 63 ∧ 0 ≤ b) as [Hb64 Hb0].
  { cbn [length] in Hmax. subst b. unfold range_base, PGSIZE in *. dlia. }
  destruct (Hmap 0%nat p eq_refl) as [Hdata Htr]. pose proof Hdata as (Hp & _ & _). destruct (Htr o Hoff) as (f & Ef).
  replace (b + Z.of_nat 0 * PGSIZE + o) with va in Ef by lia. pose proof Hp as (Hpal & Hpb & Hpe).
  erewrite (bind_Ok (on_memory _) _ _ (p + o, Some f) s).
  2: { unfold on_memory, on_process, lift_vm. rewrite (VAToPA_ok (l_vm s) fl T root va Hpt) by lia. rewrite Ef. by destruct s as [? []]. }
  unfold KERNEL_BASE in Hpb. rewrite (proj2 (Z.eqb_neq (p + o) 0)) by lia. cbv zeta.
  replace ((p + o) mod PGSIZE) with o by (unfold PGSIZE in *; dlia).
  set (len := if PGSIZE - o <? size then PGSIZE - o else size).
  assert (1 ≤ len ≤ size ∧ o + len ≤ PGSIZE ∧ (size = len ∨ o + len = PGSIZE)) as (Hl1 & Hl2 & Hl3).
  { subst len. destruct (Z.ltb_spec (PGSIZE - o) size); lia. }
  destruct (batch_load_run (Z.to_nat len) len (p + o) l s Hat) as (st1 & E1 & Hat1); [lia|lia|unfold KERNEL_BASE; lia|lia|].
  rewrite (bind_Ok _ _ _ _ _ E1). set (m1 := store_bytes (l_mem s) (p + o) (take (Z.to_nat len) l)) in *.
  rewrite AddrCastDown_spec by lia. fold o. replace (va - o) with b by lia.
  rewrite wrap_small by (unfold PGSIZE in *; lia).
  destruct (rep_written (l_vm s) fl root T p o (take (Z.to_nat len) l) Hpt Hdata ltac:(lia) ltac:(rewrite length_take; lia)) as [Hpt1 Htr1].
  fold m1 in Hpt1, Htr1. cbn [vm_mem set_mem] in Htr1. apply NoDup_cons in Hnd as [Hpn Hnd].
  destruct (IH fuel (b + PGSIZE) (size - len) (drop (Z.to_nat len) l) fl root T (with_loader_mem m1 st1 s)) as (st & m & E & Hat2 & Hpt2 & Htr2 & Hfr & Hby & Hrest).
  - exact Hpt1.
  - intros j q Hj. destruct (Hmap (S j) q Hj) as [Hq Hqt]. split; [done|]. intros o' Ho'. destruct (Hqt o' Ho') as (f' & Ef'). exists f'.
    rewrite Hb1. cbn. rewrite Htr1, <-Ef'. f_equal. fold b. unfold PGSIZE. lia.
  - done.
  - subst b. unfold range_base in *. lia.
  - lia.
  - rewrite Hb1. cbn [length] in Hfit. unfold PGSIZE in *. lia.
  - rewrite Hb1. cbn [length] in Hmax. unfold PGSIZE in *. lia.
  - exact Hat1.
  - rewrite length_drop. lia.
  - lia.
  - exists st, m. rewrite E. split; [by destruct s as [? []]|]. rewrite drop_drop in Hat2.
    replace (Z.to_nat len + Z.to_nat (size - len))%nat with (Z.to_nat size) in Hat2 by lia. split; [done|].
    split; [by destruct s as [? []]|]. assert (∀ va, translate m T va = translate (vm_mem (l_vm s)) T va) as Htrm.
    { intros va'. rewrite Htr2. apply Htr1. }
    split; [done|]. split.
    { intros a Ha. cbn [vm_mem set_mem] in *. rewrite <-(page_written (vm_mem (l_vm s)) p o (take (Z.to_nat len) l) a Hp ltac:(lia)).
      - apply Hfr. intros q Hq. apply Ha. by right.
      - rewrite length_take. lia.
      - destruct (Ha p ltac:(by left)); lia. }
    assert (∀ o', 0 ≤ o' < PGSIZE → load8 m (p + o') = load8 m1 (p + o')) as Hpage.
    { intros o' Ho'. apply Hfr. intros q Hq. destruct (list_elem_of_lookup_1 _ _ Hq) as (j & Ej). destruct (Hmap (S j) q Ej) as [(Hqp & _) _].
      assert (p ≠ q) as Hpq by (intros ->; done). pose proof (page_apart_byte q p (p + o') Hqp Hp ltac:(done)). unfold PGSIZE in *. lia. }
    split.
    { intros k Hk. destruct (decide (k < len)) as [Hkl|Hkl].
      - unfold user_byte. rewrite Htrm. destruct (Htr (o + k) ltac:(lia)) as (f' & Ef').
        replace (b + Z.of_nat 0 * PGSIZE + (o + k)) with (va + k) in Ef' by lia. rewrite Ef'. cbn [mbind option_bind].
        replace ((va + k) mod PGSIZE) with (o + k) by (unfold PGSIZE in *; subst b; unfold range_base, PGSIZE in *; dlia).
        rewrite Hpage by lia. subst m1. rewrite load8_store_bytes, length_take, decide_True by lia. replace (p + (o + k) - (p + o)) with k by lia.
        rewrite lookup_take_lt by lia. destruct (lookup_lt_is_Some_2 l (Z.to_nat k)) as [x Ex]; [lia|]. by rewrite Ex.
      - assert (l !! Z.to_nat k = drop (Z.to_nat len) l !! Z.to_nat (k - len)) as -> by (rewrite lookup_drop; f_equal; lia).
        rewrite <-Hby by lia. f_equal. lia. }
    intros [|j] q o' Hj Ho' Ha; cbv zeta in Ha.
    + injection Hj as <-. rewrite Hpage by done. subst m1. rewrite load8_store_bytes, length_take, decide_False; [done|]. unfold PGSIZE in *. lia.
    + destruct (Hmap (S j) q Hj) as [(Hqp & _) _]. rewrite (Hrest j q o' Hj Ho').
      * apply page_written; [done|lia|rewrite length_take; lia|]. assert (p ≠ q) as Hpq by (intros ->; by apply Hpn, list_elem_of_lookup_2 with j).
        pose proof (page_apart_byte p q (q + o') Hp Hqp ltac:(done)). unfold PGSIZE in *. lia.
      * cbv zeta. rewrite Hb1. unfold PGSIZE in *. lia.
Qed.
Lemma segment_privilege_range flags : 0 ≤ Z.lor (segment_privilege flags) PTE_U < 1024.
Proof. unfold segment_privilege. by destruct (nonzero _), (nonzero _), (nonzero _). Qed.
Lemma land_pow2 v i : 0 ≤ i → Z.land v (2 ^ i) = if Z.testbit v i then 2 ^ i else 0.
Proof.
  intros Hi. apply Z.bits_inj'. intros j Hj. rewrite Z.land_spec, Z.pow2_bits_eqb by done.
  destruct (Z.eqb_spec i j) as [->|Hne].
  - rewrite andb_true_r. destruct (Z.testbit v j); by rewrite ?Z.bits_0, ?Z.pow2_bits_true.
  - rewrite andb_false_r. destruct (Z.testbit v i); by rewrite ?Z.bits_0, ?Z.pow2_bits_false.
Qed.
Lemma segment_privilege_bits flags : Z.land (Z.lor (segment_privilege flags) PTE_U) PTE_MASK =
  16 + 2 * Z.b2z (Z.testbit flags 2) + 4 * Z.b2z (Z.testbit flags 1) + 8 * Z.b2z (Z.testbit flags 0).
Proof.
  unfold segment_privilege. change PF_R with (2 ^ 2). change PF_W with (2 ^ 1). change PF_X with (2 ^ 0). rewrite !land_pow2 by lia.
  by destruct (Z.testbit flags 2), (Z.testbit flags 1), (Z.testbit flags 0).
Qed.
Lemma segment_frame root b f ps vm0 fl0 T0 vm fl T m : range_mapped root b f ps vm0 fl0 T0 vm fl T →
  mem_frame ps vm (set_mem m vm) → mem_frame (fl0 ++ pt_pages T0) vm0 (set_mem m vm).
Proof.
  intros Hrm Hfr. eapply mem_frame_trans; [apply Hrm|]. eapply mem_frame_mono; [|exact Hfr].
  intros p Hp. apply elem_of_app. left. by apply (rm_pages _ _ _ _ _ _ _ _ _ _ Hrm p).
Qed.
Lemma data_byte_frame vm vm' fl root T p : pt_rep vm fl root T → vm_inv vm fl → data_page fl T p →
  mem_frame (fl ++ pt_pages T) vm vm' → ∀ o, 0 ≤ o < PGSIZE → load8 (vm_mem vm') (p + o) = load8 (vm_mem vm) (p + o).
Proof.
  intros Hpt Hi (Hp & Hpf & HpT) Hfr o Ho. apply Hfr. intros q Hq. assert (page_ok q ∧ p ≠ q) as [Hq2 Hne].
  { apply elem_of_app in Hq as [Hq|Hq].
    - destruct (inv_pages _ _ Hi) as (Hok & _). rewrite Forall_forall in Hok. split; [by apply Hok|]. by intros ->.
    - split; [|by intros ->]. apply pt_pages_elem in Hq as [k Hk]. by apply (pt_page _ _ _ _ Hpt _ _ Hk). }
  pose proof (page_apart_byte q p (p + o) Hq2 Hp ltac:(done)). unfold PGSIZE in *. lia.
Qed.
Lemma range_mapped_mapped root va f ps vm0 fl0 T0 vm fl T :
  range_mapped root (range_base va) f ps vm0 fl0 T0 vm fl T → 0 ≤ va →
  range_base va + Z.of_nat (length ps) * PGSIZE ≤ 2 ^ 39 →
  (∀ j p o, ps !! j = Some p → 0 ≤ o < PGSIZE →
     translate (vm_mem vm) T (range_base va + Z.of_nat j * PGSIZE + o) = Some (p, f)) ∧ mapped vm fl T va ps.
Proof.
  intros Hrm Hva Hmax. destruct (range_base_ok va Hva) as [_ Hb].
  assert (∀ j p o, ps !! j = Some p → 0 ≤ o < PGSIZE →
    translate (vm_mem vm) T (range_base va + Z.of_nat j * PGSIZE + o) = Some (p, f)) as Htr.
  { intros j p o Hj Ho. pose proof (lookup_lt_Some _ _ _ Hj). rewrite (rm_translate _ _ _ _ _ _ _ _ _ _ Hrm) by (unfold PGSIZE in *; lia).
    unfold range_map. replace (range_base va <=? range_base va + Z.of_nat j * PGSIZE + o) with true by (unfold PGSIZE in *; lia).
    replace (Z.to_nat ((range_base va + Z.of_nat j * PGSIZE + o - range_base va) / PGSIZE)) with j by (unfold PGSIZE in *; dlia). by rewrite Hj. }
  split; [done|]. intros j p Hj. split; [apply Hrm; by eapply list_elem_of_lookup_2|]. intros o Ho. exists f. by apply Htr.
Qed.
Lemma loaded_inv vm fl T root ps m : vm_inv vm fl → (∀ p, p ∈ ps → data_page fl T p) →
  pt_rep vm fl root T → mem_frame ps vm (set_mem m vm) → vm_inv (set_mem m vm) fl.
Proof.
  intros Hi Hps Hpt Hfr. apply vm_inv_store; [done|]. intros q a Hq Ha. apply (Hfr a). intros p Hp.
  destruct (Hps p Hp) as (Hpok & Hpf & _). destruct (inv_pages _ _ Hi) as (Hok & _). rewrite Forall_forall in Hok.
  assert (p ≠ q) as Hpq by (intros ->; done). pose proof (page_apart_byte p q a Hpok (Hok q Hq) ltac:(done)). unfold PGSIZE. lia.
Qed.
End segment.

(** * Properties *)
(** C9: a segment of a program, from its header.  With enough free pages, every page
    that the segment's addresses lie in is mapped for user mode, readable, writable and
    executable as bits 2, 1 and 0 of the header's flags say (bits 1, 2 and 3 of a page
    table entry, whose bit 4 is the user's).  In those pages the program sees the file's
    bytes at the segment's addresses and zeros everywhere else, before the segment,
    behind it and between its size in the file and its size in memory.  Every other
    address translates as before; where its page was neither free nor a table it still
    has its byte, and in general no byte of memory changes outside the pages that were
    free or tables.  The region is recorded. *)
Theorem segment_loaded {St} `{StreamLaw St} target_type offset_ ph info (s : loader St) fl T bytes st1 :
  let t := ts_task (l_task s) in
  let va := u64 (p_vaddr ph + offset_) in
  p_type ph = PT_LOAD → 0 ≤ p_filesz ph ≤ p_memsz ph → va + p_memsz ph ≤ MAX_SUPPORT_VA →
  vm_inv (l_vm s) fl → pt_rep (l_vm s) fl (page_table t) T →
  (3 * range_pages va (va + p_memsz ph) ≤ length fl)%nat →
  Seek (p_offset ph) (l_stream s) = Ok ((), st1) → at_ st1 bytes → p_filesz ph ≤ Z.of_nat (length bytes) →
  0 ≤ used_address_size t < Z.of_nat (length (used_address t)) →
  ∃ s' fl' T', load_header target_type offset_ ph info s = Ok ((true, info), s') ∧
    vm_inv (l_vm s') fl' ∧ pt_rep (l_vm s') fl' (page_table t) T' ∧
    (∀ a, va / PGSIZE ≤ a / PGSIZE < (va + p_memsz ph + PGSIZE - 1) / PGSIZE →
       (∃ page, translate (l_mem s') T' a = Some (page, 16 + 2 * Z.b2z (Z.testbit (p_flags ph) 2) +
          4 * Z.b2z (Z.testbit (p_flags ph) 1) + 8 * Z.b2z (Z.testbit (p_flags ph) 0))) ∧
       user_byte (l_mem s') T' a = if decide (va ≤ a < va + p_filesz ph) then u8 <$> bytes !! Z.to_nat (a - va) else Some 0) ∧
    (∀ a, 0 ≤ a < 2 ^ 39 → ¬ (va / PGSIZE ≤ a / PGSIZE < (va + p_memsz ph + PGSIZE - 1) / PGSIZE) →
       translate (l_mem s') T' a = translate (l_mem s) T a ∧
       ∀ page f, translate (l_mem s) T a = Some (page, f) → data_page fl T page →
         user_byte (l_mem s') T' a = user_byte (l_mem s) T a) ∧
    mem_frame (fl ++ pt_pages T) (l_vm s) (l_vm s') ∧
    ts_task (l_task s') = set_regions (used_address_size t + 1)
      (<[Z.to_nat (used_address_size t) := (va, va + p_memsz ph)]> (used_address t)) t.
Proof.
  intros t va Htype Hsz Hfit Hi Hpt Hfl Hseek Hat Hbytes Hregions.
  assert (0 ≤ va) as Hva by (apply wrap_range; lia). unfold MAX_SUPPORT_VA in Hfit.
  destruct (range_bounds va (va + p_memsz ph) ltac:(lia) ltac:(unfold MAX_SUPPORT_VA; lia)) as (_ & Hup & Hmax).
  pose proof (wp_MapMemory (page_table t) va (va + p_memsz ph) (Z.lor (segment_privilege (p_flags ph)) PTE_U) (l_vm s) fl T Hi Hpt
    ltac:(lia) ltac:(unfold MAX_SUPPORT_VA; lia) (segment_privilege_range _) Hfl) as Hm.
  apply wp_ok in Hm as (r & vm1 & Em & -> & ps & fl' & T' & Hlps & Hrm). rewrite <-Hlps in Hup. rewrite Hup in *.
  destruct (range_mapped_mapped _ _ _ _ _ _ _ _ _ _ Hrm Hva ltac:(unfold MAX_SUPPORT_VA in *; lia)) as [Htr Hmapped].
  set (s1 := Loader st1 (TState vm1 (ts_cur_pid (l_task s)) t)).
  assert (va + p_memsz ph ≤ range_base va + Z.of_nat (length ps) * PGSIZE) as Hpages.
  { rewrite <-Hup. rewrite AddrCastUp_spec by (unfold PGSIZE; lia). unfold PGSIZE. dlia. }
  destruct (LoadSegment_run ps (Z.to_nat (p_filesz ph)) va (p_filesz ph) bytes fl' (page_table t) T' s1)
    as (st2 & m & El & _ & Hpt2 & Htr2 & Hfr & Hby & Hrest); [apply Hrm|done|apply Hrm|lia|lia|lia| |done|lia|lia|].
  { unfold MAX_SUPPORT_VA, PGSIZE in *. lia. }
  cbn [l_task ts_vm s1] in *. unfold load_header. rewrite Htype. change (PT_LOAD =? PT_DYNAMIC) with false. change (PT_LOAD =? PT_LOAD) with true. cbv iota.
  erewrite (bind_Ok (mret info)) by done. cbn [negb]. replace (p_memsz ph <? p_filesz ph) with false by lia.
  erewrite (bind_Ok (on_process this) _ _ t s) by (by destruct s as [? []]). cbv zeta. fold va.
  rewrite (wrap_small 64 (va + _)) by lia.
  erewrite (bind_Ok (on_memory _) _ _ true (Loader (l_stream s) (TState vm1 (ts_cur_pid (l_task s)) t))).
  2: { unfold on_memory, on_process, lift_vm. by rewrite Em. }
  erewrite (bind_Ok (on_stream _) _ _ () s1) by (unfold on_stream; cbn [l_stream l_task]; by rewrite Hseek).
  erewrite (bind_Ok (LoadSegment _ _ _)) by exact El. cbn [negb].
  erewrite (bind_Ok (on_process this) _ _ t) by done. replace (Z.of_nat (length (used_address t)) <=? used_address_size t) with false by lia.
  eexists _, fl', T'. split; [reflexivity|]. cbn [l_task ts_vm ts_task with_loader_mem vm_mem set_mem s1].
  rewrite segment_privilege_bits in Htr.
  split; [eapply loaded_inv; [apply Hrm|apply Hrm|apply Hrm|exact Hfr]|]. split; [exact Hpt2|].
  pose proof (segment_frame _ _ _ _ _ _ _ _ _ _ _ Hrm Hfr) as Hframe. split_and!; [|..|exact Hframe|done].
  - intros q Hin. set (j := Z.to_nat (q / PGSIZE - va / PGSIZE)).
    destruct (lookup_lt_is_Some_2 ps j) as [p Ej]; [subst j; rewrite Hlps; unfold range_pages; lia|].
    assert (q = range_base va + Z.of_nat j * PGSIZE + q mod PGSIZE) as Eq by (subst j; unfold range_base, PGSIZE in *; dlia).
    assert (0 ≤ q mod PGSIZE < PGSIZE) as Hq by (apply Z.mod_pos_bound; done).
    pose proof (Htr j p (q mod PGSIZE) Ej Hq) as Ht. rewrite <-Eq in Ht. split; [exists p; by rewrite Htr2|].
    destruct (decide (va ≤ q < va + p_filesz ph)) as [Hlt|Hge].
    + rewrite <-Hby by lia. f_equal. lia.
    + unfold user_byte. rewrite Htr2, Ht. cbn [mbind option_bind]. f_equal.
      rewrite (Hrest j p (q mod PGSIZE) Ej Hq) by (cbv zeta; lia). apply (rm_pages _ _ _ _ _ _ _ _ _ _ Hrm p); [by eapply list_elem_of_lookup_2|]. lia.
  - intros q Hq Hout. assert (translate m T' q = translate (l_mem s) T q) as Hsame.
    { rewrite Htr2, (rm_translate _ _ _ _ _ _ _ _ _ _ Hrm) by done. unfold range_map.
      destruct (Z.leb_spec (range_base va) q) as [Hle|Hle]; [|done]. rewrite lookup_ge_None_2; [done|].
      rewrite Hlps. unfold range_pages, range_base, PGSIZE in *. dlia. }
    split; [done|]. intros page f Et Hd. unfold user_byte. rewrite Hsame, Et. cbn [mbind option_bind]. f_equal.
    apply (data_byte_frame _ _ _ _ _ _ Hpt Hi Hd Hframe), Z.mod_pos_bound. done.
Qed.
(** four bytes of a file at offset 2, loaded at 0x10ffe with ten bytes of memory *)
Definition demo_header : list Z :=
  le_bytes 4 PT_LOAD ++ le_bytes 4 (Z.lor PF_R PF_X) ++ le_bytes 8 2 ++ le_bytes 8 0x10ffe ++ le_bytes 8 0 ++
  le_bytes 8 4 ++ le_bytes 8 10 ++ le_bytes 8 PGSIZE.
Definition demo_loader : loader StringStream :=
  Loader (MkStringStream [1; 2; 3; 4; 5; 6; 7; 8] 8 0) (TState demo_pt 6 (set_pages 0 demo_root 0 0 task0)).
Lemma segment_loaded_witness :
  ∃ s' fl' T', load_header ET_EXEC 0 demo_header None demo_loader = Ok ((true, None), s') ∧
    pt_rep (l_vm s') fl' demo_root T' ∧ user_byte (l_mem s') T' (0x10ffe + 3) = Some 6 ∧ user_byte (l_mem s') T' (0x10ffe + 9) = Some 0.
Proof.
  destruct demo_pt_inv as [Hi Hp].
  destruct (segment_loaded ET_EXEC 0 demo_header None demo_loader demo_free demo_T [3; 4; 5; 6; 7; 8]
    (MkStringStream [1; 2; 3; 4; 5; 6; 7; 8] 8 2)) as (s' & fl' & T' & E & _ & Hpt & Hby & _).
  - reflexivity.
  - vm_compute. split; discriminate.
  - vm_compute. discriminate.
  - exact Hi.
  - exact Hp.
  - vm_compute. lia.
  - reflexivity.
  - split; [cbn; lia|]. split; [cbn; lia|]. split; [cbn; lia|reflexivity].
  - vm_compute. discriminate.
  - vm_compute. split; [discriminate|reflexivity].
  - exists s', fl', T'. split; [exact E|]. split; [exact Hpt|]. split.
    + apply (Hby (0x10ffe + 3)). split; [discriminate|reflexivity].
    + apply (Hby (0x10ffe + 9)). split; [discriminate|reflexivity].
Defined.
