(* ===== verification/Display.v ===== *)
(** The display device of [driver/virtio_gpu.h] and [driver/virtio_gpu.cc]: the
    commands the driver sends, the resources it creates and gives back, the frame
    buffer's backing pages, and the system calls on top of them.

    The device is the environment: [reply] is its answer to the last of all
    commands sent so far, or [None] when there were no free descriptors and
    nothing was sent.  How one command travels through the rings is [submit],
    built from the transport of Virtio.v; other processes that run while the
    driver waits are not part of this file. *)
From S2P Require Import Prelude Riscv Lock Mem MemoryList VirtualMemory Process Scheduler Virtio VirtioBlk Console Syscalls Loader.

(** * virtio_gpu.h *)
Definition VIRTIO_GPU_CMD_GET_DISPLAY_INFO : Z := 0x0100.
Definition VIRTIO_GPU_CMD_RESOURCE_CREATE_2D : Z := 0x0101.
Definition VIRTIO_GPU_CMD_RESOURCE_UNREF : Z := 0x0102.
Definition VIRTIO_GPU_CMD_SET_SCANOUT : Z := 0x0103.
Definition VIRTIO_GPU_CMD_RESOURCE_FLUSH : Z := 0x0104.
Definition VIRTIO_GPU_CMD_TRANSFER_TO_HOST_2D : Z := 0x0105.
Definition VIRTIO_GPU_CMD_RESOURCE_ATTACH_BACKING : Z := 0x0106.
Definition VIRTIO_GPU_CMD_RESOURCE_DETACH_BACKING : Z := 0x0107.
Definition VIRTIO_GPU_CMD_UPDATE_CURSOR : Z := 0x0300.
Definition VIRTIO_GPU_CMD_MOVE_CURSOR : Z := 0x0301.
Definition VIRTIO_GPU_RESP_OK_NODATA : Z := 0x1100.
Definition VIRTIO_GPU_RESP_OK_DISPLAY_INFO : Z := 0x1101.
Definition VIRTIO_GPU_FLAG_FENCE : Z := Z.shiftl 1 0.
Definition VIRTIO_GPU_MAX_SCANOUTS : nat := 16.
Definition VIRTIO_GPU_FORMAT_R8G8B8A8_UNORM : Z := 67.
Definition cursor_image_size : Z := 64 * 64 * 4.
Inductive gpu_feature_bit := VIRTIO_GPU_F_VIRGL | VIRTIO_GPU_F_EDID.
Definition gpu_feature_value (f : gpu_feature_bit) : Z :=
  match f with VIRTIO_GPU_F_VIRGL => Z.shiftl 1 0 | VIRTIO_GPU_F_EDID => Z.shiftl 1 1 end.

(** [virtio_gpu_ctrl_hdr], whose last two fields the driver never sets *)
Record ctrl_hdr := Hdr { h_type : Z; h_flags : Z; h_fence : Z }.
Definition hdr0 : ctrl_hdr := Hdr 0 0 0.
Record virtio_gpu_rect := Rect { rx : Z; ry : Z; width : Z; height : Z }.
Definition rect0 : virtio_gpu_rect := Rect 0 0 0 0.
(** the fields that follow the header, one constructor per structure; for an
    attached backing, the memory entries the device finds behind it *)
Inductive body :=
| get_display_info
| resource_create_2d (resource_id format width height : Z)
| resource_attach_backing (resource_id nr_entries : Z) (entries : list (Z * Z))
| resource_detach_backing (resource_id : Z)
| set_scanout (r : virtio_gpu_rect) (scanout_id resource_id : Z)
| transfer_to_host_2d (r : virtio_gpu_rect) (offset resource_id : Z)
| resource_flush (r : virtio_gpu_rect) (resource_id : Z)
| resource_unref (resource_id : Z)
| update_cursor (scanout_id pos_x pos_y resource_id hot_x hot_y : Z).
Record command := Command { c_queue : nat; c_hdr : ctrl_hdr; c_body : body }.
(** [virtio_gpu_resp_display_info]; every other answer is its header *)
Record response := Resp { p_hdr : ctrl_hdr; p_modes : list virtio_gpu_rect }.
Definition resp0 : response := Resp hdr0 (replicate VIRTIO_GPU_MAX_SCANOUTS rect0).

(** the bytes of the structures *)
Definition enc_hdr (h : ctrl_hdr) : list Z :=
  le_bytes 4 (h_type h) ++ le_bytes 4 (h_flags h) ++ le_bytes 8 (h_fence h) ++ le_bytes 4 0 ++ le_bytes 4 0.
Definition enc_rect (r : virtio_gpu_rect) : list Z :=
  le_bytes 4 (rx r) ++ le_bytes 4 (ry r) ++ le_bytes 4 (width r) ++ le_bytes 4 (height r).
Definition enc_body (b : body) : list Z :=
  match b with
  | get_display_info => []
  | resource_create_2d id format w h => le_bytes 4 id ++ le_bytes 4 format ++ le_bytes 4 w ++ le_bytes 4 h
  | resource_attach_backing id n _ => le_bytes 4 id ++ le_bytes 4 n
  | resource_detach_backing id | resource_unref id => le_bytes 4 id ++ le_bytes 4 0
  | set_scanout r scanout id => enc_rect r ++ le_bytes 4 scanout ++ le_bytes 4 id
  | transfer_to_host_2d r offset id => enc_rect r ++ le_bytes 8 offset ++ le_bytes 4 id ++ le_bytes 4 0
  | resource_flush r id => enc_rect r ++ le_bytes 4 id ++ le_bytes 4 0
  | update_cursor scanout x y id hx hy =>
    le_bytes 4 scanout ++ le_bytes 4 x ++ le_bytes 4 y ++ le_bytes 4 0 ++
    le_bytes 4 id ++ le_bytes 4 hx ++ le_bytes 4 hy ++ le_bytes 4 0
  end.
Definition enc_command (c : command) : list Z := enc_hdr (c_hdr c) ++ enc_body (c_body c).
Definition sizeof_hdr : Z := 24.
(** [sizeof] of the structure the device writes its answer to; cursor commands
    have none *)
Definition resp_size (b : body) : option Z :=
  match b with
  | get_display_info => Some (sizeof_hdr + Z.of_nat VIRTIO_GPU_MAX_SCANOUTS * 24)
  | update_cursor _ _ _ _ _ _ => None
  | _ => Some sizeof_hdr
  end.
(** the arguments of the command's [mmio_transport]; [req_addr] and [resp_addr] are the
    addresses of the two locals.  A backing goes through the indirect table. *)
Definition indirect_size : Z := 512.
Definition cmd_reqs (indirect_addr req_addr resp_addr : Z) (c : command) : list req :=
  match c_body c with
  | resource_attach_backing _ _ _ => [Req indirect_addr (indirect_size * 16) false]
  | b => Req req_addr (Z.of_nat (length (enc_command c))) false ::
         match resp_size b with Some n => [Req resp_addr n true] | None => [] end
  end.
(** a command up to its wait *)
Definition submit (indirect_addr req_addr resp_addr : Z) (c : command) : M device transport :=
  t ← mmio_transport (c_queue c) (cmd_reqs indirect_addr req_addr resp_addr c);
  match c_body c with resource_attach_backing _ _ _ => set_indirect_flag t 0 | _ => mret () end;;
  trigger_notify t;;
  mret t.

(** [class GPUDevice]: its members, all commands sent so far, and the page allocator *)
Record gpu := Gpu {
  num_scanouts : Z;
  screen_rect_ : virtio_gpu_rect;
  resource_id_frame_buffer_ : Z;
  resource_id_cursor_ : Z;
  indirect_desc_ : list virtq_desc;
  sent : list command;
}.
Record gstate := GState { g_gpu : gpu; g_vm : vmstate }.
Definition on_mem {A} (m : M vmstate A) : M gstate A := λ s,
  match m (g_vm s) with Ok (a, vm) => Ok (a, GState (g_gpu s) vm) | Stop e => Stop e end.
Definition upd_gpu (f : gpu → gpu) : M gstate () := modify (λ s, GState (f (g_gpu s)) (g_vm s)).
Definition set_screen (r : virtio_gpu_rect) (g : gpu) : gpu :=
  Gpu (num_scanouts g) r (resource_id_frame_buffer_ g) (resource_id_cursor_ g) (indirect_desc_ g) (sent g).
Definition set_frame_id (id : Z) (g : gpu) : gpu :=
  Gpu (num_scanouts g) (screen_rect_ g) id (resource_id_cursor_ g) (indirect_desc_ g) (sent g).
Definition set_cursor_id (id : Z) (g : gpu) : gpu :=
  Gpu (num_scanouts g) (screen_rect_ g) (resource_id_frame_buffer_ g) id (indirect_desc_ g) (sent g).
Definition set_indirect (l : list virtq_desc) (g : gpu) : gpu :=
  Gpu (num_scanouts g) (screen_rect_ g) (resource_id_frame_buffer_ g) (resource_id_cursor_ g) l (sent g).
Definition set_sent (l : list command) (g : gpu) : gpu :=
  Gpu (num_scanouts g) (screen_rect_ g) (resource_id_frame_buffer_ g) (resource_id_cursor_ g) (indirect_desc_ g) l.
Definition cursor_rect_ : virtio_gpu_rect := Rect 0 0 64 64.
Definition scanout_id_ : Z := 0.

Section gpu.
Context (reply : list command → option response).
(** the addresses of the locals a command points to: the message, the answer, and
    the parameter [flags], whose address is the fence's number *)
Context (req_addr resp_addr flags_addr : Z).

(** [mmio_transport]; [trigger_notify]; [wait_complete]; the locals afterwards *)
Definition exchange (c : command) : M gstate response :=
  s ← gets (λ s, s);
  match reply (sent (g_gpu s) ++ [c]) with
  | None => mret resp0
  | Some r => upd_gpu (set_sent (sent (g_gpu s) ++ [c]));; mret r
  end.
Definition check_type (h : ctrl_hdr) (target_type : Z) : M gstate () :=
  if h_type h =? target_type then mret () else stop_with (Panicked "gpu device resp error").
Definition check_fence_id (h : ctrl_hdr) (target_fence_id : Z) : M gstate () :=
  if negb (nonzero (Z.land (h_flags h) VIRTIO_GPU_FLAG_FENCE)) || negb (h_fence h =? target_fence_id)
  then stop_with (Panicked "gpu device resp fence_id error") else mret ().
Definition flags_hdr (type flags : Z) : ctrl_hdr :=
  Hdr type flags (if 0 <? Z.land flags VIRTIO_GPU_FLAG_FENCE then flags_addr else 0).
Definition check_flags (h : ctrl_hdr) (flags : Z) : M gstate () :=
  if nonzero (Z.land flags VIRTIO_GPU_FLAG_FENCE) then check_fence_id h flags_addr else mret ().

Definition GetDisplayInfo : M gstate response :=
  display_info ← exchange (Command 0 (Hdr VIRTIO_GPU_CMD_GET_DISPLAY_INFO 0 0) get_display_info);
  check_type (p_hdr display_info) VIRTIO_GPU_RESP_OK_DISPLAY_INFO;;
  mret display_info.
Definition Create2dResource (resource_id w h flags : Z) : M gstate () :=
  r ← exchange (Command 0 (flags_hdr VIRTIO_GPU_CMD_RESOURCE_CREATE_2D flags)
        (resource_create_2d resource_id VIRTIO_GPU_FORMAT_R8G8B8A8_UNORM w h));
  check_type (p_hdr r) VIRTIO_GPU_RESP_OK_NODATA;;
  check_flags (p_hdr r) flags.
Definition ResourceDetachBacking (resource_id : Z) : M gstate () :=
  r ← exchange (Command 0 (Hdr VIRTIO_GPU_CMD_RESOURCE_DETACH_BACKING 0 0) (resource_detach_backing resource_id));
  check_type (p_hdr r) VIRTIO_GPU_RESP_OK_NODATA.
Definition SetScanout (rect : virtio_gpu_rect) (scanout_id resource_id : Z) : M gstate () :=
  r ← exchange (Command 0 (Hdr VIRTIO_GPU_CMD_SET_SCANOUT 0 0) (set_scanout rect scanout_id resource_id));
  check_type (p_hdr r) VIRTIO_GPU_RESP_OK_NODATA.
Definition TransferTo2D (rect : virtio_gpu_rect) (offset resource_id flags : Z) : M gstate () :=
  r ← exchange (Command 0 (flags_hdr VIRTIO_GPU_CMD_TRANSFER_TO_HOST_2D flags)
        (transfer_to_host_2d rect offset resource_id));
  check_type (p_hdr r) VIRTIO_GPU_RESP_OK_NODATA;;
  check_flags (p_hdr r) flags.
Definition ResourceFlush (rect : virtio_gpu_rect) (resource_id : Z) : M gstate () :=
  r ← exchange (Command 0 (Hdr VIRTIO_GPU_CMD_RESOURCE_FLUSH 0 0) (resource_flush rect resource_id));
  check_type (p_hdr r) VIRTIO_GPU_RESP_OK_NODATA.
Definition ResourceDestroy (resource_id : Z) : M gstate () :=
  r ← exchange (Command 0 (Hdr VIRTIO_GPU_CMD_RESOURCE_UNREF 0 0) (resource_unref resource_id));
  check_type (p_hdr r) VIRTIO_GPU_RESP_OK_NODATA.
Definition UpdateCursor (resource_id scanout_id pos_x pos_y hot_x hot_y : Z) (is_move : bool) : M gstate () :=
  _ ← exchange (Command 1 (Hdr (if is_move then VIRTIO_GPU_CMD_MOVE_CURSOR else VIRTIO_GPU_CMD_UPDATE_CURSOR) 0 0)
        (update_cursor scanout_id pos_x pos_y resource_id hot_x hot_y));
  mret ().

(** ** The backing of a resource *)
Definition put_indirect (i : Z) (x : virtq_desc) : M gstate () :=
  s ← gets (λ s, s);
  if (Z.to_nat i <? length (indirect_desc_ (g_gpu s)))%nat
  then upd_gpu (set_indirect (<[Z.to_nat i := x]> (indirect_desc_ (g_gpu s))))
  else stop_with (Faulted "indirect_desc_").
(** [std::generate] over the entries; [root] is the page table of [ThisProcess()] *)
Fixpoint generate_entries (n : nat) (entrys root addr size : Z) : M gstate () :=
  match n with
  | O => mret ()
  | S n =>
    let remain_size := PGSIZE - addr mod PGSIZE in
    let len := if remain_size <? size then remain_size else size in
    '(pa, _) ← on_mem (VAToPA root addr);
    on_mem (vm_write entrys (le_bytes 8 pa ++ le_bytes 4 len ++ le_bytes 4 0));;
    generate_entries n (entrys + 16) root (u64 (addr + len)) (u64 (size - len))
  end.
Fixpoint generate_descs (n : nat) (entrys index : Z) : M gstate () :=
  match n with
  | O => mret ()
  | S n =>
    put_indirect (index + 1) (Desc (u64 (entrys + index * 16)) 16 VIRTQ_DESC_F_NEXT (u16 (index + 2)));;
    generate_descs n entrys (index + 1)
  end.
(** what the device reads through the table: the entries between the message and
    the place for its answer *)
Definition read_entry (m : mem) (a : Z) : Z * Z := (load64 m a, load32 m (a + 8)).
Definition table_chain (t : list virtq_desc) : list (Z * Z * bool) := walk (Z.to_nat indirect_size) t 0.
Definition table_entries (m : mem) (t : list virtq_desc) : list (Z * Z) :=
  (λ x, read_entry m x.1.1) <$> filter (λ x, x.2 = false) (tail (table_chain t)).
Fixpoint free_pages (n : nat) (entrys : Z) : M vmstate () :=
  match n with O => mret () | S n => FreePage_pa entrys;; free_pages n (u64 (entrys + PGSIZE)) end.
Definition ResourceAttachBacking (root resource_id addr size flags : Z) : M gstate () :=
  if size =? 0 then mret () else
  let aligned_gap := u64 (addr - AddrCastDown addr) in
  let page_num := u32 (u64 (size + aligned_gap + PGSIZE - 1) / PGSIZE) in
  put_indirect 0 (fill_desc req_addr 32 VIRTQ_DESC_F_NEXT 1);;
  let need_entry_mem := u32 (u64 (16 * page_num + PGSIZE - 1) / PGSIZE) in
  entrys ← on_mem (AllocContinuousPage need_entry_mem);
  generate_entries (Z.to_nat page_num) entrys root addr size;;
  generate_descs (Z.to_nat page_num) entrys 0;;
  put_indirect (u32 (page_num + 1)) (fill_desc resp_addr sizeof_hdr VIRTQ_DESC_F_WRITE 0);;
  s ← gets (λ s, s);
  r ← exchange (Command 0 (flags_hdr VIRTIO_GPU_CMD_RESOURCE_ATTACH_BACKING flags)
        (resource_attach_backing resource_id page_num (table_entries (vm_mem (g_vm s)) (indirect_desc_ (g_gpu s)))));
  check_type (p_hdr r) VIRTIO_GPU_RESP_OK_NODATA;;
  check_flags (p_hdr r) flags;;
  on_mem (free_pages (Z.to_nat need_entry_mem) entrys).

(** ** The public operations *)
Definition resource_id_frame_buffer : Z := 0xaabb.
Definition resource_id_cursor : Z := 0xccdd.
Definition SetupFramebuffer (root : Z) (rect : virtio_gpu_rect) (scanout_id addr size : Z) : M gstate bool :=
  n ← gets (λ s, num_scanouts (g_gpu s));
  if u32 (n - 1) <? scanout_id then mret false else
  upd_gpu (set_screen rect);;
  upd_gpu (set_frame_id resource_id_frame_buffer);;
  Create2dResource resource_id_frame_buffer (width rect) (height rect) 0;;
  ResourceAttachBacking root resource_id_frame_buffer addr size 0;;
  SetScanout rect scanout_id_ resource_id_frame_buffer;;
  mret true.
Definition SetupCursor (root cursor_image pos_x pos_y hot_x hot_y : Z) : M gstate bool :=
  upd_gpu (set_cursor_id resource_id_cursor);;
  Create2dResource resource_id_cursor (width cursor_rect_) (height cursor_rect_) VIRTIO_GPU_FLAG_FENCE;;
  ResourceAttachBacking root resource_id_cursor cursor_image cursor_image_size VIRTIO_GPU_FLAG_FENCE;;
  TransferTo2D cursor_rect_ 0 resource_id_cursor VIRTIO_GPU_FLAG_FENCE;;
  UpdateCursor resource_id_cursor scanout_id_ pos_x pos_y hot_x hot_y false;;
  mret true.
Definition MoveCursor (pos_x pos_y : Z) : M gstate () :=
  id ← gets (λ s, resource_id_cursor_ (g_gpu s));
  UpdateCursor id scanout_id_ pos_x pos_y 0 0 true.
Definition Flush : M gstate () :=
  g ← gets g_gpu;
  TransferTo2D (screen_rect_ g) 0 (resource_id_frame_buffer_ g) 0;;
  ResourceFlush (screen_rect_ g) (resource_id_frame_buffer_ g).
(** one of the two halves of [Drop] *)
Definition drop_resource (id : Z) (clear : gpu → gpu) : M gstate () :=
  if 0 <? id then ResourceDetachBacking id;; ResourceDestroy id;; upd_gpu clear else mret ().
Definition Drop : M gstate bool :=
  g ← gets g_gpu;
  if (resource_id_frame_buffer_ g =? 0) && (resource_id_cursor_ g =? 0) then mret false else
  drop_resource (resource_id_frame_buffer_ g) (set_frame_id 0);;
  g ← gets g_gpu;
  drop_resource (resource_id_cursor_ g) (set_cursor_id 0);;
  mret true.
End gpu.

(** [GPUDevice::UsedBufferNotify]: both queues, under both guards.  [fuel] bounds
    each loop. *)
Definition gpu_complete_one (q : nat) (v : virt_queue) (last : Z) : M device () :=
  '(id, _) ← of_option (Faulted "used.ring") (used_ring (used v) !! Z.to_nat (last mod queue_buffer_size));
  w ← gets waiting_flag;
  (if (Z.to_nat id <? length w)%nat then modify (set_waiting (<[Z.to_nat id := false]> w))
   else stop_with (Faulted "internal_data_"));;
  l ← gets last_seen_used_idx_;
  modify (set_last (<[q := u32 (last + 1)]> l));;
  this ← gets this_;
  dev_on_sched (Wakeup (Some (device_channel this))).
Fixpoint gpu_notify_loop (q : nat) (fuel : nat) : M device () :=
  v ← get_queue q;
  l ← gets last_seen_used_idx_;
  last ← of_option (Faulted "last_seen_used_idx_") (l !! q);
  if last =? used_idx (used v) then mret ()
  else match fuel with
       | O => stop_with OutOfFuel
       | S fuel => gpu_complete_one q v last;; gpu_notify_loop q fuel
       end.
Definition GPU_UsedBufferNotify (fuel : nat) : M device () :=
  guarded (guarded (gpu_notify_loop 0 fuel;; gpu_notify_loop 1 fuel)).
(** [GPUDevice::Init]: the result holds [config_.num_scanouts] *)
Definition GPU_Init (addr_ : Z) (vm : vmstate) : io (res (option Z * nego)) :=
  let s := Nego false [] [] vm in
  ok ← Validate addr_ GPU_device;
  if negb ok then mret (Ok (None, s))
  else
    r ← init addr_ (feature_value <$> [VIRTIO_F_NOTIFY_ON_EMPTY; VIRTIO_F_ANY_LAYOUT; VIRTIO_F_RING_INDIRECT_DESC])
      (gpu_feature_value <$> [VIRTIO_GPU_F_EDID]) 2 s;
    match r with
    | Stop e => mret (Stop e)
    | Ok (false, s) => mret (Ok (None, s))
    | Ok (true, s) =>
      _ ← R_WORD (mmio addr_ Config);
      _ ← R_WORD (mmio addr_ Config + 4);
      num_scanouts ← R_WORD (mmio addr_ Config + 8);
      _ ← R_WORD (mmio addr_ Config + 12);
      mret (Ok (Some num_scanouts, s))
    end.

(** * The system calls of the display (syscalls/impl.cc) *)
Section calls.
Context {D : Type} `{BlockDevice D}.
Context (reply : list command → option response).
Context (req_addr resp_addr flags_addr : Z).
Abbreviation KG := (M (kernel D * gpu)).
Definition on_k {A} (m : M (kernel D) A) : KG A := λ s,
  match m s.1 with Ok (a, k) => Ok (a, (k, s.2)) | Stop e => Stop e end.
(** the device's operations use the kernel's page allocator *)
Definition on_gpu {A} (m : M gstate A) : KG A := λ s,
  match on_vm (λ vm, match m (GState s.2 vm) with
                     | Ok (a, g) => Ok ((a, g_gpu g), g_vm g) | Stop e => Stop e end) s.1 with
  | Ok ((a, g), k) => Ok (a, (k, g)) | Stop e => Stop e
  end.
Definition gpu_root : KG Z := t ← on_k ThisTask; mret (page_table t).
Definition first_mode (r : response) : KG virtio_gpu_rect := of_option (Faulted "pmodes[0]") (p_modes r !! 0%nat).
Definition sys_get_screen_info : KG Z :=
  info ← on_k (GetAddrArg 0);
  if info =? 0 then mret (-1) else
  display_info ← on_gpu (GetDisplayInfo reply);
  r ← first_mode display_info;
  on_k (on_vm (vm_write (info + 4) (le_bytes 4 (height r))));;
  on_k (on_vm (vm_write info (le_bytes 4 (width r))));;
  mret 0.
Definition sys_framebuffer : KG Z :=
  root ← gpu_root;
  info ← on_gpu (GetDisplayInfo reply);
  rect ← first_mode info;
  let memory_size := u32 (u32 (height rect * width rect) * 4) in
  addr ← on_k (on_this (ExpandMemory memory_size));
  map_ret ← on_gpu (SetupFramebuffer reply req_addr resp_addr flags_addr root rect 0 addr memory_size);
  if negb map_ret then mret 0 else mret (s32 addr).
Definition sys_frame_flush : KG Z := on_gpu (Flush reply flags_addr);; mret 0.
Definition sys_setup_cursor : KG Z :=
  root ← gpu_root;
  cursor_image ← on_k (GetRawArg 0);
  _ ← on_gpu (SetupCursor reply req_addr resp_addr flags_addr root cursor_image 0 0 0 0);
  mret 0.
Definition sys_move_cursor : KG Z :=
  px ← on_k (GetRawArg 0); py ← on_k (GetRawArg 1);
  on_gpu (MoveCursor reply (u32 px) (u32 py));; mret 0.
Definition sys_detach_framebuffer : KG Z :=
  r ← on_gpu (Drop reply);
  if negb r then mret (-1) else mret 0.
(** their places in the table of system calls *)
Definition display_call (num : Z) : option (KG Z) :=
  if num =? 18 then Some sys_get_screen_info else if num =? 19 then Some sys_framebuffer
  else if num =? 20 then Some sys_frame_flush else if num =? 21 then Some sys_setup_cursor
  else if num =? 22 then Some sys_move_cursor else if num =? 23 then Some sys_detach_framebuffer else None.
End calls.

(** * Specification *)
(** the physical address a program's address stands for *)
Definition phys (m : mem) (T : ptree) (va : Z) : Z :=
  match translate m T va with Some (p, _) => p + va mod PGSIZE | None => 0 end.
(** the entries that cover [size] bytes from [addr], one page at a time *)
Fixpoint entry_list (tr : Z → Z) (n : nat) (addr size : Z) : list (Z * Z) :=
  match n with
  | O => []
  | S n =>
    let len := Z.min size (PGSIZE - addr mod PGSIZE) in
    (tr addr, len) :: entry_list tr n (addr + len) (size - len)
  end.
Definition entry_bytes (e : Z * Z) : list Z := le_bytes 8 e.1 ++ le_bytes 4 e.2 ++ le_bytes 4 0.
(** the addresses an entry stands for *)
Definition entry_range (e : Z * Z) : list Z := seqZ e.1 e.2.

(** ** The device's side (virtio specification, section 5.7): its resources with
    their size and the bytes of their backing, and the resource it shows *)
Record host := Host { resources : gmap Z (Z * Z * option Z); shown : option Z }.
Definition host0 : host := Host ∅ None.
Definition fits (r : virtio_gpu_rect) (w h : Z) : bool := (rx r + width r <=? w) && (ry r + height r <=? h).
(** one command; [None] when the device refuses it *)
Definition host_step (d : host) (b : body) : option host :=
  match b with
  | get_display_info | update_cursor _ _ _ _ _ _ => Some d
  | resource_create_2d id _ w h =>
    match resources d !! id with
    | None => if negb (id =? 0) && (0 <? w) && (0 <? h) then Some (Host (<[id := (w, h, None)]> (resources d)) (shown d)) else None
    | Some _ => None
    end
  | resource_attach_backing id n es =>
    match resources d !! id with
    | Some (w, h, None) =>
      if Z.of_nat (length es) =? n then Some (Host (<[id := (w, h, Some (foldr Z.add 0 es.*2))]> (resources d)) (shown d)) else None
    | _ => None
    end
  | resource_detach_backing id =>
    match resources d !! id with
    | Some (w, h, Some _) => Some (Host (<[id := (w, h, None)]> (resources d)) (shown d))
    | _ => None
    end
  | set_scanout r _ id =>
    match resources d !! id with
    | Some (w, h, _) => if fits r w h then Some (Host (resources d) (Some id)) else None
    | None => None
    end
  | transfer_to_host_2d r offset id =>
    match resources d !! id with
    | Some (w, h, Some bytes) => if fits r w h && (offset + 4 * (w * h) <=? bytes) then Some d else None
    | _ => None
    end
  | resource_flush r id =>
    match resources d !! id with
    | Some (w, h, _) => if fits r w h then Some d else None
    | None => None
    end
  | resource_unref id =>
    match resources d !! id with
    | Some _ => Some (Host (delete id (resources d)) (if decide (shown d = Some id) then None else shown d))
    | None => None
    end
  end.
Definition host_run (h : list command) : option host := foldl (λ o c, d ← o; host_step d (c_body c)) (Some host0) h.
Definition ok_type (b : body) : Z :=
  match b with get_display_info => VIRTIO_GPU_RESP_OK_DISPLAY_INFO | _ => VIRTIO_GPU_RESP_OK_NODATA end.
(** a device that carries out every command it does not refuse, and gives the flags
    and the fence of a command back in its answer *)
Definition conforms (reply : list command → option response) : Prop :=
  ∀ h c d d', host_run h = Some d → host_step d (c_body c) = Some d' →
    ∃ r, reply (h ++ [c]) = Some r ∧ h_type (p_hdr r) = ok_type (c_body c) ∧
      h_flags (p_hdr r) = h_flags (c_hdr c) ∧ h_fence (p_hdr r) = h_fence (c_hdr c).

(** * Lemmas: entries *)
Lemma entry_list_ext tr tr' n : ∀ addr size, (∀ a, tr a = tr' a) → entry_list tr n addr size = entry_list tr' n addr size.
Proof. induction n as [|n IH]; intros addr size H; [done|]. cbn [entry_list]. cbv zeta. by rewrite H, IH. Qed.
Lemma length_entry_list tr n : ∀ addr size, length (entry_list tr n addr size) = n.
Proof. induction n as [|n IH]; intros addr size; [done|]. cbn. by rewrite IH. Qed.
Lemma entry_list_covers tr n : ∀ addr size, 0 ≤ addr → 0 ≤ size →
  size = 0 ∨ addr mod PGSIZE + size ≤ Z.of_nat n * PGSIZE → (∀ a b, addr ≤ a → a ≤ b < addr + size → b / PGSIZE = a / PGSIZE → tr b = tr a + (b - a)) →
  concat (entry_range <$> entry_list tr n addr size) = tr <$> seqZ addr size.
Proof.
  induction n as [|n IH]; intros addr size Ha Hs Hn Htr; cbn [entry_list].
  { pose proof (Z.mod_pos_bound addr PGSIZE ltac:(done)). by replace size with 0 by lia. }
  cbv zeta. set (len := Z.min size (PGSIZE - addr mod PGSIZE)).
  assert (0 ≤ len ≤ size ∧ len ≤ PGSIZE - addr mod PGSIZE ∧ (len = size ∨ len = PGSIZE - addr mod PGSIZE)) as (Hl & Hl2 & Hl3).
  { pose proof (Z.mod_pos_bound addr PGSIZE ltac:(done)). subst len. lia. }
  cbn [fmap list_fmap concat]. change (list_fmap _ _ entry_range (entry_list tr n (addr + len) (size - len)))
    with (entry_range <$> entry_list tr n (addr + len) (size - len)).
  assert (tr <$> seqZ addr size = (tr <$> seqZ addr len) ++ (tr <$> seqZ (addr + len) (size - len))) as ->.
  { rewrite <-fmap_app, <-seqZ_app by lia. do 2 f_equal. lia. }
  f_equal.
  - unfold entry_range. cbn [fst snd]. apply list_eq_same_length with (Z.to_nat len); rewrite ?length_fmap, ?length_seqZ; try done.
    intros i x y Hi Ex Ey. apply lookup_seqZ in Ex as [-> _]. rewrite list_lookup_fmap in Ey.
    apply fmap_Some in Ey as (z & Ez & ->). apply lookup_seqZ in Ez as [-> _].
    rewrite (Htr addr (addr + Z.of_nat i)); [lia|lia|lia|]. unfold PGSIZE in *. dlia.
  - apply IH; [lia|lia| |].
    + destruct Hl3 as [->|Hz]; [left; lia|]. destruct Hn as [->|Hn]; [left; lia|right].
      assert ((addr + len) mod PGSIZE = 0) as -> by (unfold PGSIZE in *; dlia). lia.
    + intros a b Hab Hb. apply Htr; lia.
Qed.
Lemma phys_same_page m T a b : 0 ≤ a < 2 ^ 39 → 0 ≤ b < 2 ^ 39 → b / PGSIZE = a / PGSIZE → is_Some (translate m T a) →
  phys m T b = phys m T a + (b - a).
Proof.
  intros Ha Hb Hab [[p f] Et]. unfold phys. assert (translate m T b = translate m T a) as ->.
  { assert (∀ i, 0 ≤ i → vpn b i = vpn a i) as Hv by
      (intros i Hi; rewrite !vpn_div, !Z.pow_add_r, <-!Z.div_div by lia; change (2 ^ 12) with PGSIZE; by rewrite Hab).
    unfold translate, leaf_pte. by rewrite !Hv by lia. }
  rewrite Et. unfold PGSIZE in *. dlia.
Qed.

(** * Lemmas: bytes of memory *)
Lemma length_entry_bytes e : length (entry_bytes e) = 16%nat.
Proof. unfold entry_bytes. by rewrite !length_app, !length_le_bytes. Qed.
Lemma read_entry_stored es : ∀ m a i e, es !! i = Some e → 0 ≤ e.1 < 2 ^ 64 → 0 ≤ e.2 < 2 ^ 32 →
  read_entry (store_bytes m a (concat (entry_bytes <$> es))) (a + 16 * Z.of_nat i) = e.
Proof.
  intros m a i [pa len] Hi Hpa Hlen. cbn [fst snd] in *. apply list_elem_of_split_length in Hi as (l1 & l2 & -> & ->).
  rewrite fmap_app, concat_app. cbn [fmap list_fmap concat]. unfold entry_bytes at 2. cbn [fst snd].
  set (p := concat (entry_bytes <$> l1)). assert (Z.of_nat (length p) = 16 * Z.of_nat (length l1)) as Hp.
  { subst p. rewrite (length_concat_eq _ 16), length_fmap; [lia|]. apply Forall_fmap, Forall_true. intros e. apply length_entry_bytes. }
  unfold read_entry. rewrite <-!app_assoc, <-Hp. f_equal.
  - rewrite load_le_stored. apply Z.mod_small. lia.
  - replace (a + Z.of_nat (length p) + 8) with (a + Z.of_nat (length (p ++ le_bytes 8 pa))) by (rewrite length_app, length_le_bytes; lia).
    rewrite (app_assoc p). rewrite load_le_stored. apply Z.mod_small. lia.
Qed.

(** * Lemmas: writing to pages that are neither free nor tables *)
Definition page_of (a : Z) : Z := a - a mod PGSIZE.
Definition data_region (fl : list Z) (T : ptree) (a n : Z) : Prop := ∀ b, a ≤ b < a + n → data_page fl T (page_of b).
Lemma region_apart fl T a l m q b : data_region fl T a (Z.of_nat (length l)) → page_ok q → q ∈ fl ∨ q ∈ pt_pages T →
  q ≤ b < q + 4096 → load8 (store_bytes m a l) b = load8 m b.
Proof.
  intros Hd (Hq & _) Hin Hb. rewrite load8_store_bytes. case_decide as Hab; [|done]. exfalso.
  destruct (Hd b Hab) as (_ & H1 & H2). assert (page_of b = q) as Hpq by (unfold page_of, PGSIZE in *; dlia).
  rewrite Hpq in *. naive_solver.
Qed.
Lemma region_written s fl root T a l : pt_rep s fl root T → data_region fl T a (Z.of_nat (length l)) →
  let s' := set_mem (store_bytes (vm_mem s) a l) s in
  pt_rep s' fl root T ∧ (∀ va, translate (vm_mem s') T va = translate (vm_mem s) T va) ∧ (vm_inv s fl → vm_inv s' fl).
Proof.
  intros Hpt Hd s'.
  assert (∀ k q b, T !! k = Some q → q ≤ b < q + 4096 → load8 (vm_mem s') b = load8 (vm_mem s) b) as Hsame.
  { intros k q b Hk Hb. destruct (pt_page _ _ _ _ Hpt _ _ Hk) as [Hq _].
    apply (region_apart fl T a l _ q b); [done|done| |done]. right. apply pt_pages_elem. by exists k. }
  split_and!.
  - eapply pt_rep_mem; [done|]. intros; by eapply Hsame.
  - intros va. apply translate_mem. intros; by eapply Hsame.
  - intros Hi. apply vm_inv_store; [done|]. intros q b Hq Hb. pose proof (inv_pages _ _ Hi) as (Hfl & _).
    rewrite Forall_forall in Hfl. apply (region_apart fl T a l _ q b); [done|by apply Hfl|by left|lia].
Qed.
Lemma data_region_sub fl T a n b k : data_region fl T a n → a ≤ b → b + k ≤ a + n → data_region fl T b k.
Proof. intros H H1 H2 c Hc. apply H. lia. Qed.
Lemma data_region_ram fl T a n : data_region fl T a n → 0 < n → ram_ok a n = true.
Proof.
  intros H Hn. destruct (H a ltac:(lia)) as ((_ & H1 & _) & _). destruct (H (a + n - 1) ltac:(lia)) as ((H0 & _ & H2) & _).
  unfold page_of, PGSIZE in *. unfold ram_ok. pose proof (Z.mod_pos_bound a 4096). pose proof (Z.mod_pos_bound (a + n - 1) 4096).
  unfold KERNEL_BASE, MEMORY_END in *. lia.
Qed.
Lemma phys_ext m m' T : (∀ va, translate m' T va = translate m T va) → ∀ va, phys m' T va = phys m T va.
Proof. intros H va. unfold phys. by rewrite H. Qed.
Lemma VAToPA_phys s fl T root va : pt_rep s fl root T → 0 ≤ va < 2 ^ 64 → ∃ f, VAToPA root va s = Ok ((phys (vm_mem s) T va, f), s).
Proof.
  intros Hpt Hva. rewrite (VAToPA_ok s fl T root va Hpt Hva). unfold phys.
  destruct (translate _ _ _) as [[p f]|]; by eexists.
Qed.
Lemma generate_run n : ∀ E addr size g vm fl root T,
  pt_rep vm fl root T → data_region fl T E (16 * Z.of_nat n) → 0 ≤ addr → 0 ≤ size → addr + size < 2 ^ 64 →
  generate_entries n E root addr size (GState g vm) =
    Ok ((), GState g (set_mem (store_bytes (vm_mem vm) E (concat (entry_bytes <$> entry_list (phys (vm_mem vm) T) n addr size))) vm)).
Proof.
  induction n as [|n IH]; intros E addr size g vm fl root T Hpt Hd Ha Hs Hm; cbn [generate_entries]; [by destruct vm|].
  cbv zeta. cbn [entry_list]. cbv zeta. rewrite fmap_cons. cbn [concat].
  assert ((if PGSIZE - addr mod PGSIZE <? size then PGSIZE - addr mod PGSIZE else size) = Z.min size (PGSIZE - addr mod PGSIZE)) as ->.
  { destruct (Z.ltb_spec (PGSIZE - addr mod PGSIZE) size); lia. }
  pose proof (Z.mod_pos_bound addr PGSIZE ltac:(done)). set (len := Z.min size (PGSIZE - addr mod PGSIZE)).
  assert (0 ≤ len ≤ size) as Hlen by (subst len; lia).
  destruct (VAToPA_phys vm fl T root addr Hpt ltac:(lia)) as (f & E1).
  erewrite (bind_Ok (on_mem _) _ _ (phys (vm_mem vm) T addr, f) (GState g vm)) by (unfold on_mem; cbn [g_vm g_gpu]; by rewrite E1).
  cbv iota beta. change (le_bytes 8 (phys (vm_mem vm) T addr) ++ le_bytes 4 len ++ le_bytes 4 0) with (entry_bytes (phys (vm_mem vm) T addr, len)). set (l := entry_bytes _).
  assert (length l = 16%nat) as Hl by apply length_entry_bytes.
  assert (data_region fl T E (Z.of_nat (length l))) as Hd1 by (eapply data_region_sub; [exact Hd|lia|lia]).
  erewrite (bind_Ok (on_mem _) _ _ () (GState g (set_mem (store_bytes (vm_mem vm) E l) vm))).
  2: { unfold on_mem, vm_write. cbn [g_vm g_gpu]. rewrite (data_region_ram _ _ _ _ Hd1) by lia. by rewrite orb_true_r. }
  destruct (region_written vm fl root T E l Hpt Hd1) as (Hpt1 & Htr1 & _). cbv zeta in Hpt1, Htr1.
  rewrite (wrap_small 64 (addr + len)), (wrap_small 64 (size - len)) by lia.
  rewrite (IH (E + 16) (addr + len) (size - len) g _ fl root T Hpt1); [|eapply data_region_sub; [exact Hd|lia|lia]|lia|lia|lia].
  cbn [vm_mem set_mem]. do 3 f_equal. destruct vm. unfold set_mem. cbn. f_equal.
  rewrite store_bytes_app, Hl. change (Z.of_nat 16) with 16. do 3 f_equal.
  apply entry_list_ext. by apply phys_ext.
Qed.

(** * Lemmas: the indirect table *)
Lemma put_indirect_run i x g vm : (Z.to_nat i < length (indirect_desc_ g))%nat →
  put_indirect i x (GState g vm) = Ok ((), GState (set_indirect (<[Z.to_nat i := x]> (indirect_desc_ g)) g) vm).
Proof.
  intros Hi%Nat.ltb_lt. unfold put_indirect. unfold mbind at 1, M_bind at 1, gets. cbn [g_gpu]. by rewrite Hi.
Qed.
Definition entry_desc (E k : Z) : virtq_desc := Desc (u64 (E + k * 16)) 16 VIRTQ_DESC_F_NEXT (u16 (k + 2)).
Lemma generate_descs_run n : ∀ E k g vm, 0 ≤ k → (Z.to_nat k + n < length (indirect_desc_ g))%nat →
  ∃ t, generate_descs n E k (GState g vm) = Ok ((), GState (set_indirect t g) vm) ∧ length t = length (indirect_desc_ g) ∧
    ∀ j, t !! j = if decide (Z.to_nat k < j ≤ Z.to_nat k + n)%nat then Some (entry_desc E (Z.of_nat j - 1)) else indirect_desc_ g !! j.
Proof.
  induction n as [|n IH]; intros E k g vm Hk Hn; cbn [generate_descs].
  { exists (indirect_desc_ g). split; [by destruct g|]. split; [done|]. intros j. by rewrite decide_False by lia. }
  rewrite (bind_Ok _ _ _ _ _ (put_indirect_run (k + 1) _ g vm ltac:(lia))).
  destruct (IH E (k + 1) (set_indirect (<[Z.to_nat (k + 1) := entry_desc E k]> (indirect_desc_ g)) g) vm) as (t & E1 & Hl & Ht).
  { lia. } { cbn. rewrite length_insert. lia. }
  exists t. fold (entry_desc E k). rewrite E1. split; [done|]. split; [rewrite Hl; cbn; by rewrite length_insert|].
  intros j. rewrite Ht. cbn [indirect_desc_ set_indirect]. destruct (decide (j = Z.to_nat (k + 1))) as [->|Hj].
  - rewrite decide_False by lia. rewrite decide_True by lia. rewrite list_lookup_insert_eq by lia. do 2 f_equal. lia.
  - rewrite list_lookup_insert_ne by done. do 2 case_decide; done || lia.
Qed.
Lemma walk_S n t i : walk (S n) t i = match t !! Z.to_nat i with
  | None => [] | Some x => desc_view x :: if nonzero (Z.land (d_flags x) VIRTQ_DESC_F_NEXT) then walk n t (d_next x) else [] end.
Proof. done. Qed.
(** the chain of the table: the message, the entries, the answer *)
Lemma walk_entries (t : list virtq_desc) E resp n : n ≤ 510 → t !! Z.to_nat (n + 1) = Some (fill_desc resp sizeof_hdr VIRTQ_DESC_F_WRITE 0) →
  (∀ k, 0 ≤ k < n → t !! Z.to_nat (k + 1) = Some (entry_desc E k)) → ∀ m k fuel, 0 ≤ k → k + Z.of_nat m = n → (m < fuel)%nat →
  walk fuel t (k + 1) = ((λ k, (u64 (E + k * 16), 16, false)) <$> seqZ k (Z.of_nat m)) ++ [(u64 resp, sizeof_hdr, true)].
Proof.
  intros Hn Hl Ht. induction m as [|m IH]; intros k fuel Hk Hm Hf; (destruct fuel as [|fuel]; [lia|]); cbn [walk].
  - replace k with n by lia. by rewrite Hl.
  - rewrite Ht by lia. rewrite seqZ_cons by lia. cbn [entry_desc d_flags d_next fmap list_fmap app].
    change (nonzero (Z.land VIRTQ_DESC_F_NEXT VIRTQ_DESC_F_NEXT)) with true. cbv iota. rewrite wrap_small by lia.
    replace (k + 2) with (k + 1 + 1) by lia. rewrite (IH (k + 1)) by lia.
    replace (Z.pred (Z.of_nat (S m))) with (Z.of_nat m) by lia. by replace (Z.succ k) with (k + 1) by lia.
Qed.
Lemma table_entries_stored (t : list virtq_desc) E req resp m (es : list (Z * Z)) :
  let n := Z.of_nat (length es) in
  n ≤ 510 → t !! 0%nat = Some (fill_desc req 32 VIRTQ_DESC_F_NEXT 1) →
  t !! Z.to_nat (n + 1) = Some (fill_desc resp sizeof_hdr VIRTQ_DESC_F_WRITE 0) →
  (∀ k, 0 ≤ k < n → t !! Z.to_nat (k + 1) = Some (entry_desc E k)) →
  0 ≤ E → E + 16 * n < 2 ^ 64 → Forall (λ e, 0 ≤ e.1 < 2 ^ 64 ∧ 0 ≤ e.2 < 2 ^ 32) es →
  table_entries (store_bytes m E (concat (entry_bytes <$> es))) t = es.
Proof.
  intros n Hn H0 Hl Ht HE HE2 Hes. unfold table_entries, table_chain.
  change (Z.to_nat indirect_size) with (S 511). rewrite walk_S.
  change (Z.to_nat 0) with 0%nat. rewrite H0. cbn [fill_desc d_flags d_next tail].
  change (nonzero (Z.land (u16 VIRTQ_DESC_F_NEXT) VIRTQ_DESC_F_NEXT)) with true.
  change (if nonzero (Z.land VIRTQ_DESC_F_NEXT VIRTQ_DESC_F_NEXT) then u16 1 else 0) with (0 + 1). cbv iota.
  rewrite (walk_entries t E resp n Hn Hl Ht (length es) 0) by lia.
  rewrite list.filter_app, fmap_app. 
  rewrite (filter_agree _ (λ _, True)), filter_true by (by intros x (k & -> & _)%list_elem_of_fmap).
  rewrite filter_cons_False by done. cbn [fmap list_fmap]. rewrite app_nil_r, <-list_fmap_compose.
  apply list_eq_same_length with (length es); [done|by rewrite length_fmap, length_seqZ; lia|].
  intros i x y Hi Ex Ey. rewrite list_lookup_fmap in Ex. apply fmap_Some in Ex as (k & Ek & ->).
  apply lookup_seqZ in Ek as [-> _]. unfold compose. cbn [fst].
  eapply Forall_lookup_1 in Hes as [He1 He2]; [|exact Ey]. rewrite wrap_small by lia.
  replace (E + (0 + Z.of_nat i) * 16) with (E + 16 * Z.of_nat i) by lia. by apply read_entry_stored.
Qed.
Lemma phys_range m T va : 0 ≤ phys m T va < 2 ^ 64.
Proof.
  unfold phys. destruct (translate m T va) as [[p f]|] eqn:E; [|lia]. apply translate_leaf in E as (q & _ & _ & <-).
  pose proof (pte_target_range (load64 m (q + 8 * vpn va 0))). pose proof (Z.mod_pos_bound va PGSIZE ltac:(done)). unfold PGSIZE in *. lia.
Qed.
Lemma entry_list_range m T n : ∀ addr size, 0 ≤ size → Forall (λ e, 0 ≤ e.1 < 2 ^ 64 ∧ 0 ≤ e.2 < 2 ^ 32) (entry_list (phys m T) n addr size).
Proof.
  induction n as [|n IH]; intros addr size Hs; cbn [entry_list]; [constructor|]. cbv zeta.
  pose proof (Z.mod_pos_bound addr PGSIZE ltac:(done)) as Hb. constructor; [|apply IH; lia].
  cbn [fst snd]. split; [apply phys_range|]. unfold PGSIZE in *. lia.
Qed.

(** * Lemmas: giving the entry pages back *)
Lemma free_pages_run n : ∀ E s fl root T, vm_inv s fl → pt_rep s fl root T →
  (∀ p, p ∈ run_pages E n → data_page fl T p) → ∃ s', free_pages n E s = Ok ((), s') ∧
    vm_inv s' (rev (run_pages E n) ++ fl) ∧ pt_rep s' (rev (run_pages E n) ++ fl) root T ∧
    ∀ va, translate (vm_mem s') T va = translate (vm_mem s) T va.
Proof.
  induction n as [|n IH]; intros E s fl root T Hi Hr Hd; cbn [free_pages]; [by exists s|].
  rewrite run_pages_S in *. destruct (Hd E ltac:(by left)) as (Hp & Hpf & HpT).
  destruct (proj1 (wp_ok _ _ _) (FreePage_pa_ok s fl E Hi Hp Hpf)) as ([] & s1 & E1 & Hi1 & Hpost).
  rewrite (bind_Ok _ _ _ _ _ E1).
  assert (∀ k q a, T !! k = Some q → q ≤ a < q + 4096 → load8 (vm_mem s1) a = load8 (vm_mem s) a) as Hm.
  { intros k q a Hk. destruct (pt_page _ _ _ _ (pt_rep_free _ _ E _ _ Hr HpT) k q Hk). apply (post_page (E :: fl)); try done.
    by apply (inv_pages _ _ Hi1). }
  assert (pt_rep s1 (E :: fl) root T) as Hr1 by (eapply pt_rep_mem; [by apply pt_rep_free|]; intros; by eapply Hm).
  pose proof (page_ok_64 _ Hp). rewrite wrap_small by (unfold PGSIZE; lia).
  destruct (IH (E + PGSIZE) s1 (E :: fl) root T Hi1 Hr1) as (s' & E2 & Hi2 & Hr2 & Ht2).
  { intros p Hin. destruct (Hd p ltac:(by right)) as (H1 & H2 & H3). split; [done|]. split; [|done].
    apply not_elem_of_cons. split; [|done]. intros ->. unfold run_pages in Hin.
    apply list_elem_of_fmap in Hin as (j & Hj & _). unfold PGSIZE in Hj. lia. }
  exists s'. cbn [rev]. rewrite <-app_assoc. split_and!; [done..|].
  intros va. rewrite Ht2. apply translate_mem. intros; by eapply Hm.
Qed.

(** * Lemmas: one command *)
(** the answer the driver's checks let through *)
Definition acks (flags_addr flags : Z) (r : response) : Prop :=
  h_type (p_hdr r) = VIRTIO_GPU_RESP_OK_NODATA ∧
  (nonzero (Z.land flags VIRTIO_GPU_FLAG_FENCE) = true →
   nonzero (Z.land (h_flags (p_hdr r)) VIRTIO_GPU_FLAG_FENCE) = true ∧ h_fence (p_hdr r) = flags_addr).
(** the pages of [size] bytes at [addr] *)
Definition page_count (addr size : Z) : Z := (addr mod PGSIZE + size + PGSIZE - 1) / PGSIZE.
Section commands.
Context (reply : list command → option response) (req_addr resp_addr flags_addr : Z).
Lemma exchange_run c r g vm : reply (sent g ++ [c]) = Some r →
  exchange reply c (GState g vm) = Ok (r, GState (set_sent (sent g ++ [c]) g) vm).
Proof. intros Hr. unfold exchange, mbind, M_bind, gets. cbn [g_gpu]. by rewrite Hr. Qed.
Lemma check_type_run r t s : h_type (p_hdr r) = t → check_type (p_hdr r) t s = Ok ((), s).
Proof. intros <-. unfold check_type. by rewrite Z.eqb_refl. Qed.
Lemma check_flags_run r flags s : acks flags_addr flags r → check_flags flags_addr (p_hdr r) flags s = Ok ((), s).
Proof.
  intros [_ Hf]. unfold check_flags. destruct (nonzero _); [|done]. destruct (Hf eq_refl) as [H1 H2].
  unfold check_fence_id. by rewrite H1, H2, Z.eqb_refl.
Qed.
Lemma attach_pages addr size : 0 < size → 0 ≤ addr < 2 ^ 63 → page_count addr size ≤ 510 →
  u32 (u64 (size + u64 (addr - AddrCastDown addr) + PGSIZE - 1) / PGSIZE) = page_count addr size ∧
  1 ≤ page_count addr size ∧ addr mod PGSIZE + size ≤ page_count addr size * PGSIZE.
Proof.
  intros Hs Ha Hn. pose proof (Z.mod_pos_bound addr PGSIZE ltac:(done)) as Hb. unfold page_count in *.
  rewrite AddrCastDown_spec by lia. replace (addr - (addr - addr mod PGSIZE)) with (addr mod PGSIZE) by lia.
  rewrite (wrap_small 64 (addr mod PGSIZE)) by (unfold PGSIZE in *; lia).
  replace (size + addr mod PGSIZE + PGSIZE - 1) with (addr mod PGSIZE + size + PGSIZE - 1) by lia.
  set (x := addr mod PGSIZE + size) in *. rewrite (wrap_small 64) by (unfold PGSIZE in *; dlia).
  split; [apply wrap_small; unfold PGSIZE in *; dlia|]. unfold PGSIZE in *. split; dlia.
Qed.
(** the pages that [AllocContinuousPage] gave are a region of data pages *)
Lemma run_region (vm : vmstate) (fl : list Z) root T k (E : Z) (vm1 : vmstate) : vm_inv vm fl → pt_rep vm fl root T → k = 1 ∨ k = 2 → (3 ≤ length fl)%nat →
  MemoryList.bit_map_ vm !! 0%nat = Some 255 → AllocContinuousPage k vm = Ok (E, vm1) → E ≠ 0 →
  ∃ fl1, fl ≡ₚ run_pages E (Z.to_nat k) ++ fl1 ∧ vm_inv vm1 fl1 ∧ pt_rep vm1 fl1 root T ∧
    (∀ va, translate (vm_mem vm1) T va = translate (vm_mem vm) T va) ∧ 0 ≤ E < 2 ^ 33 ∧
    data_region fl1 T E (k * PGSIZE) ∧ ∀ p, p ∈ run_pages E (Z.to_nat k) → data_page fl1 T p.
Proof.
  intros Hi Hr Hk Hl H0 E1 HE. pose proof (wp_AllocContinuousPage vm fl k Hi Hk ltac:(lia) H0) as Hw.
  unfold wp in Hw. rewrite E1, (proj2 (Z.eqb_neq _ _) HE) in Hw. destruct Hw as (_ & fl1 & Hp & Hi1 & _ & Hpost).
  pose proof (inv_pages _ _ Hi) as (Hpk & Hnd & _). rewrite Hp in Hnd. apply NoDup_app in Hnd as (_ & Hdis & _).
  assert (∀ x q a, T !! x = Some q → q ≤ a < q + 4096 → load8 (vm_mem vm1) a = load8 (vm_mem vm) a) as Hm.
  { intros x q a Hx. destruct (pt_page _ _ _ _ Hr x q Hx). by apply (post_page fl). }
  assert (∀ p, p ∈ run_pages E (Z.to_nat k) → data_page fl1 T p) as Hd.
  { intros p Hin. assert (p ∈ fl) as Hpf by (rewrite Hp; apply elem_of_app; by left).
    split; [rewrite Forall_forall in Hpk; auto|]. split; [by apply Hdis|].
    intros (x & Hx)%pt_pages_elem. by destruct (pt_page _ _ _ _ Hr x p Hx). }
  assert (∀ j, 0 ≤ j < k → E + j * PGSIZE ∈ run_pages E (Z.to_nat k)) as Hin.
  { intros j Hj. apply list_elem_of_fmap. exists (Z.to_nat j). rewrite elem_of_seq. split; [by rewrite Z2Nat.id by lia|lia]. }
  destruct (Hd E) as ((Hal & Hlo & Hhi) & _). { specialize (Hin 0 ltac:(lia)). by replace (E + 0 * PGSIZE) with E in Hin by lia. }
  exists fl1. split_and!; [done|done| |intros va; apply translate_mem; intros; by eapply Hm| | | |done].
  - eapply pt_rep_mem; [|intros; by eapply Hm]. destruct Hr. constructor; try done. intros x q Hx.
    destruct (pt_page x q Hx) as [? Hq]. split; [done|]. rewrite Hp in Hq. by apply not_elem_of_app in Hq as [_ ?].
  - unfold KERNEL_BASE, MEMORY_END in *. lia.
  - pose proof (page_ok_64 E (conj Hal (conj Hlo Hhi))). lia.
  - intros b Hb. assert (page_of b = E + ((b - E) / PGSIZE) * PGSIZE) as -> by (unfold page_of, PGSIZE in *; dlia).
    apply Hd, Hin. unfold PGSIZE in *. dlia.
Qed.
(** the state after [g] has sent [c] *)
Definition sent_state (g : gpu) (c : command) (g' : gpu) : Prop :=
  sent g' = sent g ++ [c] ∧ length (indirect_desc_ g') = length (indirect_desc_ g) ∧ num_scanouts g' = num_scanouts g ∧
  screen_rect_ g' = screen_rect_ g ∧ resource_id_frame_buffer_ g' = resource_id_frame_buffer_ g ∧
  resource_id_cursor_ g' = resource_id_cursor_ g.
Definition attach_command (root id addr size flags : Z) (m : mem) (T : ptree) : command :=
  Command 0 (flags_hdr flags_addr VIRTIO_GPU_CMD_RESOURCE_ATTACH_BACKING flags)
    (resource_attach_backing id (page_count addr size)
      (entry_list (phys m T) (Z.to_nat (page_count addr size)) addr size)).
(** what [ResourceAttachBacking] needs of the allocator and of the program's memory *)
Record attach_ok (g : gpu) (vm : vmstate) (fl : list Z) (root : Z) (T : ptree) (addr size : Z) : Prop := {
  ao_inv : vm_inv vm fl;
  ao_rep : pt_rep vm fl root T;
  ao_table : length (indirect_desc_ g) = 512%nat;
  ao_size : 0 < size;
  ao_addr : 0 ≤ addr < 2 ^ 63;
  ao_pages : page_count addr size ≤ 510;
  ao_free : (3 ≤ length fl)%nat;
  ao_kernel : MemoryList.bit_map_ vm !! 0%nat = Some 255;
  ao_run : ∃ entrys vm1, AllocContinuousPage ((16 * page_count addr size + PGSIZE - 1) / PGSIZE) vm = Ok (entrys, vm1) ∧ entrys ≠ 0;
}.
Lemma attach_run root id addr size flags g vm fl T r :
  attach_ok g vm fl root T addr size →
  reply (sent g ++ [attach_command root id addr size flags (vm_mem vm) T]) = Some r → acks flags_addr flags r →
  ∃ g' vm' fl', ResourceAttachBacking reply req_addr resp_addr flags_addr root id addr size flags (GState g vm) = Ok ((), GState g' vm') ∧
    sent_state g (attach_command root id addr size flags (vm_mem vm) T) g' ∧ fl' ≡ₚ fl ∧ vm_inv vm' fl' ∧ pt_rep vm' fl' root T ∧
    ∀ va, translate (vm_mem vm') T va = translate (vm_mem vm) T va.
Proof.
  intros [Hi Hr Ht Hs Ha Hn Hl H0 (E & vm1 & E1 & HE)] Hrep Hack. unfold attach_command in *.
  destruct (attach_pages addr size Hs Ha Hn) as (Hpn & Hn1 & Hcov). set (n := page_count addr size) in *.
  set (k := (16 * n + PGSIZE - 1) / PGSIZE) in *. assert (k = 1 ∨ k = 2) as Hk by (subst k; unfold PGSIZE in *; dlia).
  assert (u32 (u64 (16 * n + PGSIZE - 1) / PGSIZE) = k) as Hk32.
  { rewrite (wrap_small 64) by (unfold PGSIZE; lia). apply wrap_small. subst k. lia. }
  destruct (run_region vm fl root T k E vm1 Hi Hr Hk Hl H0 E1 HE) as (fl1 & Hp & Hi1 & Hr1 & Ht1 & HE2 & Hd & Hdp).
  unfold ResourceAttachBacking. rewrite (proj2 (Z.eqb_neq size 0)) by lia. cbv zeta. rewrite Hpn. fold n. rewrite Hk32.
  rewrite (bind_Ok _ _ _ _ _ (put_indirect_run 0 _ g vm ltac:(rewrite Ht; cbn; lia))).
  set (g1 := set_indirect _ g). erewrite (bind_Ok (on_mem _) _ _ E (GState g1 vm1)) by (unfold on_mem; cbn [g_vm g_gpu]; by rewrite E1).
  assert (data_region fl1 T E (16 * Z.of_nat (Z.to_nat n))) as Hd1.
  { eapply data_region_sub; [exact Hd|lia|]. subst k. unfold PGSIZE in *. dlia. }
  assert (addr + size < 2 ^ 64) as Hmax.
  { pose proof (Z.mod_pos_bound addr PGSIZE ltac:(done)). clearbody n. unfold PGSIZE in *. lia. }
  rewrite (bind_Ok _ _ _ _ _ (generate_run (Z.to_nat n) E addr size g1 vm1 fl1 root T Hr1 Hd1 ltac:(lia) ltac:(lia) Hmax)).
  set (es := entry_list (phys (vm_mem vm1) T) (Z.to_nat n) addr size).
  assert (Z.of_nat (length es) = n) as Hes by (unfold es; rewrite length_entry_list; lia).
  set (vm2 := set_mem _ vm1).
  assert (length (indirect_desc_ g1) = 512%nat) as Hg1 by (cbn; by rewrite length_insert).
  destruct (generate_descs_run (Z.to_nat n) E 0 g1 vm2 ltac:(lia) ltac:(lia)) as (t & E2 & Hlt & Htt).
  rewrite (bind_Ok _ _ _ _ _ E2). rewrite (wrap_small 32 (n + 1)) by lia.
  rewrite (bind_Ok _ _ _ _ _ (put_indirect_run (n + 1) _ (set_indirect t g1) vm2 ltac:(cbn; lia))).
  cbn [indirect_desc_ set_indirect]. set (t2 := <[Z.to_nat (n + 1) := _]> t). set (g2 := set_indirect t2 _).
  assert (table_entries (vm_mem vm2) t2 = es) as Htab.
  { cbn [vm_mem vm2 set_mem]. apply (table_entries_stored t2 E req_addr resp_addr); rewrite ?Hes; unfold t2.
    - lia.
    - rewrite list_lookup_insert_ne by lia. rewrite Htt, decide_False by lia. cbn. rewrite list_lookup_insert_eq by lia. done.
    - apply list_lookup_insert_eq. lia.
    - intros j Hj. rewrite list_lookup_insert_ne by lia. rewrite Htt, decide_True by lia. do 2 f_equal. lia.
    - lia.
    - lia.
    - unfold es. apply entry_list_range. lia. }
  assert (es = entry_list (phys (vm_mem vm) T) (Z.to_nat n) addr size) as Hes2 by (apply entry_list_ext; by apply phys_ext).
  unfold mbind at 1, M_bind at 1, gets at 1. cbn [g_gpu g_vm]. change (indirect_desc_ g2) with t2. rewrite Htab, Hes2.
  rewrite (bind_Ok _ _ _ _ _ (exchange_run _ r g2 vm2 Hrep)).
  rewrite (bind_Ok _ _ _ _ _ (check_type_run r _ _ (proj1 Hack))), (bind_Ok _ _ _ _ _ (check_flags_run r _ _ Hack)).
  destruct (region_written vm1 fl1 root T E (concat (entry_bytes <$> es)) Hr1) as (Hr2 & Ht2 & Hi2).
  { rewrite (length_concat_eq _ 16), length_fmap by (apply Forall_fmap, Forall_true; intros e; apply length_entry_bytes).
    eapply data_region_sub; [exact Hd1|lia|lia]. }
  destruct (free_pages_run (Z.to_nat k) E vm2 fl1 root T (Hi2 Hi1) Hr2 Hdp) as (vm3 & E3 & Hi3 & Hr3 & Ht3).
  eexists _, vm3, _. split; [unfold on_mem; cbn [g_vm g_gpu]; by rewrite E3|]. split; [|split; [|split; [exact Hi3|split; [exact Hr3|]]]].
  - split; [done|]. split; [|done]. change (length t2 = length (indirect_desc_ g)). unfold t2. rewrite length_insert. lia.
  - rewrite Hp. by rewrite <-Permutation_rev.
  - intros va. by rewrite Ht3, Ht2, Ht1.
Qed.
End commands.

(** * Lemmas: a conforming device *)
Lemma host_run_snoc h c : host_run (h ++ [c]) = (d ← host_run h; host_step d (c_body c)).
Proof. unfold host_run. by rewrite foldl_app. Qed.
Lemma entry_list_bytes tr n : ∀ addr size, 0 ≤ size → size = 0 ∨ addr mod PGSIZE + size ≤ Z.of_nat n * PGSIZE →
  foldr Z.add 0 (entry_list tr n addr size).*2 = size.
Proof.
  induction n as [|n IH]; intros addr size Hs Hn; cbn [entry_list].
  { pose proof (Z.mod_pos_bound addr PGSIZE ltac:(done)). cbn. lia. }
  cbv zeta. pose proof (Z.mod_pos_bound addr PGSIZE ltac:(done)) as Hb.
  set (len := Z.min size (PGSIZE - addr mod PGSIZE)). assert (0 ≤ len ≤ size) as Hl by (subst len; lia).
  cbn [fmap list_fmap foldr snd]. change (list_fmap _ _ snd ?l) with (l.*2). rewrite IH; [lia|lia|].
  destruct (decide (len = size)); [left; lia|right]. assert (len = PGSIZE - addr mod PGSIZE) as Hz by (subst len; lia).
  assert ((addr + len) mod PGSIZE = 0) as -> by (unfold PGSIZE in *; dlia). lia.
Qed.
Section session.
Context (reply : list command → option response) (req_addr resp_addr flags_addr : Z).
Context (Hconf : conforms reply).
Definition issue (g : gpu) (h : ctrl_hdr) (b : body) : gpu := set_sent (sent g ++ [Command 0 h b]) g.
(** a command is sent, carried out and acknowledged *)
Lemma command_run g vm d d' type flags b : host_run (sent g) = Some d → host_step d b = Some d' →
  ok_type b = VIRTIO_GPU_RESP_OK_NODATA →
  ∃ r, exchange reply (Command 0 (flags_hdr flags_addr type flags) b) (GState g vm) =
      Ok (r, GState (issue g (flags_hdr flags_addr type flags) b) vm) ∧ acks flags_addr flags r ∧
    host_run (sent (issue g (flags_hdr flags_addr type flags) b)) = Some d'.
Proof.
  intros Hd Hs Ht. set (c := Command 0 _ b). destruct (Hconf (sent g) c d d' Hd Hs) as (r & Hr & H1 & H2 & H3).
  exists r. split; [by apply exchange_run|]. split; [|cbn [issue sent set_sent]; by rewrite host_run_snoc, Hd].
  split; [by rewrite H1|]. intros Hf. rewrite H2, H3. split; [exact Hf|]. cbn [c flags_hdr c_hdr h_fence].
  apply nonzero_true in Hf. unfold VIRTIO_GPU_FLAG_FENCE in *. change (Z.shiftl 1 0) with (Z.ones 1) in *.
  rewrite Z.land_ones in * by lia. rewrite (proj2 (Z.ltb_lt _ _)); [done|]. pose proof (Z.mod_pos_bound flags 2). change (2 ^ 1) with 2 in *. lia.
Qed.
Lemma checked_run g vm d d' type flags b : host_run (sent g) = Some d → host_step d b = Some d' →
  ok_type b = VIRTIO_GPU_RESP_OK_NODATA → let g' := issue g (flags_hdr flags_addr type flags) b in
  (r ← exchange reply (Command 0 (flags_hdr flags_addr type flags) b);
   check_type (p_hdr r) VIRTIO_GPU_RESP_OK_NODATA;; check_flags flags_addr (p_hdr r) flags) (GState g vm) = Ok ((), GState g' vm) ∧
  (r ← exchange reply (Command 0 (flags_hdr flags_addr type flags) b);
   check_type (p_hdr r) VIRTIO_GPU_RESP_OK_NODATA) (GState g vm) = Ok ((), GState g' vm) ∧
  host_run (sent g') = Some d'.
Proof.
  intros Hd Hs Ht. destruct (command_run g vm d d' type flags b Hd Hs Ht) as (r & E & Hack & Hrun). cbv zeta.
  rewrite !(bind_Ok _ _ _ _ _ E). rewrite (bind_Ok _ _ _ _ _ (check_type_run r _ _ (proj1 Hack))).
  rewrite (check_type_run r _ _ (proj1 Hack)), (check_flags_run flags_addr r _ _ Hack). done.
Qed.
Lemma Flush_run g vm d w h bytes : host_run (sent g) = Some d →
  resources d !! resource_id_frame_buffer_ g = Some (w, h, Some bytes) → fits (screen_rect_ g) w h = true → 4 * (w * h) ≤ bytes →
  ∃ l, Flush reply flags_addr (GState g vm) = Ok ((), GState (set_sent l g) vm) ∧ host_run l = Some d.
Proof.
  intros Hd Hres Hfit Hb. unfold Flush, TransferTo2D, ResourceFlush. unfold mbind at 1, M_bind at 1, gets. cbn [g_gpu].
  destruct (checked_run g vm d d VIRTIO_GPU_CMD_TRANSFER_TO_HOST_2D 0 (transfer_to_host_2d (screen_rect_ g) 0 (resource_id_frame_buffer_ g)))
    as (E1 & _ & H1); [done|cbn; rewrite Hres, Hfit; by rewrite (proj2 (Z.leb_le _ _)) by lia|done|].
  rewrite (bind_Ok _ _ _ _ _ E1). set (g1 := issue _ _ _) in *.
  destruct (checked_run g1 vm d d VIRTIO_GPU_CMD_RESOURCE_FLUSH 0 (resource_flush (screen_rect_ g) (resource_id_frame_buffer_ g)))
    as (_ & E2 & H2); [done|cbn; by rewrite Hres, Hfit|done|].
  eexists. split; [exact E2|exact H2].
Qed.
Lemma drop_resource_run g vm d id w h bytes clear : host_run (sent g) = Some d → 0 < id →
  resources d !! id = Some (w, h, Some bytes) → (∀ l, sent (clear (set_sent l g)) = l) →
  ∃ l d', drop_resource reply id clear (GState g vm) = Ok ((), GState (clear (set_sent l g)) vm) ∧
    host_run l = Some d' ∧ resources d' = delete id (resources d).
Proof.
  intros Hd Hid Hres Hcl. unfold drop_resource, ResourceDetachBacking, ResourceDestroy. rewrite (proj2 (Z.ltb_lt _ _) Hid).
  destruct (checked_run g vm d (Host (<[id := (w, h, None)]> (resources d)) (shown d)) VIRTIO_GPU_CMD_RESOURCE_DETACH_BACKING 0
    (resource_detach_backing id)) as (_ & E1 & H1); [done|cbn; by rewrite Hres|done|].
  rewrite (bind_Ok _ _ _ _ _ E1). set (g1 := issue _ _ _) in *. set (d1 := Host _ _) in *.
  destruct (checked_run g1 vm d1 (Host (delete id (resources d1)) (if decide (shown d = Some id) then None else shown d))
    VIRTIO_GPU_CMD_RESOURCE_UNREF 0 (resource_unref id)) as (_ & E2 & H2); [done|cbn; by rewrite lookup_insert_eq|done|].
  rewrite (bind_Ok _ _ _ _ _ E2). eexists _, _. split; [reflexivity|]. split; [exact H2|]. cbn. by rewrite delete_insert_eq.
Qed.
Lemma Drop_run g vm d w h bytes : host_run (sent g) = Some d → 0 < resource_id_frame_buffer_ g → resource_id_cursor_ g = 0 →
  resources d !! resource_id_frame_buffer_ g = Some (w, h, Some bytes) →
  ∃ l d', Drop reply (GState g vm) = Ok (true, GState (set_frame_id 0 (set_sent l g)) vm) ∧ host_run l = Some d' ∧
    resources d' = delete (resource_id_frame_buffer_ g) (resources d).
Proof.
  intros Hd Hid Hc Hres. unfold Drop. unfold mbind at 1, M_bind at 1, gets at 1. cbn [g_gpu].
  rewrite (proj2 (Z.eqb_neq _ 0)) by lia. cbn [andb].
  destruct (drop_resource_run g vm d (resource_id_frame_buffer_ g) w h bytes (set_frame_id 0)) as (l & d' & E & H1 & H2); [done..|].
  rewrite (bind_Ok _ _ _ _ _ E). exists l, d'. split; [|done]. unfold mbind at 1, M_bind at 1, gets. cbn [g_gpu resource_id_cursor_ set_frame_id set_sent].
  rewrite Hc. done.
Qed.
Lemma SetupFramebuffer_run root rect scanout_id addr size g vm fl T d :
  attach_ok g vm fl root T addr size → host_run (sent g) = Some d → resources d !! resource_id_frame_buffer = None →
  0 ≤ scanout_id < num_scanouts g → num_scanouts g < 2 ^ 32 → 0 < width rect → 0 < height rect → fits rect (width rect) (height rect) = true →
  ∃ l t vm' fl' d', SetupFramebuffer reply req_addr resp_addr flags_addr root rect scanout_id addr size (GState g vm) =
      Ok (true, GState (Gpu (num_scanouts g) rect resource_id_frame_buffer (resource_id_cursor_ g) t l) vm') ∧
    length t = 512%nat ∧ host_run l = Some d' ∧ shown d' = Some resource_id_frame_buffer ∧
    resources d' = <[resource_id_frame_buffer := (width rect, height rect, Some size)]> (resources d) ∧
    fl' ≡ₚ fl ∧ vm_inv vm' fl' ∧ pt_rep vm' fl' root T ∧ ∀ va, translate (vm_mem vm') T va = translate (vm_mem vm) T va.
Proof.
  intros Hao Hd Hres Hso Hns Hw Hh Hfit. unfold SetupFramebuffer. unfold mbind at 1, M_bind at 1, gets. cbn [g_gpu].
  rewrite (wrap_small 32) by lia. rewrite (proj2 (Z.ltb_ge _ _)) by lia. set (id := resource_id_frame_buffer) in *.
  set (g0 := Gpu (num_scanouts g) rect id (resource_id_cursor_ g) (indirect_desc_ g) (sent g)).
  rewrite (bind_Ok (upd_gpu _) _ _ () (GState (set_screen rect g) vm)) by done.
  rewrite (bind_Ok (upd_gpu _) _ _ () (GState g0 vm)) by done. unfold Create2dResource.
  destruct (checked_run g0 vm d (Host (<[id := (width rect, height rect, None)]> (resources d)) (shown d)) VIRTIO_GPU_CMD_RESOURCE_CREATE_2D 0
    (resource_create_2d id VIRTIO_GPU_FORMAT_R8G8B8A8_UNORM (width rect) (height rect))) as (E1 & _ & H1); [done| |done|].
  { cbn [host_step]. rewrite Hres. change (negb (id =? 0)) with true. by rewrite !(proj2 (Z.ltb_lt _ _)). }
  rewrite (bind_Ok _ _ _ _ _ E1). set (g1 := issue g0 _ _) in *. set (d1 := Host _ _) in *.
  pose proof (ao_size _ _ _ _ _ _ _ Hao) as Hsz. pose proof (ao_addr _ _ _ _ _ _ _ Hao) as Ha.
  destruct (attach_pages addr size Hsz Ha (ao_pages _ _ _ _ _ _ _ Hao)) as (_ & Hn1 & Hcov).
  set (d2 := Host (<[id := (width rect, height rect, Some size)]> (resources d1)) (shown d)).
  set (c := attach_command flags_addr root id addr size 0 (vm_mem vm) T).
  assert (host_step d1 (c_body c) = Some d2) as Hs2.
  { cbn [c attach_command c_body host_step resources d1]. rewrite lookup_insert_eq, length_entry_list, Z2Nat.id, Z.eqb_refl by lia.
    by rewrite entry_list_bytes by (lia || right; lia). }
  destruct (Hconf (sent g1) c d1 d2 H1 Hs2) as (r & Hr & R1 & R2 & R3).
  destruct (attach_run reply req_addr resp_addr flags_addr root id addr size 0 g1 vm fl T r) as (g2 & vm2 & fl2 & E2 & (S1 & S2 & S3 & S4 & S5 & S6) & P1 & P2 & P3 & P4).
  { by destruct Hao. } { exact Hr. } { split; [exact R1|done]. }
  rewrite (bind_Ok _ _ _ _ _ E2). assert (host_run (sent g2) = Some d2) as H2 by (by rewrite S1, host_run_snoc, H1).
  unfold SetScanout.
  destruct (checked_run g2 vm2 d2 (Host (resources d2) (Some id)) VIRTIO_GPU_CMD_SET_SCANOUT 0 (set_scanout rect scanout_id_ id))
    as (_ & E3 & H3); [done|cbn; by rewrite lookup_insert_eq, Hfit|done|].
  erewrite bind_Ok by exact E3. set (g3 := issue g2 _ _) in *.
  eexists (sent g3), (indirect_desc_ g2), vm2, fl2, _. split.
  { unfold mret, M_ret. do 3 f_equal. unfold g3, issue, set_sent. cbn [sent]. by rewrite S3, S4, S5, S6. }
  split; [rewrite S2; apply (ao_table _ _ _ _ _ _ _ Hao)|]. split; [exact H3|]. split; [done|].
  split; [|done]. cbn. by rewrite insert_insert_eq.
Qed.
End session.

(** [k] frames shown *)
Fixpoint flushes (reply : list command → option response) (flags_addr : Z) (k : nat) : M gstate () :=
  match k with O => mret () | S k => Flush reply flags_addr;; flushes reply flags_addr k end.

(** ** A concrete program: two pages mapped, of which it shows 4096 bytes *)
Definition demo_gvm : vmstate := state_of (MapMemory demo_root 0x10000 0x12000 6) demo_pt.
Definition demo_gpu : gpu := Gpu 1 rect0 0 0 (replicate 512 desc0) [].
Definition demo_reply (h : list command) : option response :=
  c ← last h;
  Some (Resp (Hdr (if host_run h then ok_type (c_body c) else 0x1203) (h_flags (c_hdr c)) (h_fence (c_hdr c))) []).
Lemma demo_conforms : conforms demo_reply.
Proof.
  intros h c d d' Hd Hs. unfold demo_reply. rewrite last_snoc. cbn [mbind option_bind].
  eexists. split; [reflexivity|]. cbn. by rewrite host_run_snoc, Hd; cbn; rewrite Hs.
Qed.
Lemma demo_gvm_mapped : ∃ ps fl T, length ps = 2%nat ∧ range_mapped demo_root 0x10000 6 ps demo_pt demo_free demo_T demo_gvm fl T.
Proof.
  destruct demo_pt_inv as [Hi Hp].
  destruct (wp_state_of (MapMemory demo_root 0x10000 0x12000 6) _ demo_pt (wp_MapMemory demo_root 0x10000 0x12000 6 demo_pt demo_free demo_T
    Hi Hp ltac:(lia) ltac:(by vm_compute) ltac:(lia) ltac:(vm_compute; lia))) as (b & _ & _ & H). exact H.
Qed.
Lemma demo_gvm_ok : ∃ fl T, attach_ok demo_gpu demo_gvm fl demo_root T 0x10800 4096 ∧
  ∀ k, 0 ≤ k < 4096 → is_Some (translate (vm_mem demo_gvm) T (0x10800 + k)).
Proof.
  destruct demo_gvm_mapped as (ps & fl & T & Hl & [Hi' Hr' Ht _ Hpg Hlen (u & Hu) _ _]). exists fl, T. split.
  - assert (MemoryList.bit_map_ demo_gvm !! 0%nat = Some 255) as H0.
    { apply (first_byte_full _ fl); [done|]. intros p Hin. apply demo_free_high. rewrite Hu. right. apply elem_of_app. by right. }
    split; [exact Hi'|exact Hr'|reflexivity|lia|lia|by vm_compute| |exact H0|].
    + change (length demo_free) with 15%nat in Hlen. lia.
    + change ((16 * page_count 0x10800 4096 + PGSIZE - 1) / PGSIZE) with 1.
      change (length demo_free) with 15%nat in Hlen. destruct fl as [|p fl]; [cbn in Hlen; lia|].
      apply (AllocContinuousPage_1_finds demo_gvm (p :: fl) p Hi'); [by left|lia|exact H0].
  - intros k Hk. rewrite Ht by lia. unfold range_map. change (range_base 0x10000) with 0x10000.
    rewrite (proj2 (Z.leb_le _ _)) by lia. destruct (lookup_lt_is_Some_2 ps (Z.to_nat ((0x10800 + k - 0x10000) / PGSIZE))) as [p Ep].
    { rewrite Hl. unfold PGSIZE. dlia. }
    by rewrite Ep.
Qed.

(** * Properties *)
(** C12: Attaching [size] bytes of a program's memory to a resource, when the allocator
    has the pages for the entries: the device is sent one entry per page, the entries
    stand for exactly the physical bytes of the range, in order, and afterwards the
    entry pages are free again and the address space is what it was. *)
Theorem ResourceAttachBacking_covers reply req_addr resp_addr flags_addr root id addr size flags g vm fl T :
  attach_ok g vm fl root T addr size → addr + size ≤ 2 ^ 39 → (∀ k, 0 ≤ k < size → is_Some (translate (vm_mem vm) T (addr + k))) →
  (∀ c, ∃ r, reply (sent g ++ [c]) = Some r ∧ acks flags_addr flags r) →
  ∃ g' vm' fl' es, ResourceAttachBacking reply req_addr resp_addr flags_addr root id addr size flags (GState g vm) = Ok ((), GState g' vm') ∧
    sent g' = sent g ++ [Command 0 (flags_hdr flags_addr VIRTIO_GPU_CMD_RESOURCE_ATTACH_BACKING flags)
      (resource_attach_backing id (page_count addr size) es)] ∧
    Z.of_nat (length es) = page_count addr size ∧ concat (entry_range <$> es) = phys (vm_mem vm) T <$> seqZ addr size ∧
    fl' ≡ₚ fl ∧ vm_inv vm' fl' ∧ pt_rep vm' fl' root T ∧ ∀ va, translate (vm_mem vm') T va = translate (vm_mem vm) T va.
Proof.
  intros Hao Hmax Hmap Hrep. pose proof (ao_size _ _ _ _ _ _ _ Hao) as Hs. pose proof (ao_addr _ _ _ _ _ _ _ Hao) as Ha.
  destruct (Hrep (attach_command flags_addr root id addr size flags (vm_mem vm) T)) as (r & Hr & Hack).
  destruct (attach_pages addr size Hs Ha (ao_pages _ _ _ _ _ _ _ Hao)) as (_ & Hn1 & Hcov).
  destruct (attach_run reply req_addr resp_addr flags_addr root id addr size flags g vm fl T r Hao Hr Hack)
    as (g' & vm' & fl' & E & (S1 & _) & H). exists g', vm', fl'. eexists. split; [exact E|]. split; [exact S1|].
  split; [rewrite length_entry_list; lia|]. split; [|exact H]. apply entry_list_covers; [lia|lia|right; lia|].
  intros a b Ha1 Hb Hab. apply phys_same_page; [lia|lia|done|].
  specialize (Hmap (a - addr) ltac:(lia)). by replace (addr + (a - addr)) with a in Hmap by lia.
Qed.
Definition demo_ack : response := Resp (Hdr VIRTIO_GPU_RESP_OK_NODATA 1 0x80020080) [].
Lemma ResourceAttachBacking_covers_witness : ∃ T g' vm' es,
  ResourceAttachBacking (λ _, Some demo_ack) 0x80020000 0x80020040 0x80020080 demo_root 7 0x10800 4096 1 (GState demo_gpu demo_gvm)
    = Ok ((), GState g' vm') ∧
  length es = 2%nat ∧ concat (entry_range <$> es) = phys (vm_mem demo_gvm) T <$> seqZ 0x10800 4096.
Proof.
  destruct demo_gvm_ok as (fl & T & Hao & Hmap).
  destruct (ResourceAttachBacking_covers (λ _, Some demo_ack) 0x80020000 0x80020040 0x80020080 demo_root 7 0x10800 4096 1
    demo_gpu demo_gvm fl T Hao ltac:(lia) Hmap) as (g' & vm' & fl' & es & E & _ & Hl & Hc & _).
  { intros c. exists demo_ack. by repeat split. }
  exists T, g', vm', es. split; [exact E|]. split; [|exact Hc]. apply Nat2Z.inj. exact Hl.
Defined.

(** C11: a whole session on a device that carries out every legal command: after
    [SetupFramebuffer] on a frame buffer large enough for the screen, any number of
    [Flush]es and [Drop], every command was legal and acknowledged (no panic), the
    device has the resources it had before, the driver has forgotten its resource
    and the allocator has all its pages back. *)
Theorem display_session reply req_addr resp_addr flags_addr root w h addr size k g vm fl T d :
  conforms reply → attach_ok g vm fl root T addr size → host_run (sent g) = Some d → resources d !! resource_id_frame_buffer = None →
  resource_id_cursor_ g = 0 → 1 ≤ num_scanouts g < 2 ^ 32 → 0 < w → 0 < h → 4 * (w * h) ≤ size →
  ∃ g' vm' fl' d', (SetupFramebuffer reply req_addr resp_addr flags_addr root (Rect 0 0 w h) 0 addr size;;
      flushes reply flags_addr k;; Drop reply) (GState g vm) = Ok (true, GState g' vm') ∧
    host_run (sent g') = Some d' ∧ resources d' = resources d ∧ resource_id_frame_buffer_ g' = 0 ∧
    fl' ≡ₚ fl ∧ vm_inv vm' fl' ∧ pt_rep vm' fl' root T.
Proof.
  intros Hc Hao Hd Hres Hcur Hns Hw Hh Hsz.
  destruct (SetupFramebuffer_run reply req_addr resp_addr flags_addr Hc root (Rect 0 0 w h) 0 addr size g vm fl T d)
    as (l & t & vm1 & fl1 & d1 & E1 & _ & H1 & _ & R1 & Hp & Hi & Hr & _); [done..|lia|lia|done|done| |].
  { unfold fits. cbn. by rewrite !Z.leb_refl. }
  rewrite (bind_Ok _ _ _ _ _ E1). set (g1 := Gpu _ _ _ _ _ _). cbn [width height] in R1.
  assert (∃ l', flushes reply flags_addr k (GState g1 vm1) = Ok ((), GState (set_sent l' g1) vm1) ∧ host_run l' = Some d1) as (l2 & E2 & H2).
  { assert (∀ n l, host_run l = Some d1 → ∃ l', flushes reply flags_addr n (GState (set_sent l g1) vm1) =
      Ok ((), GState (set_sent l' g1) vm1) ∧ host_run l' = Some d1) as H; [|by apply (H k l)].
    clear E1. induction n as [|n IH]; intros l0 Hl0; cbn [flushes]; [by exists l0|].
    destruct (Flush_run reply flags_addr Hc (set_sent l0 g1) vm1 d1 w h size Hl0) as (l' & E & Hl'); cbn [sent set_sent resource_id_frame_buffer_ screen_rect_].
    - rewrite R1. apply lookup_insert_eq.
    - unfold fits. cbn. by rewrite !Z.leb_refl.
    - done.
    - rewrite (bind_Ok _ _ _ _ _ E). apply (IH l' Hl'). }
  rewrite (bind_Ok _ _ _ _ _ E2).
  destruct (Drop_run reply flags_addr Hc (set_sent l2 g1) vm1 d1 w h size H2) as (l3 & d3 & E3 & H3 & R3); [done|exact Hcur| |].
  { rewrite R1. apply lookup_insert_eq. }
  rewrite E3. eexists _, vm1, fl1, d3. split; [reflexivity|]. split; [exact H3|]. split; [|done].
  rewrite R3, R1. by apply delete_insert_id.
Qed.
Lemma display_session_witness : ∃ g' vm', (SetupFramebuffer demo_reply 0x80020000 0x80020040 0x80020080 demo_root (Rect 0 0 32 32) 0 0x10800 4096;;
  flushes demo_reply 0x80020080 2;; Drop demo_reply) (GState demo_gpu demo_gvm) = Ok (true, GState g' vm') ∧ resource_id_frame_buffer_ g' = 0.
Proof.
  destruct demo_gvm_ok as (fl & T & Hao & _).
  destruct (display_session demo_reply 0x80020000 0x80020040 0x80020080 demo_root 32 32 0x10800 4096 2 demo_gpu demo_gvm fl T host0
    demo_conforms Hao eq_refl eq_refl eq_refl) as (g' & vm' & fl' & d' & E & _ & _ & Hf & _); [cbn; lia|lia|lia|lia|].
  exists g', vm'. split; [exact E|exact Hf].
Defined.

(** A second program that asks for the frame buffer brings the kernel down: the
    resource number is fixed, so on a device that refuses what is illegal
    [SetupFramebuffer] panics when the resource exists *)
Theorem second_framebuffer_panics reply req_addr resp_addr flags_addr root rect scanout_id addr size g vm d x :
  (∀ h c d, host_run h = Some d → host_step d (c_body c) = None →
    ∃ r, reply (h ++ [c]) = Some r ∧ h_type (p_hdr r) ≠ VIRTIO_GPU_RESP_OK_NODATA) →
  host_run (sent g) = Some d → resources d !! resource_id_frame_buffer = Some x →
  0 ≤ scanout_id < num_scanouts g → num_scanouts g < 2 ^ 32 →
  SetupFramebuffer reply req_addr resp_addr flags_addr root rect scanout_id addr size (GState g vm) =
    Stop (Panicked "gpu device resp error").
Proof.
  intros Href Hd Hres Hso Hns. unfold SetupFramebuffer. unfold mbind at 1, M_bind at 1, gets. cbn [g_gpu].
  rewrite (wrap_small 32) by lia. rewrite (proj2 (Z.ltb_ge _ _)) by lia. set (id := resource_id_frame_buffer) in *.
  set (g0 := Gpu (num_scanouts g) rect id (resource_id_cursor_ g) (indirect_desc_ g) (sent g)).
  rewrite (bind_Ok (upd_gpu _) _ _ () (GState (set_screen rect g) vm)) by done.
  rewrite (bind_Ok (upd_gpu _) _ _ () (GState g0 vm)) by done. apply bind_Stop. unfold Create2dResource.
  match goal with |- (exchange _ ?c ≫= _) _ = _ =>
    destruct (Href (sent g) c d Hd) as (r & Hr & Hne); [cbn [c_body host_step]; by rewrite Hres|] end.
  rewrite (bind_Ok _ _ _ _ _ (exchange_run reply _ r g0 vm Hr)). apply bind_Stop.
  unfold check_type. by rewrite (proj2 (Z.eqb_neq _ _) Hne).
Qed.
Lemma second_framebuffer_panics_witness :
  SetupFramebuffer (λ h, match host_run h with None => Some resp0 | Some _ => None end) 0x80020000 0x80020040 0x80020080 demo_root (Rect 0 0 32 32) 0 0x10800 4096
    (GState (Gpu 1 rect0 0 0 [] [Command 0 hdr0 (resource_create_2d resource_id_frame_buffer 67 32 32)]) demo_gvm) =
  Stop (Panicked "gpu device resp error").
Proof.
  eapply (second_framebuffer_panics _ _ _ _ _ _ 0).
  - intros h c d Hd Hs. exists resp0. rewrite host_run_snoc, Hd. cbn [mbind option_bind]. by rewrite Hs.
  - reflexivity.
  - reflexivity.
  - cbn. lia.
  - cbn. lia.
Defined.

(** The indirect flag of a backing is put on descriptor 0 of the queue, whichever
    descriptor the transport was given: while descriptor 0 belongs to another
    request, that request becomes an indirect one and the backing does not *)
Theorem indirect_flag_on_descriptor_0 r row v d i l x :
  dev_ok 0 row v d → mstatus_ok d → free_descs row = i :: l → i ≠ 0 → desc v !! 0%nat = Some x →
  wp (t ← mmio_transport 0 [r]; set_indirect_flag t 0;; mret t) (λ t d', descs_ t = [i] ∧ ∃ v', queue d' !! 0%nat = Some (Some v') ∧
    desc v' !! Z.to_nat i = Some (desc_of r None) ∧
    desc v' !! 0%nat = Some (Desc (d_addr x) (d_len x) (Z.lor (d_flags x) VIRTQ_DESC_F_INDIRECT) (d_next x))) d.
Proof.
  intros Hd Hm Hf Hi Hx. pose proof (dev_ok_range _ _ _ _ Hd) as Hq. pose proof Hd as [_ _ _ Hl _].
  pose proof (mmio_transport_run 0 [r] row v d Hd Hm) as Ht. cbv zeta in Ht. rewrite Hf in Ht. cbn [length take fill_all] in Ht.
  rewrite take_0, decide_True in Ht by lia.
  assert (index i) as Hidx by (apply (proj1 (elem_of_free row i)); rewrite Hf; left). unfold index in Hidx.
  unfold wp. rewrite (bind_Ok _ _ _ _ _ Ht). unfold set_indirect_flag. cbn [t_queue]. set (v1 := with_desc _ v). set (d1 := upd _ _ _ _).
  assert (get_queue 0 d1 = Ok (v1, d1)) as E1 by by apply get_queue_upd.
  assert (desc v1 !! 0%nat = Some x) as Ex by (cbn; rewrite list_lookup_insert_ne by lia; done).
  erewrite bind_Ok. 2: { rewrite (bind_Ok _ _ _ _ _ E1). change (Z.to_nat 0) with 0%nat. rewrite Ex. cbn [of_option]. rewrite (bind_Ok _ _ _ x d1) by done.
    apply put_desc_upd; [done|cbn; by rewrite length_insert|done]. }
  cbn [mret M_ret]. split; [done|]. eexists. split; [by apply upd_queue|]. cbn [desc with_desc]. change (Z.to_nat 0) with 0%nat. split.
  - rewrite list_lookup_insert_ne by lia. apply list_lookup_insert_eq. lia.
  - apply list_lookup_insert_eq. change (0 < length (<[Z.to_nat i := desc_of r None]> (desc v)))%nat. rewrite length_insert. lia.
Qed.
