(* ===== verification/NetInput.v ===== *)
(** The network and input devices of [driver/virtio_net.h], [driver/virtio_net.cc],
    [driver/virtio_input.h] and [driver/virtio_input.cc]: their receive rings, which
    hand every buffer back to the device, the packets sent without waiting and
    freed by the interrupt handler, and the pointer position.  The device is the
    environment; [fuel] bounds the loops over its completions. *)
From S2P Require Import Prelude Riscv Lock MemoryList VirtualMemory Process Scheduler Virtio VirtioBlk.

(** * virtio_net.h *)
Inductive net_feature_bit :=
  | VIRTIO_NET_F_CSUM | VIRTIO_NET_F_GUEST_CSUM | VIRTIO_NET_F_CTRL_GUEST_OFFLOADS | VIRTIO_NET_F_MTU
  | VIRTIO_NET_F_MAC | VIRTIO_NET_F_GUEST_TSO4 | VIRTIO_NET_F_GUEST_TSO6 | VIRTIO_NET_F_GUEST_ECN
  | VIRTIO_NET_F_GUEST_UFO | VIRTIO_NET_F_HOST_TSO4 | VIRTIO_NET_F_HOST_TSO6 | VIRTIO_NET_F_HOST_ECN
  | VIRTIO_NET_F_HOST_UFO | VIRTIO_NET_F_MRG_RXBUF | VIRTIO_NET_F_STATUS | VIRTIO_NET_F_CTRL_VQ
  | VIRTIO_NET_F_CTRL_RX | VIRTIO_NET_F_CTRL_VLAN | VIRTIO_NET_F_GUEST_ANNOUNCE | VIRTIO_NET_F_MQ
  | VIRTIO_NET_F_CTRL_MAC_ADDR | VIRTIO_NET_F_RSC_EXT | VIRTIO_NET_F_STANDBY.
Definition net_feature_value (f : net_feature_bit) : Z :=
  Z.shiftl 1 match f with
  | VIRTIO_NET_F_CSUM => 0 | VIRTIO_NET_F_GUEST_CSUM => 1 | VIRTIO_NET_F_CTRL_GUEST_OFFLOADS => 2
  | VIRTIO_NET_F_MTU => 3 | VIRTIO_NET_F_MAC => 5 | VIRTIO_NET_F_GUEST_TSO4 => 7
  | VIRTIO_NET_F_GUEST_TSO6 => 8 | VIRTIO_NET_F_GUEST_ECN => 9 | VIRTIO_NET_F_GUEST_UFO => 10
  | VIRTIO_NET_F_HOST_TSO4 => 11 | VIRTIO_NET_F_HOST_TSO6 => 12 | VIRTIO_NET_F_HOST_ECN => 13
  | VIRTIO_NET_F_HOST_UFO => 14 | VIRTIO_NET_F_MRG_RXBUF => 15 | VIRTIO_NET_F_STATUS => 16
  | VIRTIO_NET_F_CTRL_VQ => 17 | VIRTIO_NET_F_CTRL_RX => 18 | VIRTIO_NET_F_CTRL_VLAN => 19
  | VIRTIO_NET_F_GUEST_ANNOUNCE => 21 | VIRTIO_NET_F_MQ => 22 | VIRTIO_NET_F_CTRL_MAC_ADDR => 23
  | VIRTIO_NET_F_RSC_EXT => 61 | VIRTIO_NET_F_STANDBY => 62
  end.
Definition sizeof_net_hdr : Z := 10.
Definition buf_len : Z := 2048.
Definition receive_queue_ind : nat := 0.
Definition send_queue_ind : nat := 1.
(** [sizeof(RxBuffer<buf_len>)]: the bytes and [packet_len_] *)
Definition sizeof_RxBuffer : Z := buf_len + 8.
(** [class NetDevice]: the device it extends, [packet_len_] of each receive buffer,
    [delayed_tx_desc], and the calls of [interrupt_callback] *)
Record net := Net {
  n_dev : device;
  packet_len_ : list Z;
  delayed_tx_desc : list (list Z);
  callbacks : list (Z * Z);
}.
Definition set_n_dev (d : device) (n : net) : net := Net d (packet_len_ n) (delayed_tx_desc n) (callbacks n).
Definition set_packet_len (l : list Z) (n : net) : net := Net (n_dev n) l (delayed_tx_desc n) (callbacks n).
Definition set_delayed (l : list (list Z)) (n : net) : net := Net (n_dev n) (packet_len_ n) l (callbacks n).
Definition set_callbacks (l : list (Z * Z)) (n : net) : net := Net (n_dev n) (packet_len_ n) (delayed_tx_desc n) l.
#[export, refine] Instance net_HasMstatus : HasMstatus net :=
  {| get_mstatus := λ n, get_mstatus (n_dev n); put_mstatus := λ v n, set_n_dev (put_mstatus v (n_dev n)) n |}.
Proof. all: by intros; repeat match goal with n : net |- _ => destruct n as [[? ? ? ? ? ? ? [? ? ? ? [] ?]] ? ? ?] end. Defined.
Definition on_dev {A} (m : M device A) : M net A := λ n,
  match m (n_dev n) with Ok (a, d) => Ok (a, set_n_dev d n) | Stop e => Stop e end.

(** * What both devices do with their receive ring *)
(** the completion at position [last] of queue [q] *)
Definition used_element (q : nat) (last : Z) : M device (Z * Z) :=
  v ← get_queue q; of_option (Faulted "used.ring") (used_ring (used v) !! Z.to_nat (last mod queue_buffer_size)).
Definition last_seen (q : nat) : M device Z :=
  l ← gets last_seen_used_idx_; of_option (Faulted "last_seen_used_idx_") (l !! q).
Definition bump_last_seen (q : nat) (last : Z) : M device () :=
  modify (λ d, set_last (<[q := u32 (last + 1)]> (last_seen_used_idx_ d)) d).
(** [queue[0]->avail.idx += 1] and the notification; the ring itself is not written *)
Definition RecycleRxBuffer : M device () :=
  v ← get_queue receive_queue_ind;
  put_queue receive_queue_ind (Queue (desc v) (Avail (u16 (avail_idx (avail v) + 1)) (avail_ring (avail v))) (used v));;
  modify (notify (Z.of_nat receive_queue_ind)).
(** the loop of [Init] that posts buffer [i], at [base + i * stride], of [len] bytes *)
Fixpoint post_buffers (n : nat) (i base stride len : Z) : M device () :=
  match n with
  | O => mret ()
  | S n =>
    t ← mmio_transport receive_queue_ind [Req (base + i * stride) len true];
    trigger_notify t;;
    post_buffers n (i + 1) base stride len
  end.

(** * virtio_net.cc *)
Section net.
(** the address of [rx_buffer_], and whether an [interrupt_callback] is set *)
Context (rx_buffer_ : Z) (interrupt_callback : bool).
Definition Payload (i : Z) : Z := rx_buffer_ + i * sizeof_RxBuffer + sizeof_net_hdr.

Definition deal_rx_one (last : Z) : M net () :=
  '(id, len) ← on_dev (used_element receive_queue_ind last);
  on_dev (bump_last_seen receive_queue_ind last);;
  n ← gets (λ n, n);
  (if (Z.to_nat id <? length (packet_len_ n))%nat then modify (set_packet_len (<[Z.to_nat id := len]> (packet_len_ n)))
   else stop_with (Faulted "rx_buffer_"));;
  (if interrupt_callback then modify (set_callbacks (callbacks n ++ [(Payload id, len)])) else mret ());;
  on_dev RecycleRxBuffer.
Fixpoint rx_loop (fuel : nat) : M net () :=
  last ← on_dev (last_seen receive_queue_ind);
  v ← on_dev (get_queue receive_queue_ind);
  if last =? used_idx (used v) then mret ()
  else match fuel with
       | O => stop_with OutOfFuel
       | S fuel => deal_rx_one last;; rx_loop fuel
       end.
Definition DealRxBuffer (fuel : nat) : M net () := guarded (rx_loop fuel).

Definition deal_tx_one (last : Z) : M net () :=
  '(id, _) ← on_dev (used_element send_queue_ind last);
  w ← gets (λ n, waiting_flag (n_dev n));
  (if (Z.to_nat id <? length w)%nat then on_dev (modify (set_waiting (<[Z.to_nat id := false]> w)))
   else stop_with (Faulted "internal_data_"));;
  l ← gets delayed_tx_desc;
  descs ← of_option (Faulted "delayed_tx_desc") (l !! Z.to_nat id);
  on_dev (FreeDescs send_queue_ind descs);;
  on_dev (bump_last_seen send_queue_ind last).
Fixpoint tx_loop (fuel : nat) : M net () :=
  last ← on_dev (last_seen send_queue_ind);
  v ← on_dev (get_queue send_queue_ind);
  if last =? used_idx (used v) then mret ()
  else match fuel with
       | O => stop_with OutOfFuel
       | S fuel => deal_tx_one last;; tx_loop fuel
       end.
Definition DealTxBuffer (fuel : nat) : M net () := guarded (tx_loop fuel).
Definition Net_UsedBufferNotify (fuel : nat) : M net () := DealRxBuffer fuel;; DealTxBuffer fuel.

(** [Send]; [hdr_addr] is the address of the local header *)
Definition Send (hdr_addr data size : Z) : M net () :=
  if size =? 0 then mret () else
  t ← on_dev (mmio_transport send_queue_ind [Req hdr_addr sizeof_net_hdr false; Req data size false]);
  on_dev (trigger_notify t);;
  head ← of_option (Faulted "descs[0]") (descs_ t !! 0%nat);
  n ← gets (λ n, n);
  if (Z.to_nat head <? length (delayed_tx_desc n))%nat
  then modify (set_delayed (<[Z.to_nat head := descs_ t]> (delayed_tx_desc n)))
  else stop_with (Faulted "delayed_tx_desc").
(** the part of [Init] after the negotiation; its result is ignored *)
Definition net_post : M device () := post_buffers 32 0 rx_buffer_ sizeof_RxBuffer buf_len.
End net.
(** [Init] up to the posting of buffers: the negotiation's result and the MAC address *)
Fixpoint read_bytes (n : nat) (a : Z) : io (list Z) :=
  match n with O => mret [] | S n => b ← R_Byte a; l ← read_bytes n (a + 1); mret (b :: l) end.
Definition NetDevice_Init (addr_ : Z) (vm : vmstate) : io (res (option (list Z) * nego)) :=
  let s := Nego false [] [] vm in
  ok ← Validate addr_ network_card;
  if negb ok then mret (Ok (None, s))
  else
    r ← init addr_ [feature_value VIRTIO_F_ANY_LAYOUT] (net_feature_value <$> [VIRTIO_NET_F_MAC; VIRTIO_NET_F_STATUS]) 2 s;
    match r with
    | Stop e => mret (Stop e)
    | Ok (_, s) => mac ← read_bytes 6 (mmio addr_ Config); mret (Ok (Some mac, s))
    end.

(** * virtio_input.h, virtio_input.cc *)
Definition EV_REL : Z := 2.
Definition REL_X : Z := 0.
Definition REL_Y : Z := 1.
Definition VIRTIO_INPUT_CFG_ID_NAME : Z := 1.
Definition sizeof_input_event : Z := 8.
Record virtio_input_event := Event { ev_type : Z; ev_code : Z; ev_value : Z }.
Record Position := Pos { pos_x : Z; pos_y : Z }.
(** [class InputDevice]; the device writes [input_event_] *)
Record input := Input { i_dev : device; input_event_ : list virtio_input_event; position_ : Position }.
#[export, refine] Instance input_HasMstatus : HasMstatus input :=
  {| get_mstatus := λ n, get_mstatus (i_dev n);
     put_mstatus := λ v n, Input (put_mstatus v (i_dev n)) (input_event_ n) (position_ n) |}.
Proof. all: by intros; repeat match goal with n : input |- _ => destruct n as [[? ? ? ? ? ? ? [? ? ? ? [] ?]] ? ?] end. Defined.
Definition on_idev {A} (m : M device A) : M input A := λ n,
  match m (i_dev n) with Ok (a, d) => Ok (a, Input d (input_event_ n) (position_ n)) | Stop e => Stop e end.
Definition move (event : virtio_input_event) (p : Position) : Position :=
  if (ev_type event =? EV_REL) && (ev_code event =? REL_X) then Pos (u32 (pos_x p + ev_value event)) (pos_y p)
  else if (ev_type event =? EV_REL) && (ev_code event =? REL_Y) then Pos (pos_x p) (u32 (pos_y p + ev_value event))
  else p.
Definition input_one (last : Z) : M input () :=
  '(id, _) ← on_idev (used_element 0 last);
  on_idev (bump_last_seen 0 last);;
  l ← gets input_event_;
  event ← of_option (Faulted "input_event_") (l !! Z.to_nat id);
  modify (λ n, Input (i_dev n) (input_event_ n) (move event (position_ n)));;
  on_idev RecycleRxBuffer.
Fixpoint input_loop (fuel : nat) : M input () :=
  last ← on_idev (last_seen 0);
  v ← on_idev (get_queue 0);
  if last =? used_idx (used v) then mret ()
  else match fuel with
       | O => stop_with OutOfFuel
       | S fuel => input_one last;; input_loop fuel
       end.
Definition Input_UsedBufferNotify (fuel : nat) : M input () := guarded (input_loop fuel).
Definition GetPosition : M input Position := gets position_.
(** [Init]: the negotiation, whose result is ignored, the choice of the name to
    print, and the posting of the events at [events_addr] *)
Definition InputDevice_Init (addr_ : Z) (vm : vmstate) : io (res (bool * nego)) :=
  let s := Nego false [] [] vm in
  ok ← Validate addr_ input_device;
  if negb ok then mret (Ok (false, s))
  else
    r ← init addr_ (feature_value <$> [VIRTIO_F_NOTIFY_ON_EMPTY; VIRTIO_F_ANY_LAYOUT; VIRTIO_F_RING_INDIRECT_DESC]) [] 2 s;
    match r with
    | Stop e => mret (Stop e)
    | Ok (_, s) =>
      W_Byte (mmio addr_ Config) VIRTIO_INPUT_CFG_ID_NAME;;
      W_Byte (mmio addr_ Config + 1) 0;;
      mret (Ok (true, s))
    end.
Definition input_post (events_addr : Z) : M device () := post_buffers 32 0 events_addr sizeof_input_event sizeof_input_event.

(** * Specification: a receive ring *)
(** Slot [i] of the available ring holds buffer [i], and 32 positions from the
    first unseen completion [a] on are posted *)
Record ring_ok (v : virt_queue) (a : Z) (d : device) : Prop := {
  rk_queue : queue d !! 0%nat = Some (Some v);
  rk_last : last_seen_used_idx_ d !! 0%nat = Some a;
  rk_ring : avail_ring (avail v) = seqZ 0 32;
  rk_posted : avail_idx (avail v) = u16 (a + 32);
  rk_used : length (used_ring (used v)) = 32%nat;
}.
(** the buffers at the positions the device has not completed *)
Definition outstanding (v : virt_queue) (a : Z) : list Z :=
  (λ k, default (-1) (avail_ring (avail v) !! Z.to_nat (k mod 32))) <$> seqZ a 32.
(** the buffers in the slots of the [k] positions after those 32 *)
Definition posted (v : virt_queue) (a k : Z) : list Z :=
  (λ j, default (-1) (avail_ring (avail v) !! Z.to_nat ((j + 32) mod 32))) <$> seqZ a k.
Definition used_at (v : virt_queue) (k : Z) : Z * Z := default (0, 0) (used_ring (used v) !! Z.to_nat (k mod 32)).
(** [v] with one more position posted *)
Definition recycled (v : virt_queue) : virt_queue :=
  Queue (desc v) (Avail (u16 (avail_idx (avail v) + 1)) (avail_ring (avail v))) (used v).
Definition recycled_dev (v : virt_queue) (a : Z) (d : device) : device :=
  notify 0 (set_queue (<[0%nat := Some (recycled v)]> (queue d)) (set_last (<[0%nat := u32 (a + 1)]> (last_seen_used_idx_ d)) d)).

(** * Lemmas *)
Lemma mod_window a : (λ k, k mod 32) <$> seqZ a 32 ≡ₚ seqZ 0 32.
Proof.
  apply NoDup_Permutation.
  - apply NoDup_fmap_2_strong; [|apply NoDup_seqZ]. intros x y Hx%elem_of_seqZ Hy%elem_of_seqZ Hxy. dlia.
  - apply NoDup_seqZ.
  - intros x. rewrite list_elem_of_fmap, elem_of_seqZ. split.
    + intros (k & -> & Hk). dlia.
    + intros Hx. exists (a + (x - a) mod 32). rewrite elem_of_seqZ. split; dlia.
Qed.
Lemma ring_outstanding v a d : ring_ok v a d → outstanding v a ≡ₚ seqZ 0 32.
Proof.
  intros [_ _ Hr _ _]. rewrite <-(mod_window a). unfold outstanding. rewrite Hr. apply reflexive_eq, list_fmap_ext.
  intros i k _. assert (0 ≤ k mod 32 < 32) by dlia. rewrite (proj2 (lookup_seqZ 0 32 (Z.to_nat (k mod 32)) (k mod 32))) by lia. done.
Qed.
Lemma ring_posted v a d b k : ring_ok v a d → posted v b k = (λ j, j mod 32) <$> seqZ b k.
Proof.
  intros [_ _ Hr _ _]. unfold posted. rewrite Hr. apply list_fmap_ext. intros i j _.
  assert (0 ≤ j mod 32 < 32) by dlia. replace ((j + 32) mod 32) with (j mod 32) by dlia.
  rewrite (proj2 (lookup_seqZ 0 32 (Z.to_nat (j mod 32)) (j mod 32))) by lia. done.
Qed.
Lemma used_element_run v a d id len : ring_ok v a d → used_at v a = (id, len) → used_element 0 a d = Ok ((id, len), d).
Proof.
  intros [Hq _ _ _ Hu] He. unfold used_element, get_queue, mbind, M_bind, gets. rewrite Hq. cbn [mjoin option_join of_option mret M_ret].
  unfold used_at in He. unfold queue_buffer_size.
  destruct (lookup_lt_is_Some_2 (used_ring (used v)) (Z.to_nat (a mod 32))) as [e Ee]; [dlia|]. rewrite Ee in *. cbn in *. by subst.
Qed.
Lemma ring_heads v a d : ring_ok v a d → last_seen 0 d = Ok (a, d) ∧ get_queue 0 d = Ok (v, d).
Proof.
  intros [Hq Hl _ _ _]. unfold last_seen, get_queue, mbind, M_bind, gets. by rewrite Hq, Hl.
Qed.
Lemma recycle_run v a d : ring_ok v a d →
  RecycleRxBuffer (set_last (<[0%nat := u32 (a + 1)]> (last_seen_used_idx_ d)) d) = Ok ((), recycled_dev v a d).
Proof. intros [Hq _ _ _ _]. unfold RecycleRxBuffer, get_queue, mbind, M_bind, gets, receive_queue_ind. cbn [queue set_last]. rewrite Hq. done. Qed.
Lemma ring_ok_recycled v a d : ring_ok v a d → 0 ≤ a < 2 ^ 32 - 1 → ring_ok (recycled v) (a + 1) (recycled_dev v a d).
Proof.
  intros [Hq Hl Hr Hp Hu] Ha. split; cbn; try done.
  - apply list_lookup_insert_eq. by eapply lookup_lt_Some.
  - rewrite list_lookup_insert_eq by (by eapply lookup_lt_Some). by rewrite wrap_small by lia.
  - rewrite Hp. unfold wrap. rewrite Zplus_mod_idemp_l. f_equal. lia.
Qed.
Lemma on_dev_run {A} (m : M device A) n a d : m (n_dev n) = Ok (a, d) → on_dev m n = Ok (a, set_n_dev d n).
Proof. intros H. unfold on_dev. by rewrite H. Qed.
Lemma on_idev_run {A} (m : M device A) n a d : m (i_dev n) = Ok (a, d) → on_idev m n = Ok (a, Input d (input_event_ n) (position_ n)).
Proof. intros H. unfold on_idev. by rewrite H. Qed.
Lemma bump_run q a d : bump_last_seen q a d = Ok ((), set_last (<[q := u32 (a + 1)]> (last_seen_used_idx_ d)) d).
Proof. done. Qed.

Section rx.
Context (rx : Z).
Lemma deal_rx_one_run v a n id len : ring_ok v a (n_dev n) → used_at v a = (id, len) → length (packet_len_ n) = 32%nat → index id →
  deal_rx_one rx true a n = Ok ((), Net (recycled_dev v a (n_dev n)) (<[Z.to_nat id := len]> (packet_len_ n)) (delayed_tx_desc n)
    (callbacks n ++ [(Payload rx id, len)])).
Proof.
  intros Hr He Hl Hid. unfold deal_rx_one. rewrite (bind_Ok _ _ _ _ _ (on_dev_run _ n _ _ (used_element_run v a _ _ _ Hr He))).
  replace (set_n_dev (n_dev n) n) with n by (by destruct n). cbv beta iota.
  rewrite (bind_Ok _ _ _ _ _ (on_dev_run _ n _ _ (bump_run receive_queue_ind a (n_dev n)))).
  unfold mbind at 1, M_bind at 1, gets. cbn [packet_len_ set_n_dev]. unfold index in Hid.
  rewrite (proj2 (Nat.ltb_lt _ _)) by lia. set (d1 := set_last _ _). set (n1 := set_n_dev d1 n).
  rewrite (bind_Ok (modify _) _ _ () (set_packet_len (<[Z.to_nat id := len]> (packet_len_ n)) n1)) by done.
  rewrite (bind_Ok (modify _) _ _ () (set_callbacks (callbacks n ++ [(Payload rx id, len)])
    (set_packet_len (<[Z.to_nat id := len]> (packet_len_ n)) n1))) by done.
  rewrite (on_dev_run RecycleRxBuffer _ () (recycled_dev v a (n_dev n))); [done|by apply recycle_run].
Qed.
Lemma rx_loop_run k : ∀ v a n fuel, ring_ok v a (n_dev n) → length (packet_len_ n) = 32%nat → 0 ≤ a →
  a + Z.of_nat k = used_idx (used v) → used_idx (used v) < 2 ^ 16 → (k ≤ fuel)%nat →
  (∀ j, a ≤ j < a + Z.of_nat k → index (used_at v j).1) →
  ∃ v' n', rx_loop rx true fuel n = Ok ((), n') ∧ ring_ok v' (a + Z.of_nat k) (n_dev n') ∧ used v' = used v ∧ desc v' = desc v ∧
    callbacks n' = callbacks n ++ ((λ j, (Payload rx (used_at v j).1, (used_at v j).2)) <$> seqZ a (Z.of_nat k)) ∧
    notified (n_dev n') = notified (n_dev n) ++ replicate k 0 ∧ get_mstatus n' = get_mstatus n ∧
    length (packet_len_ n') = 32%nat ∧ bit_map_ (n_dev n') = bit_map_ (n_dev n) ∧ delayed_tx_desc n' = delayed_tx_desc n.
Proof.
  induction k as [|k IH]; intros v a n fuel Hr Hl Ha Hk Hu Hf Hid; destruct (ring_heads _ _ _ Hr) as [E1 E2];
    (destruct fuel as [|fuel]; [try (exfalso; lia)|]); cbn [rx_loop];
    rewrite (bind_Ok _ _ _ _ _ (on_dev_run _ n _ _ E1)); replace (set_n_dev (n_dev n) n) with n by (by destruct n);
    rewrite (bind_Ok _ _ _ _ _ (on_dev_run _ n _ _ E2)); replace (set_n_dev (n_dev n) n) with n by (by destruct n).
  1,2: rewrite (proj2 (Z.eqb_eq _ _)) by lia; exists v, n; rewrite !app_nil_r, Z.add_0_r; by split_and!.
  rewrite (proj2 (Z.eqb_neq _ _)) by lia. destruct (used_at v a) as [id len] eqn:He.
  assert (index id) as Hidx by (specialize (Hid a ltac:(lia)); by rewrite He in Hid).
  rewrite (bind_Ok _ _ _ _ _ (deal_rx_one_run v a n id len Hr He Hl Hidx)). set (n1 := Net _ _ _ _).
  destruct (IH (recycled v) (a + 1) n1 fuel) as (v' & n' & E & H1 & H2 & H3 & H4 & H5 & H6 & H7 & H8 & H9).
  { apply ring_ok_recycled; [done|lia]. } { cbn. by rewrite length_insert. } { lia. } { cbn. lia. } { done. } { lia. }
  { intros j Hj. apply (Hid j). lia. }
  exists v', n'. rewrite E. replace (a + Z.of_nat (S k)) with (a + 1 + Z.of_nat k) by lia. split_and!; try done.
  - rewrite H4. cbn [callbacks n1]. rewrite (seqZ_cons a) by lia. rewrite <-app_assoc. cbn [app fmap list_fmap]. rewrite He.
    replace (Z.pred (Z.of_nat (S k))) with (Z.of_nat k) by lia. by replace (Z.succ a) with (a + 1) by lia.
  - rewrite H5. cbn. by rewrite <-app_assoc.
Qed.
End rx.
Lemma ring_ok_mstatus v a x d : ring_ok v a d → ring_ok v a (put_mstatus x d).
Proof. intros []. by split. Qed.

(** the same loop of the input device *)
Lemma input_one_run v a n id len e : ring_ok v a (i_dev n) → used_at v a = (id, len) → input_event_ n !! Z.to_nat id = Some e →
  input_one a n = Ok ((), Input (recycled_dev v a (i_dev n)) (input_event_ n) (move e (position_ n))).
Proof.
  intros Hr He Hev. unfold input_one. rewrite (bind_Ok _ _ _ _ _ (on_idev_run _ n _ _ (used_element_run v a _ _ _ Hr He))).
  replace (Input (i_dev n) (input_event_ n) (position_ n)) with n by (by destruct n). cbv beta iota.
  rewrite (bind_Ok _ _ _ _ _ (on_idev_run _ n _ _ (bump_run 0 a (i_dev n)))). set (d1 := set_last _ _).
  unfold mbind at 1, M_bind at 1, gets. cbn [input_event_]. rewrite Hev. cbn [of_option].
  rewrite (bind_Ok (mret e) _ _ e (Input d1 (input_event_ n) (position_ n))) by done.
  rewrite (bind_Ok (modify _) _ _ () (Input d1 (input_event_ n) (move e (position_ n)))) by done.
  rewrite (on_idev_run RecycleRxBuffer _ () (recycled_dev v a (i_dev n))); [done|by apply recycle_run].
Qed.
(** the event of the completion at position [k] *)
Definition event_at (v : virt_queue) (l : list virtio_input_event) (k : Z) : virtio_input_event :=
  default (Event 0 0 0) (l !! Z.to_nat (used_at v k).1).
Lemma input_loop_run k : ∀ v a n fuel, ring_ok v a (i_dev n) → length (input_event_ n) = 32%nat → 0 ≤ a →
  a + Z.of_nat k = used_idx (used v) → used_idx (used v) < 2 ^ 16 → (k ≤ fuel)%nat →
  (∀ j, a ≤ j < a + Z.of_nat k → index (used_at v j).1) →
  ∃ v' n', input_loop fuel n = Ok ((), n') ∧ ring_ok v' (a + Z.of_nat k) (i_dev n') ∧ used v' = used v ∧ desc v' = desc v ∧
    input_event_ n' = input_event_ n ∧ get_mstatus n' = get_mstatus n ∧ notified (i_dev n') = notified (i_dev n) ++ replicate k 0 ∧
    position_ n' = foldl (λ p j, move (event_at v (input_event_ n) j) p) (position_ n) (seqZ a (Z.of_nat k)).
Proof.
  induction k as [|k IH]; intros v a n fuel Hr Hl Ha Hk Hu Hf Hid; destruct (ring_heads _ _ _ Hr) as [E1 E2];
    (destruct fuel as [|fuel]; [try (exfalso; lia)|]); cbn [input_loop];
    rewrite (bind_Ok _ _ _ _ _ (on_idev_run _ n _ _ E1)); replace (Input (i_dev n) (input_event_ n) (position_ n)) with n by (by destruct n);
    rewrite (bind_Ok _ _ _ _ _ (on_idev_run _ n _ _ E2)); replace (Input (i_dev n) (input_event_ n) (position_ n)) with n by (by destruct n).
  1,2: rewrite (proj2 (Z.eqb_eq _ _)) by lia; exists v, n; rewrite !app_nil_r, Z.add_0_r; by split_and!.
  rewrite (proj2 (Z.eqb_neq _ _)) by lia. destruct (used_at v a) as [id len] eqn:He.
  assert (index id) as Hidx by (specialize (Hid a ltac:(lia)); by rewrite He in Hid). unfold index in Hidx.
  destruct (lookup_lt_is_Some_2 (input_event_ n) (Z.to_nat id)) as [e Ee]; [lia|].
  rewrite (bind_Ok _ _ _ _ _ (input_one_run v a n id len e Hr He Ee)). set (n1 := Input _ _ _).
  destruct (IH (recycled v) (a + 1) n1 fuel) as (v' & n' & E & H1 & H2 & H3 & H4 & H5 & H6 & H7).
  { apply ring_ok_recycled; [done|lia]. } { done. } { lia. } { cbn. lia. } { done. } { lia. }
  { intros j Hj. apply (Hid j). lia. }
  exists v', n'. rewrite E. replace (a + Z.of_nat (S k)) with (a + 1 + Z.of_nat k) by lia. split_and!; try done.
  - rewrite H6. cbn. by rewrite <-app_assoc.
  - rewrite H7. rewrite (seqZ_cons a) by lia. cbn [foldl]. replace (Z.pred (Z.of_nat (S k))) with (Z.of_nat k) by lia.
    replace (Z.succ a) with (a + 1) by lia. f_equal. cbn. unfold event_at. rewrite He. cbn [fst]. by rewrite Ee.
Qed.

(** the completion of a packet sent without waiting *)
Lemma wp_on_dev {A} (m : M device A) Q n : wp m (λ a d, Q a (set_n_dev d n)) (n_dev n) → wp (on_dev m) Q n.
Proof. unfold wp, on_dev. by destruct (m (n_dev n)) as [[a d]|]. Qed.
Lemma tx_complete_run ds row v h len fuel n :
  bit_map_ (n_dev n) !! 1%nat = Some row → queue (n_dev n) !! 1%nat = Some (Some v) → row_ok row → length (desc v) = 32%nat →
  Forall index ds → NoDup ds → (∀ j, j ∈ ds → bit_at row j = true) → index h →
  delayed_tx_desc n !! Z.to_nat h = Some ds → length (waiting_flag (n_dev n)) = 32%nat → length (used_ring (used v)) = 32%nat →
  last_seen_used_idx_ (n_dev n) !! 1%nat = Some (used_idx (used v)) → 0 ≤ used_idx (used v) < 2 ^ 16 - 1 →
  wp (on_dev (device_complete 1 h len);; DealTxBuffer (S fuel)) (λ _ n2,
    bit_map_ (n_dev n2) = <[1%nat := clear_all row ds]> (bit_map_ (n_dev n)) ∧
    ∃ v2, queue (n_dev n2) !! 1%nat = Some (Some v2) ∧ desc v2 = zero_all (desc v) ds) n.
Proof.
  intros Hrow Hq Hr Hl Hi Hnd Hb Hh Hdel Hw Hu Hlast Hux. unfold index in Hh. apply wp_bind, wp_on_dev.
  unfold device_complete, get_queue. wp_steps. rewrite Hq. cbn [mjoin option_join of_option]. wp_steps. unfold put_queue. wp_steps.
  rewrite (wrap_small 16 (used_idx (used v) + 1)) by lia. set (u' := Used _ _). set (v2 := Queue _ _ u'). set (d2 := set_queue _ _).
  apply wp_guarded_any. intros x. set (n2 := put_mstatus x (set_n_dev d2 n)).
  assert (queue (n_dev n2) !! 1%nat = Some (Some v2)) as Hq2 by (cbn; rewrite list_lookup_insert_eq; [done|by eapply lookup_lt_Some]).
  assert (used_element send_queue_ind (used_idx (used v)) (n_dev n2) = Ok ((h, len), n_dev n2)) as Ee.
  { unfold used_element, get_queue, mbind, M_bind, gets, send_queue_ind. rewrite Hq2. cbn [mjoin option_join of_option mret M_ret].
    unfold queue_buffer_size. cbn [used v2 u' used_ring]. rewrite list_lookup_insert_eq by dlia. done. }
  assert (∀ d l, last_seen_used_idx_ d !! 1%nat = Some l → last_seen send_queue_ind d = Ok (l, d)) as El.
  { intros d l Hd. unfold last_seen, mbind, M_bind, gets, send_queue_ind. by rewrite Hd. }
  assert (∀ d w, queue d !! 1%nat = Some (Some w) → get_queue send_queue_ind d = Ok (w, d)) as Eq.
  { intros d w Hd. unfold get_queue, mbind, M_bind, gets, send_queue_ind. by rewrite Hd. }
  assert (∀ m, set_n_dev (n_dev m) m = m) as Hid by (by intros []).
  unfold wp. cbn [tx_loop]. rewrite (bind_Ok _ _ _ _ _ (on_dev_run _ n2 _ _ (El (n_dev n2) _ Hlast))), Hid.
  rewrite (bind_Ok _ _ _ _ _ (on_dev_run _ n2 _ _ (Eq (n_dev n2) _ Hq2))), Hid. cbn [used v2 used_idx u'].
  rewrite (proj2 (Z.eqb_neq _ _)) by lia.
  (* the completion *)
  set (w3 := <[Z.to_nat h := false]> (waiting_flag (n_dev n))). set (d3 := set_waiting w3 (n_dev n2)).
  set (v4 := with_desc (zero_all (desc v2) ds) v2). set (d4 := upd 1 (clear_all row ds) v4 d3).
  set (d5 := set_last (<[1%nat := u32 (used_idx (used v) + 1)]> (last_seen_used_idx_ (n_dev n))) d4).
  assert (deal_tx_one (used_idx (used v)) n2 = Ok ((), set_n_dev d5 n2)) as E.
  { unfold deal_tx_one. rewrite (bind_Ok _ _ _ _ _ (on_dev_run _ n2 _ _ Ee)), Hid. cbv beta iota.
    unfold mbind at 1, M_bind at 1, gets. change (waiting_flag (n_dev n2)) with (waiting_flag (n_dev n)).
    rewrite (proj2 (Nat.ltb_lt _ _)) by lia. rewrite (bind_Ok (on_dev _) _ _ () (set_n_dev d3 n2)) by done.
    unfold mbind at 1, M_bind at 1. change (delayed_tx_desc (set_n_dev d3 n2)) with (delayed_tx_desc n). rewrite Hdel. cbn [of_option].
    rewrite (bind_Ok (mret ds) _ _ ds (set_n_dev d3 n2)) by done.
    assert (d3 = upd 1 row v2 d3) as Hd3 by (symmetry; apply upd_id; [exact Hrow|exact Hq2]).
    rewrite (bind_Ok _ _ _ () (set_n_dev d4 (set_n_dev d3 n2))).
    2: { apply on_dev_run. cbn [n_dev set_n_dev]. rewrite Hd3 at 1. apply (FreeDescs_upd 1 ds row v2 d3); try done.
         split; [exact (lookup_lt_Some _ _ _ Hrow)|exact (lookup_lt_Some _ _ _ Hq2)]. }
    done. }
  rewrite (bind_Ok _ _ _ _ _ E).
  assert (queue d5 !! 1%nat = Some (Some v4)) as Hq5.
  { apply (upd_queue 1 (clear_all row ds) v4 d3). split; [exact (lookup_lt_Some _ _ _ Hrow)|exact (lookup_lt_Some _ _ _ Hq2)]. }
  assert (last_seen_used_idx_ d5 !! 1%nat = Some (used_idx (used v) + 1)) as Hl5.
  { cbn. rewrite list_lookup_insert_eq by (by eapply lookup_lt_Some). by rewrite wrap_small by lia. }
  destruct fuel as [|fuel]; cbn [tx_loop];
    rewrite (bind_Ok _ _ _ _ _ (on_dev_run _ (set_n_dev d5 n2) _ _ (El d5 _ Hl5)));
    rewrite (bind_Ok _ _ _ _ _ (on_dev_run _ (set_n_dev d5 n2) _ _ (Eq d5 _ Hq5)));
    cbn [used v4 with_desc used_idx v2 u']; rewrite Z.eqb_refl; intros y; (split; [done|]); (exists v4; split; [exact Hq5|done]).
Qed.
(** the sum of the relative motions along one axis *)
Definition motion (code : Z) (es : list virtio_input_event) : Z :=
  foldr Z.add 0 ((λ e, if (ev_type e =? EV_REL) && (ev_code e =? code) then ev_value e else 0) <$> es).
Lemma moves_sum (f : Z → virtio_input_event) js : ∀ p, 0 ≤ pos_x p < 2 ^ 32 → 0 ≤ pos_y p < 2 ^ 32 →
  foldl (λ p j, move (f j) p) p js = Pos (u32 (pos_x p + motion REL_X (f <$> js))) (u32 (pos_y p + motion REL_Y (f <$> js))).
Proof.
  induction js as [|j js IH]; intros p Hx Hy.
  { cbn. rewrite !Z.add_0_r, !wrap_small by done. by destruct p. }
  assert (0 ≤ pos_x (move (f j) p) < 2 ^ 32 ∧ 0 ≤ pos_y (move (f j) p) < 2 ^ 32) as [Hx' Hy'].
  { unfold move. repeat case_match; cbn; split; try done; apply (wrap_range 32); lia. }
  cbn [foldl fmap list_fmap]. rewrite IH by done. unfold motion. cbn [fmap list_fmap foldr]. unfold move.
  destruct (ev_type (f j) =? EV_REL); cbn [andb]; [|by rewrite !Z.add_0_l].
  destruct (Z.eqb_spec (ev_code (f j)) REL_X) as [Hc|].
  - rewrite Hc. change (REL_X =? REL_Y) with false. cbn [pos_x pos_y]. f_equal. unfold wrap. rewrite Zplus_mod_idemp_l. f_equal. lia.
  - destruct (ev_code (f j) =? REL_Y); cbn [pos_x pos_y]; [|by rewrite !Z.add_0_l].
    f_equal. unfold wrap. rewrite Zplus_mod_idemp_l. f_equal. lia.
Qed.
(** a receive ring with 5 completions seen and two more to come, and a send queue *)
Definition demo_ring : virt_queue :=
  Queue (replicate 32 desc0) (Avail 37 (seqZ 0 32)) (Used 7 (<[5%nat := (5, 100)]> (<[6%nat := (6, 60)]> (replicate 32 (0, 0))))).
Definition demo_send : virt_queue := Queue (replicate 32 desc0) (Avail 0 (replicate 32 0)) (Used 0 (replicate 32 (0, 0))).
Definition demo_netdev : device :=
  Dev [[255; 255; 255; 255]; [0; 0; 0; 0]] [Some demo_ring; Some demo_send] (replicate 32 false) [5; 0] [false; false] 0x80020000 []
    (Sched [set_state running task0] (Some 0%nat) 0 None demo_idle_vm 2).
Definition demo_net : net := Net demo_netdev (replicate 32 0) (replicate 32 []) [].
Lemma demo_ring_ok : ring_ok demo_ring 5 demo_netdev.
Proof. by split. Qed.

(** * Properties *)
(** C18: However the device orders its completions: each of the [k] packets it has
    completed is handed to the callback once, in the order of the used ring, with the
    payload of its own buffer and its length; each completion posts one more position of
    the available ring, whose slot holds the buffer whose turn it is, and notifies the
    device once; the ring's slots, the descriptors and the used ring are not changed.
    So with [held] the buffers that the device had not completed, it has all 32 buffers
    again, each once, exactly when those it completed are, in some order, those whose
    turn it was (a device that returns buffers in the order it got them); otherwise some
    buffer is lost and another posted twice. *)
Theorem net_receives rx k v a n fuel :
  ring_ok v a (n_dev n) → mstatus_ok n → length (packet_len_ n) = 32%nat → 0 ≤ a → a + Z.of_nat k = used_idx (used v) →
  used_idx (used v) < 2 ^ 16 → (k ≤ fuel)%nat → (∀ j, a ≤ j < a + Z.of_nat k → index (used_at v j).1) →
  wp (DealRxBuffer rx true fuel) (λ _ n', ∃ v', ring_ok v' (a + Z.of_nat k) (n_dev n') ∧ used v' = used v ∧ desc v' = desc v ∧
    callbacks n' = callbacks n ++
      ((λ j, let '(id, len) := used_at v j in (rx + id * sizeof_RxBuffer + sizeof_net_hdr, len)) <$> seqZ a (Z.of_nat k)) ∧
    notified (n_dev n') = notified (n_dev n) ++ replicate k 0 ∧ get_mstatus n' = get_mstatus n ∧
    avail_idx (avail v') = u16 (avail_idx (avail v) + Z.of_nat k) ∧ avail_ring (avail v') = avail_ring (avail v) ∧
    posted v' a (Z.of_nat k) = (λ j, j mod 32) <$> seqZ a (Z.of_nat k) ∧
    let completed := (λ j, (used_at v j).1) <$> seqZ a (Z.of_nat k) in
    ∀ held, completed ++ held ≡ₚ seqZ 0 32 →
      (held ++ posted v' a (Z.of_nat k) ≡ₚ seqZ 0 32 ↔ completed ≡ₚ posted v' a (Z.of_nat k))) n.
Proof.
  intros Hr Hm Hl Ha Hk Hu Hf Hin. apply wp_guarded; [done|].
  destruct (rx_loop_run rx k v a (masked n) fuel) as (v' & n' & E & H1 & H2 & H3 & H4 & H5 & H6 & _); try done.
  { by apply ring_ok_mstatus. }
  unfold wp. rewrite E. split; [done|]. exists v'. split; [by apply ring_ok_mstatus|]. split; [done|]. split; [done|].
  split; [|split; [exact H5|split; [apply get_put_mstatus|]]].
  - cbn [callbacks put_mstatus net_HasMstatus set_n_dev]. rewrite H4. f_equal. apply list_fmap_ext.
    intros i j Hj. unfold Payload. by destruct (used_at v j).
  - split; [|split; [|split]].
    + rewrite (rk_posted _ _ _ H1), (rk_posted _ _ _ Hr). unfold u16, wrap. rewrite Zplus_mod_idemp_l. f_equal. lia.
    + by rewrite (rk_ring _ _ _ H1), (rk_ring _ _ _ Hr).
    + by eapply ring_posted.
    + cbv zeta. intros held Hheld. rewrite <-Hheld, (Permutation_app_comm _ held). split.
      * intros H. symmetry. by apply Permutation_app_inv_l in H.
      * intros H. by rewrite H.
Qed.
Lemma net_receives_witness :
  wp (DealRxBuffer 0x80030000 true 2) (λ _ n', callbacks n' = [(0x80030000 + 5 * 2056 + 10, 100); (0x80030000 + 6 * 2056 + 10, 60)]) demo_net.
Proof.
  eapply wp_mono; [apply (net_receives 0x80030000 2 demo_ring 5 demo_net 2 demo_ring_ok)|].
  - vm_compute. split; [discriminate|reflexivity].
  - reflexivity.
  - lia.
  - reflexivity.
  - cbn. lia.
  - lia.
  - intros j Hj. assert (j = 5 ∨ j = 6) as [-> | ->] by lia; (split; [discriminate|reflexivity]).
  - intros [] n' (v' & _ & _ & _ & H & _). rewrite H. reflexivity.
Defined.

(** The ring is not written when a buffer is posted again, so it is not the returned
    buffer that is posted: when the device completes another buffer than the one
    whose turn it is, the next position gives it the buffer it still has *)
Theorem out_of_order_reposts rx v a n j len fuel :
  ring_ok v a (n_dev n) → mstatus_ok n → length (packet_len_ n) = 32%nat → 0 ≤ a → used_idx (used v) = a + 1 → used_idx (used v) < 2 ^ 16 →
  used_at v a = (j, len) → index j → j ≠ a mod 32 →
  wp (DealRxBuffer rx true (S fuel)) (λ _ n', ∃ v', queue (n_dev n') !! 0%nat = Some (Some v') ∧ avail_idx (avail v') = u16 (a + 33) ∧
    avail_ring (avail v') !! Z.to_nat ((a + 32) mod 32) = Some (a mod 32) ∧ a mod 32 ≠ j) n.
Proof.
  intros Hr Hm Hl Ha Hu Hu2 He Hj Hne. apply wp_guarded; [done|].
  destruct (rx_loop_run rx 1 v a (masked n) (S fuel)) as (v' & n' & E & [H1 H2 H3 H4 H5] & _ & _ & _ & _ & H6 & _); try done; try lia.
  { by apply ring_ok_mstatus. }
  { intros i Hi. assert (i = a) as -> by lia. by rewrite He. }
  unfold wp. rewrite E. split; [done|]. exists v'. split; [done|]. split; [rewrite H4; f_equal; lia|]. split; [|done].
  rewrite H3. apply lookup_seqZ. split; dlia.
Qed.
Lemma out_of_order_reposts_witness :
  wp (DealRxBuffer 0x80030000 true 1) (λ _ n', ∃ v', queue (n_dev n') !! 0%nat = Some (Some v') ∧ avail_ring (avail v') !! 5%nat = Some 5)
    (set_n_dev (set_queue [Some (Queue (replicate 32 desc0) (Avail 37 (seqZ 0 32)) (Used 6 (<[5%nat := (9, 100)]> (replicate 32 (0, 0)))))] demo_netdev) demo_net).
Proof.
  eapply wp_mono; [eapply (out_of_order_reposts 0x80030000 _ 5 _ 9 100 0)|].
  - by split.
  - vm_compute. split; [discriminate|reflexivity].
  - reflexivity.
  - lia.
  - reflexivity.
  - cbn. lia.
  - reflexivity.
  - unfold index. lia.
  - discriminate.
  - intros [] n' (v' & Hq & _ & Hs & _). exists v'. split; [exact Hq|exact Hs].
Defined.

(** The pointer is moved by exactly the relative events completed, modulo 2^32 and
    whatever the order of the buffers; every event buffer is posted again *)
Theorem input_moves k v a n fuel :
  ring_ok v a (i_dev n) → mstatus_ok n → length (input_event_ n) = 32%nat → 0 ≤ a → a + Z.of_nat k = used_idx (used v) →
  used_idx (used v) < 2 ^ 16 → (k ≤ fuel)%nat → (∀ j, a ≤ j < a + Z.of_nat k → index (used_at v j).1) →
  0 ≤ pos_x (position_ n) < 2 ^ 32 → 0 ≤ pos_y (position_ n) < 2 ^ 32 →
  wp (Input_UsedBufferNotify fuel) (λ _ n', let es := event_at v (input_event_ n) <$> seqZ a (Z.of_nat k) in
    position_ n' = Pos (u32 (pos_x (position_ n) + motion REL_X es)) (u32 (pos_y (position_ n) + motion REL_Y es)) ∧
    ∃ v', ring_ok v' (a + Z.of_nat k) (i_dev n') ∧ outstanding v' (a + Z.of_nat k) ≡ₚ seqZ 0 32) n.
Proof.
  intros Hr Hm Hl Ha Hk Hu Hf Hin Hx Hy. apply wp_guarded; [done|].
  destruct (input_loop_run k v a (masked n) fuel) as (v' & n' & E & H1 & H2 & H3 & H4 & H5 & H6 & H7); try done.
  { by apply ring_ok_mstatus. }
  unfold wp. rewrite E. split; [done|]. cbv zeta. split.
  - cbn [position_ put_mstatus input_HasMstatus]. rewrite H7. by apply moves_sum.
  - exists v'. split; [by apply ring_ok_mstatus|by eapply ring_outstanding].
Qed.
Definition demo_input : input :=
  Input demo_netdev (<[5%nat := Event 2 0 3]> (<[6%nat := Event 2 1 (2 ^ 32 - 4)]> (replicate 32 (Event 0 0 0)))) (Pos 10 0).
Lemma input_moves_witness : wp (Input_UsedBufferNotify 2) (λ _ n', position_ n' = Pos 13 (2 ^ 32 - 4)) demo_input.
Proof.
  eapply wp_mono; [apply (input_moves 2 demo_ring 5 demo_input 2 demo_ring_ok)|].
  - vm_compute. split; [discriminate|reflexivity].
  - reflexivity.
  - lia.
  - reflexivity.
  - cbn. lia.
  - lia.
  - intros j Hj. assert (j = 5 ∨ j = 6) as [-> | ->] by lia; vm_compute; (split; [discriminate|reflexivity]).
  - cbn. lia.
  - cbn. lia.
  - intros [] n' [H _]. rewrite H. reflexivity.
Defined.

(** C17: a packet sent without waiting: the device finds the header and the data, in
    order, and is notified once; when it has completed them the interrupt handler frees
    both descriptors, and the bitmap and descriptor table are those of before *)
Theorem send_completes hdr data size len fuel row v n :
  dev_ok 1 row v (n_dev n) → mstatus_ok n → 0 < size < 2 ^ 32 → (2 ≤ length (free_descs row))%nat →
  length (delayed_tx_desc n) = 32%nat → length (waiting_flag (n_dev n)) = 32%nat → length (used_ring (used v)) = 32%nat →
  last_seen_used_idx_ (n_dev n) !! 1%nat = Some (used_idx (used v)) → 0 ≤ used_idx (used v) < 2 ^ 16 - 1 →
  wp (Send hdr data size) (λ _ n1, ∃ i v1, head (free_descs row) = Some i ∧ queue (n_dev n1) !! 1%nat = Some (Some v1) ∧
      avail_ring (avail v1) = <[Z.to_nat (avail_idx (avail v) mod 32) := i]> (avail_ring (avail v)) ∧
      walk 32 (desc v1) i = [(u64 hdr, 10, false); (u64 data, size, false)] ∧ notified (n_dev n1) = notified (n_dev n) ++ [1] ∧
      wp (on_dev (device_complete 1 i len);; DealTxBuffer (S fuel)) (λ _ n2, bit_map_ (n_dev n2) = bit_map_ (n_dev n) ∧
        ∃ v2, queue (n_dev n2) !! 1%nat = Some (Some v2) ∧ desc v2 = desc v) n1) n.
Proof.
  intros Hd Hm Hs Hfree Hdl Hwl Hul Hlast Hux. pose proof (dev_ok_range _ _ _ _ Hd) as Hq. pose proof Hd as [Hrow Hque Hr Hl Hz].
  pose proof (mmio_transport_run 1 [Req hdr sizeof_net_hdr false; Req data size false] row v (n_dev n) Hd Hm) as Ht. cbv zeta in Ht.
  cbn [length] in Ht. rewrite decide_True in Ht by lia. pose proof (ds_facts row 2) as Hds. cbv zeta in Hds.
  destruct (free_descs row) as [|h [|i1 tl]] eqn:Ef; cbn [length] in Hfree; try lia. cbn [take] in Ht, Hds. rewrite take_0 in Ht, Hds.
  set (ds := [h; i1]) in *. destruct Hds as (Hi & Hnd & Hb). set (row1 := set_all row ds) in *. set (rs := [Req hdr sizeof_net_hdr false; Req data size false]) in *.
  set (tb := fill_all (desc v) ds rs) in *. assert (row_ok row1) as Hr1 by by apply set_all_ok.
  assert (length tb = 32%nat) as Htb by (unfold tb; by rewrite length_fill_all).
  assert (index h) as Hh by (by apply Forall_cons in Hi as [? _]). pose proof Hh as Hh'. unfold index in Hh.
  unfold Send. rewrite (proj2 (Z.eqb_neq _ _)) by lia. apply wp_bind, wp_on_dev. apply wp_ok. eexists _, _. split; [exact Ht|].
  apply wp_bind, wp_on_dev. cbn [n_dev set_n_dev].
  eapply wp_mono; [apply (wp_trigger_notify (Transport 1 true ds) (with_desc tb v) h); [done|by apply upd_queue|done]|].
  cbv beta. intros [] d1 (B1 & B2 & B3 & B4 & B5 & B6 & B7 & B8). cbn [descs_]. change (ds !! 0%nat) with (Some h). cbn [of_option].
  do 4 wp_step. rewrite (proj2 (Nat.ltb_lt _ _)) by (cbn; lia). wp_step.
  cbn [t_queue descs_ with_desc desc avail used n_dev set_delayed set_n_dev] in *.
  assert (queue d1 !! 1%nat = Some (Some (Queue tb (Avail (u16 (avail_idx (avail v) + 1))
    (<[Z.to_nat (avail_idx (avail v) mod 32) := u16 h]> (avail_ring (avail v)))) (used v)))) as Q1.
  { rewrite B6, list_lookup_insert_eq; [done|]. cbn. rewrite length_insert. by apply Hq. }
  rewrite (wrap_small 16 h) in Q1 by lia.
  match type of Q1 with _ = Some (Some ?w) => exists h, w end. split; [done|]. split; [exact Q1|]. cbn [avail desc avail_ring]. split; [done|]. split; [|split; [by rewrite B5|]].
  { rewrite (walk_fill rs (desc v) h [i1]); try done; [|cbn; lia]. unfold req_view. cbn. by rewrite (wrap_small 32 size) by lia. }
  eapply wp_mono; [eapply (tx_complete_run ds row1 _ h len fuel)|].
  - cbn. rewrite B1. by apply upd_row.
  - exact Q1.
  - done.
  - done.
  - done.
  - done.
  - intros j Hj. assert (index j) as [? _] by (by eapply Forall_forall in Hj; [|exact Hi]).
    unfold row1. rewrite bit_at_set_all by done. by rewrite decide_True.
  - done.
  - cbn. apply list_lookup_insert_eq. lia.
  - cbn. rewrite B7, length_insert. done.
  - done.
  - cbn. rewrite B4. done.
  - done.
  - intros [] n2 (C1 & v2 & C2 & C3). split; [|exists v2; split; [done|]].
    + rewrite C1. cbn [n_dev set_delayed set_n_dev]. rewrite B1. unfold upd. cbn [bit_map_ set_queue set_bit_map n_dev set_n_dev]. rewrite list_insert_insert_eq.
      unfold row1. rewrite clear_set_all by done. by apply list_insert_id.
    + rewrite C3. by apply (zero_fill_all row).
Qed.
Lemma send_completes_witness :
  wp (Send 0x80020f00 0x80031000 60) (λ _ n1, ∃ v1, queue (n_dev n1) !! 1%nat = Some (Some v1) ∧
    walk 32 (desc v1) 0 = [(0x80020f00, 10, false); (0x80031000, 60, false)] ∧
    wp (on_dev (device_complete 1 0 0);; DealTxBuffer 2) (λ _ n2, bit_map_ (n_dev n2) = bit_map_ demo_netdev) n1) demo_net.
Proof.
  eapply wp_mono; [apply (send_completes 0x80020f00 0x80031000 60 0 1 [0; 0; 0; 0] demo_send demo_net)|].
  - split; try reflexivity.
    + split; [reflexivity|]. repeat constructor; cbn; lia.
    + intros i Hi _. unfold index in Hi. apply lookup_replicate. split; [reflexivity|lia].
  - vm_compute. split; [discriminate|reflexivity].
  - lia.
  - vm_compute. lia.
  - reflexivity.
  - reflexivity.
  - reflexivity.
  - reflexivity.
  - cbn. lia.
  - intros [] n1 (i & v1 & Hi & Hq & _ & Hw & _ & H). injection Hi as <-. exists v1.
    split; [exact Hq|]. split; [exact Hw|]. eapply wp_mono; [exact H|]. intros [] n2 [Hb _]. exact Hb.
Defined.
