(* ===== verification/DynamicLoader.v ===== *)
(** The dynamic loader: [kernel/syscalls/dynamic_loader.cc] and the system call
    [sys_dlopen] of [impl.cc].  The relocation, symbol and string tables of the
    running program and of the loaded library are read from the process's memory,
    the symbols the library defines from its file.  The offsets and constants are
    those of the ELF-64 format.  [junk] is the stack under the local objects. *)
From S2P Require Import Prelude Riscv Lock Mem MemoryList VirtualMemory Inode Process Scheduler Console FsCommon FileData FileStream Printk Syscalls Loader.

(** * elf.h *)
Definition sizeof_Shdr : nat := 64.
Definition sizeof_Sym : nat := 24.
Definition sizeof_Dyn : Z := 16.
Definition DT_STRTAB : Z := 5.
Definition DT_SYMTAB : Z := 6.
Definition DT_RELA : Z := 7.
Definition DT_RELASZ : Z := 8.
Definition DT_REL : Z := 17.
Definition DT_RELSZ : Z := 18.
Definition DT_INIT_ARRAY : Z := 25.
Definition DT_INIT_ARRAYSZ : Z := 27.
Definition R_RISCV_64 : Z := 2.
Definition R_RISCV_RELATIVE : Z := 3.
Definition R_RISCV_JUMP_SLOT : Z := 5.
Definition e_shoff (h : list Z) : Z := get_le h 40 8.
Definition e_shentsize (h : list Z) : Z := get_le h 58 2.
Definition e_shnum (h : list Z) : Z := get_le h 60 2.
Definition e_shstrndx (h : list Z) : Z := get_le h 62 2.
Definition sh_name (h : list Z) : Z := get_le h 0 4.
Definition sh_offset (h : list Z) : Z := get_le h 24 8.
Definition sh_size (h : list Z) : Z := get_le h 32 8.
Definition st_name (s : list Z) : Z := get_le s 0 4.
Definition st_value (s : list Z) : Z := get_le s 8 8.
(** [Elf64_Rela] and [Elf64_Rel] *)
Inductive relo := Rela | Rel.
Definition sizeof_relo (T : relo) : Z := match T with Rela => 24 | Rel => 16 end.
Definition ELF64_R_SYM (i : Z) : Z := Z.shiftr i 32.
Definition ELF64_R_TYPE (i : Z) : Z := Z.land i 0xffffffff.

(** * lib/streambase.cc: [GetLine] into the bytes [rest] of a buffer, after [out] *)
Fixpoint stream_GetLine {St} `{StreamBase St} (rest out : list Z) : M St (list Z) :=
  match rest with
  | [] => stop_with (Faulted "GetLine")
  | _ :: rest' =>
    '(l, _) ← Read rest 1;
    c ← of_option (Faulted "GetLine") (into rest l !! 0%nat);
    if c =? 0 then mret (out ++ c :: rest') else stream_GetLine rest' (out ++ [c])
  end.

(** * dynamic_loader.cc *)
(** the [Elf64_Dyn*] of [ProcessDynamicInfo]: physical addresses, 0 for null *)
Record dyn_ptrs := Dyns {
  rela_hdr : Z; rela_size : Z; rel_hdr : Z; rel_size : Z;
  sym_hdr : Z; symstr_hdr : Z; init_array : Z; init_array_sz : Z;
}.
Definition note_dyn (dyn tag : Z) (p : dyn_ptrs) : dyn_ptrs :=
  let pick t old := if tag =? t then dyn else old in
  Dyns (pick DT_RELA (rela_hdr p)) (pick DT_RELASZ (rela_size p)) (pick DT_REL (rel_hdr p)) (pick DT_RELSZ (rel_size p))
    (pick DT_SYMTAB (sym_hdr p)) (pick DT_STRTAB (symstr_hdr p)) (pick DT_INIT_ARRAY (init_array p))
    (pick DT_INIT_ARRAYSZ (init_array_sz p)).

Section dynamic.
Context {St : Type} `{StreamBase St}.
(** [offset_] of the loader *)
Context (junk : list Z) (offset_ : Z).
Abbreviation L := (M (loader St)).

(** [for (uint32_t i = 0; i < num; ++i)]: [fuel] is [num], which must be less than 2^32 *)
Fixpoint for_u32 {A} (fuel : nat) (i num : Z) (body : Z → A → L A) (x : A) : L A :=
  if i <? num then
    match fuel with
    | O => stop_with OutOfFuel
    | S fuel => x ← body i x; for_u32 fuel (u32 (i + 1)) num body x
    end
  else mret x.
Definition ld (pa : Z) : L Z := on_memory (ld64 pa).
Definition va_to_pa (va : Z) : L Z := t ← on_process this; '(pa, _) ← on_memory (VAToPA (page_table t) va); mret pa.

(** [symtab] and [symstr_tab] are section headers of the stream, and [target] the
    physical address of the name *)
Fixpoint iterate_symtab_loop (fuel : nat) (symtab symstr_tab : list Z) (target j sym_num : Z) : L Z :=
  if j <? sym_num then
    match fuel with
    | O => stop_with OutOfFuel
    | S fuel =>
      on_stream (Seek (u64 (sh_offset symtab + j * Z.of_nat sizeof_Sym)));;
      sym ← on_stream (ReadForType (take sizeof_Sym junk));
      on_stream (Seek (u64 (sh_offset symstr_tab + st_name sym)));;
      buf ← on_stream (stream_GetLine (take 64 junk) []);
      name ← on_memory (vm_cstring target);
      name ← of_option (Faulted "target_sym_name") name;
      c ← of_option (Faulted "strcmp") (strcmp buf name);
      if c =? 0 then mret (st_value sym) else iterate_symtab_loop fuel symtab symstr_tab target (u32 (j + 1)) sym_num
    end
  else mret 0.
Definition iterate_symtab (symtab symstr_tab : list Z) (target : Z) : L Z :=
  let sym_num := sh_size symtab / Z.of_nat sizeof_Sym in
  iterate_symtab_loop (Z.to_nat sym_num) symtab symstr_tab target 0 sym_num.

(** the physical address of the symbol's name and the address of the slot *)
Definition process_sym (T : relo) (offset relo_dyn sym_hdr symstr_hdr index : Z) : L (Z * Z) :=
  d_ptr ← ld (relo_dyn + 8);
  sym_dyn ← va_to_pa (u64 (d_ptr + offset + index * sizeof_relo T));
  d_ptr ← ld (sym_hdr + 8);
  r_info ← ld (sym_dyn + 8);
  sym ← va_to_pa (u64 (d_ptr + offset + ELF64_R_SYM r_info * Z.of_nat sizeof_Sym));
  st_name ← on_memory (vm_read sym 4);
  d_ptr ← ld (symstr_hdr + 8);
  sym_name ← va_to_pa (u64 (le_value st_name + d_ptr + offset));
  let store v := r_offset ← ld sym_dyn; pa ← va_to_pa (u64 (r_offset + offset)); on_memory (st64 pa (u64 (v + offset))) in
  let relo_type := ELF64_R_TYPE r_info in
  (if (relo_type =? R_RISCV_64) || (relo_type =? R_RISCV_JUMP_SLOT) then v ← ld (sym + 8); store v
   else if relo_type =? R_RISCV_RELATIVE then
     match T with Rela => v ← ld (sym_dyn + 16); store v | Rel => mret () end
   else mret ());;
  r_offset ← ld sym_dyn;
  mret (sym_name, u64 (r_offset + offset)).

Definition find_dyns (d : DynamicInfo) : L dyn_ptrs :=
  let num := dynamic_size d / sizeof_Dyn in
  for_u32 (Z.to_nat num) 0 num (λ i p,
    dyn ← va_to_pa (u64 (dynamic_vaddr d + i * sizeof_Dyn));
    d_tag ← ld dyn;
    mret (note_dyn dyn d_tag p)) (Dyns 0 0 0 0 0 0 0 0).
(** the body of the loop of the lambda [fun] *)
Definition relocate_one (T : relo) (offset : Z) (symtab symstrtab : list Z) (need_iterate : bool) (p : dyn_ptrs) (i : Z) : L () :=
  '(sym_name, slot) ← process_sym T offset (rela_hdr p) (sym_hdr p) (symstr_hdr p) i;
  if (need_iterate : bool) then
    addr ← iterate_symtab symtab symstrtab sym_name;
    if 0 <? addr then pa ← va_to_pa slot; on_memory (st64 pa (u64 (offset_ + addr))) else mret ()
  else mret ().
(** [fun]; whatever [hdr] and [size] are, it reads [rela_hdr] and [rela_size] *)
Definition relocate (T : relo) (offset : Z) (symtab symstrtab : list Z) (need_iterate : bool) (p : dyn_ptrs) (hdr size : Z) : L () :=
  if (hdr =? 0) || (size =? 0) then mret () else
  d_val ← ld (rela_size p + 8);
  let need_relo_num := d_val / sizeof_relo T in
  for_u32 (Z.to_nat need_relo_num) 0 need_relo_num (λ i _, relocate_one T offset symtab symstrtab need_iterate p i) ().
Definition ProcessDynamicInfo (offset : Z) (symtab symstrtab : list Z) (dynamic_info : DynamicInfo) (need_iterate : bool) : L (Z * Z) :=
  p ← find_dyns dynamic_info;
  if (sym_hdr p =? 0) || (symstr_hdr p =? 0) then mret (0, 0) else
  relocate Rela offset symtab symstrtab need_iterate p (rela_hdr p) (rela_size p);;
  relocate Rel offset symtab symstrtab need_iterate p (rel_hdr p) (rel_size p);;
  if (init_array p =? 0) || (init_array_sz p =? 0) then mret (0, 0) else
  d_ptr ← ld (init_array p + 8);
  d_val ← ld (init_array_sz p + 8);
  mret (d_ptr, u64 (d_ptr + d_val)).

(** the search for the two section headers *)
Fixpoint find_sections (n : nat) (i : Z) (h shstr : list Z) (dynstr dynsym : option (list Z)) : L (option (list Z) * option (list Z)) :=
  match n with
  | O => mret (dynstr, dynsym)
  | S n =>
    if i =? e_shstrndx h then find_sections n (i + 1) h shstr dynstr dynsym
    else
      on_stream (Seek (u64 (e_shoff h + int_of (i * e_shentsize h))));;
      section ← on_stream (ReadForType (take sizeof_Shdr junk));
      on_stream (Seek (u64 (sh_offset shstr + sh_name section)));;
      buf ← on_stream (stream_GetLine (take 64 junk) []);
      c ← of_option (Faulted "strcmp") (strcmp buf (cstr (lit ".dynstr")));
      let dynstr := if c =? 0 then Some section else dynstr in
      c ← of_option (Faulted "strcmp") (strcmp buf (cstr (lit ".dynsym")));
      let dynsym := if c =? 0 then Some section else dynsym in
      match dynstr, dynsym with
      | Some _, Some _ => mret (dynstr, dynsym)
      | _, _ => find_sections n (i + 1) h shstr dynstr dynsym
      end
  end.
(** the bounds of the library's initialisers, or false *)
Definition LoadDynamicInfo (dynamic_info : DynamicInfo) : L (option (Z * Z)) :=
  on_stream (Seek 0);;
  h ← on_stream (ReadForType (take sizeof_Ehdr junk));
  if negb (e_type h =? ET_DYN) then mret None else
  on_stream (Seek (u64 (e_shoff h + int_of (e_shstrndx h * e_shentsize h))));;
  shstr ← on_stream (ReadForType (take sizeof_Shdr junk));
  '(dynstr, dynsym) ← find_sections (Z.to_nat (e_shnum h)) 0 h shstr None None;
  match dynstr, dynsym with
  | Some dynstr, Some dynsym =>
    t ← on_process this;
    ProcessDynamicInfo 0 dynsym dynstr (Process.dynamic_info t) true;;
    '(b, e) ← ProcessDynamicInfo offset_ dynsym dynstr dynamic_info false;
    mret (Some (u64 (b + offset_), u64 (e + offset_)))
  | _, _ => mret None
  end.
End dynamic.

(** * impl.cc: [sys_dlopen] *)
Section dlopen.
Context {D : Type} `{BlockDevice D}.
Context (junk : list Z).
Abbreviation K := (M (kernel D)).
(** [m] on the file of [inode] and the process at index [i] of the table *)
Definition on_loader {A} (i : nat) (inode : InodeDef) (m : M (loader (fstream D)) A) : K A := λ k,
  let s := k_sched k in
  match process_tasks_ s !! i with
  | None => Stop (Faulted "process_tasks_")
  | Some t =>
    match m (Loader (Fstream inode 0 (FsState (k_disk k) (k_junk k) [])) (TState (sc_vm s) (sc_cur_pid s) t)) with
    | Ok (r, l) =>
      let ts := l_task l in
      let c := k_con k in
      let s' := Sched (<[i := ts_task ts]> (process_tasks_ s)) (process_task s) (ticks s) (init_process_ s) (ts_vm ts) (ts_cur_pid ts) in
      let fs := fs_state (l_stream l) in
      Ok (r, Kernel (Con (c_buf c) (read_index c) (write_index c) (lock_flag c) (is_writable_ c) (uart c) s') (disk fs) (FsCommon.junk fs))
    | Stop e => Stop e
    end
  end.
(** the two members of the [DynamicLoader], on one stream *)
Definition dlopen_load (offset_ : Z) : M (loader (fstream D)) (option (Z * Z)) :=
  '(entry, d) ← Load junk ET_DYN offset_;
  match entry with
  | None => mret None
  | Some _ =>
    d ← of_option (Faulted "dynamic_info") d;
    LoadDynamicInfo junk offset_ d
  end.
Definition sys_dlopen : K Z :=
  i ← this_index;
  process ← ThisTask;
  let d := Process.dynamic_info process in
  if (dynamic_vaddr d =? 0) || (dynamic_size d =? 0) then mret 0 else
  x ← GetStrArg 0 64;
  '(inode_index, o) ← on_fs (Open (Some (into (take 64 junk) x)));
  if inode_index <? 0 then mret (-1) else
  guarded (
    process ← ThisTask;
    if (length (used_address process) <? Z.to_nat (used_address_size process))%nat then stop_with (Faulted "used_address") else
    let max_mem_addr := max_mem (take (Z.to_nat (used_address_size process)) (used_address process)) in
    r ← on_loader i (default inode0 o) (dlopen_load (AddrCastUp max_mem_addr));
    match r with
    | None => mret (-1)
    | Some (init_array_beg, init_array_end) =>
      on_vm (st64 (frame process + RegFrame_a 1) init_array_beg);;
      on_vm (st64 (frame process + RegFrame_a 2) init_array_end);;
      mret 0
    end).
(** its place in the table of system calls *)
Definition with_dl (other : Z → K sysret) (num : Z) : K sysret :=
  if num =? 24 then ret sys_dlopen else other num.
End dlopen.

(** * Interface: a stream that can be read at any position.  [holds s l p]: its
    content is [l] and its position [p]. *)
Class SeekLaw (St : Type) `{StreamBase St} := {
  holds : St → list Z → Z → Prop;
  Seek_holds s l p q : holds s l p → 0 ≤ q < Z.of_nat (length l) → ∃ s', Seek q s = Ok ((), s') ∧ holds s' l q;
  Read_holds s l p old n : holds s l p → 0 ≤ n ≤ Z.of_nat (length l) - p →
    ∃ s', Read old n s = Ok ((slice l (Z.to_nat p) (Z.to_nat n), n), s') ∧ holds s' l (p + n);
  holds_range s l p : holds s l p → 0 ≤ p ≤ Z.of_nat (length l);
}.
#[export, refine] Instance StringStream_seek : SeekLaw StringStream := {|
  holds s l p := ss_position s = p ∧ 0 ≤ p ≤ ss_size s ∧ ss_size s = Z.of_nat (length l) ∧ ss_size s < 2 ^ 64 ∧ ss_buf s = l |}.
Proof.
  - intros [buf size pos] l p q (<- & Hp & Hsz & Hw & <-) Hq. cbn in *. eexists. split; [reflexivity|]. cbn.
    rewrite (wrap_small 64) by lia. split_and!; lia || done.
  - intros [buf size pos] l p old n (<- & Hp & Hsz & Hw & <-) Hn. cbn in *. unfold StringStream_Read. cbn.
    rewrite wrap_small by lia. rewrite Z.min_r by lia. eexists. split; [reflexivity|]. cbn. split_and!; lia || done.
  - intros [buf size pos] l p (<- & Hp & Hsz & Hw & <-). cbn in *. lia.
Defined.
#[export, refine] Instance FileStream_seek {D} `{BlockDevice D} : SeekLaw (fstream D) := {|
  holds s l p := fs_position s = p ∧ 0 ≤ p ≤ ino_size (fs_inode s) ∧
    ∃ bl, file_shape (fs_state s) (fs_inode s) bl ∧ l = shape_data (disk (fs_state s)) (fs_inode s) bl |}.
Proof.
  - intros [i pos fs] l p q (<- & Hp & bl & Hsh & ->) Hq. cbn in *. rewrite (length_shape_data _ _ _ Hsh) in Hq.
    eexists. split; [reflexivity|]. cbn. split; [done|]. split; [lia|]. by exists bl.
  - intros [i pos fs] l p old n (<- & Hp & bl & Hsh & ->) Hn. cbn in *. rewrite (length_shape_data _ _ _ Hsh) in Hn.
    pose proof (shape_FileStream_Read fs i bl pos old n Hsh Hp ltac:(lia)) as Hr.
    apply wp_ok in Hr as ([[out size] p'] & fs' & E & -> & -> & -> & ->). rewrite E. rewrite Z.min_r by lia.
    eexists. split; [reflexivity|]. cbn. split; [done|]. split; [lia|]. by exists bl.
  - intros [i pos fs] l p (<- & Hp & bl & Hsh & ->). cbn in *. rewrite (length_shape_data _ _ _ Hsh). lia.
Defined.

(** * Specification *)
(** the bytes of [l] from [a] on are the string [name] *)
Definition string_in (l : list Z) (a : Z) (name : list Z) : Prop :=
  0 ≤ a ∧ no_nul name ∧ (length name < 64)%nat ∧ ∃ r, drop (Z.to_nat a) l = name ++ 0 :: r.
(** a symbol table of a file as names and values *)
Definition symbols_in (l symtab symstr : list Z) (syms : list (list Z * Z)) : Prop :=
  Z.of_nat (length syms) = sh_size symtab / 24 ∧ Z.of_nat (length l) < 2 ^ 64 ∧
  ∀ j name v, syms !! j = Some (name, v) →
    let a := sh_offset symtab + Z.of_nat j * 24 in
    0 ≤ a ∧ a + 24 ≤ Z.of_nat (length l) ∧
    let sym := slice l (Z.to_nat a) 24 in
    st_value sym = v ∧ string_in l (sh_offset symstr + st_name sym) name.
(** the value of the first symbol with a name; 0 when there is none *)
Fixpoint lookup_symbol (syms : list (list Z * Z)) (name : list Z) : Z :=
  match syms with
  | [] => 0
  | (n, v) :: syms => if decide (n = name) then v else lookup_symbol syms name
  end.

(** ** What the loader reads from the process's memory.  [F] is a set of addresses
    that holds it all; the slots the loader writes lie outside. *)
Definition covers (F : Z → Prop) (T : ptree) : Prop := ∀ k p a, T !! k = Some p → p ≤ a < p + PGSIZE → F a.
Definition reads (F : Z → Prop) (m : mem) (a : Z) (n : nat) (v : Z) : Prop :=
  ram_ok a (Z.of_nat n) = true ∧ (∀ b, a ≤ b < a + Z.of_nat n → F b) ∧ load_le n m a = v.
Definition goes (m : mem) (T : ptree) (va pa : Z) : Prop := ∃ p f, translate m T va = Some (p, f) ∧ pa = p + va mod PGSIZE.
Definition reads_string (F : Z → Prop) (m : mem) (a : Z) (name : list Z) : Prop :=
  a ≠ 0 ∧ no_nul name ∧ (length name < max_string)%nat ∧ (∀ b, a ≤ b ≤ a + Z.of_nat (length name) → F b) ∧
  cstring_at max_string m a = name ++ [0].
(** a relocation: the slot's physical address and address, the symbol's name, and
    what the relocation itself stores *)
Record relocation := Relocation { r_slot : Z; r_addr : Z; r_name : list Z; r_own : option Z }.
Record relo_at (F : Z → Prop) (m : mem) (T : ptree) (offset : Z) (p : dyn_ptrs) (i : Z) (e : relocation)
    (rela ent r_offset r_info symtab sym name_off strtab name : Z) : Prop := {
  ra_rela : reads F m (rela_hdr p + 8) 8 rela;
  ra_ent : goes m T (u64 (rela + offset + i * 24)) ent;
  ra_offset : reads F m ent 8 r_offset;
  ra_info : reads F m (ent + 8) 8 r_info;
  ra_symtab : reads F m (sym_hdr p + 8) 8 symtab;
  ra_sym : goes m T (u64 (symtab + offset + ELF64_R_SYM r_info * 24)) sym;
  ra_name_off : reads F m sym 4 name_off;
  ra_strtab : reads F m (symstr_hdr p + 8) 8 strtab;
  ra_name : goes m T (u64 (name_off + strtab + offset)) name;
  ra_string : reads_string F m name (r_name e);
  ra_addr : r_addr e = u64 (r_offset + offset);
  ra_slot : goes m T (r_addr e) (r_slot e);
  ra_ram : ram_ok (r_slot e) 8 = true;
  ra_apart : ∀ b, F b → b < r_slot e ∨ r_slot e + 8 ≤ b;
  ra_own : let type := ELF64_R_TYPE r_info in
    if (type =? R_RISCV_64) || (type =? R_RISCV_JUMP_SLOT) then ∃ v, reads F m (sym + 8) 8 v ∧ r_own e = Some (u64 (v + offset))
    else if type =? R_RISCV_RELATIVE then ∃ v, reads F m (ent + 16) 8 v ∧ r_own e = Some (u64 (v + offset))
    else r_own e = None;
}.
Definition is_relo F m T offset p i e : Prop := ∃ rela ent r_offset r_info symtab sym name_off strtab name,
  relo_at F m T offset p i e rela ent r_offset r_info symtab sym name_off strtab name.
(** the dynamic section: its entries' physical addresses and tags *)
Definition dyns_at (F : Z → Prop) (m : mem) (T : ptree) (vaddr : Z) (ds : list (Z * Z)) : Prop :=
  ∀ i dyn tag, ds !! i = Some (dyn, tag) → goes m T (u64 (vaddr + Z.of_nat i * 16)) dyn ∧ reads F m dyn 8 tag.
Definition dyns_of (ds : list (Z * Z)) : dyn_ptrs := foldl (λ p d, note_dyn d.1 d.2 p) (Dyns 0 0 0 0 0 0 0 0) ds.
(** what a slot ends with *)
Definition resolved (offset_ : Z) (syms : list (list Z * Z)) (need_iterate : bool) (e : relocation) : option Z :=
  if need_iterate && (0 <? lookup_symbol syms (r_name e)) then Some (u64 (offset_ + lookup_symbol syms (r_name e))) else r_own e.
(** [m'] is [m] with [o], if any, at [slot] *)
Definition wrote (m : mem) (slot : Z) (o : option Z) (m' : mem) : Prop :=
  load64 m' slot = default (load64 m slot) o ∧ ∀ a, a < slot ∨ slot + 8 ≤ a → load8 m' a = load8 m a.

(** * Lemmas *)
Section seek.
Context {St : Type} `{SeekLaw St}.
Context (junk : list Z).
Lemma on_stream_run {A} (m : M St A) (s : loader St) a st : m (l_stream s) = Ok (a, st) → on_stream m s = Ok (a, Loader st (l_task s)).
Proof. intros E. unfold on_stream. by rewrite E. Qed.
Lemma ReadForType_run s l p (old : list Z) : holds s l p → Z.of_nat (length old) ≤ Z.of_nat (length l) - p →
  ∃ s', ReadForType old s = Ok (slice l (Z.to_nat p) (length old), s') ∧ holds s' l (p + Z.of_nat (length old)).
Proof.
  intros Hh Hl. pose proof (holds_range _ _ _ Hh) as Hp.
  destruct (Read_holds s l p old (Z.of_nat (length old)) Hh ltac:(lia)) as (s' & E & Hh').
  exists s'. unfold ReadForType. rewrite (bind_Ok _ _ _ _ _ E). split; [|done]. unfold mret, M_ret. do 2 f_equal. unfold into.
  rewrite Nat2Z.id. rewrite drop_ge; [by rewrite app_nil_r|]. unfold slice. rewrite length_take, length_drop. lia.
Qed.
Lemma slice_1 (l : list Z) k x r : drop k l = x :: r → slice l k 1 = [x].
Proof. intros E. unfold slice. by rewrite E. Qed.
Lemma GetLine_run name : ∀ (s : St) l p rest out r, holds s l p → drop (Z.to_nat p) l = name ++ 0 :: r → no_nul name →
  (length name < length rest)%nat →
  ∃ s', stream_GetLine rest out s = Ok (out ++ name ++ 0 :: drop (S (length name)) rest, s') ∧ holds s' l (p + Z.of_nat (length name) + 1).
Proof.
  induction name as [|c name IH]; intros s l p [|b rest] out r Hh Hd Hn Hr; cbn [length] in Hr; try lia;
    pose proof (holds_range _ _ _ Hh) as Hp.
  all: assert (Hl : (length (drop (Z.to_nat p) l) = length l - Z.to_nat p)%nat) by apply length_drop; rewrite Hd, length_app in Hl; cbn [length] in Hl.
  all: destruct (Read_holds s l p (b :: rest) 1 Hh ltac:(lia)) as (s1 & E & Hh1); change (Z.to_nat 1) with 1%nat in E; cbn [stream_GetLine]; rewrite (bind_Ok _ _ _ _ _ E);
    cbn [app] in Hd; rewrite (slice_1 _ _ _ _ Hd); cbn [into app length drop lookup list_lookup of_option].
  - rewrite (bind_Ok (mret 0) _ _ 0 s1) by done. exists s1. split; [done|]. by rewrite Z.add_0_r.
  - apply Forall_cons in Hn as [Hc Hn]. rewrite (bind_Ok (mret c) _ _ c s1) by done. rewrite (proj2 (Z.eqb_neq _ _)) by done.
    destruct (IH s1 l (p + 1) rest (out ++ [c]) r Hh1) as (s2 & E2 & Hh2); [|done|lia|].
    + replace (Z.to_nat (p + 1)) with (Z.to_nat p + 1)%nat by lia. rewrite <-drop_drop, Hd. done.
    + exists s2. rewrite E2. split; [by rewrite <-app_assoc|]. cbn [length]. by replace (p + Z.of_nat (S (length name)) + 1) with (p + 1 + Z.of_nat (length name) + 1) by lia.
Qed.
(** a string of the file into a buffer of 64 bytes *)
Lemma read_string s l p a name : holds (l_stream s) l p → string_in l a name → (64 ≤ length junk)%nat → Z.of_nat (length l) < 2 ^ 64 →
  ∃ s1 s2 r p', on_stream (Seek (u64 a)) s = Ok ((), s1) ∧ on_stream (stream_GetLine (take 64 junk) []) s1 = Ok (name ++ 0 :: r, s2) ∧
    l_task s2 = l_task s ∧ holds (l_stream s2) l p'.
Proof.
  intros Hh (Ha & Hn & Hlen & r & Hd) Hj Hl64.
  assert ((Z.to_nat a < length l)%nat) as Hal.
  { apply (f_equal length) in Hd. rewrite length_drop, length_app in Hd. cbn in Hd. lia. }
  rewrite wrap_small by lia. destruct (Seek_holds _ _ _ a Hh ltac:(lia)) as (st1 & E1 & Hh1).
  destruct (GetLine_run name st1 l a (take 64 junk) [] r Hh1 Hd Hn) as (st2 & E2 & Hh2); [rewrite length_take; lia|].
  exists (Loader st1 (l_task s)), (Loader st2 (l_task s)). eexists _, _. split; [by apply on_stream_run|].
  split; [by apply (on_stream_run _ (Loader st1 (l_task s)))|]. split; [done|exact Hh2].
Qed.
Lemma iterate_symtab_run syms : ∀ fuel s l p symtab symstr all target name j,
  holds (l_stream s) l p → symbols_in l symtab symstr all → Z.of_nat (length all) < 2 ^ 32 → (64 ≤ length junk)%nat →
  drop j all = syms → (length syms ≤ fuel)%nat → target ≠ 0 → cstring_at max_string (l_mem s) target = name ++ [0] → no_nul name →
  ∃ st p', iterate_symtab_loop junk fuel symtab symstr target (Z.of_nat j) (sh_size symtab / 24) s =
      Ok (lookup_symbol syms name, Loader st (l_task s)) ∧ holds st l p'.
Proof.
  induction syms as [|[nm v] syms IH]; intros fuel s l p symtab symstr all target name j Hh Hs Hall Hj Hd Hf Ht Hc Hn;
    pose proof Hs as (Hlen & Hl64 & Hsym); apply (f_equal length) in Hd as Hd'; rewrite length_drop in Hd'; cbn [length] in Hd'.
  { exists (l_stream s), p. destruct fuel; cbn [iterate_symtab_loop]; rewrite (proj2 (Z.ltb_ge _ _)) by lia; by destruct s. }
  cbn [length] in Hf. destruct fuel as [|fuel]; [lia|]. cbn [iterate_symtab_loop]. rewrite (proj2 (Z.ltb_lt _ _)) by lia.
  assert (all !! j = Some (nm, v)) as Ej.
  { pose proof (lookup_drop all j 0) as Hl. rewrite Hd, Nat.add_0_r in Hl. done. }
  destruct (Hsym j nm v Ej) as (Ha & Hal & Hv & Hstr). change (Z.of_nat sizeof_Sym) with 24. set (a := sh_offset symtab + Z.of_nat j * 24) in *.
  rewrite (wrap_small 64 a) by lia. destruct (Seek_holds _ _ _ a Hh ltac:(lia)) as (st1 & E1 & Hh1).
  rewrite (bind_Ok _ _ _ _ _ (on_stream_run _ s _ _ E1)).
  assert (length (take sizeof_Sym junk) = 24%nat) as H24 by (rewrite length_take; unfold sizeof_Sym; lia).
  destruct (ReadForType_run st1 l a (take sizeof_Sym junk) Hh1 ltac:(lia)) as (st2 & E2 & Hh2). rewrite H24 in E2, Hh2.
  rewrite (bind_Ok _ _ _ _ _ (on_stream_run _ (Loader st1 (l_task s)) _ _ E2)). set (sym := slice l (Z.to_nat a) 24) in *.
  destruct (read_string (Loader st2 (l_task s)) l _ _ nm Hh2 Hstr Hj Hl64) as (s3 & s4 & r & p4 & E3 & E4 & Ht4 & Hh4).
  rewrite (bind_Ok _ _ _ _ _ E3), (bind_Ok _ _ _ _ _ E4). cbn [l_task] in Ht4.
  assert (on_memory (vm_cstring target) s4 = Ok (Some (name ++ [0]), s4)) as E5.
  { unfold on_memory, on_process, lift_vm, vm_cstring. rewrite (proj2 (Z.eqb_neq _ _)) by done. rewrite Ht4, Hc.
    destruct s4 as [st4 t4]. cbn in *. subst t4. by destruct (l_task s). }
  rewrite (bind_Ok _ _ _ _ _ E5). cbn [of_option]. rewrite (bind_Ok (mret _) _ _ (name ++ [0]) s4) by done.
  assert (no_nul nm) as Hnm by apply Hstr. destruct (strcmp_defined nm name r [] Hnm Hn) as [c Ec]. rewrite Ec. cbn [of_option].
  rewrite (bind_Ok (mret c) _ _ c s4) by done. pose proof (strcmp_cstr_0 nm name r [] Hnm Hn) as Hcmp. rewrite Ec in Hcmp.
  cbn [lookup_symbol]. destruct (Z.eqb_spec c 0) as [Hc0|Hc0].
  - rewrite decide_True by (apply Hcmp; by rewrite Hc0). exists (l_stream s4), p4. rewrite Hv. split; [|done]. rewrite <-Ht4. by destruct s4.
  - rewrite decide_False by (intros Heq; apply Hc0; apply Hcmp in Heq; congruence).
    rewrite (wrap_small 32) by lia. replace (Z.of_nat j + 1) with (Z.of_nat (S j)) by lia.
    destruct (IH fuel s4 l p4 symtab symstr all target name (S j)) as (st & p' & E & Hh'); try done; [|lia|by rewrite Ht4|].
    + replace (S j) with (j + 1)%nat by lia. by rewrite <-drop_drop, Hd.
    + exists st, p'. by rewrite E, Ht4.
Qed.
End seek.

(** ** Stability of what is read *)
Definition agree (F : Z → Prop) (m m' : mem) : Prop := ∀ a, F a → load8 m' a = load8 m a.
Lemma reads_agree F m m' a n v : agree F m m' → reads F m a n v → reads F m' a n v.
Proof. intros Ha (Hr & HF & <-). split; [done|]. split; [done|]. apply load_le_agree. intros b Hb. by apply Ha, HF. Qed.
Lemma goes_agree F T m m' va pa : covers F T → agree F m m' → goes m T va pa → goes m' T va pa.
Proof.
  intros Hc Ha (p & f & E & ->). exists p, f. split; [|done]. rewrite <-E. apply translate_mem.
  intros k q a Hk _ Hq. by eapply Ha, Hc.
Qed.
Lemma cstring_at_agree name : ∀ n m m' a, (length name < n)%nat → (∀ b, a ≤ b ≤ a + Z.of_nat (length name) → load8 m' b = load8 m b) →
  no_nul name → cstring_at n m a = name ++ [0] → cstring_at n m' a = name ++ [0].
Proof.
  induction name as [|c name IH]; intros [|n] m m' a Hn Hb Hnn Hc; cbn [length] in *; try lia; cbn [cstring_at app] in *;
    injection Hc as Hc Ht; rewrite (Hb a) by lia.
  - by rewrite Hc, Z.eqb_refl.
  - apply Forall_cons in Hnn as [Hnz Hnn]. rewrite Hc in *. rewrite (proj2 (Z.eqb_neq _ _)) in * by done. f_equal.
    apply (IH n m); [lia| |done|done]. intros b Hb'. apply Hb. lia.
Qed.
Lemma reads_string_agree F m m' a name : agree F m m' → reads_string F m a name → reads_string F m' a name.
Proof.
  intros Ha (H0 & Hn & Hl & HF & Hc). split_and!; try done. apply (cstring_at_agree name max_string m); [done| |done|done].
  intros b Hb. by apply Ha, HF.
Qed.
Lemma is_relo_agree F m m' T offset p i e : covers F T → agree F m m' → is_relo F m T offset p i e → is_relo F m' T offset p i e.
Proof.
  intros Hc Ha (rela & ent & r_offset & r_info & symtab & sym & name_off & strtab & name & []).
  exists rela, ent, r_offset, r_info, symtab, sym, name_off, strtab, name.
  split; eauto using reads_agree, goes_agree, reads_string_agree. cbv zeta in *. repeat case_match; naive_solver eauto using reads_agree.
Qed.
Lemma wrote_none m slot : wrote m slot None m.
Proof. by split. Qed.
Lemma wrote_some m slot v : wrote m slot (Some (u64 v)) (store64 m slot v).
Proof. split; [apply load64_store64|]. intros a Ha. by apply load8_store64_ne. Qed.
Lemma wrote_trans m1 m2 m3 slot o1 o2 : wrote m1 slot o1 m2 → wrote m2 slot o2 m3 → wrote m1 slot (match o2 with Some v => Some v | None => o1 end) m3.
Proof. intros [H1 H2] [H3 H4]. split; [destruct o2; cbn in *; congruence|]. intros a Ha. by rewrite H4, H2. Qed.
Lemma wrote_agree F m slot o m' : wrote m slot o m' → (∀ b, F b → b < slot ∨ slot + 8 ≤ b) → agree F m m'.
Proof. intros [_ Hw] HF a Ha. by apply Hw, HF. Qed.
Lemma pt_rep_agree F vm fl root T m : covers F T → pt_rep vm fl root T → agree F (vm_mem vm) m → pt_rep (set_mem m vm) fl root T.
Proof. intros Hc Hp Ha. eapply pt_rep_mem; [exact Hp|]. intros k q a Hk _ Hq. by eapply Ha, Hc. Qed.

Section resolve.
Context {St : Type} `{SeekLaw St}.
Context (junk : list Z) (offset_ : Z) (F : Z → Prop) (T : ptree) (fl : list Z) (root : Z).
(** the loader's process has the page table [T], which [F] covers *)
Definition env (s : loader St) : Prop :=
  page_table (ts_task (l_task s)) = root ∧ pt_rep (l_vm s) fl root T ∧ covers F T.
Lemma loader_mem_same (s : loader St) : with_loader_mem (l_mem s) (l_stream s) s = s.
Proof. by destruct s as [? [[] ? ?]]. Qed.
Lemma loader_mem_twice m1 st1 m2 st2 (s : loader St) : with_loader_mem m2 st2 (with_loader_mem m1 st1 s) = with_loader_mem m2 st2 s.
Proof. done. Qed.
Lemma env_mem (s : loader St) m st : env s → agree F (l_mem s) m → env (with_loader_mem m st s).
Proof. intros (Hr & Hp & Hc) Ha. split_and!; [done| |done]. by apply (pt_rep_agree F). Qed.
Lemma ld_run (s : loader St) a v : reads F (l_mem s) a 8 v → ld a s = Ok (v, s).
Proof. intros (Hr & _ & <-). unfold ld, on_memory, on_process, lift_vm, ld64. change (Z.of_nat 8) with 8 in Hr. rewrite Hr. by destruct s as [? [[] ? ?]]. Qed.
Lemma va_run (s : loader St) va pa : env s → goes (l_mem s) T va pa → 0 ≤ va < 2 ^ 64 → va_to_pa va s = Ok (pa, s).
Proof.
  intros (Hr & Hp & _) (p & f & E & ->) Hva. unfold va_to_pa.
  rewrite (bind_Ok (on_process this) _ _ (ts_task (l_task s)) s) by by destruct s as [? []].
  rewrite (bind_Ok (on_memory _) _ _ (p + va mod PGSIZE, Some f) s); [done|].
  unfold on_memory, on_process, lift_vm. rewrite Hr, (VAToPA_ok (l_vm s) fl T root va Hp Hva), E. by destruct s as [? []].
Qed.
Lemma st_run (s : loader St) a v : ram_ok a 8 = true → on_memory (st64 a v) s = Ok ((), with_loader_mem (store64 (l_mem s) a v) (l_stream s) s).
Proof. intros Hr. unfold on_memory, on_process, lift_vm, st64. by rewrite Hr. Qed.
Lemma read4_run (s : loader St) a v : reads F (l_mem s) a 4 v → ∃ l, on_memory (vm_read a 4) s = Ok (l, s) ∧ le_value l = v.
Proof.
  intros (Hr & _ & Hv). exists (load_bytes 4 (l_mem s) a). unfold on_memory, on_process, lift_vm, vm_read. change (Z.of_nat 4) with 4 in Hr.
  rewrite Hr, orb_true_r. split; [by destruct s as [? [[] ? ?]]|]. by rewrite <-Hv, load_le_value.
Qed.
(** storing through a slot of the process *)
Lemma slot_run (s : loader St) e offset ent r_offset v : env s → reads F (l_mem s) ent 8 r_offset → r_addr e = u64 (r_offset + offset) →
  goes (l_mem s) T (r_addr e) (r_slot e) → ram_ok (r_slot e) 8 = true →
  (r_offset ← ld (St:=St) ent; pa ← va_to_pa (u64 (r_offset + offset)); on_memory (st64 pa (u64 v))) s =
    Ok ((), with_loader_mem (store64 (l_mem s) (r_slot e) (u64 v)) (l_stream s) s).
Proof.
  intros He Hr Ha Hg Hram. rewrite (bind_Ok _ _ _ _ _ (ld_run _ _ _ Hr)), <-Ha.
  rewrite (bind_Ok _ _ _ _ _ (va_run _ _ _ He Hg ltac:(rewrite Ha; apply wrap_range; lia))). by apply st_run.
Qed.
Lemma process_sym_run (s : loader St) offset p i e : env s → is_relo F (l_mem s) T offset p i e →
  ∃ name m', process_sym Rela offset (rela_hdr p) (sym_hdr p) (symstr_hdr p) i s = Ok ((name, r_addr e), with_loader_mem m' (l_stream s) s) ∧
    wrote (l_mem s) (r_slot e) (r_own e) m' ∧ reads_string F (l_mem s) name (r_name e).
Proof.
  intros He (rela & ent & r_offset & r_info & symtab & sym & name_off & strtab & name & R).
  assert (∀ x, 0 ≤ u64 x < 2 ^ 64) as Hu by (intros x; apply wrap_range; lia).
  unfold process_sym. change (sizeof_relo Rela) with 24. change (Z.of_nat sizeof_Sym) with 24.
  rewrite (bind_Ok _ _ _ _ _ (ld_run _ _ _ (ra_rela _ _ _ _ _ _ _ _ _ _ _ _ _ _ _ _ R))).
  rewrite (bind_Ok _ _ _ _ _ (va_run _ _ _ He (ra_ent _ _ _ _ _ _ _ _ _ _ _ _ _ _ _ _ R) (Hu _))).
  rewrite (bind_Ok _ _ _ _ _ (ld_run _ _ _ (ra_symtab _ _ _ _ _ _ _ _ _ _ _ _ _ _ _ _ R))).
  rewrite (bind_Ok _ _ _ _ _ (ld_run _ _ _ (ra_info _ _ _ _ _ _ _ _ _ _ _ _ _ _ _ _ R))).
  rewrite (bind_Ok _ _ _ _ _ (va_run _ _ _ He (ra_sym _ _ _ _ _ _ _ _ _ _ _ _ _ _ _ _ R) (Hu _))).
  destruct (read4_run _ _ _ (ra_name_off _ _ _ _ _ _ _ _ _ _ _ _ _ _ _ _ R)) as (l4 & E4 & Hl4).
  rewrite (bind_Ok _ _ _ _ _ E4). rewrite (bind_Ok _ _ _ _ _ (ld_run _ _ _ (ra_strtab _ _ _ _ _ _ _ _ _ _ _ _ _ _ _ _ R))), Hl4.
  rewrite (bind_Ok _ _ _ _ _ (va_run _ _ _ He (ra_name _ _ _ _ _ _ _ _ _ _ _ _ _ _ _ _ R) (Hu _))). cbv zeta.
  destruct R as [_ _ Hoff _ _ _ _ _ _ Hstr Haddr Hslot Hram Hap Hown]. cbv zeta in Hown.
  (* what is stored, and the second read of [r_offset] *)
  assert (∀ m, wrote (l_mem s) (r_slot e) (r_own e) m →
    (r_offset ← ld (St:=St) ent; mret (name, u64 (r_offset + offset))) (with_loader_mem m (l_stream s) s) =
      Ok ((name, r_addr e), with_loader_mem m (l_stream s) s)) as Hend.
  { intros m Hw. pose proof (wrote_agree F _ _ _ _ Hw Hap) as Ha.
    rewrite (bind_Ok _ _ _ r_offset (with_loader_mem m (l_stream s) s)); [by rewrite Haddr|].
    apply ld_run. cbn [l_task with_loader_mem ts_vm]. by apply (reads_agree F (l_mem s)). }
  assert (∀ a v, reads F (l_mem s) a 8 v → r_own e = Some (u64 (v + offset)) →
    let m' := store64 (l_mem s) (r_slot e) (u64 (v + offset)) in
    (v ← ld (St:=St) a; r_offset ← ld ent; pa ← va_to_pa (u64 (r_offset + offset)); on_memory (st64 pa (u64 (v + offset)))) s =
      Ok ((), with_loader_mem m' (l_stream s) s) ∧ wrote (l_mem s) (r_slot e) (r_own e) m') as Hstore.
  { intros a v Hv Ho. split.
    - rewrite (bind_Ok _ _ _ _ _ (ld_run _ _ _ Hv)). by eapply slot_run.
    - rewrite Ho. rewrite <-(wrap_wrap 64 (v + offset)) at 1. apply wrote_some. }
  exists name.
  destruct ((ELF64_R_TYPE r_info =? R_RISCV_64) || (ELF64_R_TYPE r_info =? R_RISCV_JUMP_SLOT)) eqn:Ht1;
    [|destruct (ELF64_R_TYPE r_info =? R_RISCV_RELATIVE) eqn:Ht2].
  1,2: destruct Hown as (v & Hv & Ho); destruct (Hstore _ _ Hv Ho) as [E Hw]; eexists; rewrite (bind_Ok _ _ _ _ _ E); by rewrite (Hend _ Hw).
  - exists (l_mem s). rewrite (bind_Ok (mret ()) _ _ () s) by done. rewrite Hown. pose proof (wrote_none (l_mem s) (r_slot e)) as Hw.
    rewrite <-Hown in Hw. pose proof (Hend _ Hw) as Hend'. rewrite loader_mem_same in *. rewrite Hend'. rewrite <-Hown. done.
Qed.
Lemma relocate_one_run (s : loader St) l pos symtab symstr syms offset need p i e : env s → holds (l_stream s) l pos →
  symbols_in l symtab symstr syms → Z.of_nat (length syms) < 2 ^ 32 → (64 ≤ length junk)%nat → is_relo F (l_mem s) T offset p i e →
  ∃ m st pos', relocate_one junk offset_ Rela offset symtab symstr need p i s = Ok ((), with_loader_mem m st s) ∧
    wrote (l_mem s) (r_slot e) (resolved offset_ syms need e) m ∧ holds st l pos'.
Proof.
  intros He Hh Hs Hn Hj Hr. destruct (process_sym_run s offset p i e He Hr) as (name & m1 & E1 & Hw1 & Hstr).
  assert (∃ r_offset, r_addr e = u64 (r_offset + offset) ∧ goes (l_mem s) T (r_addr e) (r_slot e) ∧ ram_ok (r_slot e) 8 = true ∧
    (∀ b, F b → b < r_slot e ∨ r_slot e + 8 ≤ b)) as (r_offset & Haddr & Hg & Hram & Hap).
  { destruct Hr as (? & ? & r_offset & ? & ? & ? & ? & ? & ? & []). by exists r_offset. }
  pose proof (wrote_agree F _ _ _ _ Hw1 Hap) as Ha1. set (s1 := with_loader_mem m1 (l_stream s) s) in *.
  assert (env s1) as He1 by by apply env_mem.
  unfold relocate_one. rewrite (bind_Ok _ _ _ _ _ E1). cbv beta iota. unfold resolved. destruct need; cbn [andb].
  2: { exists m1, (l_stream s), pos. done. }
  apply (reads_string_agree F _ m1) in Hstr as (Hn0 & Hnn & _ & _ & Hc); [|done].
  pose proof Hs as (Hlen & _). unfold iterate_symtab. change (Z.of_nat sizeof_Sym) with 24.
  destruct (iterate_symtab_run junk syms (Z.to_nat (sh_size symtab / 24)) s1 l pos symtab symstr syms name (r_name e) 0)
    as (st & pos' & E2 & Hh2); try done; [lia|].
  change (Z.of_nat 0) with 0 in E2. rewrite (bind_Ok _ _ _ _ _ E2). set (addr := lookup_symbol syms (r_name e)).
  destruct (Z.ltb_spec 0 addr) as [Hpos|Hpos]; [|exists m1, st, pos'; by destruct s as [? []]].
  set (s2 := Loader st (l_task s1)). assert (env s2) as He2 by done.
  rewrite (bind_Ok _ _ _ (r_slot e) s2).
  2: { apply va_run; [done|by apply (goes_agree F T (l_mem s)); [apply He| |]|]. rewrite Haddr. apply wrap_range. lia. }
  rewrite (st_run s2) by done. exists (store64 m1 (r_slot e) (u64 (offset_ + addr))), st, pos'.
  split; [by destruct s as [? []]|]. split; [|done].
  eapply (wrote_trans _ _ _ _ _ (Some (u64 (offset_ + addr)))); [exact Hw1|]. rewrite <-(wrap_wrap 64 (offset_ + addr)) at 1. apply wrote_some.
Qed.
(** the slots of [es] hold what [o] says, but for the last ones, and nothing else has changed *)
Definition slots_done (m : mem) (es : list relocation) (o : relocation → option Z) (n : nat) (m' : mem) : Prop :=
  (∀ k e, es !! k = Some e → load64 m' (r_slot e) = default (load64 m (r_slot e)) (if (k <? n)%nat then o e else None)) ∧
  ∀ a, (∀ e, e ∈ es → a < r_slot e ∨ r_slot e + 8 ≤ a) → load8 m' a = load8 m a.
Definition slots_apart (es : list relocation) : Prop :=
  ∀ i j e e', es !! i = Some e → es !! j = Some e' → i ≠ j → r_slot e + 8 ≤ r_slot e' ∨ r_slot e' + 8 ≤ r_slot e.
Lemma slots_done_step m es o n m1 e m2 : slots_apart es → slots_done m es o n m1 → es !! n = Some e →
  wrote m1 (r_slot e) (o e) m2 → slots_done m es o (S n) m2.
Proof.
  intros Hap [H1 H2] He [W1 W2]. split.
  - intros k e' Hk. destruct (decide (k = n)) as [->|Hne].
    + rewrite He in Hk. injection Hk as <-. rewrite (proj2 (Nat.ltb_lt _ _)) by lia. rewrite W1.
      destruct (o e); [done|]. cbn. rewrite (H1 n e He). by rewrite Nat.ltb_irrefl.
    + rewrite (load_le_agree 8 m2 m1); [|intros b Hb; apply W2; destruct (Hap k n e' e Hk He Hne); lia].
      rewrite (H1 k e' Hk). destruct (Nat.ltb_spec k n); [by rewrite (proj2 (Nat.ltb_lt _ _)) by lia|].
      by rewrite (proj2 (Nat.ltb_ge _ _)) by lia.
  - intros a Ha. rewrite W2 by (by apply Ha, list_elem_of_lookup_2 with n). by apply H2.
Qed.
Lemma for_u32_run {A} (Inv : nat → loader St → Prop) (x0 : nat → A) n body :
  (∀ i s, (i < n)%nat → Inv i s → ∃ s', body (Z.of_nat i) (x0 i) s = Ok (x0 (S i), s') ∧ Inv (S i) s') → Z.of_nat n < 2 ^ 32 →
  ∀ k i s, (i + k)%nat = n → Inv i s → ∃ s', for_u32 k (Z.of_nat i) (Z.of_nat n) body (x0 i) s = Ok (x0 n, s') ∧ Inv n s'.
Proof.
  intros Hb Hn. induction k as [|k IH]; intros i s Hi Hinv; cbn [for_u32].
  - rewrite (proj2 (Z.ltb_ge _ _)) by lia. exists s. replace n with i by lia. done.
  - rewrite (proj2 (Z.ltb_lt _ _)) by lia. destruct (Hb i s ltac:(lia) Hinv) as (s' & E & Hinv'). rewrite (bind_Ok _ _ _ _ _ E).
    rewrite (wrap_small 32) by lia. replace (Z.of_nat i + 1) with (Z.of_nat (S i)) by lia. apply IH; [lia|done].
Qed.
(** the whole table of relocations with addends *)
Lemma relocate_run (s : loader St) l pos symtab symstr syms offset need p es sz : env s → holds (l_stream s) l pos →
  symbols_in l symtab symstr syms → Z.of_nat (length syms) < 2 ^ 32 → (64 ≤ length junk)%nat →
  rela_hdr p ≠ 0 → rela_size p ≠ 0 → reads F (l_mem s) (rela_size p + 8) 8 sz → sz / 24 = Z.of_nat (length es) →
  Z.of_nat (length es) < 2 ^ 32 → (∀ i e, es !! i = Some e → is_relo F (l_mem s) T offset p (Z.of_nat i) e) → slots_apart es →
  ∃ m st pos', relocate junk offset_ Rela offset symtab symstr need p (rela_hdr p) (rela_size p) s = Ok ((), with_loader_mem m st s) ∧
    slots_done (l_mem s) es (resolved offset_ syms need) (length es) m ∧ agree F (l_mem s) m ∧ holds st l pos'.
Proof.
  intros He Hh Hs Hn Hj Hp1 Hp2 Hsz Hlen Hes32 Hes Hap. unfold relocate. rewrite !(proj2 (Z.eqb_neq _ _)) by done. cbn [orb].
  rewrite (bind_Ok _ _ _ _ _ (ld_run _ _ _ Hsz)). cbv zeta. change (sizeof_relo Rela) with 24. rewrite Hlen, Nat2Z.id.
  set (o := resolved offset_ syms need). set (Inv := λ i s', ∃ m st pos', s' = with_loader_mem m st s ∧ slots_done (l_mem s) es o i m ∧
    agree F (l_mem s) m ∧ holds st l pos').
  destruct (for_u32_run Inv (λ _, ()) (length es) (λ i _, relocate_one junk offset_ Rela offset symtab symstr need p i))
    with (k := length es) (i := 0%nat) (s := s) as (s' & E & m & st & pos' & -> & H1 & H2 & H3); [|done|done| |].
  - intros i s' Hi (m & st & pos' & -> & H1 & H2 & H3). destruct (lookup_lt_is_Some_2 es i Hi) as [e Ee].
    destruct (relocate_one_run (with_loader_mem m st s) l pos' symtab symstr syms offset need p (Z.of_nat i) e)
      as (m2 & st2 & pos2 & E & Hw & Hh2); try done.
    + by apply env_mem.
    + apply (is_relo_agree F (l_mem s)); [apply He|done|by apply Hes].
    + eexists. split; [exact E|]. exists m2, st2, pos2. split; [done|]. split; [by apply (slots_done_step _ _ _ _ m e)|]. split; [|done].
      intros a Ha. rewrite <-(H2 a Ha). apply Hw. destruct (Hes i e Ee) as (? & ? & ? & ? & ? & ? & ? & ? & ? & R). by apply R.
  - exists (l_mem s), (l_stream s), pos. rewrite loader_mem_same. split; [done|]. split; [|done]. by split.
  - exists m, st, pos'. done.
Qed.
Lemma find_dyns_run (s : loader St) d ds : env s → dyns_at F (l_mem s) T (dynamic_vaddr d) ds → dynamic_size d / 16 = Z.of_nat (length ds) →
  Z.of_nat (length ds) < 2 ^ 32 → find_dyns d s = Ok (dyns_of ds, s).
Proof.
  intros He Hd Hl H32. unfold find_dyns, sizeof_Dyn. cbv zeta. rewrite Hl, Nat2Z.id.
  destruct (for_u32_run (λ _ s', s' = s) (λ i, dyns_of (take i ds)) (length ds) (λ i p, dyn ← va_to_pa (u64 (dynamic_vaddr d + i * 16));
    d_tag ← ld dyn; mret (note_dyn dyn d_tag p))) with (k := length ds) (i := 0%nat) (s := s) as (s' & E & ->); [|done|done|done|].
  - intros i s' Hi ->. destruct (lookup_lt_is_Some_2 ds i Hi) as [[dyn tag] Ei]. destruct (Hd i dyn tag Ei) as [Hg Hr].
    exists s. rewrite (bind_Ok _ _ _ _ _ (va_run _ _ _ He Hg ltac:(apply wrap_range; lia))), (bind_Ok _ _ _ _ _ (ld_run _ _ _ Hr)).
    split; [|done]. rewrite (take_S_r _ _ _ Ei). unfold dyns_of. rewrite foldl_app. done.
  - change (dyns_of (take 0 ds)) with (Dyns 0 0 0 0 0 0 0 0) in E. rewrite firstn_all in E. exact E.
Qed.
End resolve.
(** the bounds [ProcessDynamicInfo] returns *)
Definition init_at (F : Z → Prop) (m : mem) (p : dyn_ptrs) (r : Z * Z) : Prop :=
  if (init_array p =? 0) || (init_array_sz p =? 0) then r = (0, 0)
  else ∃ a n, reads F m (init_array p + 8) 8 a ∧ reads F m (init_array_sz p + 8) 8 n ∧ r = (a, u64 (a + n)).

(** * Properties *)
(** C10: processing a dynamic section whose relocations have addends: when the slots are
    apart from each other and from all that is read, each slot ends with the offset of
    the library plus the value of the first of its symbols with that name, or, when
    the library has none or is not searched, with what its own relocation says;
    nothing else in memory changes, and the initialisers' bounds are returned. *)
Theorem ProcessDynamicInfo_resolves {St} `{SeekLaw St} junk offset_ F T fl root (s : loader St) l pos symtab symstr syms offset need d ds es sz r :
  let p := dyns_of ds in
  env F T fl root s → holds (l_stream s) l pos → symbols_in l symtab symstr syms → Z.of_nat (length syms) < 2 ^ 32 → (64 ≤ length junk)%nat →
  dyns_at F (l_mem s) T (dynamic_vaddr d) ds → dynamic_size d / 16 = Z.of_nat (length ds) → Z.of_nat (length ds) < 2 ^ 32 →
  sym_hdr p ≠ 0 → symstr_hdr p ≠ 0 → rela_hdr p ≠ 0 → rela_size p ≠ 0 → rel_hdr p = 0 →
  reads F (l_mem s) (rela_size p + 8) 8 sz → sz / 24 = Z.of_nat (length es) → Z.of_nat (length es) < 2 ^ 32 →
  (∀ i e, es !! i = Some e → is_relo F (l_mem s) T offset p (Z.of_nat i) e) → slots_apart es → init_at F (l_mem s) p r →
  ∃ m st pos', ProcessDynamicInfo junk offset_ offset symtab symstr d need s = Ok (r, with_loader_mem m st s) ∧ holds st l pos' ∧
    (∀ e, e ∈ es → load64 m (r_slot e) = default (load64 (l_mem s) (r_slot e)) (resolved offset_ syms need e)) ∧
    ∀ a, (∀ e, e ∈ es → a < r_slot e ∨ r_slot e + 8 ≤ a) → load8 m a = load8 (l_mem s) a.
Proof.
  intros p He Hh Hs Hn Hj Hds Hdl Hd32 Hp1 Hp2 Hp3 Hp4 Hp5 Hsz Hlen Hes32 Hes Hap Hi.
  unfold ProcessDynamicInfo. erewrite (bind_Ok (find_dyns _)) by by eapply find_dyns_run. fold p. rewrite !(proj2 (Z.eqb_neq _ _)) by done. cbn [orb].
  destruct (relocate_run junk offset_ F T fl root s l pos symtab symstr syms offset need p es sz) as (m & st & pos' & E & [H1 H2] & Ha & Hh'); try done.
  rewrite (bind_Ok _ _ _ _ _ E). unfold relocate at 1. rewrite Hp5. cbn [Z.eqb orb]. rewrite (bind_Ok (mret ()) _ _ () (with_loader_mem m st s)) by done.
  exists m, st, pos'. split_and!; [|done| |done].
  - unfold init_at in Hi. destruct ((init_array p =? 0) || (init_array_sz p =? 0)); [by rewrite Hi|]. destruct Hi as (a & n & Hra & Hrn & ->).
    rewrite (bind_Ok _ _ _ a (with_loader_mem m st s)) by (apply (ld_run F); by apply (reads_agree F (l_mem s))).
    by rewrite (bind_Ok _ _ _ n (with_loader_mem m st s)) by (apply (ld_run F); by apply (reads_agree F (l_mem s))).
  - intros e (k & Hk)%list_elem_of_lookup_1. rewrite (H1 k e Hk). by rewrite (proj2 (Nat.ltb_lt _ _)) by (by eapply lookup_lt_Some).
Qed.

(** ** A program with two relocations against [f] and [g], and a library that defines [f] *)
Definition pad (n : nat) (l : list Z) : list Z := l ++ replicate (n - length l) 0.
Definition demo_dynamic : list Z := concat (le_bytes 8 <$> [DT_RELA; 0x10100; DT_RELASZ; 48; DT_SYMTAB; 0x10200; DT_STRTAB; 0x10300]).
Definition demo_rela : list Z := concat (le_bytes 8 <$>
  [0x10800; 2 ^ 32 + R_RISCV_JUMP_SLOT; 0; 0x10808; 2 * 2 ^ 32 + R_RISCV_64; 0]).
Definition demo_sym (name value : Z) : list Z := le_bytes 8 name ++ le_bytes 8 value ++ le_bytes 8 0.
Definition demo_image : list Z := pad 256 demo_dynamic ++ pad 256 demo_rela ++
  pad 256 (demo_sym 0 0 ++ demo_sym 1 0 ++ demo_sym 3 7) ++ [0; 102; 0; 103; 0].
Definition demo_library : list Z := demo_sym 0 0 ++ demo_sym 1 0x40 ++ [0; 102; 0].
Definition demo_symtab : list Z := replicate 32 0 ++ le_bytes 8 48 ++ replicate 24 0.
Definition demo_strtab : list Z := replicate 24 0 ++ le_bytes 8 48 ++ replicate 32 0.
Definition demo_syms : list (list Z * Z) := [([], 0); ([102], 0x40)].
Definition demo_relocs (pg : Z) : list relocation :=
  [Relocation (pg + 0x800) 0x10800 [102] (Some 0); Relocation (pg + 0x808) 0x10808 [103] (Some 7)].
Definition demo_dyns (pg : Z) : list (Z * Z) := [(pg + 0, DT_RELA); (pg + 16, DT_RELASZ); (pg + 32, DT_SYMTAB); (pg + 48, DT_STRTAB)].
(** the page tables and the image *)
Definition demo_F (T : ptree) (pg a : Z) : Prop := (∃ k p, T !! k = Some p ∧ p ≤ a < p + PGSIZE) ∨ pg ≤ a < pg + 0x800.

Lemma load_le_image n m a img o : Forall (λ b, 0 ≤ b < 256) img → (o + n ≤ length img)%nat →
  load_le n (store_bytes m a img) (a + Z.of_nat o) = get_le img o n.
Proof.
  intros Hb Hl. rewrite load_le_value. unfold get_le. f_equal.
  apply list_eq_same_length with n; [unfold slice; rewrite length_take, length_drop; lia|apply length_load_bytes|].
  intros i x y Hi Ex Ey. rewrite load_bytes_lookup in Ex by done. injection Ex as <-. unfold slice in Ey. rewrite lookup_take_lt, lookup_drop in Ey by done.
  rewrite load8_store_bytes, decide_True by lia. replace (Z.to_nat (a + Z.of_nat o + Z.of_nat i - a)) with (o + i)%nat by lia.
  rewrite Ey. cbn. apply wrap_small. by eapply Forall_lookup_1 in Hb; [|exact Ey].
Qed.
Lemma cstring_at_bytes name : ∀ n m a, (length name < n)%nat → no_nul name →
  (∀ i x, (name ++ [0]) !! i = Some x → load8 m (a + Z.of_nat i) = x) → cstring_at n m a = name ++ [0].
Proof.
  induction name as [|c name IH]; intros [|n] m a Hn Hnn Hb; cbn [length] in *; try lia; cbn [cstring_at app];
    pose proof (Hb 0%nat _ eq_refl) as H0; rewrite Z.add_0_r in H0; rewrite H0.
  - done.
  - apply Forall_cons in Hnn as [Hnz Hnn]. rewrite (proj2 (Z.eqb_neq _ _)) by done. f_equal. apply IH; [lia|done|].
    intros i x Hx. rewrite <-(Hb (S i) x Hx). f_equal. lia.
Qed.
Lemma demo_image_length : length demo_image = 773%nat.
Proof. vm_compute. reflexivity. Qed.
Lemma demo_image_bytes : Forall (λ b, 0 ≤ b < 256) demo_image.
Proof. apply (bool_decide_unpack _). vm_compute. exact I. Qed.
Section demo.
Context (T : ptree) (pg f : Z) (m0 : mem) (Hpg : page_ok pg).
Context (Ht : ∀ o, 0 ≤ o < PGSIZE → translate (store_bytes m0 pg demo_image) T (0x10000 + o) = Some (pg, f)).
Abbreviation m := (store_bytes m0 pg demo_image).
Lemma demo_reads o n v : (o + n ≤ 773)%nat → get_le demo_image o n = v → reads (demo_F T pg) m (pg + Z.of_nat o) n v.
Proof.
  destruct Hpg as (_ & Hb & He). intros Ho <-. split; [unfold ram_ok, KERNEL_BASE, PGSIZE in *; lia|]. split; [intros b Hb'; right; lia|].
  apply load_le_image; [apply demo_image_bytes|rewrite demo_image_length; lia].
Qed.
Lemma demo_goes o : 0 ≤ o < PGSIZE → goes m T (0x10000 + o) (pg + o).
Proof. intros Ho. exists pg, f. split; [by apply Ht|]. unfold PGSIZE in *. dlia. Qed.
Lemma demo_string o c : (o + 1 < 773)%nat → c ≠ 0 → demo_image !! o = Some c → demo_image !! S o = Some 0 → 0 ≤ c < 256 →
  reads_string (demo_F T pg) m (pg + Z.of_nat o) [c].
Proof.
  destruct Hpg as (_ & Hb & He). intros Ho Hc E0 E1 Hr. split; [unfold KERNEL_BASE in *; lia|]. split; [by repeat constructor|].
  split; [unfold max_string, PGSIZE; cbn [length]; lia|]. split; [cbn [length]; intros b Hb'; right; lia|].
  assert (∀ i x, demo_image !! i = Some x → 0 ≤ x < 256 → (i < 773)%nat → load8 m (pg + Z.of_nat i) = x) as Hl.
  { intros i x Ei Hx Hi. rewrite load8_store_bytes, decide_True by (rewrite demo_image_length; lia). replace (Z.to_nat (pg + Z.of_nat i - pg)) with i by lia.
    rewrite Ei. by apply wrap_small. }
  apply cstring_at_bytes; [unfold max_string, PGSIZE; cbn [length]; lia|by repeat constructor|].
  intros [|[|i]] x Ex; [..|done]; injection Ex as <-; rewrite <-Z.add_assoc, <-Nat2Z.inj_add; apply Hl; try lia.
  - by rewrite Nat.add_0_r.
  - by replace (o + 1)%nat with (S o) by lia.
Qed.
Context (HF : ∀ b, demo_F T pg b → b < pg + 0x800 ∨ pg + PGSIZE ≤ b).
Lemma demo_relo i e : demo_relocs pg !! i = Some e → is_relo (demo_F T pg) m T 0 (dyns_of (demo_dyns pg)) (Z.of_nat i) e.
Proof.
  pose proof Hpg as (_ & Hb & He). unfold KERNEL_BASE, MEMORY_END, PGSIZE in Hb, He.
  assert (∀ a o n v, a = pg + Z.of_nat o → (o + n ≤ 773)%nat → get_le demo_image o n = v → reads (demo_F T pg) m a n v) as R.
  { intros a o n v -> Ho E. by apply demo_reads. }
  assert (∀ va o, 0 ≤ o < 4096 → va = 0x10000 + o → goes m T va (pg + o)) as G by (intros va o Ho ->; by apply demo_goes).
  intros Ei. destruct i as [|[|i]]; [..|done]; injection Ei as <-.
  - exists 0x10100, (pg + 256), 0x10800, (2 ^ 32 + R_RISCV_JUMP_SLOT), 0x10200, (pg + 536), 1, 0x10300, (pg + 769). split; cbn [r_slot r_addr r_name r_own].
    + apply (R _ 8%nat); [cbn; lia|lia|reflexivity].
    + apply G; [lia|reflexivity].
    + apply (R _ 256%nat); [lia|lia|reflexivity].
    + apply (R _ 264%nat); [lia|lia|reflexivity].
    + apply (R _ 40%nat); [cbn; lia|lia|reflexivity].
    + apply G; [lia|reflexivity].
    + apply (R _ 536%nat); [lia|lia|reflexivity].
    + apply (R _ 56%nat); [cbn; lia|lia|reflexivity].
    + apply G; [lia|reflexivity].
    + apply (demo_string 769 102); [lia|lia|reflexivity|reflexivity|lia].
    + reflexivity.
    + apply G; [lia|reflexivity].
    + unfold ram_ok, KERNEL_BASE, MEMORY_END. lia.
    + intros b Hb'. destruct (HF b Hb'); unfold PGSIZE in *; lia.
    + exists 0. split; [|reflexivity]. apply (R _ 544%nat); [lia|lia|reflexivity].
  - exists 0x10100, (pg + 280), 0x10808, (2 * 2 ^ 32 + R_RISCV_64), 0x10200, (pg + 560), 3, 0x10300, (pg + 771). split; cbn [r_slot r_addr r_name r_own].
    + apply (R _ 8%nat); [cbn; lia|lia|reflexivity].
    + apply G; [lia|reflexivity].
    + apply (R _ 280%nat); [lia|lia|reflexivity].
    + apply (R _ 288%nat); [lia|lia|reflexivity].
    + apply (R _ 40%nat); [cbn; lia|lia|reflexivity].
    + apply G; [lia|reflexivity].
    + apply (R _ 560%nat); [lia|lia|reflexivity].
    + apply (R _ 56%nat); [cbn; lia|lia|reflexivity].
    + apply G; [lia|reflexivity].
    + apply (demo_string 771 103); [lia|lia|reflexivity|reflexivity|lia].
    + reflexivity.
    + apply G; [lia|reflexivity].
    + unfold ram_ok, KERNEL_BASE, MEMORY_END. lia.
    + intros b Hb'. destruct (HF b Hb'); unfold PGSIZE in *; lia.
    + exists 7. split; [|reflexivity]. apply (R _ 568%nat); [lia|lia|reflexivity].
Qed.
End demo.
Lemma demo_mapped vm0 fl0 root T0 : vm_inv vm0 fl0 → pt_rep vm0 fl0 root T0 → (3 ≤ length fl0)%nat →
  ∃ vm fl T pg f, let m := store_bytes (vm_mem vm) pg demo_image in
    pt_rep (set_mem m vm) fl root T ∧ data_page fl T pg ∧ ∀ o, 0 ≤ o < PGSIZE → translate m T (0x10000 + o) = Some (pg, f).
Proof.
  intros Hi Hp Hl0.
  pose proof (wp_MapMemory root 0x10000 0x11000 (Z.lor PTE_R PTE_U) vm0 fl0 T0 Hi Hp ltac:(lia)
    ltac:(unfold MAX_SUPPORT_VA; lia) ltac:(vm_compute; split; [discriminate|reflexivity]) Hl0) as Hm.
  apply wp_ok in Hm as (b & vm & _ & _ & ps & fl & T & Hl & Hrm).
  change (range_pages 0x10000 0x11000) with 1%nat in Hl. destruct ps as [|pg [|]]; [discriminate| |discriminate].
  destruct (range_mapped_mapped _ _ _ _ _ _ _ _ _ _ Hrm ltac:(lia) ltac:(vm_compute; discriminate)) as [Htr Hmap].
  destruct (Hmap 0%nat pg eq_refl) as [Hdata _].
  destruct (rep_written vm fl root T pg 0 demo_image (rm_rep _ _ _ _ _ _ _ _ _ _ Hrm) Hdata ltac:(lia)
    ltac:(rewrite demo_image_length; unfold PGSIZE; lia)) as [Hrep Htr2]. rewrite Z.add_0_r in *. cbn [vm_mem set_mem] in Htr2.
  eexists vm, fl, T, pg, _. cbv zeta. split; [exact Hrep|]. split; [exact Hdata|]. intros o Ho. rewrite Htr2.
  specialize (Htr 0%nat pg o eq_refl Ho). change (range_base 0x10000) with 0x10000 in Htr. by rewrite Z.add_0_r in Htr.
Qed.
Definition demo_stream : StringStream := MkStringStream demo_library 51 0.
Definition demo_program (vm : vmstate) (m : mem) : loader StringStream :=
  Loader demo_stream (TState (set_mem m vm) 6 (set_pages 0 demo_root 0 0 task0)).
Lemma demo_holds : holds demo_stream demo_library 0.
Proof. vm_compute. split_and!; (reflexivity || discriminate). Qed.
Lemma demo_symbols : symbols_in demo_library demo_symtab demo_strtab demo_syms.
Proof.
  split; [reflexivity|]. split; [reflexivity|].
  intros [|[|j]] name v E; [| |done]; injection E as <- <-; cbv zeta; (split; [vm_compute; discriminate|]); (split; [vm_compute; discriminate|]);
    (split; [reflexivity|]); (split; [vm_compute; discriminate|]).
  - split; [constructor|]. split; [cbn; lia|]. exists [102; 0]. reflexivity.
  - split; [by repeat constructor|]. split; [cbn; lia|]. exists []. reflexivity.
Qed.
Lemma ProcessDynamicInfo_resolves_witness : ∃ (s : loader StringStream) pg m st,
  ProcessDynamicInfo (replicate 64 0) 0x20000 0 demo_symtab demo_strtab (MkDynamicInfo 0x10000 64) true s =
    Ok ((0, 0), with_loader_mem m st s) ∧
  load64 m (pg + 0x800) = 0x20040 ∧ load64 m (pg + 0x808) = 7.
Proof.
  destruct demo_pt_inv as [Hi Hp].
  destruct (demo_mapped demo_pt demo_free demo_root demo_T Hi Hp) as (vm & fl & T & pg & f & Hrep & Hdata & Ht); [vm_compute; lia|].
  pose proof Hdata as (Hpg & _ & HT). cbv zeta in *. set (m0 := vm_mem vm) in *. set (m := store_bytes m0 pg demo_image) in *.
  pose proof (demo_reads T pg m0 Hpg) as R. pose proof (demo_goes T pg f m0 Ht) as G. pose proof (demo_string T pg m0 Hpg) as Str.
  fold m in R, G, Str. pose proof Hpg as (_ & Hb & He). unfold KERNEL_BASE, MEMORY_END, PGSIZE in Hb, He.
  assert (∀ b, demo_F T pg b → b < pg + 0x800 ∨ pg + PGSIZE ≤ b) as HF.
  { intros b [(k & q & Hk & Hq)|Hb']; [|lia]. destruct (pt_page _ _ _ _ Hrep k q Hk) as [Hqp _].
    assert (q ≠ pg) as Hne by (intros ->; apply HT, pt_pages_elem; by exists k).
    pose proof (page_apart_byte pg q b Hpg Hqp ltac:(done)). unfold PGSIZE in *. lia. }
  exists (demo_program vm m), pg.
  destruct (ProcessDynamicInfo_resolves (replicate 64 0) 0x20000 (demo_F T pg) T fl demo_root (demo_program vm m) demo_library 0
    demo_symtab demo_strtab demo_syms 0 true (MkDynamicInfo 0x10000 64) (demo_dyns pg) (demo_relocs pg) 48 (0, 0)) as (m' & st & pos' & E & _ & Hs & _).
  - split; [reflexivity|]. split; [exact Hrep|]. intros k p a Hk Ha. left. by exists k, p.
  - exact demo_holds.
  - exact demo_symbols.
  - vm_compute. reflexivity.
  - cbn. lia.
  - intros [|[|[|[|i]]]] dyn tag Ei; [..|done]; injection Ei as <- <-.
    1: split; [apply (G 0)|apply (R 0%nat 8%nat)]; unfold PGSIZE; (lia || reflexivity).
    1: split; [apply (G 16)|apply (R 16%nat 8%nat)]; unfold PGSIZE; (lia || reflexivity).
    1: split; [apply (G 32)|apply (R 32%nat 8%nat)]; unfold PGSIZE; (lia || reflexivity).
    1: split; [apply (G 48)|apply (R 48%nat 8%nat)]; unfold PGSIZE; (lia || reflexivity).
  - reflexivity.
  - vm_compute. reflexivity.
  - cbn. lia.
  - cbn. lia.
  - cbn. lia.
  - cbn. lia.
  - reflexivity.
  - cbn. rewrite <-Z.add_assoc. apply (R 24%nat 8%nat); [lia|reflexivity].
  - reflexivity.
  - vm_compute. reflexivity.
  - intros i e Ei. by apply (demo_relo T pg f m0 Hpg Ht HF).
  - intros [|[|i]] [|[|j]] e e' Ei Ej Hne; try done; injection Ei as <-; injection Ej as <-; cbn; lia.
  - reflexivity.
  - exists m', st. split; [exact E|]. split.
    + exact (Hs (Relocation (pg + 0x800) 0x10800 [102] (Some 0)) ltac:(by left)).
    + exact (Hs (Relocation (pg + 0x808) 0x10808 [103] (Some 7)) ltac:(by right; left)).
Defined.
