(* ===== verification/Mkfs.v ===== *)
(** The image builder [filesystem/mkfs.cc], which runs on the host: it writes the
    super block, the inode table, the bitmap and the data blocks of an image from
    host files.  The kernel reads the image through its block device, so what is
    built here meets [common.cc] and [filestream.cc] in the theorem.  What the host
    gives is an argument: the size, and for each path its file name and content, or
    nothing when it cannot be opened. *)
From S2P Require Import Prelude Mem Inode FsCommon FileData FileStream Directory.

(** * The output file: the bytes written with [seekp] and [write] *)
Record img := Img { img_len : Z; img_bytes : gmap Z Z }.
Fixpoint write_bytes (m : gmap Z Z) (a : Z) (l : list Z) : gmap Z Z :=
  match l with [] => m | x :: l => write_bytes (<[a := x]> m) (a + 1) l end.
Definition read_byte (m : gmap Z Z) (a : Z) : Z := default 0 (m !! a).
Definition write_at (off : Z) (l : list Z) (i : img) : img :=
  Img (Z.max (img_len i) (off + Z.of_nat (length l))) (write_bytes (img_bytes i) off l).
Definition img_block (i : img) (b : Z) : list Z := (λ k, read_byte (img_bytes i) (512 * b + Z.of_nat k)) <$> seq 0 512.
Lemma read_write_bytes l : ∀ m a b, read_byte (write_bytes m a l) b =
  if decide (a ≤ b < a + Z.of_nat (length l)) then default 0 (l !! Z.to_nat (b - a)) else read_byte m b.
Proof.
  induction l as [|x l IH]; intros m a b; cbn [write_bytes length]; [by rewrite decide_False by lia|].
  rewrite IH. unfold read_byte at 1. rewrite lookup_insert. destruct (decide (a = b)) as [->|Hne].
  - rewrite decide_False by lia. rewrite decide_True by lia. by rewrite Z.sub_diag.
  - fold (read_byte m b). destruct (decide (a + 1 ≤ b < a + 1 + Z.of_nat (length l))).
    + rewrite decide_True by lia. by replace (Z.to_nat (b - a)) with (S (Z.to_nat (b - (a + 1)))) by lia.
    + by rewrite decide_False by lia.
Qed.
Lemma img_block_len i b : length (img_block i b) = 512%nat.
Proof. unfold img_block. by rewrite length_fmap, length_seq. Qed.
Lemma img_block_lookup i b k : (k < 512)%nat → img_block i b !! k = Some (read_byte (img_bytes i) (512 * b + Z.of_nat k)).
Proof. intros Hk. unfold img_block. by rewrite list_lookup_fmap, lookup_seq_lt by done. Qed.
(** a write inside one block *)
Lemma block_write i off l b o b' : off = 512 * b + Z.of_nat o → (o + length l ≤ 512)%nat →
  img_block (write_at off l i) b' = if decide (b = b') then splice (img_block i b) o l else img_block i b'.
Proof.
  intros -> Hl. apply list_eq_same_length with 512%nat; [|apply img_block_len|].
  { case_decide; [rewrite length_splice|]; rewrite ?img_block_len; lia. }
  intros k x y Hk Ex Ey. rewrite img_block_lookup in Ex by done. injection Ex as <-. unfold write_at in *. cbn [img_bytes].
  rewrite read_write_bytes. destruct (decide (b = b')) as [<-|Hne].
  - rewrite lookup_splice, img_block_lookup in Ey by (rewrite ?img_block_len; lia). destruct (decide (o ≤ k < o + length l)%nat) as [Hin|Hin].
    + rewrite decide_True by lia. replace (Z.to_nat (512 * b + Z.of_nat k - (512 * b + Z.of_nat o))) with (k - o)%nat by lia. by rewrite Ey.
    + rewrite decide_False by lia. congruence.
  - rewrite decide_False by lia. rewrite img_block_lookup in Ey by done. congruence.
Qed.
(** the image as the kernel's disk *)
#[export, refine] Instance img_BlockDevice : BlockDevice img := {|
  sectors i := img_len i / 512; sector := img_block;
  put_sector i b x := Img (img_len i) (write_bytes (img_bytes i) (512 * b) x) |}.
Proof.
  - apply img_block_len.
  - done.
  - intros i b x b' Hx _. pose proof (block_write i (512 * b) x b 0 b' ltac:(lia) ltac:(lia)) as E.
    change (img_block (write_at (512 * b) x i) b') with (img_block (Img (img_len i) (write_bytes (img_bytes i) (512 * b) x)) b') in E.
    rewrite E. case_decide; [|done]. unfold splice. cbn [take app]. rewrite drop_ge; [by rewrite app_nil_r|]. rewrite img_block_len. lia.
Defined.

(** * mkfs.cc *)
Record host_file := HostFile { hf_name : list Z; hf_data : list Z }.
Record mkfs := MkMkfs { fs_img : img; bit_map : list Z; root_inode : InodeDef; cur_data_block : Z; cur_inode_index : Z }.
Definition set_img (i : img) (s : mkfs) : mkfs := MkMkfs i (bit_map s) (root_inode s) (cur_data_block s) (cur_inode_index s).
Definition set_bits (l : list Z) (s : mkfs) : mkfs := MkMkfs (fs_img s) l (root_inode s) (cur_data_block s) (cur_inode_index s).
Definition set_root (r : InodeDef) (s : mkfs) : mkfs := MkMkfs (fs_img s) (bit_map s) r (cur_data_block s) (cur_inode_index s).
Definition write (off : Z) (l : list Z) : M mkfs () := modify (λ s, set_img (write_at off l (fs_img s)) s).
Definition MaxSupportFileSize : Z := (DIRECT_ADDR_SIZE + BLOCK_SIZE / 4) * BLOCK_SIZE.
Definition super_block (size : Z) : SuperBlock :=
  let inode_start := 1 in
  let bmap_start := inode_start + INODE_TABLE_SIZE * INODE_ELEMENT_SIZE / BLOCK_SIZE in
  MkSuperBlock (le_value FSMAGIC) size (u32 (size - bmap_start - 1)) INODE_TABLE_SIZE inode_start bmap_start.

Section sb.
Context (sb : SuperBlock).
Definition UpdateBitMap (cur : Z) : M mkfs () :=
  let byte_index := u32 (cur - bmap_start sb - 1) / 8 in
  let byte_remain := u32 (cur - bmap_start sb - 1) mod 8 in
  bm ← gets bit_map;
  b ← of_option (Faulted "bit_map") (bm !! Z.to_nat byte_index);
  let b := u8 (Z.lor b (Z.shiftl 1 byte_remain)) in
  modify (set_bits (<[Z.to_nat byte_index := b]> bm));;
  write (u32 (bmap_start sb * BLOCK_SIZE + byte_index)) [b].
(** [UpdateBitMap(cur_data_block); cur_data_block += 1;] *)
Definition use_block : M mkfs () :=
  cur ← gets cur_data_block;
  UpdateBitMap cur;;
  modify (λ s, MkMkfs (fs_img s) (bit_map s) (root_inode s) (u32 (cur_data_block s + 1)) (cur_inode_index s)).

(** the file being copied: its inode, its indirect block, [buf] and the bytes processed *)
Record placing := Placing { p_inode : InodeDef; p_indirect : list Z; p_buf : list Z; p_total : Z }.
(** the current block becomes entry [cur_data_index] of the file; the first entry beyond
    the direct ones takes a block for the indirect block before *)
Definition enter_block (cur_data_index : Z) (inode : InodeDef) (indirect : list Z) : M mkfs (InodeDef * list Z) :=
  if cur_data_index <? DIRECT_ADDR_SIZE then
    cur ← gets cur_data_block; mret (set_addr inode (Z.to_nat cur_data_index) cur, indirect)
  else
    cur ← gets cur_data_block;
    inode ← (if indirect_addr inode =? 0 then use_block;; mret (set_indirect inode cur) else mret inode);
    cur ← gets cur_data_block;
    let i := Z.to_nat (cur_data_index - DIRECT_ADDR_SIZE) in
    if (i <? length indirect)%nat then mret (inode, <[i := cur]> indirect) else stop_with (Faulted "indirect_block").
(** one round of the loop, with what [file.read] got *)
Definition place_chunk (chunk : list Z) (p : placing) : M mkfs placing :=
  let buf := splice (p_buf p) 0 chunk in
  '(inode, indirect) ← enter_block (p_total p / BLOCK_SIZE) (p_inode p) (p_indirect p);
  cur ← gets cur_data_block;
  write (u32 (cur * BLOCK_SIZE)) buf;;
  use_block;;
  mret (Placing inode indirect buf (p_total p + Z.of_nat (length chunk))).
Fixpoint place (fuel : nat) (data : list Z) (p : placing) : M mkfs placing :=
  match data with
  | [] => mret p
  | _ => match fuel with
         | O => stop_with OutOfFuel
         | S fuel => p ← place_chunk (take 512 data) p; place fuel (drop 512 data) p
         end
  end.
(** the block of the root directory that its next entry goes to *)
Definition root_block (root : InodeDef) (cur_root_data_index : nat) : M mkfs () :=
  a ← of_option (Faulted "root_inode.addr") (addr root !! cur_root_data_index);
  if a =? 0 then
    cur ← gets cur_data_block;
    modify (set_root (set_addr root cur_root_data_index cur));;
    use_block
  else mret ().
(** the entry of the root directory *)
Definition add_entry (file_name : list Z) : M mkfs () :=
  root ← gets root_inode;
  index ← gets cur_inode_index;
  let cur_root_data_index := Z.to_nat (ino_size root / BLOCK_SIZE) in
  root_block root cur_root_data_index;;
  root ← gets root_inode;
  a ← of_option (Faulted "root_inode.addr") (addr root !! cur_root_data_index);
  write (u32 (u32 (a * BLOCK_SIZE) + ino_size root mod BLOCK_SIZE)) (enc_dir (MkDirElement (u16 index) (splice (replicate 14 0) 0 file_name)));;
  modify (set_root (set_size root (u32 (ino_size root + DIR_ELEMENT_SIZE)))).
Definition new_file (index size : Z) : InodeDef := MkInode index FT_regular_file 1 0 0 (u32 size) (replicate 12 0) 0.
(** the body of the loop over the arguments, but for the test that ends it *)
Definition add_file (f : option host_file) : M mkfs () :=
  match f with
  | None => mret ()
  | Some f =>
    let file_size := Z.of_nat (length (hf_data f)) in
    if MaxSupportFileSize <? file_size then mret ()
    else if MAX_FILE_NAME_LEN <=? Z.of_nat (length (hf_name f)) then mret ()
    else
      add_entry (hf_name f);;
      index ← gets cur_inode_index;
      p ← place (length (hf_data f)) (hf_data f) (Placing (new_file index file_size) (replicate 128 0) (replicate 512 0) 0);
      write (index * INODE_ELEMENT_SIZE + u32 (inode_start sb * BLOCK_SIZE)) (enc_inode (p_inode p));;
      (if nonzero (default 0 (p_indirect p !! 0%nat)) then write (u32 (indirect_addr (p_inode p) * BLOCK_SIZE)) (enc_words (p_indirect p)) else mret ());;
      modify (λ s, MkMkfs (fs_img s) (bit_map s) (root_inode s) (cur_data_block s) (u32 (cur_inode_index s + 1)))
  end.
Fixpoint add_files (fs : list (option host_file)) : M mkfs () :=
  match fs with
  | [] => mret ()
  | f :: fs =>
    cur ← gets cur_data_block;
    if datablocks_count sb <? u32 (cur - bmap_start sb) then mret () else add_file f;; add_files fs
  end.
(** [size] zeroed blocks *)
Fixpoint alloc_img (n : nat) (i : Z) : M mkfs () :=
  match n with O => mret () | S n => write (u32 (i * BLOCK_SIZE)) (replicate 512 0);; alloc_img n (i + 1) end.
Definition main (fs : list (option host_file)) : M mkfs () :=
  alloc_img (Z.to_nat (sb_size sb)) 0;;
  write 0 (enc_super sb);;
  add_files fs;;
  root ← gets root_inode;
  write (ROOT_INODE * INODE_ELEMENT_SIZE + u32 (inode_start sb * BLOCK_SIZE)) (enc_inode root).
End sb.
Definition mkfs_init (sb : SuperBlock) : mkfs :=
  MkMkfs (Img 0 ∅) (replicate 512 0) (MkInode ROOT_INODE FT_directory 1 0 0 0 (replicate 12 0) 0) (bmap_start sb + 1) 1.
(** the image [mkfs] leaves *)
Definition mkfs_image (size : Z) (fs : list (option host_file)) : option img :=
  match main (super_block size) fs (mkfs_init (super_block size)) with Ok (_, s) => Some (fs_img s) | Stop _ => None end.

(** * Specification *)
Definition nblocks (n : Z) : Z := (n + 511) / 512.
(** the blocks of a file of [n] bytes, its indirect block included *)
Definition fblocks (n : Z) : Z := nblocks n + if 6144 <? n then 1 else 0.
(** the data blocks that files and their directory need *)
Definition needed (fs : list host_file) : Z :=
  nblocks (16 * Z.of_nat (length fs)) + foldr Z.add 0 ((λ f, fblocks (Z.of_nat (length (hf_data f)))) <$> fs).
(** what [mkfs] accepts: twelve direct blocks and 128 in the indirect block *)
Definition file_ok (f : host_file) : Prop :=
  name_ok (hf_name f) ∧ Z.of_nat (length (hf_data f)) ≤ 71680.
(** the data blocks of [n] bytes, all below [hi], among [N] entries: the 12 of a
    directory, the 140 of a file *)
Record addrs_ok (N : nat) (a : list Z) (hi n : Z) : Prop := {
  ao_len : length a = N;
  ao_in : ∀ k x, a !! k = Some x → 512 * Z.of_nat k < n → 42 ≤ x < hi;
  ao_zero : ∀ k x, a !! k = Some x → n ≤ 512 * Z.of_nat k → x = 0;
  ao_inj : ∀ j k x, a !! j = Some x → a !! k = Some x → x ≠ 0 → j = k;
}.
Definition content (i : img) (a : list Z) (n : nat) : list Z := take n (concat (img_block i <$> a)).
Definition entries (fs : list host_file) : list dirent :=
  imap (λ j f, MkDirent (Z.of_nat j + 1) (hf_name f)) fs.
Definition file_inode (index : Z) (f : host_file) (a : list Z) (ia : Z) : InodeDef :=
  MkInode index FT_regular_file 1 0 0 (Z.of_nat (length (hf_data f))) (take 12 a) ia.
(** the indirect block of a file of [n] bytes with the entries [a] *)
Definition indirect_ok (ia : Z) (a : list Z) (hi n : Z) : Prop :=
  (n ≤ 6144 → ia = 0) ∧ (6144 < n → 42 ≤ ia < hi ∧ ia ∉ a).

(** * Lemmas: blocks and contents *)
Lemma img_blocks_len i a : Forall (λ x, length x = 512%nat) (img_block i <$> a).
Proof. apply Forall_fmap, Forall_true. intros x. apply img_block_len. Qed.
Lemma length_img_blocks i a : length (concat (img_block i <$> a)) = (length a * 512)%nat.
Proof. rewrite (length_concat_eq _ 512) by apply img_blocks_len. by rewrite length_fmap. Qed.
Lemma blocks_same i i' (a : list Z) : (∀ x, x ∈ a → img_block i' x = img_block i x) → img_block i' <$> a = img_block i <$> a.
Proof. intros H. apply list_fmap_ext. intros k x Hx. by eapply H, list_elem_of_lookup_2. Qed.
Lemma content_same i i' a n : (∀ x, x ∈ a → img_block i' x = img_block i x) → content i' a n = content i a n.
Proof. intros H. unfold content. by rewrite (blocks_same i). Qed.
Lemma concat_slice {A} (l : list (list A)) n k x : Forall (λ y, length y = n) l → l !! k = Some x → take n (drop (k * n) (concat l)) = x.
Proof.
  intros Hl Hk. apply list_eq_same_length with n; [by eapply Forall_lookup_1 in Hl|rewrite length_take, length_drop, (length_concat_eq _ n) by done; apply lookup_lt_Some in Hk; nia|].
  intros j y z Hj Ey Ez. rewrite lookup_take_lt, lookup_drop, (lookup_concat _ n k x) in Ey by done. congruence.
Qed.
Lemma elem_of_insert_inv {A} (l : list A) k x y : x ∈ <[k := y]> l → x = y ∨ x ∈ l.
Proof.
  intros (j & Hj)%list_elem_of_lookup_1. destruct (decide (j = k)) as [->|Hne].
  - left. destruct (decide (k < length l)%nat); [rewrite list_lookup_insert_eq in Hj by done; congruence|].
    apply lookup_lt_Some in Hj. rewrite length_insert in Hj. lia.
  - right. rewrite list_lookup_insert_ne in Hj by done. by eapply list_elem_of_lookup_2.
Qed.
Lemma content_set i a k b : (k < length a)%nat → content i (<[k := b]> a) (512 * k) = content i a (512 * k).
Proof.
  intros Hk. unfold content. rewrite list_fmap_insert, (concat_insert _ 512); [|apply img_blocks_len|apply img_block_len|by rewrite length_fmap].
  unfold splice. rewrite take_app_le by (rewrite length_take, length_img_blocks; lia). rewrite take_take. f_equal. lia.
Qed.
Lemma content_write i i' a k x o e tail : a !! k = Some x → (∀ j y, a !! j = Some y → j ≠ k → img_block i' y = img_block i y) →
  (o + length (e ++ tail) ≤ 512)%nat → img_block i' x = splice (img_block i x) o (e ++ tail) →
  content i' a (512 * k + o + length e) = content i a (512 * k + o) ++ e.
Proof.
  intros Hk Hsame Hl Hx. pose proof (lookup_lt_Some _ _ _ Hk) as Hka. unfold content.
  assert (img_block i' <$> a = <[k := splice (img_block i x) o (e ++ tail)]> (img_block i <$> a)) as ->.
  { apply list_eq. intros j. destruct (decide (j = k)) as [->|Hne].
    - rewrite list_lookup_insert_eq by (by rewrite length_fmap). rewrite list_lookup_fmap, Hk. exact (f_equal Some Hx).
    - rewrite list_lookup_insert_ne, !list_lookup_fmap by done. destruct (a !! j) as [y|] eqn:Ey; [|done].
      exact (f_equal Some (Hsame j y Ey Hne)). }
  rewrite (concat_insert _ 512); [|apply img_blocks_len|rewrite length_splice; rewrite img_block_len; lia|by rewrite length_fmap].
  set (L := concat _). assert (length L = (length a * 512)%nat) as HL by apply length_img_blocks.
  rewrite splice_splice_block; rewrite ?img_block_len; [|nia| |done].
  2: { apply concat_slice; [apply img_blocks_len|]. by rewrite list_lookup_fmap, Hk. }
  unfold splice. rewrite length_app in Hl. rewrite (Nat.mul_comm k 512). rewrite take_app_ge by (rewrite length_take; nia). f_equal.
  rewrite length_take, Nat.min_l by nia. rewrite <-app_assoc. by rewrite take_app_length' by lia.
Qed.

(** * Lemmas: the operations *)
Section ops.
Context (sz : Z) (Hsz : 42 < sz ≤ 4138).
Abbreviation sb := (super_block sz).
Lemma super_vals : bmap_start sb = 41 ∧ inode_start sb = 1 ∧ inodes_count sb = 320 ∧ datablocks_count sb = sz - 42 ∧ sb_size sb = sz.
Proof using Hsz. split_and!; [done|done|done| |done]. cbn [super_block datablocks_count]. change (_ + _ / _) with 41. rewrite wrap_small; lia. Qed.
(** the image while it is built: the bits of the blocks taken so far are set *)
Record core (st : mkfs) : Prop := {
  c_len : img_len (fs_img st) = 512 * sz;
  c_super : dec_super (img_block (fs_img st) 0) = sb;
  c_map : img_block (fs_img st) 41 = bit_map st;
  c_bytes : Forall (λ b, 0 ≤ b < 256) (bit_map st);
  c_bits : ∀ t, 0 ≤ t < 4096 → bit_at (bit_map st) t = bool_decide (42 + t < cur_data_block st);
  c_cur : 42 ≤ cur_data_block st ≤ sz;
}.
Lemma write_len st off l : core st → 0 ≤ off → off + Z.of_nat (length l) ≤ 512 * sz → img_len (write_at off l (fs_img st)) = 512 * sz.
Proof. intros Hc H0 H. unfold write_at. cbn [img_len]. rewrite (c_len _ Hc). lia. Qed.
Lemma core_write st off l b o : core st → off = 512 * b + Z.of_nat o → (o + length l ≤ 512)%nat → 0 < b < sz → b ≠ 41 →
  core (set_img (write_at off l (fs_img st)) st).
Proof.
  intros Hc -> Hl Hb Hne. destruct Hc as [H1 H2 H3 H4 H5 H6]. split; try done; cbn [fs_img set_img].
  - unfold write_at. cbn [img_len]. rewrite H1. lia.
  - rewrite (block_write _ _ _ b o) by done. by rewrite decide_False by lia.
  - rewrite (block_write _ _ _ b o) by done. by rewrite decide_False by lia.
Qed.
Lemma use_block_run st : core st → cur_data_block st < sz →
  ∃ st', use_block sb st = Ok ((), st') ∧ core st' ∧ cur_data_block st' = cur_data_block st + 1 ∧ root_inode st' = root_inode st ∧
    cur_inode_index st' = cur_inode_index st ∧ ∀ b, b ≠ 41 → img_block (fs_img st') b = img_block (fs_img st) b.
Proof using Hsz.
  intros Hc Hcur. destruct super_vals as (E1 & _). pose proof Hc as [H1 H2 H3 H4 H5 H6].
  set (t := cur_data_block st - 42). assert (0 ≤ t < 4096) as Ht by lia.
  assert (length (bit_map st) = 512%nat) as Hlen by (rewrite <-H3; apply img_block_len).
  destruct (lookup_lt_is_Some_2 (bit_map st) (Z.to_nat (t / 8))) as [b Eb]; [dlia|].
  unfold use_block, UpdateBitMap, write. unfold mbind at 1, M_bind at 1, gets at 1. rewrite E1.
  replace (cur_data_block st - 41 - 1) with t by lia. rewrite (wrap_small 32 t) by lia.
  set (b' := u8 (Z.lor b (Z.shiftl 1 (t mod 8)))). set (bm := <[Z.to_nat (t / 8) := b']> (bit_map st)).
  rewrite (wrap_small 32 (41 * BLOCK_SIZE + t / 8)) by (unfold BLOCK_SIZE; dlia).
  set (st2 := set_img (write_at (41 * BLOCK_SIZE + t / 8) [b'] (fs_img st)) (set_bits bm st)).
  erewrite (bind_Ok _ _ st () st2).
  2: { unfold mbind at 1, M_bind at 1, gets. rewrite Eb. done. }
  assert (∀ c, img_block (fs_img st2) c = if decide (41 = c) then splice (img_block (fs_img st) 41) (Z.to_nat (t / 8)) [b'] else img_block (fs_img st) c) as Hblk.
  { intros c. apply (block_write (fs_img st)); [unfold BLOCK_SIZE; dlia|cbn; dlia]. }
  eexists. split; [reflexivity|]. cbn [cur_data_block root_inode cur_inode_index fs_img bit_map st2 set_img set_bits].
  rewrite (wrap_small 32) by lia. split_and!; [|done..|].
  - split; cbn [cur_data_block root_inode cur_inode_index fs_img bit_map st2 set_img set_bits].
    + unfold write_at. cbn [img_len length]. rewrite H1. unfold BLOCK_SIZE. dlia.
    + fold st2. pose proof (Hblk 0) as E. rewrite decide_False in E by done. cbn [fs_img st2 set_img set_bits] in E. by rewrite E.
    + pose proof (Hblk 41) as E. rewrite decide_True in E by done. cbn [fs_img st2 set_img set_bits] in E. rewrite E, H3.
      unfold bm. rewrite insert_take_drop by dlia. unfold splice. cbn [length]. do 3 f_equal. lia.
    + apply Forall_insert; [done|]. apply (wrap_range 8). lia.
    + intros j Hj. unfold bm, b'. rewrite bit_at_set by (done || lia). rewrite H5 by done. case_decide as Hd.
      * rewrite bool_decide_true; [done|]. lia.
      * apply bool_decide_ext. lia.
    + lia.
  - intros c Hc'. pose proof (Hblk c) as E. rewrite decide_False in E by done. exact E.
Qed.
(** the blocks [p] has taken hold [n] bytes *)
Lemma addrs_ok_set N a hi hi' n n' k x : addrs_ok N a hi n → (k < N)%nat → n ≤ 512 * Z.of_nat k → 42 ≤ hi → hi ≤ x < hi' →
  512 * Z.of_nat k < n' ≤ 512 * Z.of_nat k + 512 → 512 * Z.of_nat k ≤ n → addrs_ok N (<[k := x]> a) hi' n'.
Proof.
  intros [H1 H2 H3 H4] Hk Hn Hhi Hx Hn' Hk'. split.
  - by rewrite length_insert.
  - intros j y Hj Hjn. destruct (decide (j = k)) as [->|Hne].
    + rewrite list_lookup_insert_eq in Hj by lia. injection Hj as <-. lia.
    + rewrite list_lookup_insert_ne in Hj by done. destruct (decide (512 * Z.of_nat j < n)); [specialize (H2 j y Hj ltac:(done)); lia|lia].
  - intros j y Hj Hjn. rewrite list_lookup_insert_ne in Hj by lia. apply (H3 j y Hj). lia.
  - intros i j y Hi Hj Hy. destruct (decide (i = k)) as [->|Hni], (decide (j = k)) as [->|Hnj]; try done.
    + rewrite list_lookup_insert_eq in Hi by lia. injection Hi as <-. rewrite list_lookup_insert_ne in Hj by done.
      exfalso. destruct (decide (512 * Z.of_nat j < n)); [specialize (H2 j _ Hj ltac:(done)); lia|by apply Hy, (H3 j _ Hj); lia].
    + rewrite list_lookup_insert_eq in Hj by lia. injection Hj as <-. rewrite list_lookup_insert_ne in Hi by done.
      exfalso. destruct (decide (512 * Z.of_nat i < n)); [specialize (H2 i _ Hi ltac:(done)); lia|by apply Hy, (H3 i _ Hi); lia].
    + rewrite !list_lookup_insert_ne in Hi, Hj by done. by eapply H4.
Qed.
Lemma addrs_ok_range N a hi n x : addrs_ok N a hi n → x ∈ a → 42 ≤ x < hi ∨ x = 0.
Proof.
  intros [H1 H2 H3 H4] (k & Hk)%list_elem_of_lookup_1. destruct (decide (512 * Z.of_nat k < n)).
  - left. apply (H2 k x Hk). lia.
  - right. apply (H3 k x Hk). lia.
Qed.
Lemma addrs_ok_mono N a hi hi' n : addrs_ok N a hi n → hi ≤ hi' → addrs_ok N a hi' n.
Proof. intros [H1 H2 H3 H4] Hhi. split; [done| |done|done]. intros k x Hk Hn. specialize (H2 k x Hk Hn). lia. Qed.
(** the file being copied, with its entries [a] and its indirect block at [ia] *)
Definition placed (i : InodeDef) (a : list Z) (ia : Z) (buf : list Z) (total : Z) : placing :=
  Placing (MkInode (inode_index i) (ino_type i) (link_count i) (major i) (minor i) (ino_size i) (take 12 a) ia) (drop 12 a) buf total.
(** the entry for chunk [k] *)
Lemma insert_entry (a : list Z) k x : length a = 140%nat → (k < 140)%nat →
  (k < 12)%nat ∧ take 12 (<[k := x]> a) = <[k := x]> (take 12 a) ∧ drop 12 (<[k := x]> a) = drop 12 a ∨
  (12 ≤ k)%nat ∧ take 12 (<[k := x]> a) = take 12 a ∧ drop 12 (<[k := x]> a) = <[(k - 12)%nat := x]> (drop 12 a).
Proof.
  intros Ha Hk. destruct (decide (k < 12)%nat).
  - left. split; [done|]. split; [by rewrite take_insert_lt by lia|by rewrite drop_insert_lt by lia].
  - right. split; [lia|]. split; [by rewrite take_insert_ge by lia|by rewrite drop_insert_ge by lia].
Qed.
Lemma fblocks_step k m : (0 < m ≤ 512)%nat →
  fblocks (512 * Z.of_nat k + Z.of_nat m) = fblocks (512 * Z.of_nat k) + 1 + if decide (k = 12%nat) then 1 else 0.
Proof.
  intros Hm. unfold fblocks, nblocks. case_decide as Hk;
    destruct (Z.ltb_spec 6144 (512 * Z.of_nat k + Z.of_nat m)), (Z.ltb_spec 6144 (512 * Z.of_nat k)); dlia.
Qed.
Lemma fblocks_mono n m : n ≤ m → fblocks n ≤ fblocks m.
Proof. intros H. unfold fblocks, nblocks. destruct (Z.ltb_spec 6144 n), (Z.ltb_spec 6144 m); dlia. Qed.
(** what the blocks [lo] to [hi] of a state [st'] after [st] are for *)
Record taken (st st' : mkfs) : Prop := {
  tk_core : core st';
  tk_root : root_inode st' = root_inode st;
  tk_index : cur_inode_index st' = cur_inode_index st;
  tk_frame : ∀ b, b ≠ 41 → b < cur_data_block st ∨ cur_data_block st' ≤ b → img_block (fs_img st') b = img_block (fs_img st) b;
}.
Lemma taken_trans st1 st2 st3 : taken st1 st2 → taken st2 st3 → cur_data_block st1 ≤ cur_data_block st2 ≤ cur_data_block st3 → taken st1 st3.
Proof.
  intros [A1 A2 A3 A4] [B1 B2 B3 B4] H. split; [done|congruence|congruence|]. intros b Hb Hr. rewrite B4, A4 by lia. done.
Qed.
Lemma entry_run st i a ia k buf total : core st → length a = 140%nat → (k < 140)%nat →
  indirect_ok ia a (cur_data_block st) (512 * Z.of_nat k) → cur_data_block st + (if decide (k = 12%nat) then 1 else 0) < sz →
  let p := placed i a ia buf total in
  ∃ st' ia', enter_block sb (Z.of_nat k) (p_inode p) (p_indirect p) st =
      Ok ((p_inode (placed i (<[k := cur_data_block st']> a) ia' buf total), p_indirect (placed i (<[k := cur_data_block st']> a) ia' buf total)), st') ∧
    taken st st' ∧ cur_data_block st' = cur_data_block st + (if decide (k = 12%nat) then 1 else 0) ∧
    (∀ b, b ≠ 41 → img_block (fs_img st') b = img_block (fs_img st) b) ∧
    ia' = if decide (k = 12%nat) then cur_data_block st else ia.
Proof using Hsz.
  intros Hc Ha Hk [Hia1 Hia2] Hcur p. pose proof (c_cur _ Hc) as Hcur0.
  assert (taken st st) as Htk by by split.
  unfold enter_block, DIRECT_ADDR_SIZE. cbn [p placed p_inode p_indirect].
  destruct (insert_entry a k (cur_data_block st) Ha Hk) as [(Hlt & Et & Ed)|(Hge & _ & _)].
  - exists st, ia. destruct (decide (k = 12%nat)) as [|_]; [lia|]. rewrite (proj2 (Z.ltb_lt _ _)) by lia. cbn [p_inode p_indirect placed]. rewrite Nat2Z.id.
    rewrite Et, Ed. split; [done|]. split; [exact Htk|]. split; [lia|]. done.
  - rewrite (proj2 (Z.ltb_ge _ _)) by lia. unfold mbind at 1, M_bind at 1, gets at 1. cbn [indirect_addr].
    replace (Z.to_nat (Z.of_nat k - 12)) with (k - 12)%nat by lia.
    assert ((k - 12 <? length (drop 12 a))%nat = true) as Hlen by (rewrite length_drop; apply Nat.ltb_lt; lia).
    destruct (decide (k = 12%nat)) as [->|Hne].
    + rewrite Hia1 by lia. cbn [Z.eqb]. destruct (use_block_run st Hc ltac:(lia)) as (st1 & E & Hc1 & Hcur1 & Hr1 & Hi1 & Hb1).
      erewrite (bind_Ok _ _ st _ st1) by (rewrite (bind_Ok _ _ _ _ _ E); reflexivity).
      unfold mbind at 1, M_bind at 1, gets at 1. rewrite Hlen. exists st1, (cur_data_block st).
      destruct (insert_entry a 12 (cur_data_block st1) Ha Hk) as [(? & _)|(_ & -> & ->)]; [lia|].
      split; [done|]. split; [split; [done|done|done|]; intros b Hb _; by apply Hb1|]. done.
    + destruct (Hia2 ltac:(lia)) as [Hr _]. rewrite (proj2 (Z.eqb_neq ia 0)) by lia. erewrite (bind_Ok (mret _)) by done.
      unfold mbind at 1, M_bind at 1, gets at 1. rewrite Hlen. exists st, ia.
      destruct (insert_entry a k (cur_data_block st) Ha Hk) as [(? & _)|(_ & -> & ->)]; [lia|].
      split; [done|]. split; [exact Htk|]. split; [lia|]. done.
Qed.
Lemma place_chunk_run st i a ia buf0 k chunk : core st → (k < 140)%nat →
  cur_data_block st + (if decide (k = 12%nat) then 1 else 0) < sz →
  addrs_ok 140 a (cur_data_block st) (512 * Z.of_nat k) → indirect_ok ia a (cur_data_block st) (512 * Z.of_nat k) →
  (0 < length chunk ≤ 512)%nat → length buf0 = 512%nat →
  ∃ st' x ia' buf', place_chunk sb chunk (placed i a ia buf0 (512 * Z.of_nat k)) st =
      Ok (placed i (<[k := x]> a) ia' buf' (512 * Z.of_nat k + Z.of_nat (length chunk)), st') ∧
    taken st st' ∧ cur_data_block st' = cur_data_block st + 1 + (if decide (k = 12%nat) then 1 else 0) ∧
    length buf' = 512%nat ∧ cur_data_block st ≤ x < cur_data_block st' ∧
    addrs_ok 140 (<[k := x]> a) (cur_data_block st') (512 * Z.of_nat k + Z.of_nat (length chunk)) ∧
    indirect_ok ia' (<[k := x]> a) (cur_data_block st') (512 * Z.of_nat k + Z.of_nat (length chunk)) ∧
    (ia' = ia ∨ cur_data_block st ≤ ia') ∧
    content (fs_img st') (<[k := x]> a) (512 * k + length chunk) = content (fs_img st) a (512 * k) ++ chunk.
Proof using Hsz.
  intros Hc Hk Hcur Ha Hia Hl Hb. pose proof (c_cur _ Hc) as Hcur0. pose proof (ao_len _ _ _ _ Ha) as Hlen.
  destruct (entry_run st i a ia k buf0 (512 * Z.of_nat k) Hc Hlen Hk Hia Hcur) as (st0 & ia' & E0 & Ht0 & Hcur1 & Hb0 & Eia).
  set (cur := cur_data_block st0) in *. pose proof (tk_core _ _ Ht0) as Hc0.
  assert (cur_data_block st ≤ cur < sz) as Hcr by (clear -Hcur Hcur1; case_decide; lia).
  unfold place_chunk. change (p_total _) with (512 * Z.of_nat k). change (p_buf _) with buf0. replace (512 * Z.of_nat k / BLOCK_SIZE) with (Z.of_nat k) by (unfold BLOCK_SIZE; dlia). cbv zeta.
  rewrite (bind_Ok _ _ _ _ _ E0). cbv beta iota. unfold mbind at 1, M_bind at 1, gets at 1. fold cur.
  rewrite (wrap_small 32 (cur * BLOCK_SIZE)) by (unfold BLOCK_SIZE; lia).
  set (buf := splice buf0 0 chunk). assert (length buf = 512%nat) as Hbuf by (unfold buf; rewrite length_splice; lia).
  set (st1 := set_img (write_at (cur * BLOCK_SIZE) buf (fs_img st0)) st0). rewrite (bind_Ok _ _ _ () st1) by done.
  assert (core st1) as Hc1 by (apply (core_write st0 _ buf cur 0); [done|unfold BLOCK_SIZE; lia|lia|lia|lia]).
  destruct (use_block_run st1 Hc1) as (st2 & E2 & Hc2 & Hcur2 & Hr2 & Hi2 & Hb2); [cbn; fold cur; lia|]. rewrite (bind_Ok _ _ _ _ _ E2).
  change (cur_data_block st1) with cur in Hcur2.
  assert (∀ b, b ≠ 41 → img_block (fs_img st2) b = if decide (cur = b) then splice (img_block (fs_img st) cur) 0 buf else img_block (fs_img st) b) as Hblk.
  { intros b Hb41. rewrite Hb2 by done. rewrite <-(Hb0 b Hb41), <-(Hb0 cur) by lia. apply block_write; [unfold BLOCK_SIZE; lia|lia]. }
  exists st2, cur, ia', buf. split; [done|]. split; [|split; [lia|split; [done|split; [lia|split; [|split; [|split]]]]]].
  - split; [done|by rewrite Hr2; apply Ht0|by rewrite Hi2; apply Ht0|]. intros b Hb41 Hr. rewrite Hblk, decide_False by lia. done.
  - eapply addrs_ok_set; [exact Ha|lia..].
  - destruct Hia as [Hia1 Hia2]. split; intros Hn.
    + rewrite Eia, decide_False by lia. apply Hia1. lia.
    + rewrite Eia. case_decide as E12; subst.
      * split; [lia|]. intros [Heq|Hin]%elem_of_insert_inv; [lia|]. destruct (addrs_ok_range _ _ _ _ _ Ha Hin); lia.
      * destruct (Hia2 ltac:(lia)) as [Hr Hni]. split; [lia|]. intros [Heq|Hin]%elem_of_insert_inv; [lia|done].
  - rewrite Eia. case_decide; [right; lia|by left].
  - assert (content (fs_img st2) (<[k := cur]> a) (512 * k + 0 + length chunk) = content (fs_img st) (<[k := cur]> a) (512 * k + 0) ++ chunk) as E.
    { apply (content_write (fs_img st) (fs_img st2) (<[k := cur]> a) k cur 0 chunk (drop (length chunk) buf0)).
      - apply list_lookup_insert_eq. lia.
      - intros j y Hj Hne. rewrite list_lookup_insert_ne in Hj by done.
        destruct (addrs_ok_range _ _ _ _ y Ha) as [Hy| ->]; [by eapply list_elem_of_lookup_2| |]; rewrite Hblk, decide_False by lia; done.
      - rewrite length_app, length_drop. lia.
      - rewrite Hblk, decide_True by lia. done. }
    rewrite !Nat.add_0_r in E. rewrite E. rewrite content_set by lia. done.
Qed.
Lemma place_run fuel : ∀ st i a ia buf0 k data, core st → 512 * Z.of_nat k + Z.of_nat (length data) ≤ 71680 →
  let n0 := 512 * Z.of_nat k in let n := n0 + Z.of_nat (length data) in
  cur_data_block st + fblocks n - fblocks n0 ≤ sz → addrs_ok 140 a (cur_data_block st) n0 → indirect_ok ia a (cur_data_block st) n0 →
  length buf0 = 512%nat → (length data ≤ fuel)%nat →
  ∃ st' a' ia' buf', place sb fuel data (placed i a ia buf0 n0) st = Ok (placed i a' ia' buf' n, st') ∧
    taken st st' ∧ cur_data_block st' = cur_data_block st + fblocks n - fblocks n0 ∧
    addrs_ok 140 a' (cur_data_block st') n ∧ indirect_ok ia' a' (cur_data_block st') n ∧
    content (fs_img st') a' (512 * k + length data) = content (fs_img st) a (512 * k) ++ data ∧
    ∀ x, x ∈ ia' :: a' → x ∈ ia :: a ∨ cur_data_block st ≤ x.
Proof using Hsz.
  induction fuel as [|fuel IH]; intros st i a ia buf0 k [|c data] Hc Hk n0 n Hsize Ha Hia Hb Hf; try (cbn in Hf; lia).
  1,2: exists st, a, ia, buf0; subst n; cbn [length place] in *; rewrite !Z.add_0_r, Nat.add_0_r, app_nil_r; split_and!; try done; [lia|by left].
  cbn [place]. set (d := c :: data) in *. set (L := length d) in *. assert (0 < L)%nat as HL by (unfold L, d; cbn; lia).
  set (m := Nat.min 512 L). assert (length (take 512 d) = m) as Hm by (rewrite length_take; lia).
  pose proof (fblocks_step k m ltac:(lia)) as Hstep. fold n0 in Hstep.
  pose proof (fblocks_mono (n0 + Z.of_nat m) n ltac:(lia)) as Hmono. pose proof (c_cur _ Hc) as Hcur0.
  destruct (place_chunk_run st i a ia buf0 k (take 512 d) Hc) as (st1 & x1 & ia1 & buf1 & E1 & Ht1 & Hcur1 & Hbuf1 & Hx1 & Ha1 & Hia1 & Hel1 & Hct1);
    [lia|lia|done|done|lia|done|].
  rewrite Hm in *. rewrite (bind_Ok _ _ _ _ _ E1).
  assert (∀ x, x ∈ ia1 :: <[k := x1]> a → x ∈ ia :: a ∨ cur_data_block st ≤ x) as Hin1.
  { intros x [->|[->|Hx]%elem_of_insert_inv]%elem_of_cons; [|by right; lia|left; by right].
    destruct Hel1 as [->|]; [left; by left|by right]. }
  destruct (decide (L ≤ 512)%nat) as [Hlast|Hmore].
  - assert (drop 512 d = []) as -> by (apply drop_ge; fold L; lia). assert (take 512 d = d) as Htake by (apply take_ge; fold L; lia).
    rewrite Htake in *. assert (m = L) as Hmn by lia. clearbody m. subst m.
    exists st1, (<[k := x1]> a), ia1, buf1. split; [by destruct fuel|].
    pose proof (Hstep : fblocks n = fblocks n0 + 1 + if decide (k = 12%nat) then 1 else 0). split_and!; try done. lia.
  - assert (m = 512%nat) as Hmn by lia. clearbody m. clear Hm. subst m. assert (n0 + Z.of_nat 512 = 512 * Z.of_nat (S k)) as En0 by lia.
    fold n0 in Ha1, Hia1, E1. rewrite En0 in *.
    assert (512 * Z.of_nat (S k) + Z.of_nat (length (drop 512 d)) = n) as En by (rewrite length_drop; fold L; subst n; lia).
    destruct (IH st1 i (<[k := x1]> a) ia1 buf1 (S k) (drop 512 d)) as (st2 & a2 & ia2 & buf2 & E2 & Ht2 & Hcur2 & Ha2 & Hia2 & Hct2 & Hin2);
      [by apply Ht1|rewrite En; subst n; lia|rewrite En; lia|done|done|done|rewrite length_drop; fold L; lia|].
    rewrite En in *. exists st2, a2, ia2, buf2. split; [by rewrite <-En0 in E2|]. split; [by eapply taken_trans; [exact Ht1|exact Ht2|lia]|].
    split; [lia|]. split; [done|]. split; [done|]. split.
    + rewrite length_drop in Hct2. fold L in Hct2. replace (512 * k + L)%nat with (512 * S k + (L - 512))%nat by lia. rewrite Hct2.
      replace (512 * S k)%nat with (512 * k + 512)%nat by lia. rewrite Hct1, <-app_assoc. by rewrite take_drop.
    + intros x Hx. destruct (Hin2 x Hx) as [Hx1'|]; [by apply Hin1|right; lia].
Qed.
(** the root directory with [cnt] entries and the blocks [ra] *)
Definition root_of (cnt : nat) (ra : list Z) : InodeDef := MkInode ROOT_INODE FT_directory 1 0 0 (16 * Z.of_nat cnt) ra 0.
Lemma index_div cnt : (cnt < 384)%nat → Z.to_nat (16 * Z.of_nat cnt / BLOCK_SIZE) = (cnt / 32)%nat ∧
  16 * Z.of_nat cnt mod BLOCK_SIZE = Z.of_nat (16 * (cnt mod 32)) ∧ (16 * cnt = 512 * (cnt / 32) + 16 * (cnt mod 32))%nat ∧
  (cnt / 32 < 12)%nat ∧ (cnt mod 32 < 32)%nat.
Proof.
  intros Hc. unfold BLOCK_SIZE. pose proof (Nat.div_mod_eq cnt 32). pose proof (Nat.mod_upper_bound cnt 32 ltac:(lia)).
  set (q := (cnt / 32)%nat) in *. set (r := (cnt mod 32)%nat) in *. split_and!; dlia.
Qed.
(** the directory's current block, taken when the entry is the first in it *)
Lemma root_block_run st cnt ra : core st → root_inode st = root_of cnt ra → addrs_ok 12 ra (cur_data_block st) (16 * Z.of_nat cnt) →
  (cnt < 384)%nat → cur_data_block st + nblocks (16 * Z.of_nat (S cnt)) - nblocks (16 * Z.of_nat cnt) ≤ sz →
  ∃ st' ra' x, root_block sb (root_of cnt ra) (cnt / 32) st = Ok ((), st') ∧ core st' ∧ cur_inode_index st' = cur_inode_index st ∧
    cur_data_block st' = cur_data_block st + nblocks (16 * Z.of_nat (S cnt)) - nblocks (16 * Z.of_nat cnt) ∧
    root_inode st' = root_of cnt ra' ∧ addrs_ok 12 ra' (cur_data_block st') (16 * Z.of_nat (S cnt)) ∧ ra' !! (cnt / 32)%nat = Some x ∧
    content (fs_img st') ra' (16 * cnt) = content (fs_img st) ra (16 * cnt) ∧ (∀ y, y ∈ ra' → y ∈ ra ∨ y = cur_data_block st) ∧
    ∀ b, b ≠ 41 → img_block (fs_img st') b = img_block (fs_img st) b.
Proof using Hsz.
  intros Hc Hr Ha Hcnt Hsize. destruct (index_div cnt Hcnt) as (_ & _ & E16 & Hk & Hm). pose proof (c_cur _ Hc) as Hcur0.
  set (k := (cnt / 32)%nat) in *. set (r := (cnt mod 32)%nat) in *.
  destruct (lookup_lt_is_Some_2 ra k) as [a Ea]; [rewrite (ao_len _ _ _ _ Ha); lia|]. unfold root_block. cbn [addr root_of]. rewrite Ea. cbn [of_option].
  rewrite (bind_Ok (mret a) _ _ a st) by done. destruct (decide (r = 0%nat)) as [Hr0|Hr0].
  - rewrite (ao_zero _ _ _ _ Ha k a Ea) by lia. cbn [Z.eqb].
    assert (nblocks (16 * Z.of_nat (S cnt)) = nblocks (16 * Z.of_nat cnt) + 1) as Hnb by (unfold nblocks; dlia).
    unfold mbind at 1, M_bind at 1, gets at 1. set (st1 := set_root (set_addr (root_of cnt ra) k (cur_data_block st)) st).
    rewrite (bind_Ok (modify _) _ _ () st1) by done. assert (core st1) as Hc1 by (destruct Hc; by split).
    destruct (use_block_run st1 Hc1) as (st2 & E2 & Hc2 & Hcur2 & Hr2 & Hi2 & Hb2); [cbn; lia|]. rewrite E2.
    exists st2, (<[k := cur_data_block st]> ra), (cur_data_block st). change (cur_data_block st1) with (cur_data_block st) in Hcur2.
    split; [done|]. split; [done|]. split; [done|]. split; [lia|]. split; [by rewrite Hr2|]. split.
    { eapply addrs_ok_set; [exact Ha|lia..]. }
    split; [apply list_lookup_insert_eq; rewrite (ao_len _ _ _ _ Ha); lia|]. split; [|split; [|done]].
    + assert (16 * cnt = 512 * k)%nat as -> by lia. rewrite <-(content_set (fs_img st) ra k (cur_data_block st)) by (rewrite (ao_len _ _ _ _ Ha); lia).
      apply content_same. intros y Hy. apply Hb2. apply elem_of_insert_inv in Hy as [->|Hy]; [lia|].
      destruct (addrs_ok_range _ _ _ _ y Ha Hy); lia.
    + intros y Hy. apply elem_of_insert_inv in Hy as [->|Hy]; auto.
  - pose proof (ao_in _ _ _ _ Ha k a Ea ltac:(lia)) as Har. rewrite (proj2 (Z.eqb_neq _ _)) by lia.
    assert (nblocks (16 * Z.of_nat (S cnt)) = nblocks (16 * Z.of_nat cnt)) as Hnb by (unfold nblocks; dlia).
    exists st, ra, a. split; [done|]. split; [done|]. split; [done|]. split; [lia|]. split; [done|]. split.
    { destruct Ha as [H1 H2 H3 H4]. split; [done| | |done].
      - intros j y Hj Hjn. destruct (decide (512 * Z.of_nat j < 16 * Z.of_nat cnt)); [by eapply H2|]. lia.
      - intros j y Hj Hjn. apply (H3 j y Hj). lia. }
    split; [done|]. split; [done|]. split; [by left|done].
Qed.
Lemma add_entry_run st cnt ra es name : core st → root_inode st = root_of cnt ra → addrs_ok 12 ra (cur_data_block st) (16 * Z.of_nat cnt) →
  (cnt < 384)%nat → cur_data_block st + nblocks (16 * Z.of_nat (S cnt)) - nblocks (16 * Z.of_nat cnt) ≤ sz →
  content (fs_img st) ra (16 * cnt) = dir_bytes es → (length name ≤ 13)%nat → 0 ≤ cur_inode_index st < 2 ^ 16 →
  ∃ st' ra', add_entry sb name st = Ok ((), st') ∧ core st' ∧ cur_inode_index st' = cur_inode_index st ∧
    cur_data_block st' = cur_data_block st + nblocks (16 * Z.of_nat (S cnt)) - nblocks (16 * Z.of_nat cnt) ∧
    root_inode st' = root_of (S cnt) ra' ∧ addrs_ok 12 ra' (cur_data_block st') (16 * Z.of_nat (S cnt)) ∧
    content (fs_img st') ra' (16 * S cnt) = dir_bytes (es ++ [MkDirent (cur_inode_index st) name]) ∧
    (∀ y, y ∈ ra' → y ∈ ra ∨ y = cur_data_block st) ∧
    ∀ b, b ≠ 41 → b = 0 ∨ b ∉ ra' → img_block (fs_img st') b = img_block (fs_img st) b.
Proof using Hsz.
  intros Hc Hr Ha Hcnt Hsize Hd Hname Hi. destruct (index_div cnt Hcnt) as (Ek & Eo & E16 & Hk & Hm).
  destruct (root_block_run st cnt ra Hc Hr Ha Hcnt Hsize) as (st1 & ra1 & x & E1 & Hc1 & Hi1 & Hcur1 & Hr1 & Ha1 & Hx & Hd1 & Hel & Hfr1).
  unfold add_entry. unfold mbind at 1, M_bind at 1, gets at 1. rewrite Hr. unfold mbind at 1, M_bind at 1, gets at 1.
  cbn [ino_size root_of]. rewrite Ek. cbv zeta. set (k := (cnt / 32)%nat) in *. set (o := (16 * (cnt mod 32))%nat) in *.
  rewrite (bind_Ok _ _ _ _ _ E1). unfold mbind at 1, M_bind at 1, gets at 1. rewrite Hr1. cbn [addr root_of]. rewrite Hx. cbn [of_option].
  rewrite (bind_Ok (mret x) _ _ x st1) by done. cbn [ino_size root_of]. rewrite Eo.
  pose proof (ao_in _ _ _ _ Ha1 k x Hx ltac:(lia)) as Hxr. pose proof (c_cur _ Hc1) as Hcur0.
  rewrite (wrap_small 32 (x * BLOCK_SIZE)) by (unfold BLOCK_SIZE; lia). rewrite (wrap_small 32 (x * BLOCK_SIZE + Z.of_nat o)) by (unfold BLOCK_SIZE; lia).
  rewrite (wrap_small 16) by lia. rewrite splice_padded by done. change (enc_dir _) with (enc_dirent (MkDirent (cur_inode_index st) name)).
  set (e := enc_dirent _). assert (length e = 16%nat) as He.
  { unfold e, enc_dirent, enc_dir. cbn [inum dir_name de_name]. rewrite length_app, length_le_bytes, length_padded by lia. done. }
  set (st2 := set_img (write_at (x * BLOCK_SIZE + Z.of_nat o) e (fs_img st1)) st1). rewrite (bind_Ok (write _ _) _ _ () st2) by done.
  assert (core st2) as Hc2 by (apply (core_write st1 _ e x o); [done|unfold BLOCK_SIZE; lia|lia|lia|lia]).
  assert (∀ b, img_block (fs_img st2) b = if decide (x = b) then splice (img_block (fs_img st1) x) o e else img_block (fs_img st1) b) as Hblk.
  { intros b. apply block_write; [unfold BLOCK_SIZE; lia|lia]. }
  rewrite (wrap_small 32) by (unfold DIR_ELEMENT_SIZE; lia). unfold modify.
  set (st3 := set_root _ st2). exists st3, ra1. split; [done|]. split; [by destruct Hc2; split|]. split; [done|]. split; [done|]. split.
  { unfold st3, set_root, set_size, root_of, DIR_ELEMENT_SIZE. cbn [root_inode inode_index ino_type link_count major minor addr indirect_addr].
    f_equal. lia. }
  split; [done|]. split; [|split; [done|]].
  - rewrite dir_bytes_app. assert (dir_bytes [MkDirent (cur_inode_index st) name] = e) as -> by (unfold dir_bytes; cbn [fmap list_fmap concat]; by rewrite app_nil_r).
    rewrite <-Hd, <-Hd1, E16. replace (16 * S cnt)%nat with (512 * k + o + length e)%nat by lia.
    apply (content_write (fs_img st1) (fs_img st3) ra1 k x o e []); [done| |rewrite app_nil_r; lia|].
    + intros j y Hj Hne. change (fs_img st3) with (fs_img st2). rewrite Hblk, decide_False; [done|]. intros ->.
      apply Hne. apply (ao_inj _ _ _ _ Ha1 j k y); [done|done|lia].
    + rewrite app_nil_r. change (fs_img st3) with (fs_img st2). by rewrite Hblk, decide_True.
  - intros b Hb Hout. change (fs_img st3) with (fs_img st2). rewrite Hblk, decide_False; [by apply Hfr1|].
    intros ->. destruct Hout as [->|Hout]; [lia|]. by apply Hout, list_elem_of_lookup_2 with k.
Qed.

(** ** The inode table *)
Definition inode_slot (i : img) (n : Z) : list Z := slice (img_block i (inode_block n)) (inode_off n) 64.
(** file [f] as inode [n], with its indirect block at [b.1] and the entries [b.2] *)
Record file_at (i : img) (hi n : Z) (f : host_file) (b : Z * list Z) : Prop := {
  fa_addrs : addrs_ok 140 b.2 hi (Z.of_nat (length (hf_data f)));
  fa_indirect : indirect_ok b.1 b.2 hi (Z.of_nat (length (hf_data f)));
  fa_slot : inode_slot i n = enc_inode (file_inode n f b.2 b.1);
  fa_content : content i b.2 (length (hf_data f)) = hf_data f;
  fa_entries : 6144 < Z.of_nat (length (hf_data f)) → img_block i b.1 = enc_words (drop 12 b.2);
}.
(** the blocks of a file *)
Definition owned (b : Z * list Z) : list Z := b.1 :: b.2.
Lemma owned_range i hi n f b x : file_at i hi n f b → x ∈ owned b → 42 ≤ x < hi ∨ x = 0.
Proof.
  intros [Ha [H1 H2] _ _ _] [->|Hx]%elem_of_cons; [|by eapply addrs_ok_range].
  destruct (decide (6144 < Z.of_nat (length (hf_data f)))) as [Hl|Hl]; [left; by apply H2|right; apply H1; lia].
Qed.
Lemma slot_block n : 0 ≤ n < 320 → inode_block n = n / 8 + 1 ∧ inode_off n = (64 * Z.to_nat (n mod 8))%nat ∧ 1 ≤ inode_block n ≤ 40 ∧
  n * 64 + 512 = 512 * inode_block n + Z.of_nat (inode_off n) ∧ (inode_off n + 64 ≤ 512)%nat.
Proof. intros Hn. rewrite inode_block_val, inode_off_val by lia. split_and!; dlia. Qed.
Lemma slot_write i n l m : 0 ≤ n < 320 → 0 ≤ m < 320 → length l = 64%nat →
  inode_slot (write_at (n * 64 + 512) l i) m = if decide (m = n) then l else inode_slot i m.
Proof.
  intros Hn Hm Hl. destruct (slot_block n Hn) as (En & On & Rn & An & Ln). destruct (slot_block m Hm) as (Em & Om & Rm & Am & Lm).
  unfold inode_slot. rewrite (block_write i _ l (inode_block n) (inode_off n)) by (done || lia).
  destruct (decide (m = n)) as [->|Hne].
  - rewrite decide_True by done. unfold slice. rewrite <-Hl at 1. apply splice_same. rewrite img_block_len. lia.
  - destruct (decide (inode_block n = inode_block m)) as [Heq|]; [|done]. rewrite Heq. unfold slice. apply splice_take_ne.
    + rewrite img_block_len. lia.
    + rewrite Om, On, Hl. rewrite En, Em in Heq. dlia.
Qed.
Lemma file_at_mono i i' hi hi' n f b : file_at i hi n f b → hi ≤ hi' → inode_slot i' n = inode_slot i n →
  (∀ x, x ∈ owned b → img_block i' x = img_block i x) → file_at i' hi' n f b.
Proof.
  intros [Ha [H1 H2] Hs Hd He] Hhi Hslot Hb. split.
  - by eapply addrs_ok_mono.
  - split; [done|]. intros Hl. specialize (H2 Hl). intuition lia.
  - by rewrite Hslot.
  - rewrite (content_same i); [done|]. intros x Hx. apply Hb. by right.
  - intros Hl. rewrite Hb by by left. by apply He.
Qed.
(** ** The image after the files [done] *)
Record built (st : mkfs) (done : list host_file) (ra : list Z) (fa : list (Z * list Z)) : Prop := {
  b_core : core st;
  b_cur : cur_data_block st = 42 + needed done;
  b_index : cur_inode_index st = Z.of_nat (length done) + 1;
  b_root : root_inode st = root_of (length done) ra;
  b_raddr : addrs_ok 12 ra (cur_data_block st) (16 * Z.of_nat (length done));
  b_rdata : content (fs_img st) ra (16 * length done) = dir_bytes (entries done);
  b_len : length fa = length done;
  b_files : ∀ j f a, done !! j = Some f → fa !! j = Some a →
    file_at (fs_img st) (cur_data_block st) (Z.of_nat j + 1) f a ∧ ∀ x, x ∈ owned a → x ≠ 0 → x ∉ ra;
}.
Lemma needed_snoc done f : needed (done ++ [f]) =
  needed done + nblocks (16 * Z.of_nat (S (length done))) - nblocks (16 * Z.of_nat (length done)) + fblocks (Z.of_nat (length (hf_data f))).
Proof.
  unfold needed. rewrite length_app, fmap_app, foldr_app. cbn [length fmap list_fmap foldr].
  assert (∀ l z, foldr Z.add z l = foldr Z.add 0 l + z) as Hf by (intros l z; induction l as [|x l IH]; cbn; lia).
  rewrite Hf. replace (length done + 1)%nat with (S (length done)) by lia. lia.
Qed.
Lemma entries_snoc done f : entries (done ++ [f]) = entries done ++ [MkDirent (Z.of_nat (length done) + 1) (hf_name f)].
Proof. unfold entries. rewrite imap_app. cbn. by rewrite Nat.add_0_r. Qed.
(** copying a file's blocks, its inode and its indirect block; no block below the first
    free one changes but those of the bitmap and the inode *)
Lemma copy_file_run st f ix : core st → 0 ≤ ix < 320 → Z.of_nat (length (hf_data f)) ≤ 71680 →
  cur_data_block st + fblocks (Z.of_nat (length (hf_data f))) ≤ sz →
  let len := Z.of_nat (length (hf_data f)) in
  ∃ p st1 st2 st3 b, place sb (length (hf_data f)) (hf_data f) (Placing (new_file ix len) (replicate 128 0) (replicate 512 0) 0) st = Ok (p, st1) ∧
    p_inode p = file_inode ix f b.2 b.1 ∧
    write (ix * 64 + 512) (enc_inode (p_inode p)) st1 = Ok ((), st2) ∧
    (if nonzero (default 0 (p_indirect p !! 0%nat)) then write (u32 (indirect_addr (p_inode p) * BLOCK_SIZE)) (enc_words (p_indirect p)) else mret ()) st2 = Ok ((), st3) ∧
    core st3 ∧ cur_data_block st3 = cur_data_block st + fblocks len ∧ root_inode st3 = root_inode st ∧ cur_inode_index st3 = cur_inode_index st ∧
    file_at (fs_img st3) (cur_data_block st3) ix f b ∧ (∀ x, x ∈ owned b → x = 0 ∨ cur_data_block st ≤ x) ∧
    (∀ c, c = 0 ∨ 42 ≤ c < cur_data_block st → img_block (fs_img st3) c = img_block (fs_img st) c) ∧
    (∀ m, 0 ≤ m < 320 → m ≠ ix → inode_slot (fs_img st3) m = inode_slot (fs_img st) m).
Proof using Hsz.
  intros Hc Hix Hlen Hcur len. pose proof (c_cur _ Hc) as Hcur0.
  assert (∀ x, x ∈ 0 :: replicate 140 0 → x = 0) as Hz0 by (intros x [->|[-> _]%elem_of_replicate]%elem_of_cons; done).
  assert (addrs_ok 140 (replicate 140 0) (cur_data_block st) (512 * Z.of_nat 0)) as Hz.
  { split; [done|lia|by intros k x [-> _]%lookup_replicate|]. intros j k x [-> _]%lookup_replicate. done. }
  destruct (place_run (length (hf_data f)) st (new_file ix len) (replicate 140 0) 0 (replicate 512 0) 0 (hf_data f) Hc)
    as (st1 & a & ia & buf & E & Ht & Hcur1 & Ha & Hia & Hct & Hin); [lia|change (cur_data_block st + fblocks (0 + len) - 0 ≤ sz); rewrite Z.add_0_l, Z.sub_0_r; exact Hcur|done|split; [done|lia]|done|done|].
  change (512 * Z.of_nat 0) with 0 in *. rewrite Z.add_0_l in *. change (512 * 0)%nat with 0%nat in Hct. rewrite Nat.add_0_l in Hct.
  change (fblocks 0) with 0 in Hcur1. fold len in Hcur1, Ha, Hia, E. cbn [content app] in Hct. pose proof (tk_core _ _ Ht) as Hc1. pose proof (ao_len _ _ _ _ Ha) as Hal.
  set (p := placed _ a ia buf len) in E. exists p, st1. assert (p_inode p = file_inode ix f a ia) as Hino.
  { subst p. unfold placed, file_inode, new_file. cbn [p_inode inode_index ino_type link_count major minor ino_size]. fold len. by rewrite wrap_small by lia. }
  rewrite Hino. set (l := enc_inode (file_inode ix f a ia)). assert (length l = 64%nat) as H64.
  { apply length_enc_inode. cbn [addr file_inode]. rewrite length_take. lia. }
  destruct (slot_block ix Hix) as (Eb & Eo & Rb & Ab & Lb). pose proof (c_cur _ Hc1) as Hcur10.
  set (st2 := set_img (write_at (ix * 64 + 512) l (fs_img st1)) st1).
  assert (core st2) as Hc2 by (apply (core_write st1 _ l (inode_block ix) (inode_off ix)); [done|done|lia|lia|lia]).
  assert (∀ b, b = 0 ∨ 42 ≤ b → img_block (fs_img st2) b = img_block (fs_img st1) b) as Hfr2.
  { intros b Hb. change (fs_img st2) with (write_at (ix * 64 + 512) l (fs_img st1)). rewrite (block_write _ _ l _ _ b Ab ltac:(lia)).
    rewrite decide_False by lia. done. }
  change (p_indirect p) with (drop 12 a). cbn [indirect_addr file_inode].
  assert (nonzero (default 0 (drop 12 a !! 0%nat)) = (6144 <? len)) as ->.
  { rewrite lookup_drop. destruct (lookup_lt_is_Some_2 a (12 + 0)%nat) as [x Ex]; [lia|]. rewrite Ex. cbn [default from_option id].
    destruct (Z.ltb_spec 6144 len) as [Hl|Hl].
    - apply nonzero_true. pose proof (ao_in _ _ _ _ Ha _ _ Ex). lia.
    - by rewrite (ao_zero _ _ _ _ Ha _ _ Ex) by lia. }
  assert (length (enc_words (drop 12 a)) = 512%nat) as H512 by (rewrite length_enc_words, length_drop; lia).
  set (st3 := if 6144 <? len then set_img (write_at (ia * BLOCK_SIZE) (enc_words (drop 12 a)) (fs_img st2)) st2 else st2).
  assert (∀ b, img_block (fs_img st3) b = if decide (6144 < len ∧ b = ia) then enc_words (drop 12 a) else img_block (fs_img st2) b) as Hblk3.
  { intros b. subst st3. destruct (Z.ltb_spec 6144 len) as [Hl|Hl]; [|by rewrite decide_False by lia].
    cbn [fs_img set_img]. rewrite (block_write _ _ _ ia 0) by (unfold BLOCK_SIZE; lia). destruct (decide (ia = b)) as [->|Hne].
    - rewrite decide_True by done. unfold splice. cbn [take app]. rewrite (drop_ge (img_block _ _)) by (rewrite img_block_len; lia). apply app_nil_r.
    - by rewrite decide_False by naive_solver. }
  exists st2, st3, (ia, a). cbn [fst snd]. split; [exact E|]. split; [done|]. split; [done|]. destruct Hia as [Hia1 Hia2].
  assert (∀ x, x ∈ owned (ia, a) → x = 0 ∨ cur_data_block st ≤ x) as Hown.
  { intros x Hx. destruct (Hin x Hx) as [Hx'|]; [left; by apply Hz0|by right]. }
  assert (cur_data_block st3 = cur_data_block st1) as E3 by (subst st3; by case_match).
  split; [|split; [|split; [lia|split; [|split; [|split; [|split; [done|split]]]]]]].
  - subst st3. destruct (Z.ltb_spec 6144 len) as [Hl|Hl]; [|done]. unfold write, modify. by rewrite wrap_small by (unfold BLOCK_SIZE; lia).
  - subst st3. destruct (Z.ltb_spec 6144 len) as [Hl|Hl]; [|done]. apply (core_write st2 _ _ ia 0); [done|unfold BLOCK_SIZE; lia|lia|lia|lia].
  - subst st3. case_match; apply Ht.
  - subst st3. case_match; apply Ht.
  - assert (∀ x, x ∈ a → img_block (fs_img st3) x = img_block (fs_img st1) x) as Hkeep.
    { intros x Hx. rewrite Hblk3, decide_False by naive_solver. apply Hfr2. destruct (addrs_ok_range _ _ _ _ _ Ha Hx); lia. }
    rewrite E3. split; cbn [fst snd]; fold len; [done|done| | |].
    + unfold inode_slot. rewrite Hblk3, decide_False by lia. fold (inode_slot (fs_img st2) ix).
      change (fs_img st2) with (write_at (ix * 64 + 512) l (fs_img st1)). rewrite slot_write by done. by rewrite decide_True.
    + rewrite (content_same (fs_img st1)); [exact Hct|done].
    + intros Hl. by rewrite Hblk3, decide_True.
  - intros c Hcr. assert (ia = 0 ∨ cur_data_block st ≤ ia) as Hir by (apply Hown; by left). rewrite Hblk3, decide_False, Hfr2 by lia. apply (tk_frame _ _ Ht); lia.
  - intros m Hm Hne. destruct (slot_block m Hm) as (_ & _ & Rm & _). unfold inode_slot. rewrite Hblk3, decide_False by lia.
    fold (inode_slot (fs_img st2) m). change (fs_img st2) with (write_at (ix * 64 + 512) l (fs_img st1)). rewrite slot_write by done. rewrite decide_False by done.
    unfold inode_slot. by rewrite (tk_frame _ _ Ht) by lia.
Qed.
Lemma add_file_run st done ra fa f : built st done ra fa → file_ok f → (length done < 319)%nat → 42 + needed (done ++ [f]) ≤ sz →
  ∃ st' ra' a, add_file sb (Some f) st = Ok ((), st') ∧ built st' (done ++ [f]) ra' (fa ++ [a]).
Proof using Hsz.
  intros [Hc Hcur Hi Hr Ha Hd Hl Hf] [Hname Hsize] Hn Hneed. pose proof Hname as (_ & _ & Hname13). rewrite needed_snoc in Hneed.
  set (n := length done) in *. set (len := length (hf_data f)) in *. destruct super_vals as (_ & E1 & _).
  assert (0 ≤ fblocks (Z.of_nat len)) as Hnb by (change 0 with (fblocks 0) at 1; apply fblocks_mono; lia). pose proof (c_cur _ Hc) as Hcur0.
  assert (nblocks (16 * Z.of_nat n) ≤ nblocks (16 * Z.of_nat (S n))) as Hnb' by (unfold nblocks; dlia).
  unfold add_file. fold len. replace (MaxSupportFileSize <? Z.of_nat len) with false by (unfold MaxSupportFileSize, DIRECT_ADDR_SIZE, BLOCK_SIZE; dlia).
  replace (MAX_FILE_NAME_LEN <=? Z.of_nat (length (hf_name f))) with false by (unfold MAX_FILE_NAME_LEN; lia).
  destruct (add_entry_run st n ra (entries done) (hf_name f) Hc Hr Ha) as (st1 & ra1 & E2 & Hc1 & Hi1 & Hcur1 & Hr1 & Ha1 & Hd1 & Hel1 & Hfr1); [lia|lia|done|done|lia|].
  rewrite (bind_Ok _ _ _ _ _ E2). unfold mbind at 1, M_bind at 1, gets at 1. rewrite Hi1, Hi. pose proof (c_cur _ Hc1) as Hcur10.
  set (ix := Z.of_nat n + 1) in *. destruct (copy_file_run st1 f ix Hc1 ltac:(lia) ltac:(fold len; lia) ltac:(fold len; lia)) as (p2 & st2 & st3 & st4 & b & Ep & Ei & Es & Ew & Hc4 & Hcur4 & Hr4 & Hi4 & Hat & Hnew & Hfr4 & Hslot4).
  rewrite (bind_Ok _ _ _ _ _ Ep). rewrite E1. change (u32 (1 * BLOCK_SIZE)) with 512. unfold INODE_ELEMENT_SIZE.
  rewrite (bind_Ok _ _ _ _ _ Es), (bind_Ok _ _ _ _ _ Ew).
  assert (∀ m, 0 ≤ m < 320 → m ≠ ix → inode_slot (fs_img st4) m = inode_slot (fs_img st) m) as Hslot.
  { intros m Hm Hne. rewrite Hslot4 by done. destruct (slot_block m Hm) as (_ & _ & Rm & _). unfold inode_slot. rewrite Hfr1; [done|lia|].
    right. intros Hin. destruct (addrs_ok_range _ _ _ _ _ Ha1 Hin); lia. }
  eexists _, ra1, b. split; [reflexivity|]. cbn [cur_inode_index fs_img bit_map root_inode cur_data_block].
  assert (length (done ++ [f]) = S n) as HSn by (rewrite length_app; cbn; lia). fold len in Hcur4.
  split; cbn [cur_inode_index fs_img bit_map root_inode cur_data_block]; rewrite ?HSn.
  - destruct Hc4. by split.
  - rewrite needed_snoc. fold n len. lia.
  - rewrite Hi4, Hi1, Hi. rewrite wrap_small by lia. lia.
  - by rewrite Hr4.
  - eapply addrs_ok_mono; [exact Ha1|lia].
  - rewrite (content_same (fs_img st1)).
    + rewrite Hd1, entries_snoc, Hi. done.
    + intros x Hx. destruct (addrs_ok_range _ _ _ _ _ Ha1 Hx) as [Hxr| ->]; rewrite Hfr4 by lia; done.
  - rewrite !length_app, Hl. cbn. lia.
  - intros j g c Hj Hb. destruct (decide (j < n)%nat) as [Hjn|Hjn].
    + rewrite lookup_app_l in Hj by (fold n; lia). rewrite lookup_app_l in Hb by lia. destruct (Hf j g c Hj Hb) as [Hfile Hdis].
      assert (∀ x, x ∈ owned c → x ≠ 0 → 42 ≤ x < cur_data_block st ∧ x ∉ ra1) as Hbr.
      { intros x Hx Hx0. destruct (owned_range _ _ _ _ _ _ Hfile Hx) as [Hxr|]; [|done]. split; [done|].
        intros Hin. destruct (Hel1 x Hin) as [Hin'|]; [by eapply Hdis|lia]. }
      split; [|intros x Hx Hx0; by apply (Hbr x Hx Hx0)].
      eapply (file_at_mono (fs_img st)); [exact Hfile|lia|apply Hslot; lia|].
      intros x Hx. destruct (decide (x = 0)) as [->|Hx0]; [rewrite Hfr4, Hfr1; [done|lia|by left|lia]|].
      destruct (Hbr x Hx Hx0) as [Hxr Hxn]. rewrite Hfr4, Hfr1; [done|lia|by right|lia].
    + rewrite lookup_app_r in Hj by (fold n; lia). rewrite lookup_app_r in Hb by lia. rewrite Hl in Hb. fold n in Hj.
      assert (j = n) as -> by (apply lookup_lt_Some in Hj; cbn in Hj; lia). rewrite Nat.sub_diag in Hj, Hb. injection Hj as <-. injection Hb as <-.
      split; [exact Hat|]. intros x Hx Hx0 Hin. destruct (Hnew x Hx) as [|Hge]; [done|]. destruct (addrs_ok_range _ _ _ _ _ Ha1 Hin); lia.
Qed.
Lemma needed_mono l l' : needed l ≤ needed (l ++ l').
Proof.
  induction l' as [|f l' IH] using rev_ind; [by rewrite app_nil_r|]. rewrite app_assoc, needed_snoc.
  pose proof (fblocks_mono 0 (Z.of_nat (length (hf_data f))) ltac:(lia)) as Hf. change (fblocks 0) with 0 in Hf. unfold nblocks in *. dlia.
Qed.
Lemma add_files_run fs : ∀ done st ra fa, built st done ra fa → Forall file_ok (omap id fs) → (length done + length (omap id fs) ≤ 319)%nat →
  42 + needed (done ++ omap id fs) < sz →
  ∃ st' ra' fa', add_files sb fs st = Ok ((), st') ∧ built st' (done ++ omap id fs) ra' fa'.
Proof using Hsz.
  induction fs as [|f fs IH]; intros done st ra fa Hb Hok Hl Hn; cbn [add_files].
  { exists st, ra, fa. by rewrite app_nil_r. }
  pose proof (c_cur _ (b_core _ _ _ _ Hb)) as Hcur. destruct super_vals as (E1 & _ & _ & E4 & _).
  unfold mbind at 1, M_bind at 1, gets at 1. rewrite E1, E4, (wrap_small 32) by lia.
  pose proof (needed_mono done (omap id (f :: fs))) as Hm. rewrite (b_cur _ _ _ _ Hb). replace (sz - 42 <? 42 + needed done - 41) with false by lia.
  destruct f as [f|]; cbn [omap list_omap id] in *; [|by apply (IH done st ra fa)].
  apply Forall_cons in Hok as [Hf Hok]. replace (done ++ f :: omap id fs) with ((done ++ [f]) ++ omap id fs) in * by by rewrite <-app_assoc.
  pose proof (needed_mono (done ++ [f]) (omap id fs)) as Hm'. cbn [length] in Hl.
  destruct (add_file_run st done ra fa f Hb Hf) as (st1 & ra1 & a & E & Hb1); [lia|lia|]. rewrite (bind_Ok _ _ _ _ _ E).
  apply (IH (done ++ [f]) st1 ra1 (fa ++ [a])); [done|done|rewrite length_app; cbn; lia|done].
Qed.
Lemma alloc_img_run n : ∀ i st, 0 ≤ i → i + Z.of_nat n ≤ sz → img_len (fs_img st) = 512 * i → (∀ b, img_block (fs_img st) b = replicate 512 0) →
  ∃ im, alloc_img n i st = Ok ((), set_img im st) ∧ img_len im = 512 * (i + Z.of_nat n) ∧ ∀ b, img_block im b = replicate 512 0.
Proof using Hsz.
  induction n as [|n IH]; intros i st Hi Hn Hl Hz; cbn [alloc_img].
  { exists (fs_img st). split; [by destruct st|]. split; [rewrite Hl; lia|done]. }
  rewrite (wrap_small 32) by (unfold BLOCK_SIZE; lia). set (st1 := set_img (write_at (i * BLOCK_SIZE) (replicate 512 0) (fs_img st)) st).
  rewrite (bind_Ok (write _ _) _ _ () st1) by done. destruct (IH (i + 1) st1) as (im & E & Hl' & Hz'); [lia|lia| | |].
  - cbn [st1 fs_img set_img]. unfold write_at. cbn [img_len]. rewrite Hl, length_replicate. unfold BLOCK_SIZE. lia.
  - intros b. cbn [st1 fs_img set_img]. rewrite (block_write _ _ _ i 0) by (unfold BLOCK_SIZE; rewrite ?length_replicate; lia).
    case_decide; [|done]. rewrite Hz. done.
  - exists im. split; [by rewrite E|]. split; [rewrite Hl'; lia|done].
Qed.
Lemma dec_enc_super sb' post : Forall u32_ok [sb_magic sb'; sb_size sb'; datablocks_count sb'; inodes_count sb'; inode_start sb'; bmap_start sb'] →
  dec_super (enc_super sb' ++ post) = sb'.
Proof.
  intros H. unfold dec_super, enc_super. set (l := [_; _; _; _; _; _]) in *. destruct sb'.
  assert (∀ k v, l !! k = Some v → get_le (enc_words l ++ post) (4 * k) 4 = v) as Hk.
  { intros k v Hv. apply (get_le_word [] l k v post); [done|by eapply Forall_lookup_1 in H|done]. }
  f_equal; [apply (Hk 0%nat)|apply (Hk 1%nat)|apply (Hk 2%nat)|apply (Hk 3%nat)|apply (Hk 4%nat)|apply (Hk 5%nat)]; done.
Qed.
(** the state before the first file *)
Lemma start_run : ∃ st, (alloc_img (Z.to_nat (sb_size sb)) 0;; write 0 (enc_super sb)) (mkfs_init sb) = Ok ((), st) ∧
  built st [] (replicate 12 0) [].
Proof using Hsz.
  destruct super_vals as (E1 & E2 & E3 & E4 & E5). rewrite E5.
  destruct (alloc_img_run (Z.to_nat sz) 0 (mkfs_init sb)) as (im & E & Hl & Hz); [lia|lia|done| |].
  { intros b. apply list_eq_same_length with 512%nat; [done|apply img_block_len|]. intros k x y Hk Ex Ey.
    rewrite img_block_lookup in Ex by done. injection Ex as <-. by apply lookup_replicate in Ey as [-> _]. }
  rewrite (bind_Ok _ _ _ _ _ E). eexists. split; [reflexivity|].
  assert (length (enc_super sb) = 24%nat) as H24 by (apply length_enc_words).
  set (st := set_img _ _). assert (∀ b, img_block (fs_img st) b = if decide (0 = b) then splice (replicate 512 0) 0 (enc_super sb) else replicate 512 0) as Hblk.
  { intros b. cbn [st fs_img set_img]. rewrite (block_write _ _ _ 0 0) by lia. by rewrite !Hz. }
  assert (cur_data_block st = 42) as Hcur by (cbn [st cur_data_block set_img mkfs_init]; by rewrite E1).
  assert (addrs_ok 12 (replicate 12 0) (cur_data_block st) 0) as Ha.
  { split; [done|lia|by intros k x [-> _]%lookup_replicate|]. intros j k x [-> _]%lookup_replicate. done. }
  split; [|by rewrite Hcur|done|done|exact Ha|done|done|done]. split.
  - cbn [st fs_img set_img]. unfold write_at. cbn [img_len]. rewrite Hl, H24. lia.
  - rewrite Hblk, decide_True by done. unfold splice. cbn [take app]. apply dec_enc_super.
    rewrite E1, E2, E3, E4, E5. repeat (constructor; [unfold u32_ok; cbn; lia|]). constructor.
  - rewrite Hblk, decide_False by done. reflexivity.
  - apply Forall_forall. intros b Hb. apply elem_of_replicate in Hb as [-> _]. lia.
  - intros t Ht. rewrite Hcur, bool_decide_false by lia. unfold bit_at. cbn [st bit_map set_img mkfs_init].
    destruct (replicate 512 0 !! Z.to_nat (t / 8)) as [b|] eqn:Eb; [apply lookup_replicate in Eb as [-> _]|]; apply Z.bits_0.
  - rewrite Hcur. lia.
Qed.

(** ** What the kernel finds in the image *)
Lemma dir_find_imap fs name : ∀ g : nat → Z, dir_find (imap (λ j f, MkDirent (g j) (hf_name f)) fs) name =
  match list_find (λ f, hf_name f = name) fs with Some (j, _) => g j | None => -1 end.
Proof.
  induction fs as [|f fs IH]; intros g; [done|]. rewrite imap_cons. cbn [dir_find de_name de_inum list_find].
  destruct (decide (hf_name f = name)); [done|].
  etransitivity; [exact (IH (g ∘ S))|]. by destruct (list_find _ fs) as [[j f']|].
Qed.
(** the number of the first file with a name *)
Definition number_of (fs : list host_file) (name : list Z) : option nat := fst <$> list_find (λ f, hf_name f = name) fs.
Lemma dir_find_entries fs name : dir_find (entries fs) name = match number_of fs name with Some j => Z.of_nat j + 1 | None => -1 end.
Proof. unfold entries, number_of. rewrite (dir_find_imap fs name (λ j, Z.of_nat j + 1)). by destruct (list_find _ fs) as [[j f]|]. Qed.
Lemma number_of_Some fs name j : number_of fs name = Some j → ∃ f, fs !! j = Some f ∧ hf_name f = name.
Proof.
  unfold number_of. destruct (list_find _ fs) as [[k f]|] eqn:E; [|done]. intros [= <-]. apply list_find_Some in E as (E1 & E2 & _). by exists f.
Qed.
Lemma number_of_elem fs f : NoDup (hf_name <$> fs) → f ∈ fs → ∃ j, number_of fs (hf_name f) = Some j ∧ fs !! j = Some f.
Proof.
  intros Hnd Hf. unfold number_of. destruct (list_find_elem_of (λ g, hf_name g = hf_name f) fs f Hf eq_refl) as [[j g] E]. rewrite E.
  exists j. split; [done|]. apply list_find_Some in E as (Ej & Hg & _). apply list_elem_of_lookup_1 in Hf as (k & Ek).
  assert (j = k) as ->; [|done]. apply (NoDup_lookup _ _ _ (hf_name f) Hnd); rewrite list_lookup_fmap; [by rewrite Ej, <-Hg|by rewrite Ek].
Qed.
Section kernel.
Context (st : mkfs) (files : list host_file) (ra : list Z) (fa : list (Z * list Z)) (Hb : built st files ra fa).
Context (Hn : (length files ≤ 319)%nat) (Hok : Forall file_ok files).
Context (stack path : list Z) (Hj : length stack = 512%nat).
Let root : list Z := enc_inode (root_of (length files) ra).
Let im : img := write_at (0 * 64 + 512) root (fs_img st).
Let s : fsstate img := FsState im stack path.
Lemma root_len : length root = 64%nat.
Proof using All. apply length_enc_inode. exact (ao_len _ _ _ _ (b_raddr _ _ _ _ Hb)). Qed.
Lemma final_core : core (set_img im st).
Proof using All.
  destruct (slot_block 0 ltac:(lia)) as (_ & _ & Rb & Ab & Lb).
  apply (core_write st _ root _ _ (b_core _ _ _ _ Hb) Ab); rewrite ?root_len; lia.
Qed.
Lemma final_block b : b = 0 ∨ 42 ≤ b → img_block im b = img_block (fs_img st) b.
Proof using All.
  intros H0. destruct (slot_block 0 ltac:(lia)) as (_ & _ & Rb & Ab & Lb). unfold im.
  rewrite (block_write _ _ root _ _ b Ab) by (rewrite root_len; lia). by rewrite decide_False by lia.
Qed.
Lemma final_slot m : 0 ≤ m < 320 → inode_slot im m = if decide (m = 0) then root else inode_slot (fs_img st) m.
Proof using All. intros Hm. unfold im. rewrite slot_write; [done|lia|done|apply root_len]. Qed.
Lemma final_layout : fs_layout s sb.
Proof using All.
  destruct super_vals as (E1 & E2 & E3 & E4 & E5). destruct final_core as [H1 H2 H3 H4 H5 H6]. cbn [fs_img set_img bit_map cur_data_block] in *.
  split; rewrite ?E1, ?E2, ?E3, ?E4; cbn [s disk junk sectors sector img_BlockDevice]; try done; try lia.
  - rewrite H1. dlia.
  - rewrite H1. dlia.
  - by rewrite H3.
Qed.
Lemma final_file index type links size a : 0 ≤ index < 320 → u8_ok type → u8_ok links → 0 ≤ size ≤ 6144 → addrs_ok 12 a (cur_data_block st) size →
  file_inv s sb (MkInode index type links 0 0 size a 0).
Proof using All.
  intros Hi Ht Hl Hs Ha. destruct super_vals as (E1 & E2 & E3 & E4 & E5). pose proof final_core as Hc. pose proof (c_cur _ Hc) as Hcur. cbn [cur_data_block set_img] in Hcur.
  split; cbn [inode_index ino_size addr].
  - apply final_layout.
  - split; cbn [inode_index ino_type link_count major minor ino_size addr indirect_addr]; try done; unfold u32_ok, u8_ok; try lia; [exact (ao_len _ _ _ _ Ha)|].
    apply Forall_forall. intros x Hx. destruct (addrs_ok_range _ _ _ _ _ Ha Hx); lia.
  - rewrite E3. lia.
  - lia.
  - intros k x Hk Hx. destruct (addrs_ok_range _ _ _ _ x Ha) as [Hr|]; [by eapply list_elem_of_lookup_2| |done]. split.
    + unfold data_block. rewrite E1, E4. lia.
    + unfold block_bit, bitmap. rewrite E1. cbn [disk s sector img_BlockDevice]. pose proof (c_map _ Hc) as Hm. cbn [fs_img set_img] in Hm. rewrite Hm.
      replace (x - 41 - 1) with (x - 42) by lia. rewrite (c_bits _ Hc) by lia. cbn [cur_data_block set_img]. apply bool_decide_true. lia.
  - exact (ao_inj _ _ _ _ Ha).
  - intros k x Hk Hx. pose proof (ao_in _ _ _ _ Ha k x Hk Hx). lia.
Qed.
Lemma inode_at_slot n : inode_at s n = dec_inode (inode_slot im n).
Proof using All. done. Qed.
Lemma final_content N a hi n k : addrs_ok N a hi n → content im a k = content (fs_img st) a k.
Proof using All. intros Ha. apply content_same. intros x Hx. apply final_block. destruct (addrs_ok_range _ _ _ _ _ Ha Hx); lia. Qed.
Lemma entries_ok : Forall dirent_ok (entries files).
Proof using All.
  apply Forall_lookup. intros j e He. unfold entries in He. rewrite list_lookup_imap in He. destruct (files !! j) as [f|] eqn:Ef; [|done].
  injection He as <-. pose proof (lookup_lt_Some _ _ _ Ef). pose proof (proj1 (Forall_lookup _ _) Hok _ _ Ef) as [(_ & Hc & Hl) _].
  split; cbn [de_inum de_name]; [lia|]. split; [|done]. eapply Forall_impl; [exact Hc|]. naive_solver.
Qed.
Lemma final_dir : is_dir s sb (root_of (length files) ra) (entries files) ∧ inode_at s 0 = root_of (length files) ra.
Proof using All.
  pose proof (b_raddr _ _ _ _ Hb) as Ha.
  assert (file_inv s sb (root_of (length files) ra)) as Hinv by (apply final_file; [done|done|done|lia|exact Ha]).
  split; [split; [done|done| |apply entries_ok]|].
  - unfold file_data. cbn [ino_size root_of]. rewrite <-(b_rdata _ _ _ _ Hb), <-(final_content _ _ _ _ _ Ha).
    replace (Z.to_nat (16 * Z.of_nat (length files))) with (16 * length files)%nat by lia. done.
  - rewrite inode_at_slot, final_slot, decide_True by lia || done. apply dec_enc_inode, Hinv.
Qed.
Lemma addrs_ok_direct a hi n : addrs_ok 140 a hi n → addrs_ok 12 (take 12 a) hi n.
Proof.
  intros [H1 H2 H3 H4]. assert (∀ k x, take 12 a !! k = Some x → a !! k = Some x) as Ht by (intros k x Hk; by apply lookup_take_Some in Hk as [? _]).
  split; [rewrite length_take; lia|intros k x Hk; by apply H2, Ht|intros k x Hk; by apply H3, Ht|]. intros j k x Hj2 Hk. apply H4; by apply Ht.
Qed.
Lemma content_direct i a n : (n ≤ 12 * 512)%nat → (12 ≤ length a)%nat → content i (take 12 a) n = content i a n.
Proof.
  intros Hn2 Ha. unfold content. rewrite <-(take_drop 12 a) at 2. rewrite fmap_app, concat_app, take_app_le; [done|].
  rewrite length_img_blocks, length_take. lia.
Qed.
(** a file's inode, and what it denotes: the bytes through the direct and the indirect
    blocks; a short file is one of the file operations' *)
Lemma final_named j f : files !! j = Some f → ∃ ino bl, inode_at s (Z.of_nat j + 1) = ino ∧ ino_size ino = Z.of_nat (length (hf_data f)) ∧
  ino_type ino = FT_regular_file ∧ file_shape s ino bl ∧ shape_data im ino bl = hf_data f ∧
  (Z.of_nat (length (hf_data f)) ≤ 6144 → file_inv s sb ino ∧ file_data im ino = hf_data f).
Proof using All.
  intros Hf. pose proof (lookup_lt_Some _ _ _ Hf). pose proof (proj1 (Forall_lookup _ _) Hok _ _ Hf) as [_ Hs].
  destruct (lookup_lt_is_Some_2 fa j) as [[ia a] Ea]; [rewrite (b_len _ _ _ _ Hb); lia|].
  destruct (b_files _ _ _ _ Hb j f (ia, a) Hf Ea) as [[Ha [Hi1 Hi2] Hslot Hd He] _]. cbn [fst snd] in *. set (len := Z.of_nat (length (hf_data f))) in *.
  pose proof final_core as Hc. pose proof (c_cur _ Hc) as Hcur. cbn [cur_data_block set_img] in Hcur. pose proof final_layout as Hlay.
  pose proof (ao_len _ _ _ _ Ha) as Hal. set (ino := file_inode (Z.of_nat j + 1) f a ia).
  assert (0 ≤ ia < 4138) as Hia by (destruct (decide (6144 < len)); [destruct Hi2; lia|rewrite Hi1 by lia; lia]).
  assert (inode_ok ino) as Hino.
  { split; cbn [ino inode_index ino_type link_count major minor ino_size addr indirect_addr file_inode]; try done; unfold u32_ok, u8_ok; try lia.
    - rewrite length_take. lia.
    - apply Forall_take, Forall_forall. intros x Hx. destruct (addrs_ok_range _ _ _ _ _ Ha Hx); lia. }
  exists ino, a. split; [rewrite inode_at_slot, final_slot, decide_False, Hslot by lia; by apply dec_enc_inode|]. split; [done|]. split; [done|].
  assert (sectors (disk s) = sz) as Esec by (destruct Hc as [H1 _ _ _ _ _]; cbn [fs_img set_img] in H1; cbn [s disk sectors img_BlockDevice]; rewrite H1; dlia).
  assert (content im a (length (hf_data f)) = hf_data f) as Hd2 by (rewrite (final_content _ _ _ _ _ Ha); exact Hd).
  split; [|split].
  - split; cbn [ino ino_size addr indirect_addr file_inode]; fold len; rewrite ?Esec; try lia.
    + rewrite length_take. lia.
    + intros k x Hk Hx. pose proof (ao_in _ _ _ _ Ha k x Hk ltac:(lia)). lia.
    + intros k x Hk Hx Hk12. by rewrite lookup_take_lt by lia.
    + intros k x Hk Hx Hge. cbn [s disk sector img_BlockDevice]. destruct (Hi2 ltac:(lia)) as [Hr _]. rewrite final_block by lia. rewrite He by lia.
      pose proof (get_le_word [] (drop 12 a) (k - 12) x [] (4 * (k - 12))) as Hg. rewrite app_nil_r in Hg. apply Hg; [|unfold u32_ok|done].
      * rewrite lookup_drop. by replace (12 + (k - 12))%nat with k by lia.
      * pose proof (ao_in _ _ _ _ Ha k x Hk ltac:(lia)). lia.
  - unfold shape_data. cbn [ino ino_size file_inode]. rewrite Nat2Z.id. exact Hd2.
  - intros Hle. subst ino. unfold file_inode. fold len. rewrite Hi1 by lia. split; [apply final_file; [lia|done|done|lia|by apply addrs_ok_direct]|].
    unfold file_data. cbn [ino_size addr]. subst len. rewrite Nat2Z.id. etransitivity; [|exact Hd2]. apply content_direct; lia.
Qed.
(** opening "/name" *)
Lemma open_run name : name_ok name → wp (Open (Some (render [name] []))) (λ '(n, o) s', s' = s ∧
  match number_of files name with
  | None => n = -1 ∧ o = None
  | Some j => n = Z.of_nat j + 1 ∧ o = Some (inode_at s (Z.of_nat j + 1))
  end) s.
Proof using All.
  intros Hname. pose proof Hname as (_ & Hnc & Hl). unfold Open. apply wp_bind.
  unfold wp at 1. rewrite (ParsePath_names [name] [] s); [|by split_and!|done|cbn; lia]. cbn [length Nat.sub Z.of_nat].
  change (Z.pos (Pos.of_succ_nat 0) <? 0) with false. cbv iota. unfold OpenImpl. change (0 <=? -1) with false. cbv iota.
  change (Z.to_nat _) with 1%nat. cbn [OpenImpl_loop]. destruct final_dir as [Hdir Hat]. pose proof final_layout as Hlay.
  destruct super_vals as (E1 & E2 & E3 & _). apply wp_bind, wp_bind, (wp_GetInode s sb); [done|rewrite E3; unfold ROOT_INODE; lia|].
  fold (inode_at s ROOT_INODE). assert (inode_at s ROOT_INODE = root_of (length files) ra) as -> by exact Hat. change (negb (ino_type _ =? _)) with false. cbv iota.
  destruct (padded_cstr name (concat (replicate 15 (replicate 14 0))) Hl) as [r Hr].
  assert (row_ptr ((padded <$> [name]) ++ replicate 15 (replicate 14 0)) 0 = name ++ 0 :: r) as -> by exact Hr.
  apply wp_bind. eapply wp_mono; [apply (wp_IteratorDir s sb _ (entries files)); [done|]|].
  { eapply Forall_impl; [exact Hnc|]. naive_solver. }
  intros x s' [-> ->]. rewrite dir_find_entries. destruct (number_of files name) as [j|] eqn:Ej.
  - destruct (number_of_Some _ _ _ Ej) as (f & Hf & _). pose proof (lookup_lt_Some _ _ _ Hf).
    rewrite (proj2 (Z.ltb_ge (Z.of_nat j + 1) 0)) by lia. apply wp_ret. cbv beta iota.
    apply wp_bind, (wp_GetInode s sb); [done|rewrite E3; lia|]. by apply wp_ret.
  - apply wp_ret. cbv beta iota. by apply wp_ret.
Qed.
End kernel.
End ops.

(** what the kernel finds in an image built from files that fit *)
Lemma mkfs_image_run sz fs stack path :
  let files := omap id fs in
  42 + needed files < sz ≤ 4138 → Forall file_ok files → (length files ≤ 319)%nat → length stack = 512%nat →
  ∃ im, mkfs_image sz fs = Some im ∧ let s := FsState im stack path in
    ∀ name, name_ok name → wp (Open (Some (render [name] []))) (λ '(n, o) s', s' = s ∧
      match number_of files name with
      | None => n = -1 ∧ o = None
      | Some j => n = Z.of_nat j + 1 ∧ ∃ f ino bl, files !! j = Some f ∧ o = Some ino ∧ ino_size ino = Z.of_nat (length (hf_data f)) ∧
          ino_type ino = FT_regular_file ∧ file_shape s ino bl ∧ shape_data im ino bl = hf_data f
      end) s.
Proof.
  intros files [Hlo Hhi] Hok Hlen Hst. pose proof (needed_mono [] files : 0 ≤ needed files) as H0. assert (42 < sz ≤ 4138) as Hsz by lia.
  destruct (start_run sz Hsz) as (st0 & E0 & B0). destruct (add_files_run sz Hsz fs [] st0 _ _ B0 Hok) as (st & ra & fa & E1 & B1); [done|done|].
  cbn [app] in B1. fold files in B1. set (root := enc_inode (root_of (length files) ra)).
  exists (write_at (0 * 64 + 512) root (fs_img st)). split.
  { unfold mkfs_image, main. destruct (bind_inv _ _ _ _ _ E0) as ([] & st1 & Ea & Ew). rewrite (bind_Ok _ _ _ _ _ Ea), (bind_Ok _ _ _ _ _ Ew), (bind_Ok _ _ _ _ _ E1).
    unfold mbind, M_bind, gets. rewrite (b_root _ _ _ _ _ B1). done. }
  cbv zeta. intros name Hname. eapply wp_mono; [apply (open_run sz Hsz st files ra fa B1 Hlen Hok stack path Hst name Hname)|].
  intros [n o] s' [-> Hr]. split; [done|]. destruct (number_of files name) as [j|] eqn:Ej; [|done]. destruct Hr as [-> ->]. split; [done|].
  destruct (number_of_Some _ _ _ Ej) as (f & Hf & _).
  destruct (final_named sz Hsz st files ra fa B1 Hlen Hok stack path Hst j f Hf) as (ino & bl & Hat & Hsize & Hty & Hsh & Hd & _).
  exists f, ino, bl. by rewrite Hat.
Qed.

