(* ===== verification/GenInitcode.v ===== *)
(** tools/gen_initcode.cc, the tool of the build that turns the first program's bytes into
    the C++ source of [initcode] (kernel/start.cc).  [sprintf]'s two conversions are
    those of the C library; messages to the terminal are left out. *)
From S2P Require Import Prelude Mem Printk.

(** * The tool *)
Definition buffer_size : nat := Z.to_nat 200000.
(** the buffer is zeroed, so its text is what was written; [std::copy] and stores
    through [p], and [sprintf], which adds a NUL *)
Definition put (l : list Z) : M (list Z) () := λ t,
  if (length t + length l <=? buffer_size)%nat then Ok ((), t ++ l) else Stop (Faulted "buffer").
Definition put_sprintf (l : list Z) : M (list Z) () := λ t,
  if (length t + length l <? buffer_size)%nat then Ok ((), t ++ l) else Stop (Faulted "buffer").
(** [%#x] of a byte and [%ld] of a length *)
Definition alt_hex (v : Z) : list Z := if v =? 0 then lit "0" else lit "0x" ++ digits 64 16 97 v.
Definition decimal (v : Z) : list Z := if v =? 0 then lit "0" else digits 64 10 97 v.
Fixpoint put_bytes (n i : Z) (s : list Z) : M (list Z) () :=
  match s with
  | [] => mret ()
  | num :: s =>
    put_sprintf (alt_hex num);;
    (if negb (i =? n - 1) then put (lit ",") else mret ());;
    (if negb (i =? 0) && (Z.rem i 20 =? 0) then put (10 :: lit "    ") else mret ());;
    put_bytes n (i + 1) s
  end.
Definition put_file (s : list Z) : M (list Z) () :=
  let n := Z.of_nat (length s) in
  put (lit "char initcode[] = {");;
  put_bytes n 0 s;;
  put (lit "}");; put (lit ";");;
  put_sprintf (10 :: lit "long initcode_size = " ++ decimal n ++ lit ";" ++ [10]).
(** the input file's bytes, unless it cannot be opened: then its length is not its
    position; the exit code and the text of the output file *)
Definition main (argc : Z) (input : option (list Z)) : res (Z * option (list Z)) :=
  if argc <? 3 then Ok (-1, None)
  else
    match input with
    | None => Ok (-1, None)
    | Some s => match put_file s [] with Ok (_, t) => Ok (0, Some t) | Stop e => Stop e end
    end.

(** * Reading the text as C++ does *)
Definition hex_digit (c : Z) : option Z :=
  if (48 <=? c) && (c <=? 57) then Some (c - 48) else if (97 <=? c) && (c <=? 102) then Some (c - 87) else None.
Definition hex_value (ds : list Z) : option Z :=
  foldl (λ acc c, a ← acc; d ← hex_digit c; Some (a * 16 + d)) (Some 0) ds.
Definition literal (tok : list Z) : option Z :=
  match tok with
  | [48] => Some 0
  | 48 :: 120 :: ds => if (0 <? length ds)%nat then hex_value ds else None
  | _ => None
  end.
Definition is_space (c : Z) : bool := (c =? 32) || (c =? 10).
(** the elements up to the closing brace, and what follows it *)
Fixpoint read_items (tok l : list Z) : option (list Z * list Z) :=
  match l with
  | [] => None
  | c :: l =>
    if is_space c then read_items tok l
    else if c =? 44 then v ← literal tok; '(vs, rest) ← read_items [] l; Some (v :: vs, rest)
    else if c =? 125 then (if (length tok =? 0)%nat then Some ([], l) else v ← literal tok; Some ([v], l))
    else read_items (tok ++ [c]) l
  end.
Definition read_initcode (t : list Z) : option (list Z * list Z) :=
  let h := lit "char initcode[] = {" in
  if bool_decide (take (length h) t = h) then read_items [] (drop (length h) t) else None.

(** * Lemmas *)
Definition byte (v : Z) : Prop := 0 ≤ v < 256.
Definition plain_char (c : Z) : Prop := is_space c = false ∧ c ≠ 44 ∧ c ≠ 125.
Lemma alt_hex_reads v : byte v → literal (alt_hex v) = Some v ∧ (1 ≤ length (alt_hex v) ≤ 4)%nat ∧ Forall plain_char (alt_hex v).
Proof.
  intros Hv. assert (v ∈ seqZ 0 256) as Hin by (apply elem_of_seqZ; exact Hv). revert v Hv Hin.
  assert (Forall (λ v, literal (alt_hex v) = Some v ∧ (1 ≤ length (alt_hex v) ≤ 4)%nat ∧
    Forall (λ c, is_space c = false ∧ c ≠ 44 ∧ c ≠ 125) (alt_hex v)) (seqZ 0 256)) as HF.
  { apply (bool_decide_unpack _). by vm_compute. }
  rewrite Forall_forall in HF. auto.
Qed.
(** what the loop adds for one byte *)
Definition item (n i num : Z) : list Z :=
  alt_hex num ++ (if negb (i =? n - 1) then lit "," else []) ++ (if negb (i =? 0) && (Z.rem i 20 =? 0) then 10 :: lit "    " else []).
Fixpoint items (n i : Z) (s : list Z) : list Z :=
  match s with [] => [] | num :: s => item n i num ++ items n (i + 1) s end.
Lemma put_run l t : (length t + length l ≤ buffer_size)%nat → put l t = Ok ((), t ++ l).
Proof. intros H. unfold put. by rewrite (proj2 (Nat.leb_le _ _) H). Qed.
Lemma put_sprintf_run l t : (length t + length l < buffer_size)%nat → put_sprintf l t = Ok ((), t ++ l).
Proof. intros H. unfold put_sprintf. by rewrite (proj2 (Nat.ltb_lt _ _) H). Qed.
Lemma put_bytes_run n s : ∀ i t, (length t + length (items n i s) < buffer_size)%nat → put_bytes n i s t = Ok ((), t ++ items n i s).
Proof.
  induction s as [|num s IH]; intros i t Hl; cbn [put_bytes items] in *; [by rewrite app_nil_r|].
  unfold item in *. rewrite !length_app in Hl. erewrite bind_Ok by (apply put_sprintf_run; lia).
  assert (∀ (b : bool) l t1, (length t1 + length (if b then l else []) ≤ buffer_size)%nat →
    (if b then put l else mret ()) t1 = Ok ((), t1 ++ (if b then l else []))) as Hif.
  { intros [] l t1 Hb; [by apply put_run|by rewrite app_nil_r]. }
  erewrite bind_Ok by (apply Hif; rewrite length_app; lia).
  erewrite bind_Ok by (apply Hif; rewrite !length_app; lia).
  rewrite IH by (rewrite !length_app; lia). by rewrite <-!app_assoc.
Qed.
Lemma read_token tok1 tok2 l : Forall plain_char tok2 → read_items tok1 (tok2 ++ l) = read_items (tok1 ++ tok2) l.
Proof.
  intros H. revert tok1. induction H as [|c tok2 (H1 & H2 & H3) _ IH]; intros tok1; [by rewrite app_nil_r|].
  cbn [app read_items]. rewrite H1, (proj2 (Z.eqb_neq _ _) H2), (proj2 (Z.eqb_neq _ _) H3), IH. by rewrite <-app_assoc.
Qed.
Lemma read_spaces tok sp l : Forall (λ c, is_space c = true) sp → read_items tok (sp ++ l) = read_items tok l.
Proof. induction 1 as [|c sp H _ IH]; [done|]. cbn [app read_items]. by rewrite H. Qed.
Lemma read_items_run n rest s : ∀ i, Forall byte s → i + Z.of_nat (length s) = n →
  read_items [] (items n i s ++ 125 :: rest) = Some (s, rest).
Proof.
  induction s as [|num s IH]; intros i Hs Hn; [done|]. apply Forall_cons in Hs as [Hb Hs]. cbn [items length] in *. unfold item.
  destruct (alt_hex_reads num Hb) as (Hlit & Hlen & Hch). rewrite <-!app_assoc, read_token by done. cbn [app].
  set (sp := if negb (i =? 0) && _ then _ else _). assert (Forall (λ c, is_space c = true) sp) as Hsp.
  { unfold sp. destruct (_ && _); by repeat constructor. }
  destruct (Z.eqb_spec i (n - 1)) as [->|Hi]; cbn [negb app].
  - assert (s = []) as -> by (apply nil_length_inv; lia). cbn [items app]. rewrite read_spaces by done. cbn [read_items is_space Z.eqb orb].
    destruct (Nat.eqb_spec (length (alt_hex num)) 0); [lia|]. by rewrite Hlit.
  - change (lit ",") with [44]. cbn [app read_items]. change (is_space 44) with false. change (44 =? 44) with true. cbv iota. rewrite Hlit. cbn [mbind option_bind].
    rewrite read_spaces by done. rewrite (IH (i + 1) Hs) by lia. done.
Qed.
(** at least 2 characters for a byte, but 1 for the last; at most 5, and 5 more for every
    twentieth *)
Lemma length_items n s : ∀ i, 0 ≤ i → Forall byte s → i + Z.of_nat (length s) ≤ n →
  2 * Z.of_nat (length s) - 1 ≤ Z.of_nat (length (items n i s)) ≤
    5 * Z.of_nat (length s) + 5 * ((i + Z.of_nat (length s) + 19) / 20 - (i + 19) / 20).
Proof.
  induction s as [|num s IH]; intros i Hi Hs Hn; cbn [items length] in *; [dlia|]. apply Forall_cons in Hs as [Hb Hs].
  destruct (alt_hex_reads num Hb) as (_ & Hlen & _). specialize (IH (i + 1) ltac:(lia) Hs ltac:(lia)). unfold item. rewrite !length_app.
  assert (length (if negb (i =? n - 1) then lit "," else []) = if negb (i =? n - 1) then 1%nat else 0%nat) as -> by by destruct (negb _).
  set (sp := length (if _ && _ then _ else [])). assert (Z.of_nat sp ≤ 5 * ((i + 20) / 20 - (i + 19) / 20)) as Hsp.
  { unfold sp. destruct (Z.eqb_spec i 0) as [->|]; [cbn [negb andb length]; dlia|]. rewrite Z.rem_mod_nonneg by lia.
    destruct (Z.eqb_spec (i mod 20) 0); cbn [negb andb length lit]; [|dlia]. cbn. dlia. }
  replace (i + 1 + Z.of_nat (length s) + 19) with (i + Z.of_nat (S (length s)) + 19) in IH by lia.
  replace (i + 1 + 19) with (i + 20) in IH by lia.
  destruct s as [|x s]; [cbn [length items] in *|]; destruct (Z.eqb_spec i (n - 1)); cbn [negb length] in *; lia.
Qed.
Lemma length_decimal v : 0 ≤ v < 2 ^ 63 → (length (decimal v) ≤ 20)%nat.
Proof.
  intros Hv. unfold decimal. destruct (Z.eqb_spec v 0); [cbn; lia|].
  pose proof (length_digits 64 10 97 v 20 ltac:(lia) ltac:(lia) ltac:(lia)). lia.
Qed.
Definition footer (n : Z) : list Z := 10 :: lit "long initcode_size = " ++ decimal n ++ lit ";" ++ [10].
Definition text (s : list Z) : list Z :=
  lit "char initcode[] = {" ++ items (Z.of_nat (length s)) 0 s ++ 125 :: 59 :: footer (Z.of_nat (length s)).
Lemma put_file_run s : (length (text s) < buffer_size)%nat → put_file s [] = Ok ((), text s).
Proof.
  intros Hl. unfold put_file, text in *. fold (footer (Z.of_nat (length s))). set (n := Z.of_nat (length s)) in *. set (h := lit "char initcode[] = {") in *.
  rewrite !length_app in Hl. cbn [length] in Hl.
  change (lit "}") with [125]. change (lit ";") with [59] in *. fold (footer n).
  erewrite bind_Ok by (apply put_run; cbn [length]; lia). cbn [app].
  erewrite bind_Ok by (apply put_bytes_run; lia).
  erewrite bind_Ok by (apply put_run; rewrite length_app; cbn [length]; lia).
  erewrite bind_Ok by (apply put_run; rewrite !length_app; cbn [length]; lia).
  change (10 :: lit "long initcode_size = " ++ decimal n ++ [59] ++ [10]) with (footer n).
  rewrite put_sprintf_run by (rewrite !length_app; cbn [length]; lia). by rewrite <-!app_assoc.
Qed.

(** * Properties *)
(** The tool's output, read as C++ reads it, defines [initcode] with exactly the
    input's bytes, followed by [initcode_size] with their number, for every input of up
    to 38000 bytes. *)
Theorem initcode_roundtrip s : Forall byte s → Z.of_nat (length s) ≤ 38000 →
  ∃ t, main 3 (Some s) = Ok (0, Some t) ∧
    read_initcode t = Some (s, 59 :: 10 :: lit "long initcode_size = " ++ decimal (Z.of_nat (length s)) ++ lit ";" ++ [10]).
Proof.
  intros Hs Hl. exists (text s). split.
  - unfold main. rewrite put_file_run; [done|].
    pose proof (length_items (Z.of_nat (length s)) s 0 ltac:(lia) Hs ltac:(lia)) as [_ Hi].
    pose proof (length_decimal (Z.of_nat (length s)) ltac:(lia)) as Hd. unfold text, footer. rewrite !length_app. cbn [length]. rewrite !length_app.
    change (length (lit "char initcode[] = {")) with 19%nat. change (length (lit "long initcode_size = ")) with 21%nat.
    change (length (lit ";")) with 1%nat. cbn [length]. unfold buffer_size. dlia.
  - unfold read_initcode, text. set (h := lit "char initcode[] = {"). rewrite take_app_length, drop_app_length, bool_decide_eq_true_2 by done.
    by apply read_items_run.
Qed.
Lemma initcode_roundtrip_witness : Forall byte [127; 0; 255] ∧ ∃ t, main 3 (Some [127; 0; 255]) = Ok (0, Some t) ∧ t = lit "char initcode[] = {0x7f,0,0xff};" ++ 10 :: lit "long initcode_size = 3;" ++ [10].
Proof.
  assert (Forall byte [127; 0; 255]) as Hb by (repeat constructor; done). split; [done|].
  destruct (initcode_roundtrip [127; 0; 255] Hb) as (t & E & _); [cbn; lia|]. exists t. split; [exact E|].
  assert (main 3 (Some [127; 0; 255]) = Ok (0, Some (text [127; 0; 255]))) as E' by reflexivity.
  rewrite E in E'. injection E' as ->. reflexivity.
Defined.
Lemma emitted_inv l t t' x : put l t = Ok (x, t') → t' = t ++ l ∧ (length t' ≤ buffer_size)%nat.
Proof. unfold put. destruct (Nat.leb_spec (length t + length l) buffer_size); [|done]. intros [= <- <-]. rewrite length_app. by split. Qed.
Lemma put_sprintf_inv l t t' x : put_sprintf l t = Ok (x, t') → t' = t ++ l ∧ (length t' ≤ buffer_size)%nat.
Proof. unfold put_sprintf. destruct (Nat.ltb_spec (length t + length l) buffer_size); [|done]. intros [= <- <-]. rewrite length_app. split; [done|lia]. Qed.
Lemma put_bytes_inv n s : ∀ i t t' x, put_bytes n i s t = Ok (x, t') → t' = t ++ items n i s.
Proof.
  induction s as [|num s IH]; intros i t t' x E; cbn [put_bytes items] in *; [injection E as <- <-; by rewrite app_nil_r|].
  apply bind_inv in E as (? & t1 & E1 & E). apply put_sprintf_inv in E1 as [-> _].
  assert (∀ (b : bool) l t1 t2 y, (if b then put l else mret ()) t1 = Ok (y, t2) → t2 = t1 ++ (if b then l else [])) as Hif.
  { intros [] l t1 t2 y H; [by apply emitted_inv in H as [-> _]|]. injection H as <- <-. by rewrite app_nil_r. }
  apply bind_inv in E as (? & t2 & E2 & E). apply Hif in E2 as ->. apply bind_inv in E as (? & t3 & E3 & E). apply Hif in E3 as ->.
  apply IH in E as ->. unfold item. by rewrite <-!app_assoc.
Qed.
(** an input of more than 100000 bytes overflows the buffer *)
Theorem long_input_overflows s : Forall byte s → 100000 < Z.of_nat (length s) → ∃ e, main 3 (Some s) = Stop e.
Proof.
  intros Hs Hl. unfold main. change (3 <? 3) with false. cbv iota. destruct (put_file s []) as [[x t]|e] eqn:E; [|by exists e]. exfalso.
  unfold put_file in E. apply bind_inv in E as (? & t1 & E1 & E). apply emitted_inv in E1 as [-> _].
  apply bind_inv in E as (? & t2 & E2 & E). apply put_bytes_inv in E2 as ->. apply bind_inv in E as (? & t3 & E3 & _).
  apply emitted_inv in E3 as [-> Hlen]. rewrite !length_app in Hlen.
  pose proof (length_items (Z.of_nat (length s)) s 0 ltac:(lia) Hs ltac:(lia)) as [Hi _]. unfold buffer_size in Hlen. lia.
Qed.
