(* ===== verification/UserSys.v ===== *)
(** What a user program is: an interaction tree whose events are the system calls
    of lib/syscall.h (the calls themselves are assembly that the build generates),
    and what running one against a kernel means.  A program may loop for ever, and
    C++ may leave it undefined, which is the exception [stop].  Pointer arguments
    are events' data: what the call reads is in the event, what it writes to the
    caller's memory is in the answer. *)
From ITree Require Import ITree ITreeFacts Events.Exception Events.State Events.StateFacts.
From S2P Require Import Prelude Mem Printk.

(** * lib/syscall.h *)
Module syscall.
Record FileState := MkFileState { st_inode_index : Z; st_link_count : Z; st_size : Z; st_type : Z }.
(** the source of a [write]: a buffer, as the bytes up to the end of its object, or
    the null pointer *)
Inductive source := buffer (bytes : list Z) | null.
(** A call that fills a buffer answers with the bytes it stored; [fstat] and
    [get_screen_info] with nothing when they leave the struct alone.  [store] is not a
    call: it is a store through the pointer [framebuffer] returned, to memory the
    program shares with the kernel. *)
Variant sysE : Type → Type :=
| write (fd : Z) (src : source) (size : Z) : sysE Z
| fork : sysE Z
| sleep (seconds : Z) : sysE Z
| open (path : list Z) : sysE Z
| close (fd : Z) : sysE Z
| read (fd count : Z) : sysE (Z * list Z)
| fstat (fd : Z) : sysE (Z * option FileState)
| exec (path : list Z) (argv : list (list Z)) : sysE Z
| mknod (path : list Z) (major minor : Z) : sysE Z
| getpid : sysE Z
| exit (code : Z) : sysE void
| wait : sysE Z
| getcwd (max_len : Z) : sysE (Z * list Z)
| chdir (path : list Z) : sysE Z
| mkdir (path : list Z) : sysE Z
| uptime : sysE Z
| create (path : list Z) (type : Z) : sysE Z
| get_screen_info : sysE (Z * option (Z * Z))
| framebuffer : sysE Z
| frame_flush : sysE Z
| setup_cursor (image : list Z) : sysE Z
| move_cursor (x y : Z) : sysE Z
| detach_framebuffer : sysE Z
| dlopen (path : list Z) : sysE Z
| dlclose : sysE Z
| store (p v : Z) : sysE ().
End syscall.
Abbreviation userE := (syscall.sysE +' exceptE stop).
Abbreviation user := (itree userE).

#[export] Instance itree_ret {E} : MRet (itree E) := λ A a, Ret a.
#[export] Instance itree_bind {E} : MBind (itree E) := λ A B f t, ITree.bind t f.

Definition sys {A} (e : syscall.sysE A) : user A := ITree.trigger (inl1 e : userE A).
Definition undefined {A} (e : stop) : user A := Vis (inr1 (Throw e) : userE void) (λ v : void, match v with end).
Definition get {A} (why : string) (o : option A) : user A :=
  match o with Some a => mret a | None => undefined (Faulted why) end.
(** [while (true)] with [inl] to go round again and [inr] to leave *)
Definition loop {I A} (body : I → user (I + A)) (i : I) : user A := ITree.iter body i.
(** [for (int i = ...; i < argc; i++) body(argv[i])]; [continue] ends the body *)
Fixpoint for_args {A} (body : A → user ()) (args : list A) : user () :=
  match args with
  | [] => mret ()
  | a :: args => body a;; for_args body args
  end.

(** * lib/printf.cc, with the writes made *)
(** the union of [simple_vsprintf] and the locals a program reads before it has
    written them *)
Record uninit := Uninit { u_union : Z; u_bytes : nat → list Z; u_state : syscall.FileState }.
Fixpoint writes (tr : trace) : user () :=
  match tr with
  | [] => mret ()
  | (fd, l) :: tr => sys (syscall.write fd (syscall.buffer l) (Z.of_nat (length l)));; writes tr
  end.
Definition print (U : uninit) (fmt : list Z) (args : list va) : user () :=
  match Printk.printf (u_union U) fmt args [] with
  | Ok (_, tr) => writes tr
  | Stop e => undefined e
  end.
Definition print_level (U : uninit) (level : PrintLevel) (fmt : list Z) (args : list va) : user () :=
  match Printk.printf_level (u_union U) 1 level fmt args [] with
  | Ok (_, tr) => writes tr
  | Stop e => undefined e
  end.
(** a literal, a line, a string argument that is not null *)
Definition txt (s : string) : list Z := lit s ++ [0].
Definition line (s : string) : list Z := lit s ++ [10; 0].
Definition str (s : list Z) : va := VStr 1 s.

(** * Running a program *)
(** A kernel is what each call does to a state [S]. *)
Definition kernelH (S : Type) : Type := ∀ T, syscall.sysE T → M S T.
Section run.
Context {S : Type} (h : kernelH S).
Definition fail {A} (e : stop) : itree (exceptE stop) A := Vis (Throw e) (λ v : void, match v with end).
Definition handle : userE ~> Monads.stateT S (itree (exceptE stop)) := λ T e s,
  match e with
  | inl1 e => match h T e s with Ok (a, s') => Ret (s', a) | Stop x => fail x end
  | inr1 (Throw x) => fail x
  end.
Definition outcome {A} (r : res (A * S)) : itree (exceptE stop) (S * A) :=
  match r with Ok (a, s) => Ret (s, a) | Stop x => fail x end.
(** the program started in [s] ends with [r] *)
Definition does {A} (t : user A) (s : S) (r : res (A * S)) : Prop := interp_state handle t s ≈ outcome r.
(** total correctness: it ends, without leaving what C++ defines, and [Q] holds *)
Definition ends {A} (t : user A) (Q : A → S → Prop) (s : S) : Prop := ∃ a s', does t s (Ok (a, s')) ∧ Q a s'.
(** an interpreter, with a bound on the steps *)
Fixpoint execute {A} (fuel : nat) (t : user A) (s : S) : res (A * S) :=
  match fuel with
  | O => Stop OutOfFuel
  | Datatypes.S n =>
    match observe t with
    | RetF a => Ok (a, s)
    | TauF t => execute n t s
    | VisF e k =>
      match e with
      | inl1 e => match h _ e s with Ok (a, s') => execute n (k a) s' | Stop x => Stop x end
      | inr1 (Throw x) => Stop x
      end
    end
  end.

(** ** Laws *)
Lemma fail_bind {A B} e (k : A → itree (exceptE stop) B) : ITree.bind (fail e) k ≈ fail e.
Proof. unfold fail. rewrite bind_vis. apply eqit_Vis. intros []. Qed.
Lemma does_ret {A} (a : A) s : does (mret a) s (Ok (a, s)).
Proof. unfold does, mret, itree_ret. rewrite interp_state_ret. reflexivity. Qed.
Lemma does_bind {A B} (t : user A) (k : A → user B) s a s' r :
  does t s (Ok (a, s')) → does (k a) s' r → does (t ≫= k) s r.
Proof.
  unfold does, mbind, itree_bind. intros H1 H2. rewrite interp_state_bind, H1. cbn. rewrite bind_ret_l. exact H2.
Qed.
Lemma does_bind_stop {A B} (t : user A) (k : A → user B) s e : does t s (Stop e) → does (t ≫= k) s (Stop e).
Proof. unfold does, mbind, itree_bind. intros H1. rewrite interp_state_bind, H1. cbn. apply fail_bind. Qed.
Lemma does_sys {A} (e : syscall.sysE A) s : does (sys e) s (h A e s).
Proof. unfold does, sys. rewrite interp_state_trigger. cbn. by destruct (h A e s) as [[a s']|x]. Qed.
Lemma does_call {A} (e : syscall.sysE A) s r : h A e s = r → does (sys e) s r.
Proof. intros <-. apply does_sys. Qed.
Lemma does_undefined {A} e s : does (@undefined A e) s (Stop e).
Proof.
  unfold does, undefined. rewrite interp_state_vis. cbn. unfold fail. rewrite bind_vis. apply eqit_Vis. intros [].
Qed.
Lemma does_loop {I A} (body : I → user (I + A)) i s x s' r :
  does (body i) s (Ok (x, s')) → (match x with inl j => does (loop body j) s' r | inr a => r = Ok (a, s') end) →
  does (loop body i) s r.
Proof.
  unfold does, loop. intros H1 H2. rewrite unfold_iter, interp_state_bind, H1. cbn. rewrite bind_ret_l. cbn.
  destruct x as [j|a]; [by rewrite interp_state_tau, tau_eutt|]. rewrite interp_state_ret. by subst r.
Qed.
Lemma does_loop_stop {I A} (body : I → user (I + A)) i s e : does (body i) s (Stop e) → does (loop body i) s (Stop e).
Proof. unfold does, loop. intros H. rewrite unfold_iter, interp_state_bind, H. cbn. apply fail_bind. Qed.
Lemma execute_does {A} n : ∀ (t : user A) s r, execute n t s = r → r ≠ Stop OutOfFuel → does t s r.
Proof.
  induction n as [|n IH]; intros t s r; cbn [execute]; [by intros <-|].
  intros E Hr. unfold does. rewrite unfold_interp_state. destruct (observe t) as [a|t'|X e k]; cbn [_interp_state].
  - by subst r.
  - rewrite tau_eutt. by apply IH.
  - destruct e as [e|e]; cbn.
    + destruct (h _ e s) as [[a s']|x]; subst r.
      * rewrite bind_ret_l. cbn. rewrite tau_eutt. by apply IH.
      * apply fail_bind.
    + revert k. destruct e as [x]. intros k. subst r. apply fail_bind.
Qed.

Lemma ends_ret {A} (a : A) (Q : A → S → Prop) s : Q a s → ends (mret a) Q s.
Proof. intros H. exists a, s. split; [apply does_ret|done]. Qed.
Lemma ends_bind {A B} (t : user A) (k : A → user B) Q s : ends t (λ a s', ends (k a) Q s') s → ends (t ≫= k) Q s.
Proof. intros (a & s' & H1 & b & s'' & H2 & HQ). exists b, s''. split; [by eapply does_bind|done]. Qed.
Lemma ends_sys {A} (e : syscall.sysE A) Q s : wp (h A e) Q s → ends (sys e) Q s.
Proof.
  intros H. apply wp_ok in H as (a & s' & E & HQ). exists a, s'. split; [|done]. rewrite <-E. apply does_sys.
Qed.
Lemma ends_mono {A} (t : user A) (P Q : A → S → Prop) s : ends t P s → (∀ a s', P a s' → Q a s') → ends t Q s.
Proof. intros (a & s' & H & HP) HQ. exists a, s'. auto. Qed.
(** a loop with a measure that each round decreases *)
Lemma ends_loop {I A} (body : I → user (I + A)) (Inv : nat → I → S → Prop) Q :
  (∀ n i s, Inv n i s → ends (body i) (λ x s', match x with inl j => ∃ m, (m < n)%nat ∧ Inv m j s' | inr a => Q a s' end) s) →
  ∀ n i s, Inv n i s → ends (loop body i) Q s.
Proof.
  intros Hb n. induction n as [n IH] using lt_wf_ind. intros i s HI.
  destruct (Hb n i s HI) as ([j|a] & s' & H1 & H2).
  - destruct H2 as (m & Hm & HI'). destruct (IH m Hm j s' HI') as (a & s'' & H3 & HQ).
    exists a, s''. split; [|done]. by eapply does_loop.
  - exists a, s'. split; [|done]. by eapply does_loop.
Qed.
End run.

(** ** What printf writes *)
Section print.
Context (U : uninit).
Definition plain (l : list Z) : Prop := Forall (λ c, c ≠ 0 ∧ c ≠ 37) l.
Definition item_s : item := Dir (mk_dir false false 0 (WDigits []) Str).
Lemma print_items items args args' o : Forall item_ok items → render items args = Some (o, args') →
  print U (format_of items) args = if (length o <? 128)%nat then writes [(console, o)] else undefined overflow.
Proof. intros Hok Hr. unfold print. rewrite (printf_run _ _ _ _ _ _ Hok Hr). by destruct (length o <? 128)%nat. Qed.
Lemma format_lits l items : format_of ((Lit <$> l) ++ items) = l ++ format_of items.
Proof.
  unfold format_of. rewrite fmap_app, concat_app, <-app_assoc. f_equal. induction l as [|c l IH]; [done|]. cbn. by rewrite <-IH at 2.
Qed.
Lemma format_s items : format_of (item_s :: items) = lit "%s" ++ format_of items.
Proof. done. Qed.
Lemma field_0 s : field s 0 0 = s.
Proof. unfold field. cbn. by rewrite Z2Nat.nonpos by lia. Qed.
Lemma render_lits l items args o args' : render items args = Some (o, args') →
  render ((Lit <$> l) ++ items) args = Some (l ++ o, args').
Proof. intros H. induction l as [|c l IH]; [done|]. cbn [fmap list_fmap app Printk.render render_item mbind option_bind]. by rewrite IH. Qed.
Lemma plain_items l : plain l → Forall item_ok (Lit <$> l).
Proof. intros H. apply Forall_fmap. eapply Forall_impl; [exact H|]. done. Qed.
Lemma print_plain l : plain l →
  print U (l ++ [0]) [] = if (length l <? 128)%nat then writes [(console, l)] else undefined overflow.
Proof.
  intros H. pose proof (print_items ((Lit <$> l) ++ []) [] [] (l ++ [])) as E. rewrite format_lits, app_nil_r in E.
  rewrite app_nil_r in E. apply E; [by apply plain_items|]. pose proof (render_lits l [] [] [] [] eq_refl) as E'. by rewrite !app_nil_r in E'.
Qed.
(** a format with one [%s] *)
Definition shows (a : va) (o : list Z) : Prop := render_arg Str a 0 0 = Some o.
Lemma shows_str p r : no_nul p → shows (str (p ++ 0 :: r)) p.
Proof. intros Hp. unfold shows, str. cbn [render_arg]. rewrite strlen_cstr by done. cbn. by rewrite take_app_length, field_0. Qed.
Lemma shows_null l : shows (VStr 0 l) (lit "(null)").
Proof. done. Qed.
Lemma format_str pre post : plain pre → plain post →
  Forall item_ok ((Lit <$> pre) ++ item_s :: (Lit <$> post)) ∧
  format_of ((Lit <$> pre) ++ item_s :: (Lit <$> post)) = pre ++ lit "%s" ++ post ++ [0] ∧
  ∀ a o, shows a o → render ((Lit <$> pre) ++ item_s :: (Lit <$> post)) [a] = Some (pre ++ o ++ post, []).
Proof.
  intros Hpre Hpost. split; [|split].
  - apply Forall_app_2; [by apply plain_items|]. constructor; [by repeat constructor|by apply plain_items].
  - rewrite <-(app_nil_r (Lit <$> post)). by rewrite format_lits, format_s, format_lits.
  - intros a o Ho. apply render_lits. cbn [Printk.render]. assert (render_item item_s [a] = Some (o, [])) as ->.
    { cbn [render_item item_s render_dir fwid spec]. change (width_value []) with 0. change (dir_flags _) with 0. by rewrite Ho. }
    cbn [mbind option_bind]. pose proof (render_lits post [] [] [] [] eq_refl) as E. rewrite !app_nil_r in E. by rewrite E.
Qed.
Lemma print_arg pre post a o : plain pre → plain post → shows a o →
  print U (pre ++ lit "%s" ++ post ++ [0]) [a] =
    if (length (pre ++ o ++ post) <? 128)%nat then writes [(console, pre ++ o ++ post)] else undefined overflow.
Proof.
  intros Hpre Hpost Ho. destruct (format_str pre post Hpre Hpost) as (H1 & <- & H2). by apply (print_items _ [a] []), H2.
Qed.
Lemma print_str pre post p r : plain pre → plain post → no_nul p →
  print U (pre ++ lit "%s" ++ post ++ [0]) [str (p ++ 0 :: r)] =
    if (length (pre ++ p ++ post) <? 128)%nat then writes [(console, pre ++ p ++ post)] else undefined overflow.
Proof. intros Hpre Hpost Hp. by apply print_arg, shows_str. Qed.
(** the second overload: the colour, the text, the reset *)
Lemma print_level_items level items args args' o : Forall item_ok items → render items args = Some (o, args') → (length o < 128)%nat →
  print_level U level (format_of items) args =
    writes [(console, removelast (escape_sequences_start level)); (console, o); (console, removelast escape_sequences_end)].
Proof.
  intros Hok Hr Ho. unfold print_level, printf_level. destruct (format_str [] []) as (H1 & H2 & H3); [by constructor|by constructor|].
  assert (∀ l tr, no_nul l → (length l < 128)%nat → Printk.printf (u_union U) (lit "%s" ++ [0]) [VStr 1 (l ++ [0])] tr = Ok ((), tr ++ [(console, l)])) as Hs.
  { intros l tr Hl Hlen. cbn [app] in H2. pose proof (H3 _ _ (shows_str l [] Hl)) as E. rewrite app_nil_l in E. rewrite app_nil_r, app_nil_l in E.
    rewrite <-H2, (printf_run _ _ _ _ _ tr H1 E). by rewrite (proj2 (Nat.ltb_lt _ _) Hlen). }
  assert (∀ tr, Printk.printf (u_union U) (lit "%s" ++ [0]) [VStr 1 (escape_sequences_start level)] tr =
      Ok ((), tr ++ [(console, removelast (escape_sequences_start level))])) as Hstart.
  { intros tr. assert (escape_sequences_start level = removelast (escape_sequences_start level) ++ [0]) as E by by destruct level.
    rewrite E at 1. apply Hs; destruct level; [by repeat constructor..|cbn; lia|cbn; lia]. }
  assert (∀ tr, Printk.printf (u_union U) (lit "%s" ++ [0]) [VStr 1 escape_sequences_end] tr =
      Ok ((), tr ++ [(console, removelast escape_sequences_end)])) as Hend.
  { intros tr. assert (escape_sequences_end = removelast escape_sequences_end ++ [0]) as E by done.
    rewrite E at 1. apply Hs; [by repeat constructor|cbn; lia]. }
  rewrite (bind_Ok _ _ _ _ _ (Hstart [])). erewrite bind_Ok; [|rewrite (printf_run _ _ _ _ _ _ Hok Hr), (proj2 (Nat.ltb_lt _ _) Ho); reflexivity].
  by rewrite Hend.
Qed.
End print.
