(* ===== verification/UserPrograms.v ===== *)
(** The user programs of user/: echo, cat, cp, mkdir, pwd, ls, time, sh, init and
    the start-up code of runtime/startup.cc, as interaction trees over the system
    calls.  [argv] is the list of the arguments, each with the bytes from its pointer
    to the end of its object, and [argc] is its length. *)
From ITree Require Import ITree.
From S2P Require Import Prelude Mem Printk Stl LibUtils Inode UserSys.

Section programs.
Context (U : uninit).
Abbreviation say := (print U).
Abbreviation sayl := (print_level U).
Definition argc {A} (argv : list A) : Z := Z.of_nat (length argv).
Definition arg (argv : list (list Z)) (i : Z) : user (list Z) := get "argv" (argv !! Z.to_nat i).
Definition esc (s : string) : list Z := 27 :: lit s.
Definition fstat_into (fd : Z) (state : syscall.FileState) : user (Z * syscall.FileState) :=
  '(r, o) ← sys (syscall.fstat fd); mret (s32 r, default state o).
(** the result of [open] in an [int] *)
Definition open (path : list Z) : user Z := fd ← sys (syscall.open path); mret (s32 fd).

(** * echo.cc, mkdir.cc, pwd.cc *)
Definition echo (argv : list (list Z)) : user Z :=
  for_args (λ a, say (txt "%s ") [str a]) (drop 1 argv);;
  say (line "") [];;
  mret 0.
Definition mkdir (argv : list (list Z)) : user Z :=
  if argc argv =? 1 then
    sayl error (lit "mkdir: missing operand" ++ 10 :: line "Try 'mkdir --help' for more information.") [];;
    mret (-1)
  else
    for_args (λ a,
      r ← sys (syscall.mkdir a);
      if s32 r <? 0 then sayl error (line "mkdir: create %s failed") [str a] else mret ()) (drop 1 argv);;
    mret 0.
Definition pwd (argv : list (list Z)) : user Z :=
  let buf := u_bytes U 128 in
  '(r, l) ← sys (syscall.getcwd 128);
  let buf := splice buf 0 l in
  if s32 r <? 0 then say (line "pwd: failed") [];; mret (-1)
  else say (line "%s") [str buf];; mret 0.

(** * cat.cc *)
(** [while ((n = read(fd, buf, sizeof(buf))) > 0) write(console, buf, n)] *)
Definition cat_loop (fd : Z) : user () :=
  loop (λ buf,
    '(n, l) ← sys (syscall.read fd 512);
    let n := s32 n in
    let buf := splice buf 0 l in
    if 0 <? n then sys (syscall.write console (syscall.buffer buf) n);; mret (inl buf) else mret (inr ())) (u_bytes U 512).
Definition cat_file (name : list Z) : user () :=
  fd ← open name;
  if fd <? 0 then say (line "cat: %s: No such file or directory") [str name]
  else
    '(_, file_state) ← fstat_into fd (u_state U);
    if (syscall.st_type file_state =? FT_directory) || (syscall.st_type file_state =? FT_device) then
      say (line "cat: %s: Not a regular file") [str name]
    else
      cat_loop fd;;
      sys (syscall.write console syscall.null 5);;
      say (line "") [].
Definition cat (argv : list (list Z)) : user Z :=
  if argc argv <? 2 then mret 0
  else for_args cat_file (drop 1 argv);; mret 0.

(** * cp.cc *)
(** an operation of a [lib::string] of the program; the heap always has room *)
Definition on_string {A} (m : M (vector Z) A) (s : vector Z) : user (A * vector Z) :=
  match m s with Ok r => mret r | Stop e => undefined e end.
Abbreviation with_heap f := (f 0 (λ _ : Z, true)).
(** the loop that opens the sources; [None] for the early return *)
Fixpoint open_sources (srcs : list (list Z)) (src_fds : list Z) : user (option (list Z)) :=
  match srcs with
  | [] => mret (Some src_fds)
  | src :: srcs =>
    fd ← open src;
    if fd <? 0 then
      sayl error (line "cp: cannot stat '%s': No such file or directory") [str src];;
      mret None
    else open_sources srcs (src_fds ++ [fd])
  end.
Definition cp_loop (src target_fd : Z) : user () :=
  loop (λ buf,
    '(cnt, l) ← sys (syscall.read src 512);
    let cnt := s32 cnt in
    let buf := splice buf 0 l in
    if 0 <? cnt then sys (syscall.write target_fd (syscall.buffer buf) cnt);; mret (inl buf) else mret (inr ())) (u_bytes U 512).
Definition cp_one (is_dir : bool) (dest_path : vector Z) (src : list Z) (fd : Z) : user () :=
  '(target, _) ← on_string (if is_dir then with_heap string_plus_cstr src
                            else gets (λ s, s)) dest_path;
  (** [target = ...]: the copying assignment of the vector *)
  '(_, target) ← on_string (with_heap assign target) (@vector_empty Z);
  '(path, _) ← on_string (with_heap c_str) target;
  target_fd ← sys (syscall.create path FT_regular_file);
  cp_loop fd (s32 target_fd).
Fixpoint cp_all (is_dir : bool) (dest_path : vector Z) (srcs : list (list Z)) (fds : list Z) : user () :=
  match srcs, fds with
  | src :: srcs, fd :: fds => cp_one is_dir dest_path src fd;; cp_all is_dir dest_path srcs fds
  | _, _ => mret ()
  end.
Definition cp (argv : list (list Z)) : user Z :=
  if argc argv <? 3 then
    sayl error (lit "cp: missing operand" ++ 10 :: line "Try 'cp --help' for more information.") [];;
    mret (-1)
  else
    let is_multisource := 3 <? argc argv in
    dest ← arg argv (argc argv - 1);
    dest_fd ← open dest;
    '(_, dest_state) ← (if dest_fd <? 0 then mret (0, syscall.MkFileState 0 0 0 0)
                        else fstat_into dest_fd (syscall.MkFileState 0 0 0 0));
    let is_dir := syscall.st_type dest_state =? FT_directory in
    if is_multisource && ((dest_fd <? 0) || negb is_dir) then
      sayl error (line "cp: target '%s' is not a directory") [str dest];; mret (-1)
    else if negb is_multisource && ((0 <? dest_fd) && negb is_dir) then
      sayl error (line "cp: dest target '%s' already exists") [str dest];; mret (-1)
    else
      let srcs := take (length argv - 2) (drop 1 argv) in
      src_fds ← open_sources srcs [];
      match src_fds with
      | None => mret (-1)
      | Some src_fds =>
        '(_, dest_path) ← on_string (with_heap string_ctor dest) (@vector_empty Z);
        '(last, dest_path) ← (if is_dir then on_string (n ← string_size; string_at (n - 1)) dest_path else mret (47, dest_path));
        '(_, dest_path) ← (if is_dir && negb (last =? 47) then on_string (with_heap append_char 47) dest_path else mret ((), dest_path));
        cp_all is_dir dest_path srcs src_fds;;
        mret 0
      end.

(** * ls.cc *)
Definition ShowFile (name : list Z) (fd : Z) (file_state : option syscall.FileState) : user () :=
  f ← match file_state with
      | Some f => mret (Some f)
      | None =>
        '(r, f) ← fstat_into fd (u_state U);
        if r <? 0 then
          say (line "ls: cannot access '%s': trying to get file_state failed") [str name];; mret None
        else mret (Some f)
      end;
  match f with
  | None => mret ()
  | Some f =>
    let args := [VInt (syscall.st_size f); str name] in
    (if syscall.st_type f =? FT_directory then say (lit "   d%8d    " ++ esc "[34m%s" ++ [10; 0]) args
     else if syscall.st_type f =? FT_device then say (lit "   c%8d    " ++ esc "[33m%s" ++ [10; 0]) args
     else if syscall.st_type f =? FT_regular_file then say (line "   -%8d    %s") args
     else mret ());;
    say (esc "[0m" ++ [0]) []
  end.
(** the 128 bytes of [full_name]: [path], a slash if it does not end in one, [name] *)
Definition full_name (path name : list Z) : user (list Z) :=
  path_len ← get "strlen" (strlen path);
  let p := take path_len path in
  last ← get "full_name[path_len - 1]" (list.last p);
  let p := if negb (last =? 47) then p ++ [47] else p in
  n ← get "strlen" (strlen name);
  let p := p ++ take (S n) name in
  if (length p <=? 128)%nat then mret (splice (u_bytes U 128) 0 p) else undefined (Faulted "full_name").
Definition list_loop (path : list Z) (fd : Z) : user () :=
  loop (λ buf,
    '(r, l) ← sys (syscall.read fd 16);
    let buf := splice buf 0 l in
    if 0 <? r then
      name ← full_name path (drop 2 buf);
      child_fd ← open name;
      ShowFile name child_fd None;;
      sys (syscall.close child_fd);;
      mret (inl buf)
    else mret (inr ())) (u_bytes U 16).
Definition DoList (path : list Z) : user () :=
  fd ← open path;
  if fd <? 0 then say (line "ls: cannot access '%s': No such file or directory") [str path]
  else
    '(_, file_state) ← fstat_into fd (u_state U);
    say (line "---------------------") [];;
    say (line "type    size    name") [];;
    (if syscall.st_type file_state =? FT_directory then list_loop path fd
     else ShowFile path fd (Some file_state));;
    sys (syscall.close fd);;
    mret ().
Definition ls (argv : list (list Z)) : user Z :=
  if argc argv =? 1 then
    '(r, l) ← sys (syscall.getcwd 256);
    let buf := splice (u_bytes U 256) 0 l in
    if nonzero (s32 r) then
      say (line "ls: cannot access current path: path_name too long") [];; mret (-1)
    else DoList buf;; mret 0
  else for_args DoList (drop 1 argv);; mret 0.

(** * time.cc *)
(** the constructor and the destructor of [TimeMonitor] *)
Definition TimeMonitor : user Z := t ← sys syscall.uptime; mret (s32 t).
Definition drop_TimeMonitor (tick : Z) (need_output : bool) : user () :=
  if negb need_output then mret ()
  else
    cur ← sys syscall.uptime;
    sayl info (line "Total use time tick: %d") [VInt (s32 (s32 cur - tick))].
Definition time (argv : list (list Z)) : user Z :=
  if argc argv =? 1 then
    sayl error (lit "time: missing operand" ++ 10 :: line "Try 'time --help' for more information.") [];;
    mret (-1)
  else
    tick ← TimeMonitor;
    sub_process ← sys syscall.fork;
    if s32 sub_process <? 0 then
      say (line "trying to create a new process failed") [];;
      drop_TimeMonitor tick true;;
      mret (-1)
    else if s32 sub_process =? 0 then
      name ← arg argv 1;
      sys (syscall.exec name (drop 1 argv));;
      say (line "%s: command not found") [str name];;
      drop_TimeMonitor tick false;;
      mret (-1)
    else
      sys syscall.wait;;
      drop_TimeMonitor tick true;;
      mret 0.

(** * sh.cc *)
Definition console_path : list Z := txt "/dev/console".
(** one round of [while (true)]; [inr] is the [return] of a child *)
Definition cd (token_num : Z) (argv : list (list Z)) : user () :=
  if 2 <? token_num then say (line "cd: too many arguments") []
  else
    cd_ret ← (if token_num =? 1 then sys (syscall.chdir (txt "/"))
              else a ← arg argv 1; sys (syscall.chdir a));
    (** [argv[1]] is the null pointer when [cd] is alone *)
    let arg1 := match argv !! 1%nat with Some a => str a | None => VStr 0 [] end in
    if s32 cd_ret =? -2 then say (line "sh: cd: %s: No such file or directory") [arg1]
    else if s32 cd_ret =? -1 then say (line "sh: cd: %s: Not a directory") [arg1]
    else mret ().
Definition run_command (argv : list (list Z)) : user (() + Z) :=
  sub_process ← sys syscall.fork;
  if s32 sub_process <? 0 then say (line "trying to create a new process failed") [];; mret (inl ())
  else if s32 sub_process =? 0 then
    command ← arg argv 0;
    sys (syscall.exec command argv);;
    say (line "%s: command not found") [str command];;
    mret (inr (-1))
  else sys syscall.wait;; mret (inl ()).
Definition prompt (cwd : list Z) : user () :=
  say (esc "[34;1m%s" ++ esc "[32;1m$" ++ esc "[0m > " ++ [0]) [str cwd].
Definition sh_round (split_ret : list (list Z)) (console : Z) : user (() + Z) :=
  '(_, l) ← sys (syscall.getcwd 128);
  let buf := splice (u_bytes U 128) 0 l in
  prompt buf;;
  '(n, l) ← sys (syscall.read console 128);
  let n := s32 n in
  let buf := splice buf 0 l in
  last ← (if n <=? 0 then undefined (Faulted "buf[n - 1]") else get "buf[n - 1]" (buf !! Z.to_nat (n - 1)));
  let buf := if last =? 10 then <[Z.to_nat (n - 1) := 0]> buf else buf in
  match SplitString buf split_ret 32 with
  | Stop e => undefined e
  | Ok (token_num, split_ret) =>
    if token_num <? 0 then sayl error (line "sh: command argument to mush") [];; mret (inl ())
    else
      let argv := take (Z.to_nat token_num) split_ret in
      (** the null pointer after the last word when there is none *)
      argv0 ← get "strcmp(nullptr)" (argv !! 0%nat);
      is_cd ← get "strcmp" (strcmp argv0 (txt "cd"));
      if is_cd =? 0 then cd token_num argv;; mret (inl ())
      else run_command argv
  end.
(** [split_ret] is uninitialised in each round *)
Definition sh (split_ret : list (list Z)) : user Z :=
  console ← open console_path;
  console ← (if console <? 0 then
               sayl info (line "sh: trying to mount %s") [str console_path];;
               mknod_ret ← sys (syscall.mknod console_path 0 0);
               if s32 mknod_ret <? 0 then
                 sayl error (line "sh: mount %s failed, program will exit right now") [str console_path];;
                 mret (inr (-1))
               else
                 sayl info (line "sh: mount %s succ") [str console_path];;
                 console ← open console_path;
                 mret (inl console)
             else mret (inl console));
  match console with
  | inr r => mret r
  | inl console =>
    '(_, state) ← fstat_into console (syscall.MkFileState 0 0 0 0);
    type_name ← get "FileTypeStr" (FileTypeName (syscall.st_type state));
    sayl info (line "sh: console inode_index: %d, size: %d, type: %s")
      [VInt (syscall.st_inode_index state); VInt (syscall.st_size state); str (txt type_name)];;
    loop (λ _, sh_round split_ret console) ()
  end.

(** * init.cc *)
Definition wait_for (pid : Z) : user () :=
  loop (λ _, exit_pid ← sys syscall.wait; mret (if s32 exit_pid =? pid then inr () else inl ())) ().
Definition init_round : user (() + Z) :=
  say (esc "[35;1minit: starting sh" ++ esc "[0m" ++ [10; 0]) [];;
  sh_pid ← sys syscall.fork;
  if s32 sh_pid =? 0 then
    sys (syscall.exec (txt "sh") [txt "sh"]);;
    say (line "trying to exec sh faild") [];;
    mret (inr (-1))
  else wait_for (s32 sh_pid);; mret (inl ()).
Definition init : user Z := loop (λ _, init_round) ().
End programs.

(** * runtime/startup.cc *)
Definition start_ (init_array : list (user ())) (fini_array : list (user ())) (main : user Z) : user void :=
  for_args (λ fp, fp) init_array;;
  exit_code ← main;
  for_args (λ fp, fp) fini_array;;
  sys (syscall.exit exit_code).

(** * What becomes of cp's strings *)
Section strings.
Abbreviation with_heap f := (f 0 (λ _ : Z, true)).
(** a string of [p] as [push_back] has left it, of the least capacity *)
Definition short (p : list Z) : vector Z := mk_vector (Z.of_nat (length p)) 8 (Some (p ++ replicate (8 - length p) 0)).
Lemma push_short p c : p ≠ [] → (length p < 8)%nat → with_heap push_back c (short p) = Ok ((), short (p ++ [c])).
Proof.
  intros Hp Hl. unfold short, push_back, mbind, M_bind, Stl.get, gets. cbn [capacity_ size_]. rewrite (proj2 (Z.leb_gt 8 _)) by lia.
  cbv iota. cbn [mret M_ret]. unfold lift_res, buf_write. cbn [buffer_ size_ capacity_]. rewrite Nat2Z.id, length_app, length_replicate.
  rewrite (proj2 (Nat.ltb_lt _ _)) by lia. unfold put, modify. rewrite wrap_small, length_app by lia. cbn [length].
  rewrite insert_app_r_alt, Nat.sub_diag, <-app_assoc by lia. do 3 f_equal; [lia|]. do 2 f_equal. replace (8 - length p)%nat with (S (8 - (length p + 1)))%nat by lia. done.
Qed.
Lemma push_first c : with_heap push_back c (@vector_empty Z) = Ok ((), short [c]).
Proof. done. Qed.
Lemma push_cstr_short p2 r : ∀ p1, p1 ≠ [] → no_nul p2 → (length (p1 ++ p2) ≤ 8)%nat →
  with_heap push_cstr (p2 ++ 0 :: r) (short p1) = Ok ((), short (p1 ++ p2)).
Proof.
  induction p2 as [|c p2 IH]; intros p1 Hp1 Hn Hl; cbn [app push_cstr].
  - by rewrite app_nil_r.
  - apply Forall_cons in Hn as [Hc Hn]. rewrite (proj2 (Z.eqb_neq c 0)) by done. rewrite length_app in Hl. cbn in Hl.
    rewrite (bind_Ok _ _ _ _ _ (push_short p1 c Hp1 ltac:(lia))). rewrite (IH (p1 ++ [c])).
    + by rewrite <-app_assoc.
    + by destruct p1.
    + done.
    + rewrite !length_app. cbn. lia.
Qed.
Lemma string_ctor_short p r : p ≠ [] → no_nul p → (length p ≤ 8)%nat → with_heap string_ctor (p ++ 0 :: r) (@vector_empty Z) = Ok ((), short p).
Proof.
  intros Hp Hn Hl. destruct p as [|c p]; [done|]. apply Forall_cons in Hn as [Hc Hn]. unfold string_ctor, put.
  cbn [app push_cstr]. rewrite (proj2 (Z.eqb_neq c 0)) by done. by apply (push_cstr_short p r [c]).
Qed.
(** the copy has the capacity of the original and room for its characters only *)
Lemma assign_short p : (length p ≤ 8)%nat →
  with_heap assign (short p) (@vector_empty Z) = Ok ((), mk_vector (Z.of_nat (length p)) 8 (Some p)).
Proof.
  intros Hl. unfold assign, vector_copy, new_T, short. cbn [size_ buffer_ capacity_]. rewrite Nat2Z.id.
  rewrite (copy_loop_ok _ 0 _ _ p); [|by apply buf_read_ok, take_app_length|done|lia|rewrite length_replicate; simpl; lia].
  unfold lift_res, put, mbind, M_bind, modify. do 4 f_equal. unfold splice. rewrite take_0, app_nil_l, drop_ge by (rewrite length_replicate; lia).
  apply app_nil_r.
Qed.
Lemma c_str_overflows p : (length p < 8)%nat →
  with_heap c_str (mk_vector (Z.of_nat (length p)) 8 (Some p)) = Stop (Faulted "vector buffer").
Proof.
  intros Hl. unfold c_str, reserve, mbind, M_bind, Stl.get, gets, lift_res. cbn [size_ buffer_ capacity_ mret M_ret].
  rewrite wrap_small, (proj2 (Z.leb_le _ 8)) by lia. cbn [mret M_ret size_ buffer_ capacity_]. unfold buf_write.
  by rewrite Nat2Z.id, Nat.ltb_irrefl.
Qed.
End strings.

(** * Properties *)
(** C40: cp of one source to a new name of 1 to 7 characters: the target's name is a copy
    of a string with spare capacity, so [c_str] stores its NUL past the end of the copy's
    buffer, whatever the kernel answers, and no file is created. *)
Theorem cp_short_name_overflows {S} (h : kernelH S) U prog src p r s s1 s2 fd :
  p ≠ [] → no_nul p → (length p < 8)%nat →
  h _ (syscall.open (p ++ 0 :: r)) s = Ok (-1, s1) → h _ (syscall.open src) s1 = Ok (fd, s2) → 0 ≤ fd < 2 ^ 31 →
  does h (cp U [prog; src; p ++ 0 :: r]) s (Stop (Faulted "vector buffer")).
Proof.
  intros Hp Hn Hl H1 H2 Hfd. unfold cp. change (argc _ <? 3) with false. cbv iota. change (3 <? argc _) with false. cbv zeta.
  eapply does_bind; [apply does_ret|]. eapply does_bind; [eapply does_bind; [by apply does_call|apply does_ret]|].
  change (s32 (-1)) with (-1). change (-1 <? 0) with true. cbv iota. eapply does_bind; [apply does_ret|]. cbv beta iota.
  change (syscall.st_type _ =? FT_directory) with false. cbn [negb andb orb]. change (0 <? -1) with false. cbn [andb].
  eapply does_bind.
  { cbn [length Nat.sub drop take open_sources]. eapply does_bind; [eapply does_bind; [by apply does_call|apply does_ret]|].
    rewrite swrap_small, (proj2 (Z.ltb_ge _ _)) by lia. apply does_ret. }
  cbv iota. eapply does_bind; [unfold on_string; rewrite (string_ctor_short p r) by (done || lia); apply does_ret|].
  do 2 (eapply does_bind; [apply does_ret|]). apply does_bind_stop. cbn [app length Nat.sub drop take cp_all]. apply does_bind_stop.
  unfold cp_one. eapply does_bind; [apply does_ret|]. eapply does_bind; [unfold on_string; rewrite assign_short by lia; apply does_ret|].
  apply does_bind_stop. unfold on_string. rewrite c_str_overflows by done. apply does_undefined.
Qed.
Lemma cp_short_name_overflows_witness :
  let h : kernelH () := λ T e, match e with
    | syscall.open p => mret (if decide (p = txt "a") then 3 else -1)
    | _ => stop_with (Faulted "unexpected call")
    end in
  does h (cp (Uninit 0 (λ n, []) (syscall.MkFileState 0 0 0 0)) [txt "cp"; txt "a"; txt "b"]) () (Stop (Faulted "vector buffer")).
Proof.
  intros h. apply (cp_short_name_overflows h _ (txt "cp") (txt "a") (lit "b") [] () () () 3).
  - discriminate.
  - by repeat constructor.
  - cbn. lia.
  - reflexivity.
  - reflexivity.
  - lia.
Defined.
