(* ===== verification/UserFiles.v ===== *)
(** What a program may rely on when it reads files and writes to the console, as
    the class [FilesLaw]; cat against it; and the kernel's own system calls, with the
    arguments in the registers and the buffers in user memory, as an instance, so that
    cat's output is that of the files on the disk. *)
From ITree Require Import ITree.
From S2P Require Import Prelude Riscv Mem Printk MemoryList VirtualMemory Inode Process Scheduler Console FsCommon FileData FileStream Directory Syscalls Trap Loader UserSys UserPrograms Mkfs.

(** * The interface *)
(** what a path names: a regular file with its bytes, a directory or a device *)
Inductive node := Regular (data : list Z) | Special (type : Z).
Definition node_type (n : node) : Z := match n with Regular _ => FT_regular_file | Special ty => ty end.
Definition node_ok (n : node) : Prop :=
  match n with Regular l => Forall byte l | Special ty => ty = FT_directory ∨ ty = FT_device end.
(** A view of a kernel's state: [ready] says that descriptor 0 is the console;
    [text] is what the console shows; [room] is the number of free descriptors; [low]
    is the page at the program's address 0, when one is mapped there; [names] tells what
    a path names, if anything; [opened] what is left to read at a descriptor.  The
    buffers of the calls have at most a page. *)
Record view (S : Type) := View {
  ready : S → Prop; text : S → list Z; room : S → nat; low : S → option (list Z);
  names : S → list Z → option node → Prop;
  opened : S → Z → node → Prop;
}.
Arguments ready {S} _ _.
Arguments text {S} _ _.
Arguments room {S} _ _.
Arguments low {S} _ _.
Arguments names {S} _ _ _ _.
Arguments opened {S} _ _ _ _.
Definition kept {S} (V : view S) (s s' : S) : Prop :=
  (ready V s → ready V s') ∧ low V s' = low V s ∧ ∀ a o, names V s a o → names V s' a o.
Definition same_files {S} (V : view S) (s s' : S) : Prop :=
  kept V s s' ∧ room V s' = room V s ∧ ∀ fd f, opened V s fd f → opened V s' fd f.
Class FilesLaw {S} (h : kernelH S) (V : view S) : Prop := {
  write_law s l n : ready V s → Forall byte (take (Z.to_nat n) l) → 0 ≤ n ≤ Z.of_nat (length l) → n ≤ 4096 →
    wp (h _ (syscall.write console (syscall.buffer l) n)) (λ _ s', text V s' = text V s ++ take (Z.to_nat n) l ∧ same_files V s s') s;
  (** what the kernel does with the null pointer is up to what the program has mapped *)
  write_null_law s n : ready V s → 0 < n ≤ 4096 →
    match low V s with
    | Some page => wp (h _ (syscall.write console syscall.null n)) (λ _ s', text V s' = text V s ++ take (Z.to_nat n) page ∧ same_files V s s') s
    | None => ∃ why, h _ (syscall.write console syscall.null n) s = Stop (Faulted why)
    end;
  open_law s a o : ready V s → names V s a o →
    wp (h _ (syscall.open a)) (λ fd s', text V s' = text V s ∧ kept V s s' ∧
      match o, room V s with
      | Some f, Datatypes.S n => room V s' = n ∧ 0 ≤ fd < 2 ^ 31 ∧ opened V s' fd f
      | _, _ => room V s' = room V s ∧ fd = -1
      end) s;
  fstat_law s fd f : ready V s → opened V s fd f →
    wp (h _ (syscall.fstat fd)) (λ '(_, o) s', text V s' = text V s ∧ same_files V s s' ∧
      ∃ st, o = Some st ∧ syscall.st_type st = node_type f) s;
  read_law s fd l n : ready V s → opened V s fd (Regular l) → 0 ≤ n ≤ 4096 →
    wp (h _ (syscall.read fd n)) (λ '(r, d) s', d = take (Z.to_nat n) l ∧ r = Z.of_nat (length d) ∧
      text V s' = text V s ∧ kept V s s' ∧ room V s' = room V s ∧ opened V s' fd (Regular (drop (Z.to_nat n) l))) s;
}.

(** a program that stops in what follows *)
Lemma ends_stop {S A B} (h : kernelH S) (t : user A) (k : A → user B) (Q : A → S → Prop) s e :
  ends h t Q s → (∀ a s', Q a s' → does h (k a) s' (Stop e)) → does h (t ≫= k) s (Stop e).
Proof. intros (a & s' & Hd & HQ) Hk. eapply does_bind; [exact Hd|by apply Hk]. Qed.
Lemma lit_byte m : Forall byte (lit m).
Proof.
  induction m as [|c m IH]; [constructor|]. constructor; [|exact IH]. unfold byte, ch.
  pose proof (Ascii.N_ascii_bounded c). lia.
Qed.

Section cat.
Context {S : Type} (h : kernelH S) (V : view S) `{!FilesLaw h V}.

Lemma kept_refl s : kept V s s.
Proof. by repeat split. Qed.
Lemma kept_trans s1 s2 s3 : kept V s1 s2 → kept V s2 s3 → kept V s1 s3.
Proof. intros (H1 & H2 & H3) (H4 & H5 & H6). split_and!; [auto|congruence|auto]. Qed.
(** [s'] is [s] with [l] printed *)
Definition printed (l : list Z) (s s' : S) : Prop :=
  text V s' = text V s ++ l ∧ kept V s s' ∧ room V s' = room V s.
Lemma printed_trans l1 l2 s1 s2 s3 : printed l1 s1 s2 → printed l2 s2 s3 → printed (l1 ++ l2) s1 s3.
Proof.
  intros (H1 & H2 & H3) (H4 & H5 & H6). split_and!; [by rewrite H4, H1, app_assoc|by eapply kept_trans|congruence].
Qed.
Lemma printed_nil s : printed [] s s.
Proof. split; [by rewrite app_nil_r|]. split; [apply kept_refl|done]. Qed.
Lemma ends_writes l Q s : Forall byte l → (length l ≤ 4096)%nat → ready V s → (∀ s', printed l s s' → Q () s') → ends h (writes [(console, l)]) Q s.
Proof using All.
  intros Hl Hlen Hr HQ. apply ends_bind, ends_sys. eapply wp_mono; [apply (write_law s l); [done|by apply Forall_take|lia..]|].
  intros ? s' (Ht & Hk & Hm & _). apply ends_ret, HQ. rewrite Nat2Z.id, firstn_all in Ht. done.
Qed.
Lemma ends_print_str U pre post p r Q s : plain pre → plain post → no_nul p → (length (pre ++ p ++ post) < 128)%nat →
  Forall byte (pre ++ p ++ post) → ready V s → (∀ s', printed (pre ++ p ++ post) s s' → Q () s') →
  ends h (print U (pre ++ lit "%s" ++ post ++ [0]) [str (p ++ 0 :: r)]) Q s.
Proof using All.
  intros Hpre Hpost Hp Hl Hb Hr HQ. rewrite print_str by done. rewrite (proj2 (Nat.ltb_lt _ _) Hl). by apply ends_writes; [|lia|..].
Qed.
Lemma ends_print_plain U l Q s : plain l → (length l < 128)%nat → Forall byte l →
  ready V s → (∀ s', printed l s s' → Q () s') → ends h (print U (l ++ [0]) []) Q s.
Proof using All.
  intros Hl Hlen Hb Hr HQ. rewrite print_plain by done. rewrite (proj2 (Nat.ltb_lt _ _) Hlen). by apply ends_writes; [|lia|..].
Qed.

(** ** The loop of cat *)
Lemma cat_loop_run U fd l s : ready V s → Forall byte l → opened V s fd (Regular l) →
  ends h (cat_loop U fd) (λ _ s', printed l s s') s.
Proof using All.
  intros Hr Hb Ho.
  apply (ends_loop h _ (λ n _ s1, ∃ l1 l2, l = l1 ++ l2 ∧ length l2 = n ∧ printed l1 s s1 ∧ opened V s1 fd (Regular l2)) _)
    with (n := length l).
  2: { exists [], l. split; [done|]. split; [done|]. split; [apply printed_nil|done]. }
  clear Ho. intros n buf s1 (l1 & l2 & -> & <- & Hp & Ho). pose proof Hp as (Ht & Hk & Hm). apply Forall_app in Hb as [_ Hb].
  apply ends_bind, ends_sys. eapply wp_mono; [apply (read_law s1 fd l2 512); [by apply Hk|done|lia]|].
  intros [r d] s2 (-> & -> & Ht2 & Hk2 & Hm2 & Ho2). cbv beta iota. change (Z.to_nat 512) with 512%nat in *.
  set (d := take 512 l2) in *. assert (length d ≤ 512)%nat as Hd by (unfold d; rewrite length_take; lia).
  rewrite swrap_small by lia. assert (printed l1 s s2) as Hp2.
  { rewrite <-(app_nil_r l1). by apply (printed_trans _ _ _ _ _ Hp); split; [rewrite app_nil_r|]. }
  pose proof (take_drop 512 l2) as El. fold d in El. cbv zeta. destruct (Z.ltb_spec 0 (Z.of_nat (length d))) as [Hlt|Hge].
  - set (b := splice buf 0 d). assert (take (Z.to_nat (Z.of_nat (length d))) b = d) as Eb.
    { unfold b, splice. by rewrite take_0, Nat2Z.id, app_nil_l, take_app_length. }
    apply ends_bind, ends_sys. eapply wp_mono.
    { apply (write_law s2 b); [by apply Hp2|rewrite Eb; by apply Forall_take| |lia]. unfold b, splice. rewrite !length_app. lia. }
    intros ? s3 (Ht3 & Hk3 & Hm3 & Ho3). apply ends_ret. exists (length (drop 512 l2)). split.
    { apply (f_equal length) in El. rewrite length_app in El. lia. }
    exists (l1 ++ d), (drop 512 l2). split; [by rewrite <-app_assoc, El|]. split; [done|]. split; [|by apply Ho3].
    apply (printed_trans _ _ _ _ _ Hp2). split; [|done]. by rewrite Ht3, Eb.
  - apply ends_ret. assert (l2 = []) as ->; [|by rewrite app_nil_r]. apply nil_length_inv. unfold d in Hge. rewrite length_take in Hge. lia.
Qed.

(** ** cat *)
Definition no_such (p : list Z) : list Z := lit "cat: " ++ p ++ lit ": No such file or directory" ++ [10].
Definition not_regular (p : list Z) : list Z := lit "cat: " ++ p ++ lit ": Not a regular file" ++ [10].
(** what cat prints for arguments that name the given things, with [n] free
    descriptors; [junk] are the five bytes at address 0 *)
Fixpoint cat_text (junk : list Z) (n : nat) (fs : list (list Z * option node)) : list Z :=
  match fs with
  | [] => []
  | (p, o) :: fs =>
    match o, n with
    | Some f, Datatypes.S n =>
      match f with Regular l => l ++ junk ++ [10] | Special _ => not_regular p end ++ cat_text junk n fs
    | _, _ => no_such p ++ cat_text junk n fs
    end
  end.
(** with [n] free descriptors, some argument is a regular file that cat opens *)
Fixpoint opens_regular (n : nat) (fs : list (list Z * option node)) : bool :=
  match fs with
  | [] => false
  | (_, o) :: fs =>
    match o, n with
    | Some (Regular _), Datatypes.S _ => true
    | Some (Special _), Datatypes.S n => opens_regular n fs
    | _, _ => opens_regular n fs
    end
  end.
Definition is_arg (s : S) (a : list Z) (f : list Z * option node) : Prop :=
  let '(p, o) := f in (∃ r, a = p ++ 0 :: r) ∧ no_nul p ∧ Forall byte p ∧ (length p ≤ 80)%nat ∧ names V s a o ∧
    match o with Some f => node_ok f | None => True end.
Definition at_null (s : S) : list Z := take 5 (default [] (low V s)).
(** what an argument adds to the text *)
Definition cat_post (s : S) (p : list Z) (o : option node) (s' : S) : Prop :=
  kept V s s' ∧ ∀ fs, text V s' ++ cat_text (at_null s) (room V s') fs = text V s ++ cat_text (at_null s) (room V s) ((p, o) :: fs) ∧
    (low V s = None → opens_regular (room V s) ((p, o) :: fs) = opens_regular (room V s') fs).
Lemma cat_message U s s1 p r o (m : string) : ready V s → no_nul p → Forall byte p → (length p ≤ 80)%nat →
  text V s1 = text V s → kept V s s1 → plain (lit m) → (length (lit m) ≤ 40)%nat →
  (∀ J fs, cat_text J (room V s) ((p, o) :: fs) = (lit "cat: " ++ p ++ lit m ++ [10]) ++ cat_text J (room V s1) fs) →
  (∀ fs, opens_regular (room V s) ((p, o) :: fs) = opens_regular (room V s1) fs) →
  ends h (print U (lit "cat: " ++ lit "%s" ++ (lit m ++ [10]) ++ [0]) [str (p ++ 0 :: r)]) (λ _ s', cat_post s p o s') s1.
Proof using All.
  intros Hr Hp Hb Hlen Ht Hk Hm Hl Hc Ho. apply ends_print_str.
  - repeat constructor; done.
  - apply Forall_app_2; [done|]. repeat constructor; done.
  - done.
  - rewrite !length_app. cbn. lia.
  - repeat apply Forall_app_2; [apply lit_byte|done|apply lit_byte|by repeat constructor].
  - by apply Hk.
  - intros s2 (Ht2 & Hk2 & Hm2). split; [by eapply kept_trans|]. intros fs. split; [by rewrite Ht2, Hm2, Ht, Hc, <-app_assoc|].
    intros _. by rewrite Ho, Hm2.
Qed.
(** after a regular file: five bytes from the null pointer and a newline *)
Lemma cat_tail U s p l n s1 : ready V s → room V s = Datatypes.S n →
  text V s1 = text V s ++ l → kept V s s1 → room V s1 = n →
  let t := sys (syscall.write console syscall.null 5);; print U (line "") [] in
  match low V s with
  | Some _ => ends h t (λ _ s', cat_post s p (Some (Regular l)) s') s1
  | None => ∃ why, does h t s1 (Stop (Faulted why))
  end.
Proof using All.
  intros Hr En Ht Hk Hm t. pose proof Hk as (Hr1 & Hlow & _). pose proof (write_null_law s1 5 (Hr1 Hr) ltac:(lia)) as Hw. rewrite Hlow in Hw.
  destruct (low V s) as [page|] eqn:El.
  - apply ends_bind, ends_sys. eapply wp_mono; [exact Hw|]. intros ? s2 (Ht2 & Hk2 & Hm2 & _).
    apply (ends_print_plain U [10]); [by repeat constructor|cbn; lia|by repeat constructor|by apply Hk2, Hr1|].
    intros s3 (Ht3 & Hk3 & Hm3). split; [eapply kept_trans; [exact Hk|by eapply kept_trans]|]. intros fs.
    rewrite En, Ht3, Hm3, Ht2, Hm2, Ht, Hm. cbn [cat_text]. unfold at_null. rewrite El. split; [by rewrite <-!app_assoc|done].
  - destruct Hw as [why Hw]. exists why. apply does_bind_stop. by apply does_call.
Qed.
(** opening and the test of the type, before what [G] says of the rest *)
Lemma cat_file_opened (G : user () → S → Prop) U s a f n :
  (∀ A (t : user A) k R s, ends h t R s → (∀ a s', R a s' → G (k a) s') → G (t ≫= k) s) →
  ready V s → names V s a (Some f) → node_ok f → room V s = Datatypes.S n →
  (∀ fd s1, text V s1 = text V s → kept V s s1 → room V s1 = n → opened V s1 fd f →
    G (if f is Special _ then print U (line "cat: %s: Not a regular file") [str a]
       else cat_loop U fd;; sys (syscall.write console syscall.null 5);; print U (line "") []) s1) →
  G (cat_file U a) s.
Proof using All.
  intros HG Hr Hn Hok En HT. pose proof (open_law s a (Some f) Hr Hn) as Hopen. rewrite En in Hopen. unfold cat_file.
  apply (HG _ _ _ (λ fd s1, text V s1 = text V s ∧ kept V s s1 ∧ room V s1 = n ∧ 0 ≤ fd ∧ opened V s1 fd f)).
  { apply ends_bind, ends_sys. eapply wp_mono; [exact Hopen|]. intros fd s1 (Ht & Hk & Hm & Hfd & Ho). apply ends_ret.
    rewrite swrap_small by lia. split_and!; done || lia. }
  intros fd s1 (Ht & Hk & Hm & Hfd & Ho). rewrite (proj2 (Z.ltb_ge fd 0)) by lia.
  apply (HG _ _ _ (λ '(_, st) s2, text V s2 = text V s ∧ kept V s s2 ∧ room V s2 = n ∧ opened V s2 fd f ∧ syscall.st_type st = node_type f)).
  { apply ends_bind, ends_sys. eapply wp_mono; [apply (fstat_law s1 fd f); [by apply Hk|done]|].
    intros [x o] s2 (Ht2 & (Hk2 & Hm2 & Ho2) & st & -> & Hty). apply ends_ret. cbn [default from_option id].
    split; [congruence|]. split; [by eapply kept_trans|]. split; [congruence|]. split; [by apply Ho2|done]. }
  intros [x st] s2 (Ht2 & Hk2 & Hm2 & Ho2 & Hty). specialize (HT fd s2 Ht2 Hk2 Hm2 Ho2). rewrite Hty. destruct f as [l|ty]; [exact HT|].
  cbn [node_type node_ok] in *. by replace ((ty =? FT_directory) || (ty =? FT_device)) with true by lia.
Qed.
(** one argument; a regular file that is opened ends in a fault when no page is at 0 *)
Lemma cat_file_run U s a p o : ready V s → is_arg s a (p, o) →
  match o, room V s, low V s with
  | Some (Regular _), Datatypes.S _, None => ∃ why, does h (cat_file U a) s (Stop (Faulted why))
  | _, _, _ => ends h (cat_file U a) (λ _ s', cat_post s p o s') s
  end.
Proof using All.
  intros Hr ([r ->] & Hp & Hb & Hlen & Hn & Hok). pose proof (open_law s (p ++ 0 :: r) o Hr Hn) as Hopen.
  assert (o = None ∨ room V s = 0%nat → wp (h _ (syscall.open (p ++ 0 :: r))) (λ fd s', text V s' = text V s ∧ kept V s s' ∧
      room V s' = room V s ∧ fd = -1) s → ends h (cat_file U (p ++ 0 :: r)) (λ _ s', cat_post s p o s') s) as Hnone.
  { intros Ho Hw. apply ends_bind, ends_bind, ends_sys. eapply wp_mono; [exact Hw|]. intros fd s1 (Ht & Hk & Hm & ->). apply ends_ret.
    apply (cat_message U s s1 p r o ": No such file or directory"%string); [done..|by repeat constructor|cbn; lia| |];
      intros; rewrite Hm; cbn [cat_text opens_regular]; (destruct Ho as [-> | ->]; [done|by destruct o as [[]|]]). }
  destruct o as [f|]; [|by apply Hnone; [left|]]. destruct (room V s) as [|n] eqn:En.
  { destruct f; (apply Hnone; [by right|]); exact Hopen. }
  assert (∀ Q A (t : user A) (k : A → user ()) R s, ends h t R s → (∀ a s', R a s' → ends h (k a) Q s') → ends h (t ≫= k) Q s) as Hbind.
  { intros Q A t k R s0 Ht Hk. apply ends_bind. by eapply ends_mono. }
  destruct f as [l|ty].
  - cbn [node_ok] in Hok. destruct (low V s) as [page|] eqn:El.
    + apply (cat_file_opened (λ t s1, ends h t (λ _ s', cat_post s p (Some (Regular l)) s') s1) U s _ (Regular l) n); [apply Hbind|done..|].
      intros fd s1 Ht Hk Hm Ho. apply ends_bind. eapply ends_mono; [apply (cat_loop_run U fd l); [by apply Hk|done|done]|].
      intros [] s2 (Ht2 & Hk2 & Hm2). pose proof (cat_tail U s p l n s2 Hr En) as Htail. rewrite El in Htail.
      apply Htail; [congruence|by eapply kept_trans|congruence].
    + apply (cat_file_opened (λ t s1, ∃ why, does h t s1 (Stop (Faulted why))) U s _ (Regular l) n); [|done..|].
      { intros A t k R s0 (a & s' & Hd & HR) Hk. destruct (Hk a s' HR) as [why Hw]. exists why. by eapply does_bind. }
      intros fd s1 Ht Hk Hm Ho. destruct (cat_loop_run U fd l s1) as (a & s2 & Hd & Ht2 & Hk2 & Hm2); [by apply Hk|done|done|].
      pose proof (cat_tail U s p l n s2 Hr En) as Htail. rewrite El in Htail.
      destruct Htail as [why Hw]; [congruence|by eapply kept_trans|congruence|]. exists why. by eapply does_bind.
  - apply (cat_file_opened (λ t s1, ends h t (λ _ s', cat_post s p (Some (Special ty)) s') s1) U s _ (Special ty) n); [apply Hbind|done..|].
    intros fd s1 Ht Hk Hm Ho. apply (cat_message U s s1 p r _ ": Not a regular file"%string); [done..|by repeat constructor|cbn; lia| |];
      intros; by rewrite En, Hm.
Qed.
Lemma is_arg_kept s s' a f : kept V s s' → is_arg s a f → is_arg s' a f.
Proof. destruct f as [p o]. intros (_ & _ & Hn) (H1 & H2 & H3 & H4 & H5 & H6). split_and!; auto. Qed.
Lemma cat_files_run U : ∀ args fs s, ready V s → Forall2 (is_arg s) args fs →
  if bool_decide (low V s = None) && opens_regular (room V s) fs
  then ∃ why, does h (for_args (cat_file U) args) s (Stop (Faulted why))
  else ends h (for_args (cat_file U) args) (λ _ s', text V s' = text V s ++ cat_text (at_null s) (room V s) fs) s.
Proof using All.
  induction args as [|a args IH]; intros fs s Hr Hf.
  - apply Forall2_nil_inv_l in Hf as ->. rewrite andb_false_r. apply ends_ret. by rewrite app_nil_r.
  - apply Forall2_cons_inv_l in Hf as ([p o] & fs' & Ha & Hf & ->). pose proof (cat_file_run U s a p o Hr Ha) as Hrun. cbn [for_args].
    assert (∀ s1, cat_post s p o s1 → 
      if bool_decide (low V s = None) && opens_regular (room V s) ((p, o) :: fs')
      then ∃ why, does h (for_args (cat_file U) args) s1 (Stop (Faulted why))
      else ends h (for_args (cat_file U) args) (λ _ s', text V s' = text V s ++ cat_text (at_null s) (room V s) ((p, o) :: fs')) s1) as Hrest.
    { intros s1 [Hk Hp]. destruct (Hp fs') as [Ht Ho]. pose proof Hk as (Hr1 & Hl & _).
      specialize (IH fs' s1 (Hr1 Hr)). rewrite Hl in IH. unfold at_null in *. rewrite Hl in IH.
      assert (bool_decide (low V s = None) && opens_regular (room V s) ((p, o) :: fs') =
        bool_decide (low V s = None) && opens_regular (room V s1) fs') as ->.
      { case_bool_decide as El; [|done]. cbn [andb]. by rewrite Ho. }
      assert (Forall2 (is_arg s1) args fs') as Hf1 by (eapply Forall2_impl; [exact Hf|]; intros a' f'; by apply is_arg_kept).
      destruct (_ && _); [by apply IH|]. eapply ends_mono; [by apply IH|]. intros [] s2 E. by rewrite E, Ht. }
    destruct (bool_decide (low V s = None) && opens_regular (room V s) ((p, o) :: fs')) eqn:Eb.
    + apply andb_true_iff in Eb as [El%bool_decide_eq_true Eo]. rewrite El in Hrun.
      assert (ends h (cat_file U a) (λ _ s1, cat_post s p o s1) s → ∃ why, does h (for_args (cat_file U) (a :: args)) s (Stop (Faulted why))) as Hgo.
      { intros ([] & s1 & Hd & Hp). destruct (Hrest s1 Hp) as [why Hw]. exists why. by eapply does_bind. }
      destruct o as [[l|ty]|], (room V s); [by apply Hgo| |by apply Hgo..].
      destruct Hrun as [why Hw]. exists why. by apply does_bind_stop.
    + apply ends_bind. apply (ends_mono h _ (λ _ s1, cat_post s p o s1)); [|intros [] s1 Hp; by apply Hrest].
      destruct o as [[l|ty]|], (room V s) eqn:En, (low V s) eqn:El; done.
Qed.
End cat.

(** * The kernel's system calls, from a process
    The process's page table, its trap frame, one page of it that holds the buffers of
    its calls (at [up_va], in physical memory at [up_pa]), and where the page at address
    0 is, with 0 for nowhere, as [VAToPA] has it. *)
Record uproc := UProc { up_index : nat; up_root : Z; up_frame : Z; up_va : Z; up_pa : Z; up_low : Z }.
Definition apart (a n b m : Z) : Prop := a + n ≤ b ∨ b + m ≤ a.
Record uproc_ok (P : uproc) : Prop := {
  uo_frame : ram_ok (up_frame P) sizeof_RegFrame = true;
  uo_page : ram_ok (up_pa P) 4096 = true;
  uo_aligned : up_pa P mod PGSIZE = 0;
  uo_va : 0 < up_va P < 2 ^ 64;
  uo_apart : apart (up_frame P) sizeof_RegFrame (up_pa P) 4096;
  uo_low : up_low P = 0 ∨ ram_ok (up_low P) 4096 = true ∧ up_low P mod PGSIZE = 0 ∧
    apart (up_frame P) sizeof_RegFrame (up_low P) 4096 ∧ apart (up_pa P) 4096 (up_low P) 4096;
}.

Section kernel_calls.
Context {D : Type} `{BlockDevice D} (P : uproc).
Abbreviation K := (M (kernel D)).
(** the argument registers, which the trap entry saves in the frame *)
Definition regs (a0 a1 a2 : Z) : K () := SetRawArg 0 a0;; SetRawArg 1 a1;; SetRawArg 2 a2.
(** the program's own stores to its buffer, and loads from it *)
Definition poke (l : list Z) : K () := on_vm (vm_write (up_pa P) l).
Definition peek (n : Z) : K (list Z) := on_vm (vm_read (up_pa P) n).
Definition kernel_calls : kernelH (kernel D) := λ T e,
  match e with
  | syscall.write fd src size =>
    if 4096 <? size then stop_with (Faulted "the buffer is one page")
    else
      match src with
      | syscall.buffer l => poke (take (Z.to_nat size) l);; regs fd (up_va P) size
      | syscall.null => regs fd 0 size
      end;;
      sys_write
  | syscall.read fd count =>
    if 4096 <? count then stop_with (Faulted "the buffer is one page")
    else
      regs fd (up_va P) count;;
      r ← sys_read;
      match r with
      | Return v => l ← peek (Z.max 0 v); mret (v, l)
      | Blocked _ => stop_with (Faulted "the reader sleeps")
      end
  | syscall.open path =>
    n ← of_option (Faulted "strlen") (strlen path);
    (poke (take (Datatypes.S n) path);; regs (up_va P) 0 0);; sys_open
  | syscall.close fd => regs fd 0 0;; sys_close
  | syscall.fstat fd =>
    regs fd (up_va P) 0;;
    r ← sys_fstat;
    if r =? 0 then
      l ← peek 16;
      mret (r, Some (syscall.MkFileState (get_le l 0 4) (get_le l 4 1) (get_le l 8 4) (get_le l 12 1)))
    else mret (r, None)
  | syscall.exit code => stop_with (Exited code)
  | _ => stop_with (Faulted "not a file call")
  end.

(** ** The view *)
Definition task (k : kernel D) : ProcessTask := default task0 (process_tasks_ (k_sched k) !! up_index P).
Definition fs_of (k : kernel D) : fsstate D := FsState (k_disk k) (k_junk k) (current_path (task k)).
Definition fds_of (k : kernel D) : list FileDescriptor := file_descriptor (task k).
(** the process may store to its page and the kernel to its frame *)
Definition touched (a : Z) : Prop := up_frame P ≤ a < up_frame P + sizeof_RegFrame ∨ up_pa P ≤ a < up_pa P + 4096.
Definition steady (m m' : mem) : Prop := ∀ a, ¬ touched a → load8 m' a = load8 m a.
(** the translations of the page's address and of 0 do not depend on that memory *)
Definition mapped (vm : vmstate) : Prop := ∀ m, steady (vm_mem vm) m →
  (∃ pr, VAToPA (up_root P) (up_va P) (set_mem m vm) = Ok ((up_pa P, pr), set_mem m vm)) ∧
  ∃ pr, VAToPA (up_root P) 0 (set_mem m vm) = Ok ((up_low P, pr), set_mem m vm).
Record at_user (k : kernel D) (t : ProcessTask) : Prop := {
  au_current : current (up_index P) t k;
  au_root : page_table t = up_root P;
  au_frame : frame t = up_frame P;
  au_mapped : mapped (sc_vm (k_sched k));
}.
Definition is_console (fd : FileDescriptor) : Prop := file_type fd = FT_device ∧ major (fd_inode fd) = 0 ∧ minor (fd_inode fd) = 0.
Definition kernel_names (k : kernel D) (a : list Z) (o : option node) : Prop := ∃ p r, a = p ++ 0 :: r ∧ no_nul p ∧ Forall byte p ∧
  (length p < 4096)%nat ∧ wp (Open (Some (p ++ [0]))) (λ '(n, i) s', s' = fs_of k ∧
    match o with
    | None => n < 0
    | Some f => 0 ≤ n ∧ ∃ ino, i = Some ino ∧ ino_type ino = node_type f ∧
        match f with
        | Regular l => ∃ bl, file_shape (fs_of k) ino bl ∧ u8 <$> shape_data (k_disk k) ino bl = l
        | Special ty => node_ok (Special ty)
        end
    end) (fs_of k).
Definition kernel_opened (k : kernel D) (fd : Z) (f : node) : Prop :=
  0 ≤ fd ∧ ∃ off n ino, fds_of k !! Z.to_nat fd = Some (MkFd (node_type f) off n ino) ∧
    match f with
    | Regular l => ∃ bl, file_shape (fs_of k) ino bl ∧ 0 ≤ off ≤ ino_size ino ∧
        l = drop (Z.to_nat off) (u8 <$> shape_data (k_disk k) ino bl)
    | Special ty => node_ok (Special ty)
    end.
Definition free (fds : list FileDescriptor) : nat := length (filter (λ fd, file_type fd = FT_none) fds).
Definition kernel_view : view (kernel D) := {|
  ready k := at_user k (task k) ∧ Z.of_nat (length (fds_of k)) < 2 ^ 31 ∧
    (∃ fd, fds_of k !! 0%nat = Some fd ∧ is_console fd) ∧ is_writable_ (k_con k) = true;
  text k := uart (k_con k); room k := free (fds_of k);
  low k := if up_low P =? 0 then None else Some (load_bytes (Z.to_nat 4096) (k_mem k) (up_low P));
  names := kernel_names; opened := kernel_opened;
|}.

(** ** Memory *)
Context (HP : uproc_ok P).
Lemma at_user_task k t : at_user k t → task k = t.
Proof using Type. intros Hu. unfold task. by rewrite (proj2 (au_current _ _ Hu)). Qed.
Lemma steady_trans m1 m2 m3 : steady m1 m2 → steady m2 m3 → steady m1 m3.
Proof using Type. intros H1 H2 a Ha. by rewrite H2, H1. Qed.
Lemma at_user_mem k t m : at_user k t → steady (k_mem k) m → at_user (with_mem m k) t.
Proof using Type.
  intros [H1 H2 H3 H4] Hm. split; [done|done|done|]. intros m' Hm'. apply (H4 m'). by eapply steady_trans.
Qed.
Lemma user_points k t : at_user k t → points k t (up_va P) (up_pa P) ∧ points k t 0 (up_low P).
Proof using Type.
  intros [_ Hr _ Hm]. destruct (Hm (k_mem k)) as [H1 H2]; [by intros a|]. unfold points. rewrite Hr.
  assert (set_mem (k_mem k) (sc_vm (k_sched k)) = sc_vm (k_sched k)) as E by (unfold k_mem; by destruct (sc_vm (k_sched k))).
  by rewrite E in H1, H2.
Qed.
Lemma SetRawArg_run k t n v : at_user k t → 0 ≤ n ≤ 6 →
  SetRawArg n v k = Ok ((), with_mem (store64 (k_mem k) (up_frame P + RegFrame_a n) (u64 v)) k).
Proof using HP.
  intros Hu Hn. unfold SetRawArg. replace ((6 <? n) || (n <? 0)) with false by lia.
  rewrite (bind_Ok _ _ _ _ _ (ThisTask_run _ _ k (au_current _ _ Hu))). rewrite (au_frame _ _ Hu).
  apply (on_vm_st64 (up_index P) t); [apply Hu|]. apply frame_ok; [apply HP|unfold RegFrame_a; lia|]. unfold RegFrame_a, sizeof_RegFrame. lia.
Qed.
Lemma regs_run k t a b c : at_user k t → ∃ m, regs a b c k = Ok ((), with_mem m k) ∧
  (∀ x, ¬ (up_frame P ≤ x < up_frame P + sizeof_RegFrame) → load8 m x = load8 (k_mem k) x) ∧ at_user (with_mem m k) t ∧
  Syscalls.arg (with_mem m k) t 0 (u64 a) ∧ Syscalls.arg (with_mem m k) t 1 (u64 b) ∧ Syscalls.arg (with_mem m k) t 2 (u64 c).
Proof using HP.
  intros Hu. set (A n := up_frame P + RegFrame_a n).
  assert (∀ m n v, 0 ≤ n ≤ 6 → steady m (store64 m (A n) v)) as Hst.
  { intros m n v Hn x Hx. apply load8_store64_ne. unfold touched in Hx. unfold A, RegFrame_a. unfold sizeof_RegFrame in Hx. lia. }
  set (m0 := store64 (k_mem k) (A 0) (u64 a)). set (m1 := store64 m0 (A 1) (u64 b)). set (m2 := store64 m1 (A 2) (u64 c)).
  assert (at_user (with_mem m0 k) t) as Hu0 by (apply at_user_mem; [done|by apply Hst]).
  assert (at_user (with_mem m1 k) t) as Hu1 by (apply (at_user_mem (with_mem m0 k) t m1); [done|by apply Hst]).
  assert (at_user (with_mem m2 k) t) as Hu2 by (apply (at_user_mem (with_mem m1 k) t m2); [done|by apply Hst]).
  exists m2. split; [|split; [|split; [done|]]].
  - unfold regs. rewrite (bind_Ok _ _ _ _ _ (SetRawArg_run k t 0 a Hu ltac:(lia))).
    rewrite (bind_Ok _ _ _ _ _ (SetRawArg_run (with_mem m0 k) t 1 b Hu0 ltac:(lia))).
    exact (SetRawArg_run (with_mem m1 k) t 2 c Hu1 ltac:(lia)).
  - intros x Hx. unfold m2, m1, m0. rewrite !load8_store64_ne; [done|..]; unfold A, RegFrame_a; unfold sizeof_RegFrame in Hx; lia.
  - assert (∀ n v, 0 ≤ n ≤ 6 → load64 m2 (A n) = v → Syscalls.arg (with_mem m2 k) t n v) as Harg.
    { intros n v Hn Hv. unfold Syscalls.arg, ld64. rewrite (au_frame _ _ Hu). rewrite (frame_ok (up_frame P) (RegFrame_a n)); [|apply HP|unfold RegFrame_a; lia|unfold RegFrame_a, sizeof_RegFrame; lia].
      by rewrite <-Hv. }
    assert (∀ m n n' v, n ≠ n' → load64 (store64 m (A n) v) (A n') = load64 m (A n')) as Hne.
    { intros m n n' v Hn. apply load64_store64_ne. unfold A, RegFrame_a. lia. }
    split_and!; apply Harg; try lia; unfold m2, m1, m0; rewrite 1?load64_store64, ?Hne, ?load64_store64 by done; apply wrap_wrap.
Qed.
Lemma steady_frame m m' : (∀ x, ¬ (up_frame P ≤ x < up_frame P + sizeof_RegFrame) → load8 m' x = load8 m x) → steady m m'.
Proof using Type. intros Hm a Ha. apply Hm. unfold touched in Ha. lia. Qed.
Lemma steady_page m m' : (∀ x, ¬ (up_pa P ≤ x < up_pa P + 4096) → load8 m' x = load8 m x) → steady m m'.
Proof using Type. intros Hm a Ha. apply Hm. unfold touched in Ha. lia. Qed.
Lemma load_store_bytes l m a : load_bytes (length l) (store_bytes m a l) a = u8 <$> l.
Proof using Type.
  apply list_eq_same_length with (length l); [by rewrite length_fmap|apply length_load_bytes|]. intros j x y Hj Ex Ey.
  rewrite load_bytes_lookup in Ex by done. injection Ex as <-. rewrite load8_store_bytes, decide_True by lia.
  replace (Z.to_nat (a + Z.of_nat j - a)) with j by lia. rewrite list_lookup_fmap in Ey. destruct (l !! j) as [z|]; [|done]. by injection Ey as <-.
Qed.
Lemma page_ram o n : 0 ≤ o → o + n ≤ 4096 → ram_ok (up_pa P + o) n = true.
Proof using HP. intros. pose proof (uo_page _ HP). unfold ram_ok in *. lia. Qed.
(** a store in the page *)
Lemma page_store k t o l : at_user k t → 0 ≤ o → o + Z.of_nat (length l) ≤ 4096 →
  let m := store_bytes (k_mem k) (up_pa P + o) l in
  on_vm (vm_write (up_pa P + o) l) k = Ok ((), with_mem m k) ∧ steady (k_mem k) m ∧ at_user (with_mem m k) t.
Proof using HP.
  intros Hu Ho Hl m. assert (steady (k_mem k) m) as Hst.
  { apply steady_page. intros x Hx. unfold m. by rewrite load8_store_bytes, decide_False by lia. }
  split; [|split; [done|by apply at_user_mem]]. apply (on_vm_run (up_index P) t); [apply Hu|]. unfold vm_write. by rewrite page_ram, orb_true_r by lia.
Qed.
Lemma page_store0 k t l : at_user k t → (length l ≤ 4096)%nat →
  let m := store_bytes (k_mem k) (up_pa P) l in
  on_vm (vm_write (up_pa P) l) k = Ok ((), with_mem m k) ∧ steady (k_mem k) m ∧ at_user (with_mem m k) t.
Proof using HP. intros Hu Hl. pose proof (page_store k t 0 l Hu) as Hp. rewrite Z.add_0_r in Hp. apply Hp; lia. Qed.
Lemma peek_run k t n : at_user k t → 0 ≤ n ≤ 4096 → peek n k = Ok (load_bytes (Z.to_nat n) (k_mem k) (up_pa P), k).
Proof using HP.
  intros Hu Hn. apply (on_vm_pure (up_index P) t); [apply Hu|]. unfold vm_read. pose proof (page_ram 0 n) as Hr. rewrite Z.add_0_r in Hr.
  by rewrite Hr, orb_true_r by lia.
Qed.

(** ** What a call leaves alone *)
Lemma low_steady k k' : steady (k_mem k) (k_mem k') → low kernel_view k' = low kernel_view k.
Proof using HP.
  intros Hm. cbn [low kernel_view]. destruct (uo_low _ HP) as [-> |(Hr & _ & Hf & Hp)]; [done|]. case_match; [done|]. f_equal.
  apply load_bytes_agree. intros b Hb. apply Hm. unfold touched, apart in *. lia.
Qed.
Lemma kernel_kept k k' : current_path (task k') = current_path (task k) → length (fds_of k') = length (fds_of k) →
  fds_of k' !! 0%nat = fds_of k !! 0%nat → k_disk k' = k_disk k → k_junk k' = k_junk k →
  (at_user k (task k) → at_user k' (task k')) → is_writable_ (k_con k') = is_writable_ (k_con k) → steady (k_mem k) (k_mem k') →
  kept kernel_view k k'.
Proof using HP.
  intros Hp Hl H0 Hd Hj Hu Hw Hm. split; [|split; [by apply low_steady|]].
  - cbn [ready kernel_view]. rewrite Hl, H0, Hw. intros (? & ? & ? & ?). split_and!; auto.
  - cbn [names kernel_view]. unfold kernel_names. assert (fs_of k' = fs_of k) as -> by (unfold fs_of; by rewrite Hd, Hj, Hp). by rewrite Hd.
Qed.
Lemma kernel_same k k' : task k' = task k → k_disk k' = k_disk k → k_junk k' = k_junk k →
  (at_user k (task k) → at_user k' (task k)) → is_writable_ (k_con k') = is_writable_ (k_con k) → steady (k_mem k) (k_mem k') →
  same_files kernel_view k k'.
Proof using HP.
  intros Ht Hd Hj Hu Hw Hm. split; [|split].
  - apply kernel_kept; unfold fds_of; rewrite ?Ht; done.
  - cbn [room kernel_view]. unfold fds_of. by rewrite Ht.
  - intros fd f. cbn [opened kernel_view]. unfold kernel_opened, fds_of, fs_of. by rewrite Ht, Hd, Hj.
Qed.
Lemma same_mem k m : at_user k (task k) → steady (k_mem k) m → same_files kernel_view k (with_mem m k).
Proof using HP. intros Hu Hm. apply kernel_same; try done. intros _. by apply at_user_mem. Qed.
Lemma same_files_trans k1 k2 k3 : same_files kernel_view k1 k2 → same_files kernel_view k2 k3 → same_files kernel_view k1 k3.
Proof using Type.
  intros (H1 & H2 & H3) (H4 & H5 & H6). split; [by eapply kept_trans|]. split; [congruence|auto].
Qed.
Definition out_to (l : list Z) (k : kernel D) : kernel D := set_con (with_uart (uart (k_con k) ++ l) (k_con k)) k.
Lemma out_nil k : out_to [] k = k.
Proof using Type. unfold out_to. rewrite app_nil_r. by destruct k as [[] ? ?]. Qed.
Lemma at_user_out k t l : at_user k t → at_user (out_to l k) t.
Proof using Type. by intros [H1 H2 H3 H4]. Qed.
Lemma same_out k l : same_files kernel_view k (out_to l k).
Proof using HP. apply kernel_same; try done. by apply at_user_out. Qed.
(** the process with other descriptors *)
Lemma at_user_fds k t fds : at_user k t → at_user (with_task (up_index P) (set_fds fds t) k) (set_fds fds t) ∧
  task (with_task (up_index P) (set_fds fds t) k) = set_fds fds t.
Proof using Type.
  intros [[H1 H2] H3 H4 H5]. assert (current (up_index P) (set_fds fds t) (with_task (up_index P) (set_fds fds t) k)) as Hc.
  { split; [done|]. cbn. apply list_lookup_insert_eq, (lookup_lt_Some _ _ _ H2). }
  assert (at_user (with_task (up_index P) (set_fds fds t) k) (set_fds fds t)) as Hu by by split. split; [done|by apply at_user_task].
Qed.
Lemma kept_fds k j fd : at_user k (task k) → j ≠ 0%nat →
  kept kernel_view k (with_task (up_index P) (set_fds (<[j := fd]> (fds_of k)) (task k)) k).
Proof using HP.
  intros Hu Hj. destruct (at_user_fds k (task k) (<[j := fd]> (fds_of k)) Hu) as [Hu' Ht].
  apply kernel_kept; [by rewrite Ht| | |done|done|by rewrite Ht|done|done]; unfold fds_of at 1; rewrite Ht.
  - apply length_insert.
  - by apply list_lookup_insert_ne.
Qed.

(** ** The calls *)
Lemma safe_copy_page {S X} (translate : Z → M S Z) (fun_ : X → Z → Z → M S (Z * X)) dst n x s pa s1 :
  translate dst s = Ok (pa, s1) → pa mod PGSIZE = 0 → 0 < n ≤ 4096 →
  match fun_ x pa n s1 with
  | Ok ((r, x'), s2) => 0 ≤ r ≤ n → safe_copy translate fun_ dst n x s = Ok ((r, x'), s2)
  | Stop e => safe_copy translate fun_ dst n x s = Stop e
  end.
Proof using Type.
  intros Ht Hpa Hn. unfold safe_copy. destruct (Z.to_nat n) as [|fuel] eqn:Ef; [lia|]. cbn [safe_copy_loop].
  rewrite (proj2 (Z.ltb_lt 0 n)) by lia. rewrite (bind_Ok _ _ _ _ _ Ht). cbv zeta. rewrite Hpa, Z.sub_0_r.
  assert ((if n <? PGSIZE then n else PGSIZE) = n) as -> by (unfold PGSIZE; destruct (Z.ltb_spec n 4096); lia).
  destruct (fun_ x pa n s1) as [[[r x'] s2]|e] eqn:Ef2; [|by apply bind_Stop]. intros Hr. rewrite (bind_Ok _ _ _ _ _ Ef2).
  rewrite Z.add_0_l, wrap_small by lia. destruct (Z.ltb_spec r n); [done|]. rewrite Z.sub_diag. by destruct fuel.
Qed.
Lemma con_write_run l c : is_writable_ c = true → Console.write l c = Ok (Z.of_nat (length l), with_uart (uart c ++ l) c).
Proof using Type.
  intros Hw. assert (∀ u, Uart_Write l u = Ok ((), u ++ l)) as Hu.
  { induction l as [|x l IH]; intros u; [by rewrite app_nil_r|]. cbn [Uart_Write]. erewrite bind_Ok by done. by rewrite IH, <-app_assoc. }
  unfold Console.write, mbind, M_bind, gets. rewrite Hw. unfold on_uart. by rewrite Hu.
Qed.
(** [write] to the console from a page *)
Lemma sys_write_console k t va pa n fd : at_user k t → file_descriptor t !! 0%nat = Some fd → is_console fd → is_writable_ (k_con k) = true →
  Syscalls.arg k t 0 (u64 console) → Syscalls.arg k t 1 va → Syscalls.arg k t 2 n → points k t va pa → pa mod PGSIZE = 0 → 0 ≤ n ≤ 4096 →
  if ram_ok pa n || (n =? 0) then sys_write k = Ok (n, out_to (load_bytes (Z.to_nat n) (k_mem k) pa) k)
  else sys_write k = Stop (Faulted "read").
Proof using Type.
  intros Hu Hfd (Hty & Hmj & Hmn) Hw A0 A1 A2 Hp Hpa Hn. pose proof (au_current _ _ Hu) as Hc.
  assert (∀ r, (safe_copy user_pa (λ (_ : ()) pa len, l ← on_vm (vm_read pa len); ret ← on_con (Console.write l); mret (ret, ())) va n () k = r) →
    sys_write k = match r with Ok ((size, _), k') => Ok (int_of size, k') | Stop e => Stop e end) as Hsys.
  { intros r Er. unfold sys_write. rewrite (bind_Ok _ _ _ _ _ (GetIntArg_run _ _ k Hc 0 _ ltac:(lia) A0)). change (s32 (u64 console)) with 0.
    rewrite (bind_Ok _ _ _ _ _ (GetFileDescriptor_run _ _ k Hc 0)). unfold lookup_fd. cbn [Z.leb Z.compare]. change (Z.to_nat 0) with 0%nat. rewrite Hfd, Hty.
    change (FT_device =? FT_none) with false. cbv iota. rewrite (bind_Ok _ _ _ _ _ (GetRawArg_run _ _ k Hc 2 n ltac:(lia) A2)).
    unfold is_file. rewrite Hty. change ((FT_device =? FT_regular_file) || (FT_device =? FT_directory)) with false. cbv iota.
    change (negb (FT_device =? FT_device)) with false. cbv iota. rewrite Hmj, Hmn.
    rewrite (bind_Ok (GetResource 0 0) _ _ () k) by done. rewrite (bind_Ok _ _ _ _ _ (GetRawArg_run _ _ k Hc 1 va ltac:(lia) A1)).
    unfold mbind at 1, M_bind at 1. rewrite Er. by destruct r as [[[size u] k']|e]. }
  destruct (decide (n = 0)) as [->|Hn0].
  { rewrite orb_true_r. rewrite (Hsys _ eq_refl). cbn [load_bytes]. by rewrite out_nil. }
  rewrite (proj2 (Z.eqb_neq n 0)), orb_false_r by done.
  pose proof (safe_copy_page user_pa (λ (_ : ()) pa len, l ← on_vm (vm_read pa len); ret ← on_con (Console.write l); mret (ret, ()))
    va n () k pa k (user_pa_run _ _ k Hc va pa Hp) Hpa ltac:(lia)) as Hsc. cbv beta in Hsc.
  destruct (ram_ok pa n) eqn:Er.
  - assert (on_vm (vm_read pa n) k = Ok (load_bytes (Z.to_nat n) (k_mem k) pa, k)) as Ev.
    { apply (on_vm_pure _ _ k Hc). unfold vm_read. by rewrite Er, orb_true_r. }
    rewrite (bind_Ok _ _ _ _ _ Ev) in Hsc. set (l := load_bytes _ _ _) in *. assert (Z.of_nat (length l) = n) as El by (unfold l; rewrite length_load_bytes; lia).
    assert (on_con (Console.write l) k = Ok (Z.of_nat (length l), out_to l k)) as Eo by (unfold on_con; by rewrite con_write_run).
    rewrite (bind_Ok _ _ _ _ _ Eo) in Hsc. cbn [mret M_ret] in Hsc. rewrite (Hsys _ (Hsc ltac:(lia))), El. unfold int_of. by rewrite swrap_small by lia.
  - assert (on_vm (vm_read pa n) k = Stop (Faulted "read")) as Ev.
    { unfold on_vm, on_this, mbind, M_bind. destruct Hc as [H1 H2]. unfold this_index, k_on_sched, on_con, on_sched, ThisProcess, gets, mbind, M_bind, on_task, lift_vm, vm_read.
      destruct k as [[? ? ? ? ? ? []] ? ?]. cbn in *. rewrite H1. cbn. rewrite H2. cbn. rewrite (proj2 (Z.eqb_neq n 0)) by done. by rewrite Er. }
    rewrite (bind_Stop _ _ _ _ Ev) in Hsc. by rewrite (Hsys _ Hsc).
Qed.
(** [read] of a regular file into the page *)
Lemma on_fs_pure {A} k t (m : M (fsstate D) A) a : current (up_index P) t k →
  m (FsState (k_disk k) (k_junk k) (current_path t)) = Ok (a, FsState (k_disk k) (k_junk k) (current_path t)) → on_fs m k = Ok (a, k).
Proof using Type. intros Hc Hm. rewrite (on_fs_run _ _ _ Hc _ _ _ Hm). by destruct k. Qed.
Lemma with_mem_id (k : kernel D) : with_mem (k_mem k) k = k.
Proof using Type. by destruct k as [[? ? ? ? ? ? [? ? ? ? [] ?]] ? ?]. Qed.
Lemma sys_read_file k t fd j off num ino bl n : at_user k t → 0 ≤ fd < 2 ^ 31 → j = Z.to_nat fd →
  file_descriptor t !! j = Some (MkFd FT_regular_file off num ino) → 
  file_shape (FsState (k_disk k) (k_junk k) (current_path t)) ino bl → 0 ≤ off ≤ ino_size ino → 0 ≤ n ≤ 4096 →
  Syscalls.arg k t 0 (u64 fd) → Syscalls.arg k t 1 (up_va P) → Syscalls.arg k t 2 n →
  let size := Z.min (ino_size ino - off) n in
  let out := slice (shape_data (k_disk k) ino bl) (Z.to_nat off) (Z.to_nat size) in
  let fd' := MkFd FT_regular_file (u64 (off + size)) num ino in
  sys_read k = Ok (Return size, with_task (up_index P) (set_fds (<[j := fd']> (file_descriptor t)) t)
    (with_mem (store_bytes (k_mem k) (up_pa P) out) k)) ∧ Z.of_nat (length out) = size ∧ steady (k_mem k) (store_bytes (k_mem k) (up_pa P) out).
Proof using HP.
  intros Hu Hfd -> Hi Hsh Hoff Hn A0 A1 A2 size out fd'. pose proof (au_current _ _ Hu) as Hc.
  assert (Z.of_nat (length out) = size) as Hout.
  { unfold out, slice. rewrite length_take, length_drop. pose proof (length_shape_data _ _ _ Hsh) as Hl. cbn [disk] in Hl. rewrite Hl. lia. }
  destruct (page_store0 k t out Hu ltac:(lia)) as (Es & Hst & Hu2). split; [|done].
  set (k2 := with_mem _ k) in *. pose proof (λ buf, shape_FileStream_Read _ ino bl off buf n Hsh Hoff (proj1 Hn)) as Hread.
  set (f := λ position pa len, old ← on_vm (vm_read pa len); '(l, ret, position) ← on_fs (FileStream_Read ino position old len);
    on_vm (vm_write pa l);; mret (ret, position)).
  assert (safe_copy user_pa f (up_va P) n (FileStream_Seek off) k = Ok ((size, if n =? 0 then off else off + size), k2)) as Hcopy.
  { destruct (Z.eqb_spec n 0) as [->|Hn0].
    { unfold k2, out, size. rewrite Z.min_r by lia. unfold slice. rewrite take_0. cbn [store_bytes]. by rewrite with_mem_id. }
    pose proof (safe_copy_page user_pa f (up_va P) n (FileStream_Seek off) k (up_pa P) k (user_pa_run _ _ k Hc _ _ (proj1 (user_points k t Hu))) (uo_aligned _ HP) ltac:(lia)) as Hsc.
    unfold f in Hsc at 1. pose proof (peek_run k t n Hu ltac:(lia)) as Hpk. unfold peek in Hpk. rewrite (bind_Ok _ _ _ _ _ Hpk) in Hsc.
    set (old := load_bytes _ _ _) in *. destruct (proj1 (wp_ok _ _ _) (Hread old)) as ([[l r] p] & s' & Er & -> & -> & -> & ->).
    rewrite (bind_Ok _ _ _ _ _ (on_fs_pure k t _ _ Hc Er)) in Hsc. cbv beta iota in Hsc. fold size in Hsc. cbn [disk] in Hsc. fold out in Hsc.
    rewrite (bind_Ok _ _ _ _ _ Es) in Hsc. apply Hsc. lia. }
  unfold sys_read. rewrite (bind_Ok _ _ _ _ _ (GetIntArg_run _ _ k Hc 0 _ ltac:(lia) A0)). rewrite (wrap_small 64 fd), swrap_small by lia.
  rewrite (bind_Ok _ _ _ _ _ (GetFileDescriptor_run _ _ k Hc fd)). unfold lookup_fd. rewrite (proj2 (Z.leb_le 0 fd)), Hi by lia. cbn [file_type].
  change (FT_regular_file =? FT_none) with false. cbv iota. rewrite (bind_Ok _ _ _ _ _ (GetRawArg_run _ _ k Hc 2 n ltac:(lia) A2)).
  unfold is_file. cbn [file_type]. change (FT_regular_file =? FT_regular_file) with true. cbn [orb].
  rewrite (bind_Ok _ _ _ _ _ (GetRawArg_run _ _ k Hc 1 _ ltac:(lia) A1)). cbn [fd_inode fd_offset fd_inode_index].
  unfold f in Hcopy. rewrite (bind_Ok _ _ _ _ _ Hcopy). cbv beta iota.
  rewrite (bind_Ok _ _ _ _ _ (set_fd_run _ _ k2 (au_current _ _ Hu2) _ _)). unfold int_of. by rewrite swrap_small by lia.
Qed.
(** [fstat] into the page *)
Lemma sys_fstat_run k t fd f : at_user k t → lookup_fd t fd = Some f → 0 ≤ fd < 2 ^ 31 →
  Syscalls.arg k t 0 (u64 fd) → Syscalls.arg k t 1 (up_va P) →
  ∃ m, sys_fstat k = Ok (0, with_mem m k) ∧ steady (k_mem k) m ∧ at_user (with_mem m k) t ∧ load8 m (up_pa P + 12) = u8 (file_type f.2).
Proof using HP.
  intros Hu Hf Hfd A0 A1. pose proof (au_current _ _ Hu) as Hc. destruct f as [j f].
  set (l1 := le_bytes 4 (fd_inode_index f)). set (l3 := le_bytes 4 (ino_size (fd_inode f))).
  destruct (page_store0 k t l1 Hu ltac:(unfold l1; rewrite length_le_bytes; lia)) as (E1 & S1 & U1). set (k1 := with_mem _ k) in *.
  destruct (page_store k1 t 4 [link_count (fd_inode f)] U1 ltac:(lia) ltac:(cbn; lia)) as (E2 & S2 & U2). set (k2 := with_mem _ k1) in *.
  destruct (page_store k2 t 8 l3 U2 ltac:(lia) ltac:(unfold l3; rewrite length_le_bytes; lia)) as (E3 & S3 & U3). set (k3 := with_mem _ k2) in *.
  destruct (page_store k3 t 12 [file_type f] U3 ltac:(lia) ltac:(cbn; lia)) as (E4 & S4 & U4). set (k4 := with_mem _ k3) in *.
  exists (k_mem k4). split; [|split; [|split; [exact U4|]]].
  - unfold sys_fstat. rewrite (bind_Ok _ _ _ _ _ (GetIntArg_run _ _ k Hc 0 _ ltac:(lia) A0)). rewrite (wrap_small 64 fd), swrap_small by lia.
    rewrite (bind_Ok _ _ _ _ _ (GetFileDescriptor_run _ _ k Hc fd)), Hf. rewrite (bind_Ok _ _ _ _ _ (GetRawArg_run _ _ k Hc 1 _ ltac:(lia) A1)).
    rewrite (proj2 (Z.eqb_neq (up_va P) 0)) by (pose proof (uo_va _ HP); lia).
    rewrite (bind_Ok _ _ _ _ _ (user_pa_run _ _ k Hc _ _ (proj1 (user_points k t Hu)))).
    by rewrite (bind_Ok _ _ _ _ _ E1), (bind_Ok _ _ _ _ _ E2), (bind_Ok _ _ _ _ _ E3), (bind_Ok _ _ _ _ _ E4).
  - eapply steady_trans; [exact S1|]. eapply steady_trans; [exact S2|]. by eapply steady_trans.
  - change (k_mem k4) with (store_bytes (k_mem k3) (up_pa P + 12) [file_type f]). rewrite load8_store_bytes, decide_True by (cbn; lia).
    by rewrite Z.sub_diag.
Qed.
(** [open] of the string in the page *)
Lemma cstring_load p : ∀ n m a, (length p < n)%nat → no_nul p → load_bytes (Datatypes.S (length p)) m a = p ++ [0] → cstring_at n m a = p ++ [0].
Proof using Type.
  induction p as [|c p IH]; intros [|n] m a Hn Hp Hl; cbn [length] in *; try lia; cbn [cstring_at load_bytes app] in *.
  - injection Hl as ->. done.
  - injection Hl as Hc Hl. rewrite Hc. apply Forall_cons in Hp as [Hnz Hp]. rewrite (proj2 (Z.eqb_neq c 0)) by done. f_equal.
    apply IH; [lia|done|exact Hl].
Qed.
Lemma sys_open_run k t p num o : at_user k t → no_nul p → (length p < 4096)%nat → load_bytes (Datatypes.S (length p)) (k_mem k) (up_pa P) = p ++ [0] →
  Syscalls.arg k t 0 (up_va P) →
  Open (Some (p ++ [0])) (FsState (k_disk k) (k_junk k) (current_path t)) = Ok ((num, o), FsState (k_disk k) (k_junk k) (current_path t)) →
  sys_open k = if num <? 0 then Ok (-1, k) else
    let ino := default inode0 o in
    match free_fd (file_descriptor t) 0 with
    | Some j => Ok (Z.of_nat j, with_task (up_index P) (set_fds (<[j := MkFd (ino_type ino) 0 num ino]> (file_descriptor t)) t) k)
    | None => Ok (-1, k)
    end.
Proof using HP.
  intros Hu Hp Hl Hm A0 Ho. pose proof (au_current _ _ Hu) as Hc. pose proof (uo_page _ HP) as Hr. unfold ram_ok in Hr.
  unfold sys_open. rewrite (bind_Ok _ _ _ _ _ (path_arg_run _ _ k Hc 0 _ _ ltac:(lia) A0 (proj1 (user_points k t Hu)) ltac:(unfold KERNEL_BASE in Hr; lia))).
  change (vm_mem (sc_vm (k_sched k))) with (k_mem k). rewrite (cstring_load p); [|unfold max_string, PGSIZE; lia|done|done].
  rewrite (bind_Ok _ _ _ _ _ (on_fs_pure k t _ _ Hc Ho)). cbv beta iota. destruct (num <? 0); [done|]. cbv zeta.
  pose proof (proj1 (descriptor_table k _ t (MkFd (ino_type (default inode0 o)) 0 num (default inode0 o)) Hc)) as Hd.
  destruct (free_fd _ 0); [by destruct Hd as [-> _]|by destruct Hd as [-> _]].
Qed.

(** ** The laws *)
Lemma free_insert fds i fd fd' : fds !! i = Some fd → file_type fd' ≠ FT_none →
  (if decide (file_type fd = FT_none) then Datatypes.S (free (<[i := fd']> fds)) else free (<[i := fd']> fds)) = free fds.
Proof using Type.
  intros Hi Hty. assert (free fds = free (take i fds ++ fd :: drop (Datatypes.S i) fds)) as -> by by rewrite take_drop_middle.
  rewrite (insert_take_drop _ _ _ (lookup_lt_Some _ _ _ Hi)). unfold free.
  rewrite !filter_app, !filter_cons, (decide_False _ _ Hty), !length_app. case_decide; cbn; lia.
Qed.
Lemma free_fd_free fds : match free_fd fds 0 with
  | Some i => (∃ fd, fds !! i = Some fd ∧ file_type fd = FT_none) ∧ (0 < free fds)%nat
  | None => free fds = 0%nat
  end.
Proof using Type.
  pose proof (free_fd_spec fds 0) as Hf. destruct (free_fd fds 0) as [i|].
  - destruct Hf as (_ & (fd & Hi & Hty) & _). rewrite Nat.sub_0_r in Hi. split; [by exists fd|].
    pose proof (free_insert fds i fd (MkFd FT_device 0 0 inode0) Hi ltac:(done)) as E. rewrite decide_True in E by done. lia.
  - unfold free. induction fds as [|fd fds IH]; [done|]. rewrite filter_cons, decide_False by (apply Hf; by left).
    apply IH. intros fd' Hin. apply Hf. by right.
Qed.
Lemma u8_bytes l : Forall byte l → u8 <$> l = l.
Proof using Type. induction 1 as [|x l Hx _ IH]; [done|]. cbn [fmap list_fmap]. by rewrite IH, wrap_small by exact Hx. Qed.
Lemma take_load_bytes n : ∀ N m a, (n ≤ N)%nat → take n (load_bytes N m a) = load_bytes n m a.
Proof using Type. induction n as [|n IH]; intros [|N] m a Hn; try done; [lia|]. cbn [load_bytes take]. by rewrite IH by lia. Qed.
Lemma page_keep m m' n : (∀ x, ¬ (up_frame P ≤ x < up_frame P + sizeof_RegFrame) → load8 m' x = load8 m x) → (n ≤ Z.to_nat 4096)%nat →
  load_bytes n m' (up_pa P) = load_bytes n m (up_pa P).
Proof using HP. intros Hm Hn. apply load_bytes_agree. intros b Hb. apply Hm. pose proof (uo_apart _ HP) as Ha. unfold apart in Ha. lia. Qed.
(** the string or the buffer is in the page and the arguments in the frame *)
Lemma poke_regs k l a b c : at_user k (task k) → (length l ≤ 4096)%nat → ∃ m, (poke l;; regs a b c) k = Ok ((), with_mem m k) ∧
  steady (k_mem k) m ∧ at_user (with_mem m k) (task k) ∧ load_bytes (length l) m (up_pa P) = u8 <$> l ∧
  Syscalls.arg (with_mem m k) (task k) 0 (u64 a) ∧ Syscalls.arg (with_mem m k) (task k) 1 (u64 b) ∧ Syscalls.arg (with_mem m k) (task k) 2 (u64 c).
Proof using HP.
  intros Hu Hl. destruct (page_store0 k _ l Hu Hl) as (E1 & S1 & U1). set (m1 := store_bytes _ _ _) in *.
  destruct (regs_run (with_mem m1 k) _ a b c U1) as (m & E2 & F2 & U2 & A). exists m.
  rewrite (bind_Ok _ _ _ _ _ E1). split; [exact E2|]. split; [eapply steady_trans; [exact S1|by apply steady_frame]|]. split; [exact U2|].
  split; [|exact A]. rewrite (page_keep m1 m) by (done || lia). apply load_store_bytes.
Qed.
Lemma console_write k m n pa va : at_user (with_mem m k) (task k) → steady (k_mem k) m → ready kernel_view k → 0 ≤ n ≤ 4096 →
  Syscalls.arg (with_mem m k) (task k) 0 (u64 console) → Syscalls.arg (with_mem m k) (task k) 1 va → Syscalls.arg (with_mem m k) (task k) 2 n →
  points (with_mem m k) (task k) va pa → pa mod PGSIZE = 0 → ram_ok pa n = true →
  wp sys_write (λ _ s', text kernel_view s' = text kernel_view k ++ load_bytes (Z.to_nat n) m pa ∧ same_files kernel_view k s') (with_mem m k).
Proof using HP.
  intros Hu Hm (Hu0 & _ & (fd & Hfd & Hcf) & Hw) Hn A0 A1 A2 Hp Hpa Hr.
  pose proof (sys_write_console (with_mem m k) _ va pa n fd Hu Hfd Hcf Hw A0 A1 A2 Hp Hpa Hn) as E. rewrite Hr in E. cbn [orb] in E.
  unfold wp. rewrite E. split; [done|]. eapply same_files_trans; [by apply (same_mem k m)|apply same_out].
Qed.
Lemma kernel_write_law k l n : ready kernel_view k → Forall byte (take (Z.to_nat n) l) → 0 ≤ n ≤ Z.of_nat (length l) → n ≤ 4096 →
  wp (kernel_calls _ (syscall.write console (syscall.buffer l) n)) (λ _ s', text kernel_view s' = text kernel_view k ++ take (Z.to_nat n) l ∧
    same_files kernel_view k s') k.
Proof using HP.
  intros Hr Hb Hn Hn2. cbn [kernel_calls]. rewrite (proj2 (Z.ltb_ge 4096 n)) by lia. set (x := take (Z.to_nat n) l) in *.
  assert (length x = Z.to_nat n) as Hx by (unfold x; rewrite length_take; lia).
  destruct (poke_regs k x console (up_va P) n (proj1 Hr)) as (m & E & Hm & Hu & Hl & A0 & A1 & A2); [lia|].
  rewrite (wrap_small 64 n) in A2 by lia. rewrite (wrap_small 64 (up_va P)) in A1 by (pose proof (uo_va _ HP); lia).
  apply wp_bind. unfold wp at 1. rewrite E. rewrite <-(u8_bytes x Hb), <-Hl, Hx.
  apply (console_write k m n (up_pa P) (up_va P)); try done; [lia|apply (user_points _ _ Hu)|apply HP|].
  rewrite <-(Z.add_0_r (up_pa P)). apply page_ram; lia.
Qed.
Lemma kernel_write_null_law k n : ready kernel_view k → 0 < n ≤ 4096 →
  match low kernel_view k with
  | Some page => wp (kernel_calls _ (syscall.write console syscall.null n)) (λ _ s', text kernel_view s' = text kernel_view k ++ take (Z.to_nat n) page ∧
      same_files kernel_view k s') k
  | None => ∃ why, kernel_calls _ (syscall.write console syscall.null n) k = Stop (Faulted why)
  end.
Proof using HP.
  intros Hr Hn. cbn [kernel_calls]. rewrite (proj2 (Z.ltb_ge 4096 n)) by lia.
  destruct (regs_run k _ console 0 n (proj1 Hr)) as (m & E & F & Hu & A0 & A1 & A2).
  rewrite (wrap_small 64 n) in A2 by lia. change (u64 0) with 0 in A1. pose proof (steady_frame _ _ F) as Hm.
  pose proof (proj2 (user_points _ _ Hu)) as Hp. cbn [low kernel_view]. destruct (uo_low _ HP) as [E0|(Hr0 & Hal & Ha1 & Ha2)].
  - rewrite E0 in *. change (0 =? 0) with true. cbv iota. exists "read"%string. rewrite (bind_Ok _ _ _ _ _ E).
    destruct Hr as (_ & _ & (fd & Hfd & Hcf) & Hw).
    pose proof (sys_write_console (with_mem m k) _ 0 0 n fd Hu Hfd Hcf Hw A0 A1 A2 Hp eq_refl ltac:(lia)) as Es.
    rewrite (proj2 (Z.eqb_neq n 0)) in Es by lia. exact Es.
  - assert (up_low P ≠ 0) as H0 by (unfold ram_ok, KERNEL_BASE in Hr0; lia). rewrite (proj2 (Z.eqb_neq _ _)) by done.
    apply wp_bind. unfold wp at 1. rewrite E. rewrite take_load_bytes by lia.
    assert (load_bytes (Z.to_nat n) (k_mem k) (up_low P) = load_bytes (Z.to_nat n) m (up_low P)) as ->.
    { apply load_bytes_agree. intros b Hb. symmetry. apply F. unfold apart in Ha1. lia. }
    apply (console_write k m n (up_low P) 0); try done; [lia|]. unfold ram_ok in *. lia.
Qed.
Lemma kernel_open_law k a o : ready kernel_view k → kernel_names k a o →
  wp (kernel_calls _ (syscall.open a)) (λ fd s', text kernel_view s' = text kernel_view k ∧ kept kernel_view k s' ∧
      match o, free (fds_of k) with
      | Some f, Datatypes.S n => free (fds_of s') = n ∧ 0 ≤ fd < 2 ^ 31 ∧ kernel_opened s' fd f
      | _, _ => free (fds_of s') = free (fds_of k) ∧ fd = -1
      end) k.
Proof using HP.
  intros (Hu & Hlen & (fd0 & H0 & Hty0 & _) & Hw) (p & r & -> & Hp & Hb & Hl & Ho). cbn [kernel_calls]. rewrite strlen_cstr by done. cbn [of_option].
  assert (take (Datatypes.S (length p)) (p ++ 0 :: r) = p ++ [0]) as Ep.
  { rewrite (cons_middle 0 p r), app_assoc. apply take_app_length'. rewrite length_app. cbn. lia. }
  apply wp_bind, wp_ret. rewrite Ep.
  destruct (poke_regs k (p ++ [0]) (up_va P) 0 0 Hu) as (m & E & Hm & Hu1 & Hl1 & A0 & _); [rewrite length_app; cbn; lia|].
  rewrite (wrap_small 64 (up_va P)) in A0 by (pose proof (uo_va _ HP); lia).
  rewrite u8_bytes in Hl1 by (apply Forall_app_2; [done|by repeat constructor]).
  assert (length (p ++ [0]) = Datatypes.S (length p)) as E1 by (rewrite length_app; cbn; lia). rewrite E1 in Hl1.
  apply wp_bind. unfold wp at 1. rewrite E. apply wp_ok in Ho as ([num i] & s' & Eo & -> & Ho).
  unfold wp. rewrite (sys_open_run (with_mem m k) (task k) p num i Hu1 Hp Hl Hl1 A0 Eo).
  assert (kept kernel_view k (with_mem m k)) as Hk by by apply same_mem.
  destruct o as [f|].
  2: { rewrite (proj2 (Z.ltb_lt num 0)) by done. split; [done|]. split; [exact Hk|]. change (fds_of (with_mem m k)) with (fds_of k). by destruct (free (fds_of k)). }
  destruct Ho as (Hnum & ino & -> & Hty & Hf). rewrite (proj2 (Z.ltb_ge num 0)) by done. change (default inode0 (Some ino)) with ino. cbv zeta. rewrite Hty.
  set (fd := MkFd _ _ _ _). pose proof (free_fd_free (fds_of k)) as Hfree. change (file_descriptor (task k)) with (fds_of k).
  destruct (free_fd (fds_of k) 0) as [j|].
  2: { split; [done|]. split; [exact Hk|]. change (fds_of (with_mem m k)) with (fds_of k). by rewrite Hfree. }
  destruct Hfree as [(old & Hj & Hold) Hpos].
  assert (j ≠ 0%nat) as Hj0 by (intros ->; rewrite H0 in Hj; injection Hj as <-; rewrite Hty0 in Hold; discriminate Hold).
  assert (file_type fd ≠ FT_none) as Hfd by (cbn; destruct f as [|ty]; [done|destruct Hf as [-> | ->]; done]).
  pose proof (free_insert _ j old fd Hj Hfd) as Hins. rewrite decide_True in Hins by done. pose proof (lookup_lt_Some _ _ _ Hj).
  destruct (at_user_fds (with_mem m k) (task k) (<[j := fd]> (fds_of k)) Hu1) as [_ Ht]. set (k2 := with_task _ _ _) in *.
  assert (fds_of k2 = <[j := fd]> (fds_of k)) as Ef by (unfold fds_of at 1; by rewrite Ht).
  rewrite <-Hins, Ef. split; [done|]. split; [eapply kept_trans; [exact Hk|by apply (kept_fds (with_mem m k))]|]. split; [done|]. split; [lia|].
  split; [lia|]. rewrite Nat2Z.id, Ef. exists 0, num, ino. split; [by apply list_lookup_insert_eq|].
  assert (fs_of k2 = fs_of k) as Efs by (unfold fs_of; by rewrite Ht). rewrite Efs. destruct f as [l|ty]; [|done]. destruct Hf as (bl & Hsh & <-).
  exists bl. pose proof (sh_size _ _ _ Hsh). split; [done|]. split; [lia|done].
Qed.
Lemma opened_fd k fd f : kernel_opened k fd f → ∃ off n ino, lookup_fd (task k) fd = Some (Z.to_nat fd, MkFd (node_type f) off n ino).
Proof using Type.
  intros (Hfd & off & n & ino & Hi & Hf). exists off, n, ino. unfold lookup_fd. rewrite (proj2 (Z.leb_le 0 fd) Hfd).
  change (file_descriptor (task k)) with (fds_of k). rewrite Hi. cbn [file_type].
  destruct f as [l|ty]; [done|]. by destruct Hf as [-> | ->].
Qed.
Lemma kernel_fstat_law k fd f : ready kernel_view k → kernel_opened k fd f →
  wp (kernel_calls _ (syscall.fstat fd)) (λ '(_, o) s', text kernel_view s' = text kernel_view k ∧ same_files kernel_view k s' ∧
      ∃ st, o = Some st ∧ syscall.st_type st = node_type f) k.
Proof using HP.
  intros (Hu & Hlen & _) Ho. destruct (opened_fd k fd f Ho) as (off & n & ino & Hf). destruct Ho as (Hfd & ? & ? & ? & Hi & Hf2).
  apply lookup_lt_Some in Hi. cbn [kernel_calls]. destruct (regs_run k _ fd (up_va P) 0 Hu) as (m & E & F & Hu1 & A0 & A1 & _).
  rewrite (wrap_small 64 (up_va P)) in A1 by (pose proof (uo_va _ HP); lia). apply wp_bind. unfold wp at 1. rewrite E.
  destruct (sys_fstat_run (with_mem m k) (task k) fd _ Hu1 Hf ltac:(lia) A0 A1) as (m2 & E2 & S2 & U2 & T2). cbn [file_type snd] in T2.
  apply wp_bind. unfold wp at 1. rewrite E2. cbn [Z.eqb]. apply wp_bind. unfold wp at 1. rewrite (peek_run _ _ 16 U2) by lia. apply wp_ret.
  split; [done|]. split; [apply (same_mem k m2); [done|]; eapply steady_trans; [by apply steady_frame|exact S2]|].
  eexists. split; [done|]. cbn [syscall.st_type]. change (k_mem (with_mem m2 _)) with m2.
  transitivity (load8 m2 (up_pa P + 12) + 256 * 0).
  - unfold get_le, slice. change (Z.to_nat 16) with 16%nat. cbn [load_bytes drop take le_value]. do 2 f_equal. lia.
  - rewrite T2, Z.add_0_r. destruct f as [l|ty]; [done|]. by destruct Hf2 as [-> | ->].
Qed.
Lemma kernel_read_law k fd l n : ready kernel_view k → kernel_opened k fd (Regular l) → 0 ≤ n ≤ 4096 →
  wp (kernel_calls _ (syscall.read fd n)) (λ '(r, d) s', d = take (Z.to_nat n) l ∧ r = Z.of_nat (length d) ∧
    text kernel_view s' = text kernel_view k ∧ kept kernel_view k s' ∧ free (fds_of s') = free (fds_of k) ∧
    kernel_opened s' fd (Regular (drop (Z.to_nat n) l))) k.
Proof using HP.
  intros (Hu & Hlen & (fd0 & H0 & Hty0 & _) & Hw) (Hfd & off & num & ino & Hi & bl & Hsh & Hoff & ->) Hn. cbn [kernel_calls].
  rewrite (proj2 (Z.ltb_ge 4096 n)) by lia. pose proof (lookup_lt_Some _ _ _ Hi) as Hlt.
  destruct (regs_run k _ fd (up_va P) n Hu) as (m & E & F & Hu1 & A0 & A1 & A2). pose proof (steady_frame _ _ F) as Hm.
  rewrite (wrap_small 64 (up_va P)) in A1 by (pose proof (uo_va _ HP); lia). rewrite (wrap_small 64 n) in A2 by lia.
  destruct (sys_read_file (with_mem m k) (task k) fd _ off num ino bl n Hu1 ltac:(lia) eq_refl Hi Hsh Hoff Hn A0 A1 A2) as (E2 & Hout & S2).
  change (k_disk (with_mem m k)) with (k_disk k) in *. set (data := shape_data (k_disk k) ino bl) in *. set (size := Z.min (ino_size ino - off) n) in *.
  set (out := slice data (Z.to_nat off) (Z.to_nat size)) in *. apply wp_bind. unfold wp at 1. rewrite E. apply wp_bind. unfold wp at 1. rewrite E2.
  set (m2 := store_bytes _ _ out) in *. set (fd' := MkFd FT_regular_file (u64 (off + size)) num ino) in *. change (file_descriptor (task k)) with (fds_of k).
  assert (at_user (with_mem m2 (with_mem m k)) (task k)) as Hu2 by by apply at_user_mem.
  destruct (at_user_fds _ (task k) (<[Z.to_nat fd := fd']> (fds_of k)) Hu2) as [Hu3 Ht]. set (k3 := with_task (up_index P) (set_fds (<[Z.to_nat fd := fd']> (fds_of k)) (task k)) (with_mem m2 (with_mem m k))) in *.
  assert (fds_of k3 = <[Z.to_nat fd := fd']> (fds_of k)) as Ef by (unfold fds_of at 1; by rewrite Ht).
  rewrite Z.max_r by lia. apply wp_bind. unfold wp at 1. rewrite (peek_run k3 _ size Hu3) by lia. apply wp_ret.
  assert (load_bytes (Z.to_nat size) (k_mem k3) (up_pa P) = u8 <$> out) as ->.
  { replace (Z.to_nat size) with (length out) by lia. apply (load_store_bytes out (k_mem (with_mem m k))). }
  assert (length data = Z.to_nat (ino_size ino)) as Hdata by exact (length_shape_data _ _ _ Hsh). pose proof (sh_size _ _ _ Hsh) as Hsz.
  assert (Z.to_nat fd ≠ 0%nat) as Hne by (intros E0; rewrite E0, H0 in Hi; injection Hi as ->; discriminate Hty0).
  split; [|split; [rewrite length_fmap; lia|split; [done|split; [|split; [|split; [done|]]]]]].
  - unfold out, slice. rewrite fmap_take, fmap_drop. destruct (decide (ino_size ino - off ≤ n)).
    + rewrite !take_ge by (rewrite length_drop, length_fmap; lia). done.
    + by replace size with n by lia.
  - eapply kept_trans; [by apply (same_mem k m)|]. eapply kept_trans; [by apply (same_mem (with_mem m k) m2)|]. by apply (kept_fds (with_mem m2 (with_mem m k))).
  - rewrite Ef. pose proof (free_insert (fds_of k) (Z.to_nat fd) _ fd' Hi ltac:(done)) as Efr. by rewrite decide_False in Efr by done.
  - rewrite Ef. exists (u64 (off + size)), num, ino. split; [by apply list_lookup_insert_eq|].
    assert (fs_of k3 = fs_of k) as Efs by (unfold fs_of; by rewrite Ht). rewrite Efs. exists bl. pose proof (sh_max _ _ _ Hsh). rewrite wrap_small by lia.
    split; [done|]. split; [lia|]. change (k_disk k3) with (k_disk k). fold data. rewrite drop_drop. destruct (decide (ino_size ino - off ≤ n)).
    + rewrite !drop_ge by (rewrite length_fmap; lia). done.
    + f_equal. lia.
Qed.
#[export] Instance kernel_calls_law : FilesLaw kernel_calls kernel_view.
Proof using HP.
  split; [apply kernel_write_law|apply kernel_write_null_law|apply kernel_open_law|apply kernel_fstat_law|apply kernel_read_law].
Qed.
End kernel_calls.
(** the three entries that a translation reads *)
Lemma walk_run root va e1 e2 e3 vm :
  let q := pte_target e1 in let p := pte_target e2 in
  root ≠ 0 → va mod PGSIZE = 0 → load64 (vm_mem vm) (root + 8 * vpn va 2) = e1 → load64 (vm_mem vm) (q + 8 * vpn va 1) = e2 →
  load64 (vm_mem vm) (p + 8 * vpn va 0) = e3 → pte_V e1 = true → pte_V e2 = true →
  ram_ok (root + 8 * vpn va 2) 8 = true → ram_ok (q + 8 * vpn va 1) 8 = true → ram_ok (p + 8 * vpn va 0) 8 = true → p + 8 * vpn va 0 ≠ 0 →
  VAToPA root va vm = Ok (if pte_V e3 then (u64 (pte_target e3), Some (Z.land e3 PTE_MASK)) else (0, None), vm).
Proof.
  intros q p Hroot Hva E1 E2 E3 V1 V2 R1 R2 R3 Hp. unfold VAToPA, GetPTE. rewrite (proj2 (Z.eqb_neq root 0)) by done.
  change ((3 <? 1) || (3 <? 3)) with false. cbv iota. rewrite Hva. change (negb (0 =? 0)) with false. cbv iota zeta.
  change (Z.to_nat (3 - 1)) with 2%nat.
  assert (∀ a e, ram_ok a 8 = true → load64 (vm_mem vm) a = e → ld64 a vm = Ok (e, vm)) as Hld.
  { intros a e Hr He. unfold ld64. by rewrite Hr, He. }
  assert (GetPTE_walk 2 root va 2 false vm = Ok (Some p, vm)) as Hw.
  { cbn [GetPTE_walk]. rewrite (bind_Ok _ _ _ _ _ (Hld _ _ R1 E1)), V1. cbn [negb]. change (2 - 1) with 1. fold q.
    rewrite (bind_Ok _ _ _ _ _ (Hld _ _ R2 E2)), V2. done. }
  erewrite bind_Ok by (rewrite (bind_Ok _ _ _ _ _ Hw); done). change (3 - 3) with 0. rewrite (proj2 (Z.eqb_neq _ 0)) by done.
  rewrite (bind_Ok _ _ _ _ _ (Hld _ _ R3 E3)). destruct (pte_V e3); [|done]. cbn [negb]. by rewrite Z.add_0_r.
Qed.

(** a kernel with one process, with or without a page at 0, and a disk *)
Definition demo_umem (low : bool) : mem :=
  let pte pa fl := Z.lor (Z.shiftr pa 2) (Z.lor PTE_V fl) in
  let m := store64 (store64 ∅ 0x80010000 (pte 0x80011000 0)) 0x80011000 (pte 0x80012000 0) in
  let m := store64 m 0x80012008 (pte 0x80014000 (Z.lor PTE_R (Z.lor PTE_W PTE_U))) in
  store_bytes (store64 m 0x80012000 (if low then pte 0x80015000 (Z.lor PTE_R PTE_U) else 0)) 0x80015000 [0; 1; 2; 3; 4; 5; 6].
Definition demo_uproc (low : bool) : uproc := UProc 0 0x80010000 0x80013000 0x1000 0x80014000 (if low then 0x80015000 else 0).
Definition demo_utask (fds : list FileDescriptor) : ProcessTask :=
  set_path ([47; 0] ++ replicate 126 0) (set_fds fds (set_pages 0x80013000 0x80010000 0 0 (set_state running task0))).
Definition demo_ukernel {D} (low : bool) (disk : D) (fds : list FileDescriptor) : kernel D :=
  Kernel (Con (replicate 256 0) 0 0 false true []
    (Sched [demo_utask fds] (Some 0%nat) 0 None (VmState (demo_umem low) (MkMemoryList 0 0 0) [] true 0x1888 0x80020000) 2)) disk (replicate 512 0xaa).
Lemma demo_uproc_ok low : uproc_ok (demo_uproc low).
Proof.
  split; cbn [demo_uproc up_frame up_va up_pa up_low]; try done; try (unfold apart, sizeof_RegFrame; lia).
  destruct low; [right|by left]. unfold apart, sizeof_RegFrame. split_and!; (done || lia).
Qed.
#[export] Instance demo_calls_law {D} `{BlockDevice D} low : FilesLaw (kernel_calls (D := D) (demo_uproc low)) (kernel_view (demo_uproc low)).
Proof. apply kernel_calls_law, demo_uproc_ok. Defined.
Lemma demo_at_user {D} low (disk : D) fds : at_user (demo_uproc low) (demo_ukernel low disk fds) (demo_utask fds).
Proof.
  split; [by split|done|done|]. intros m Hm. cbn [demo_ukernel k_sched k_con con_sched sc_vm vm_mem] in Hm.
  assert (∀ a v, 0x80010000 ≤ a < 0x80013000 → load64 (demo_umem low) a = v → a + 8 ≤ 0x80013000 → load64 m a = v) as Hl.
  { intros a v Ha <- Ha8. apply load_le_agree. intros b Hb. apply Hm. unfold touched. cbn [demo_uproc up_frame up_pa]. lia. }
  set (vm := set_mem m _).
  assert (∀ va e3, va mod PGSIZE = 0 → vpn va 2 = 0 → vpn va 1 = 0 → 0 ≤ vpn va 0 < 512 → load64 (demo_umem low) (0x80012000 + 8 * vpn va 0) = e3 →
    VAToPA 0x80010000 va vm = Ok (if pte_V e3 then (u64 (pte_target e3), Some (Z.land e3 PTE_MASK)) else (0, None), vm)) as Hw.
  { intros va e3 Hva V2 V1 V0 E3. apply (walk_run _ _ 0x20004401 0x20004801); rewrite ?V2, ?V1; try done; change (pte_target 0x20004801) with 0x80012000.
    - apply Hl; [lia|by destruct low; vm_compute|lia].
    - apply Hl; [done|by destruct low; vm_compute|done].
    - apply Hl; [lia|done|lia].
    - apply ram_ok_page; [by split|lia|lia].
    - lia. }
  cbn [demo_uproc up_root up_va up_pa up_low]. split.
  - rewrite (Hw 0x1000 (load64 (demo_umem low) 0x80012008)) by done. destruct low; eexists; vm_compute; reflexivity.
  - rewrite (Hw 0 (load64 (demo_umem low) 0x80012000)) by done. destruct low; eexists; vm_compute; reflexivity.
Qed.
Definition demo_fds : list FileDescriptor := MkFd FT_device 0 5 inode0 :: replicate 15 fd0.
Lemma demo_ready {D} `{BlockDevice D} low (disk : D) fds : (length fds ≤ 16)%nat → ready (kernel_view (demo_uproc low)) (demo_ukernel low disk (MkFd FT_device 0 5 inode0 :: fds)).
Proof.
  intros Hl. split; [apply demo_at_user|]. split; [|split; [by eexists|done]]. change (fds_of _ _) with (MkFd FT_device 0 5 inode0 :: fds). cbn [length]. lia.
Qed.

(** * Properties *)
(** C13: cat prints, for each argument in order, the file's bytes followed by what is in
    memory at the program's address 0 (five bytes) and a newline, or the message for a
    missing file, a directory or a device.  It does not close what it opens, so once the
    descriptors are used up the remaining files are reported missing.  When a page is
    mapped at 0, or no argument is a regular file that it opens, it ends and returns 0;
    otherwise its run ends in a fault, as the kernel reads the null pointer.  This is
    for arguments of at most 80 bytes, so that the messages fit in printf's buffer, and
    for every kernel that keeps the laws of [FilesLaw]; the kernel's system calls do. *)
Theorem cat_prints {S} (h : kernelH S) (V : view S) `{!FilesLaw h V} U prog args fs s :
  ready V s → Forall2 (is_arg V s) args fs →
  if bool_decide (low V s = None) && opens_regular (room V s) fs
  then ∃ why, does h (cat U (prog :: args)) s (Stop (Faulted why))
  else ends h (cat U (prog :: args)) (λ r s', r = 0 ∧ text V s' = text V s ++ cat_text (at_null V s) (room V s) fs) s.
Proof.
  intros Hr Hf. unfold cat, argc. destruct args as [|a args].
  - apply Forall2_nil_inv_l in Hf as ->. rewrite andb_false_r. apply ends_ret. by rewrite app_nil_r.
  - rewrite (proj2 (Z.ltb_ge _ 2)) by (cbn; lia). pose proof (cat_files_run h V U (a :: args) fs s Hr Hf) as Hrun. destruct (_ && _).
    + destruct Hrun as [why Hw]. exists why. by apply does_bind_stop.
    + apply ends_bind. eapply ends_mono; [exact Hrun|]. intros [] s' Ht. by apply ends_ret.
Qed.
(** an argument that names a file of an image the builder made *)
Lemma image_arg P sz fs im k name :
  let files := omap id fs in
  42 + needed files < sz ≤ 4138 → Forall file_ok files → (length files ≤ 319)%nat → mkfs_image sz fs = Some im →
  k_disk k = im → length (k_junk k) = 512%nat → name_ok name → Forall byte name →
  is_arg (kernel_view P) k (Directory.render [name] [])
    (slash :: name, f ← number_of files name; f ← files !! f; Some (Regular (u8 <$> hf_data f))).
Proof.
  intros files Hsz Hok Hlen E Hdisk Hst Hname Hb.
  destruct (mkfs_image_run sz fs (k_junk k) (current_path (task P k)) Hsz Hok Hlen Hst) as (im' & E' & Hopen).
  rewrite E in E'. injection E' as <-. subst im. fold (fs_of P k) in Hopen. pose proof Hname as (_ & Hc & Hl).
  assert (no_nul (slash :: name)) as Hnn by (constructor; [done|]; eapply Forall_impl; [exact Hc|]; naive_solver).
  assert (Forall byte (slash :: name)) as Hbb by (by constructor).
  split; [by exists []|]. split; [done|]. split; [done|]. split; [cbn; lia|]. split.
  - exists (slash :: name), []. split; [done|]. split; [done|]. split; [done|]. split; [cbn; lia|].
    eapply wp_mono; [by apply Hopen|]. intros [n o] s' [-> Hr]. split; [done|].
    fold files in Hr. destruct (number_of files name) as [j|]; cbn [mbind option_bind].
    + destruct Hr as (-> & f & ino & bl & -> & -> & _ & Hty & Hsh & Hd). cbn [mbind option_bind]. split; [lia|].
      exists ino. split; [done|]. split; [done|]. exists bl. split; [done|]. by rewrite <-Hd.
    + destruct Hr as [-> _]. done.
  - destruct (number_of files name) as [j|]; cbn [mbind option_bind]; [|done]. destruct (files !! j); cbn [mbind option_bind node_ok]; [|done].
    apply Forall_fmap, Forall_true. intros x. apply (wrap_range 8). lia.
Qed.
Lemma cat_prints_witness :
  let fs := [Some (HostFile [97] (replicate 600 7)); Some (HostFile [98; 99] [1; 2; 3])] in
  let args := [txt "cat"; txt "/a"; txt "/x"; txt "/bc"] in
  ∃ im, mkfs_image 50 fs = Some im ∧ (∀ U,
    ends (kernel_calls (demo_uproc true)) (cat U args)
      (λ r s', r = 0 ∧ uart (k_con s') = replicate 600 7 ++ [0; 1; 2; 3; 4; 10] ++
         lit "cat: /x: No such file or directory" ++ [10] ++ [1; 2; 3; 0; 1; 2; 3; 4; 10])
      (demo_ukernel true im demo_fds)) ∧ ∀ U,
    ∃ why, does (kernel_calls (demo_uproc false)) (cat U args) (demo_ukernel false im demo_fds) (Stop (Faulted why)).
Proof.
  set (fs := [Some (HostFile [97] (replicate 600 7)); Some (HostFile [98; 99] [1; 2; 3])]). intros args.
  assert (42 + needed (omap id fs) < 50 ≤ 4138) as Hsz by (vm_compute; split; [reflexivity|discriminate]).
  assert (Forall file_ok (omap id fs)) as Hok by (repeat constructor; cbn; try lia; discriminate).
  destruct (mkfs_image_run 50 fs (replicate 512 0xaa) [] Hsz Hok ltac:(cbn; lia) eq_refl) as (im & E & _). exists im. split; [exact E|].
  assert (∀ low, Forall2 (is_arg (kernel_view (demo_uproc low)) (demo_ukernel low im demo_fds)) [txt "/a"; txt "/x"; txt "/bc"]
    [(lit "/a", Some (Regular (replicate 600 7))); (lit "/x", None); (lit "/bc", Some (Regular [1; 2; 3]))]) as Hargs.
  { intros low.
    assert (∀ name, name_ok name → Forall byte name → is_arg (kernel_view (demo_uproc low)) (demo_ukernel low im demo_fds) (Directory.render [name] [])
      (slash :: name, f ← number_of (omap id fs) name; f ← omap id fs !! f; Some (Regular (u8 <$> hf_data f)))) as Harg.
    { intros name. apply (image_arg _ 50 fs im); [exact Hsz|exact Hok|cbn; lia|exact E|reflexivity|reflexivity]. }
    repeat (apply Forall2_cons; split); [apply (Harg [97])|apply (Harg [120])|apply (Harg [98; 99])|apply Forall2_nil; exact I];
      repeat constructor; cbn; try lia; discriminate. }
  split; intros U.
  - eapply ends_mono; [apply (cat_prints (kernel_calls (demo_uproc true)) (kernel_view (demo_uproc true)) U (txt "cat") _ _ _ (demo_ready true im (replicate 15 fd0) ltac:(cbn; lia)) (Hargs true))|].
    intros r s' [-> Ht]. split; [reflexivity|]. etransitivity; [exact Ht|]. vm_compute. reflexivity.
  - apply (cat_prints (kernel_calls (demo_uproc false)) (kernel_view (demo_uproc false)) U (txt "cat") _ _ _ (demo_ready false im (replicate 15 fd0) ltac:(cbn; lia)) (Hargs false)).
Defined.
