(* ===== verification/UserShell.v ===== *)
(** The shell: what one round of sh does with every line, against an environment
    that answers each call in a given way and keeps a log of the calls. *)
From ITree Require Import ITree.
From S2P Require Import Prelude Mem Printk LibUtils UserSys UserPrograms.

(** * An environment with fixed answers *)
Inductive call :=
| Written (l : list Z)
| Forked
| Waited
| Executed (path : list Z) (argv : list (list Z))
| Changed_dir (path : list Z).
(** the working directory, the line read, the results of [fork] and [chdir] *)
Record answers := Answers { a_cwd : list Z; a_line : list Z; a_pid : Z; a_cd : Z }.
(** the C string at the head of an object *)
Definition cstr_of (l : list Z) : list Z := match strlen l with Some n => take n l | None => l end.
Definition note {A} (c : call) (a : A) : M (list call) A := λ log, Ok (a, log ++ [c]).
Definition script (A : answers) : kernelH (list call) := λ T e,
  match e with
  | syscall.getcwd _ => mret (0, a_cwd A ++ [0])
  | syscall.write fd src size =>
    match src with
    | syscall.buffer l => note (Written (take (Z.to_nat size) l)) size
    | syscall.null => stop_with (Faulted "null")
    end
  | syscall.read fd count => let l := take (Z.to_nat count) (a_line A ++ [10]) in mret (Z.of_nat (length l), l)
  | syscall.fork => note Forked (a_pid A)
  | syscall.wait => note Waited (a_pid A)
  | syscall.exec path argv => note (Executed (cstr_of path) (cstr_of <$> argv)) (-1)
  | syscall.chdir path => note (Changed_dir (cstr_of path)) (a_cd A)
  | _ => stop_with (Faulted "not a call of the loop")
  end.

(** * What a round does *)
Definition out (s : list Z) : call := Written s.
Definition ln (s : string) : list Z := lit s ++ [10].
Definition prompt_text (cwd : list Z) : list Z := esc "[34;1m" ++ cwd ++ esc "[32;1m$" ++ esc "[0m > ".
Definition cd_spec (A : answers) (args : list (list Z)) (log : list call) : list call :=
  match args with
  | _ :: _ :: _ => log ++ [out (ln "cd: too many arguments")]
  | _ =>
    let log := log ++ [Changed_dir (default (lit "/") (head args))] in
    let d := default (lit "(null)") (head args) in
    if a_cd A =? -2 then log ++ [out (lit "sh: cd: " ++ d ++ ln ": No such file or directory")]
    else if a_cd A =? -1 then log ++ [out (lit "sh: cd: " ++ d ++ ln ": Not a directory")]
    else log
  end.
Definition command_spec (A : answers) (w : list Z) (ws : list (list Z)) (log : list call) : (() + Z) * list call :=
  if a_pid A <? 0 then (inl (), log ++ [Forked; out (ln "trying to create a new process failed")])
  else if a_pid A =? 0 then (inr (-1), log ++ [Forked; Executed w ws; out (w ++ ln ": command not found")])
  else (inl (), log ++ [Forked; Waited]).
Definition sh_spec (A : answers) (log : list call) : res ((() + Z) * list call) :=
  if (128 <=? length (prompt_text (a_cwd A)))%nat then Stop overflow
  else
    let log := log ++ [out (prompt_text (a_cwd A))] in
    let too_much := log ++ (out <$> [esc "[31m"; ln "sh: command argument to mush"; esc "[0m"]) in
    let ws := words 32 (a_line A) in
    if decide (128 ≤ length (a_line A))%nat then
      if decide (gives_up 16 32 (take 128 (a_line A))) then Ok (inl (), too_much) else Stop (Faulted "read past the string")
    else if decide (fitting 16 ws = ws) then
      match ws with
      | [] => Stop (Faulted "strcmp(nullptr)")
      | w :: args => if decide (w = lit "cd") then Ok (inl (), cd_spec A args log) else Ok (command_spec A w ws log)
      end
    else Ok (inl (), too_much).

(** * Lemmas *)
Section sh.
Context (A : answers) (U : uninit).
Lemma does_writes tr log : does (script A) (writes tr) log (Ok ((), log ++ ((λ '(_, l), out l) <$> tr))).
Proof.
  revert log. induction tr as [|[fd l] tr IH]; intros log; cbn [writes].
  - rewrite app_nil_r. apply does_ret.
  - eapply does_bind; [apply does_call; reflexivity|]. cbn [script]. rewrite Nat2Z.id, firstn_all. cbn [fmap list_fmap].
    change (out l :: ?x) with ([out l] ++ x). rewrite app_assoc. apply IH.
Qed.
Lemma does_print_arg pre post a o log : plain pre → plain post → shows a o → (length (pre ++ o ++ post) < 128)%nat →
  does (script A) (print U (pre ++ lit "%s" ++ post ++ [0]) [a]) log (Ok ((), log ++ [out (pre ++ o ++ post)])).
Proof. intros Hpre Hpost Ho Hl. rewrite (print_arg U _ _ _ _ Hpre Hpost Ho), (proj2 (Nat.ltb_lt _ _) Hl). apply does_writes. Qed.
Lemma does_print_plain l log : plain l → (length l < 128)%nat →
  does (script A) (print U (l ++ [0]) []) log (Ok ((), log ++ [out l])).
Proof. intros Hp Hl. rewrite (print_plain U _ Hp), (proj2 (Nat.ltb_lt _ _) Hl). apply does_writes. Qed.

(** a row that holds a word *)
Definition holds (row w : list Z) : Prop := no_nul w ∧ (length w < 32)%nat ∧ ∃ r, row = w ++ 0 :: r.
Lemma cstr_of_row row w : holds row w → cstr_of row = w.
Proof. intros (Hn & _ & r & ->). unfold cstr_of. by rewrite strlen_cstr, take_app_length. Qed.
Lemma cd_message a d (m : string) log : shows a d → (length d < 32)%nat → plain (lit m) → (length (lit m) < 40)%nat →
  does (script A) (print U (lit "sh: cd: " ++ lit "%s" ++ ln m ++ [0]) [a]) log (Ok ((), log ++ [out (lit "sh: cd: " ++ d ++ ln m)])).
Proof.
  intros Hd Hl Hp Hm. apply does_print_arg.
  - by repeat constructor.
  - apply Forall_app_2; [done|by repeat constructor].
  - done.
  - unfold ln. rewrite !length_app. cbn. lia.
Qed.
(** after [chdir] *)
Lemma cd_report a d (log : list call) : shows a d → (length d < 32)%nat →
  does (script A) (if s32 (a_cd A) =? -2 then print U (line "sh: cd: %s: No such file or directory") [a]
     else if s32 (a_cd A) =? -1 then print U (line "sh: cd: %s: Not a directory") [a] else mret ()) log
   (Ok ((), if s32 (a_cd A) =? -2 then log ++ [out (lit "sh: cd: " ++ d ++ ln ": No such file or directory")]
    else if s32 (a_cd A) =? -1 then log ++ [out (lit "sh: cd: " ++ d ++ ln ": Not a directory")] else log)).
Proof.
  intros Hd Hl. destruct (s32 (a_cd A) =? -2); [|destruct (s32 (a_cd A) =? -1); [|apply does_ret]].
  - apply (cd_message a d ": No such file or directory"); [done|done|by repeat constructor|cbn; lia].
  - apply (cd_message a d ": Not a directory"); [done|done|by repeat constructor|cbn; lia].
Qed.
Lemma cd_run argv w args log : - 2 ^ 31 ≤ a_cd A < 2 ^ 31 → Forall2 holds argv (w :: args) →
  does (script A) (cd U (Z.of_nat (length argv)) argv) log (Ok ((), cd_spec A args log)).
Proof.
  intros Ha Hr. pose proof (cd_report) as Hrep. rewrite (swrap_small 32 (a_cd A)) in Hrep by lia.
  apply Forall2_cons_inv_r in Hr as (row & argv1 & Hw & Hr & ->). unfold cd.
  destruct args as [|d args]; [|apply Forall2_cons_inv_r in Hr as (row1 & argv2 & Hd & Hr & ->); destruct args as [|d' args]].
  - apply Forall2_nil_inv_r in Hr as ->. change (2 <? _) with false. cbv iota. change (_ =? 1) with true. cbv iota.
    eapply does_bind; [apply does_call; reflexivity|]. rewrite (swrap_small 32 (a_cd A)) by lia.
    apply Hrep; [apply shows_null|cbn; lia].
  - apply Forall2_nil_inv_r in Hr as ->. change (2 <? _) with false. cbv iota. change (_ =? 1) with false. cbv iota.
    eapply does_bind.
    { eapply does_bind; [apply does_ret|]. apply does_call; reflexivity. }
    rewrite (swrap_small 32 (a_cd A)), (cstr_of_row _ _ Hd) by lia. destruct Hd as (Hn & Hl & r & ->).
    apply Hrep; [by apply shows_str|done].
  - apply Forall2_cons_inv_r in Hr as (row2 & argv3 & _ & _ & ->). rewrite (proj2 (Z.ltb_lt 2 _)) by (cbn; lia).
    apply (does_print_plain (ln "cd: too many arguments")); [by repeat constructor|cbn; lia].
Qed.
Lemma shell_command_run argv w ws log : - 2 ^ 31 ≤ a_pid A < 2 ^ 31 → Forall2 holds argv (w :: ws) →
  does (script A) (run_command U argv) log (Ok (command_spec A w (w :: ws) log)).
Proof.
  intros Ha Hr. unfold run_command. eapply does_bind; [apply does_call; reflexivity|].
  rewrite swrap_small by lia. unfold command_spec. destruct (a_pid A <? 0).
  { eapply does_bind; [apply (does_print_plain (ln "trying to create a new process failed")); [by repeat constructor|cbn; lia]|].
    rewrite <-app_assoc. apply does_ret. }
  destruct (a_pid A =? 0).
  - assert (cstr_of <$> argv = w :: ws) as Hargv.
    { clear -Hr. induction Hr as [|row w' argv' ws' H _ IH]; [done|]. cbn. by rewrite IH, (cstr_of_row _ _ H). }
    pose proof Hr as Hr'. apply Forall2_cons_inv_r in Hr' as (row & argv' & Hw & _ & ->).
    eapply does_bind; [apply does_ret|]. eapply does_bind; [apply does_call; reflexivity|]. rewrite Hargv, (cstr_of_row _ _ Hw).
    destruct Hw as (Hn & Hl & r & ->). eapply does_bind.
    { apply (does_print_arg [] (ln ": command not found") _ w); [by constructor|by repeat constructor|by apply shows_str|].
      rewrite !length_app. cbn. lia. }
    rewrite <-!app_assoc. apply does_ret.
  - eapply does_bind; [apply does_call; reflexivity|]. rewrite <-app_assoc. apply does_ret.
Qed.
Lemma splice_0 {B} (buf data : list B) : splice buf 0 data = data ++ drop (length data) buf.
Proof. unfold splice. by rewrite take_0. Qed.
Lemma prompt_run r log : no_nul (a_cwd A) →
  does (script A) (prompt U (a_cwd A ++ 0 :: r)) log
    (if (128 <=? length (prompt_text (a_cwd A)))%nat then Stop overflow else Ok ((), log ++ [out (prompt_text (a_cwd A))])).
Proof.
  intros Hn. assert (prompt U (a_cwd A ++ 0 :: r) = if (length (prompt_text (a_cwd A)) <? 128)%nat
      then writes [(console, prompt_text (a_cwd A))] else undefined overflow) as ->.
  { apply (print_str U (esc "[34;1m") (esc "[32;1m$" ++ esc "[0m > ")); [by repeat constructor|by repeat constructor|done]. }
  rewrite Nat.leb_antisym. destruct (_ <? 128)%nat; cbn [negb]; [apply does_writes|apply does_undefined].
Qed.
(** the words of the line, once [SplitString] has stored them *)
Lemma line_run rows r : no_nul (a_line A) → length rows = 16%nat → Forall (λ row, length row = 32%nat) rows →
  let ws := words 32 (a_line A) in
  ∃ rows', SplitString (a_line A ++ 0 :: r) rows 32 = Ok (if decide (fitting 16 ws = ws) then Z.of_nat (length ws) else -1, rows') ∧
    (fitting 16 ws = ws → Forall2 holds (take (length ws) rows') ws).
Proof.
  intros Hl Hr Hlen ws. destruct (SplitString_rows (a_line A) r rows 32 Hl Hr Hlen) as (rows' & E & Hr' & Hrow & _).
  exists rows'. split; [done|]. fold ws in Hrow. intros Hf. rewrite Hf in Hrow. pose proof (length_fitting 16 ws) as H16. rewrite Hf in H16.
  apply Forall2_same_length_lookup. split; [rewrite length_take; lia|]. intros i row w Hi Hw.
  destruct (Hrow i w Hw) as (row' & Hi' & Ht & Hl'). pose proof (lookup_lt_Some _ _ _ Hw). rewrite lookup_take_lt in Hi by lia.
  rewrite Hi in Hi'. injection Hi' as <-. split; [|split].
  - apply (proj1 (Forall_lookup _ _) (no_nul_words 32 _ Hl) i w Hw).
  - rewrite <-Hf in Hw. by eapply fitting_short.
  - exists (drop (S (length w)) row). rewrite <-(take_drop (S (length w)) row) at 1. by rewrite Ht, <-app_assoc.
Qed.
Lemma too_much_run : print_level U error (line "sh: command argument to mush") [] =
  writes ((λ l, (console, l)) <$> [esc "[31m"; ln "sh: command argument to mush"; esc "[0m"]).
Proof.
  pose proof (print_level_items U error (Lit <$> ln "sh: command argument to mush") [] [] (ln "sh: command argument to mush")) as E.
  change (format_of _) with (line "sh: command argument to mush") in E. rewrite E; [|by repeat constructor|done|cbn; lia].
  f_equal.
Qed.
(** a line that fills the buffer *)
Lemma long_line_run (console : Z) buf rows (log : list call) : no_nul (a_line A) → 10 ∉ a_line A → (128 ≤ length (a_line A))%nat →
  length buf = 128%nat → length rows = 16%nat →
  does (script A) (
    '(n, l) ← sys (syscall.read console 128);
    let n := s32 n in
    let buf := splice buf 0 l in
    last ← (if n <=? 0 then undefined (Faulted "buf[n - 1]") else get "buf[n - 1]" (buf !! Z.to_nat (n - 1)));
    let buf := if last =? 10 then <[Z.to_nat (n - 1) := 0]> buf else buf in
    match SplitString buf rows 32 with
    | Stop e => undefined e
    | Ok (token_num, split_ret) =>
      if token_num <? 0 then print_level U error (line "sh: command argument to mush") [];; mret (inl ())
      else
        let argv := take (Z.to_nat token_num) split_ret in
        argv0 ← get "strcmp(nullptr)" (argv !! 0%nat);
        is_cd ← get "strcmp" (strcmp argv0 (txt "cd"));
        if is_cd =? 0 then cd U token_num argv;; mret (inl ())
        else run_command U argv
    end) log
   (if decide (gives_up 16 32 (take 128 (a_line A)))
    then Ok (inl (), log ++ (out <$> [esc "[31m"; ln "sh: command argument to mush"; esc "[0m"]))
    else Stop (Faulted "read past the string")).
Proof.
  intros Hn H10 Hl Hbuf Hr. set (t := take 128 (a_line A)). assert (length t = 128%nat) as Ht by (unfold t; rewrite length_take; lia).
  eapply does_bind; [apply does_call; reflexivity|]. cbv beta iota zeta. change (Z.to_nat 128) with 128%nat.
  rewrite take_app_le by done. fold t. rewrite Ht. change (s32 (Z.of_nat 128)) with 128. change (128 <=? 0) with false. cbv iota.
  rewrite splice_0, drop_ge, app_nil_r by lia. change (Z.to_nat (128 - 1)) with 127%nat.
  destruct (lookup_lt_is_Some_2 t 127) as [c Hc]; [lia|]. rewrite Hc. eapply does_bind; [apply does_ret|].
  assert (c ≠ 10) as Hc10.
  { intros ->. unfold t in Hc. rewrite lookup_take_lt in Hc by lia. by apply H10, list_elem_of_lookup_2 with 127%nat. }
  rewrite (proj2 (Z.eqb_neq c 10)) by done. pose proof (SplitString_open t rows 32 ltac:(by apply Forall_take) Hr) as Hsp.
  destruct (decide (gives_up 16 32 t)).
  - destruct Hsp as [rows' ->]. change (-1 <? 0) with true. cbv iota. eapply does_bind; [|apply does_ret].
    rewrite too_much_run. apply does_writes.
  - rewrite Hsp. apply does_undefined.
Qed.
Definition answers_ok : Prop :=
  no_nul (a_cwd A) ∧ no_nul (a_line A) ∧ 10 ∉ a_line A ∧ - 2 ^ 31 ≤ a_pid A < 2 ^ 31 ∧ - 2 ^ 31 ≤ a_cd A < 2 ^ 31.
End sh.

(** * Properties *)
(** C14: one round of the shell, for every line of any length: the prompt with the
    working directory; then a message for a line with too many or too long words,
    [chdir] and its message for [cd], and otherwise a child that executes the first word
    with all the words as arguments while the shell waits.  A line without words makes
    the shell dereference the null pointer, a working directory of 106 characters or more
    overflows the buffer of [printf], and a line of 128 characters or more fills the
    shell's buffer and leaves it without a terminator: the shell reads past the buffer,
    unless it gives up on a too long or a seventeenth word before it gets to the end. *)
Theorem sh_round_correct A U rows console log :
  answers_ok A → length (u_bytes U 128) = 128%nat → length rows = 16%nat → Forall (λ row, length row = 32%nat) rows →
  does (script A) (sh_round U rows console) log (sh_spec A log).
Proof.
  intros (Hcwd & Hline & H10 & Hpid & Hcd) Hu Hr Hrow. unfold sh_round, sh_spec.
  eapply does_bind; [apply does_call; reflexivity|]. cbv beta iota. rewrite splice_0, <-app_assoc. cbn [app].
  pose proof (prompt_run A U (drop (length (a_cwd A ++ [0])) (u_bytes U 128)) log Hcwd) as Hp.
  destruct (128 <=? _)%nat eqn:Elen; [by apply does_bind_stop|]. apply Nat.leb_gt in Elen. eapply does_bind; [exact Hp|].
  cbv zeta. destruct (decide (128 ≤ length (a_line A))%nat) as [Hlong|Hshort].
  { apply (long_line_run A U console); try done. unfold prompt_text in Elen. rewrite !length_app in Elen.
    rewrite length_app. cbn [length]. rewrite length_drop, length_app, Hu. cbn [length]. lia. }
  eapply does_bind; [apply does_call; reflexivity|]. cbv beta iota zeta. change (Z.to_nat 128) with 128%nat.
  rewrite (take_ge (a_line A ++ [10])) by (rewrite length_app; cbn; lia). rewrite splice_0, length_app. cbn [length].
  rewrite swrap_small by lia. rewrite (proj2 (Z.leb_gt _ 0)) by lia. rewrite <-app_assoc. cbn [app].
  replace (Z.to_nat (Z.of_nat (length (a_line A) + 1) - 1)) with (length (a_line A)) by lia. rewrite list_lookup_middle by done.
  eapply does_bind; [apply does_ret|]. change (10 =? 10) with true. cbv iota. rewrite insert_app_r_alt, Nat.sub_diag by lia.
  set (r := drop _ _). change (<[0%nat := 0]> (10 :: r)) with (0 :: r). clearbody r. set (log' := log ++ _). clearbody log'.
  destruct (line_run A rows r Hline Hr Hrow) as (rows' & -> & Hw). set (ws := words 32 (a_line A)) in *.
  destruct (decide (fitting 16 ws = ws)) as [Hf|Hf].
  2: { change (-1 <? 0) with true. cbv iota. eapply does_bind; [|apply does_ret].
    rewrite too_much_run. apply does_writes. }
  specialize (Hw Hf). rewrite (proj2 (Z.ltb_ge _ 0)), Nat2Z.id by lia.
  assert (length (take (length ws) rows') = length ws) as Hlw by by eapply Forall2_length.
  set (argv := take (length ws) rows') in *. clearbody argv. destruct ws as [|w args].
  { apply Forall2_nil_inv_r in Hw as ->. apply does_bind_stop, does_undefined. }
  rewrite <-Hlw. pose proof (cd_run A U argv w args log' Hcd Hw) as Hcdr. pose proof (shell_command_run A U argv w args log' Hpid Hw) as Hcmd.
  pose proof Hw as Hw'. apply Forall2_cons_inv_r in Hw' as (row & argv' & (Hn & _ & r' & ->) & _ & ->).
  eapply does_bind; [apply does_ret|]. pose proof (strcmp_defined w (lit "cd") r' [] Hn ltac:(by repeat constructor)) as [c Hc].
  eapply does_bind; [unfold txt; rewrite Hc; apply does_ret|].
  pose proof (strcmp_cstr_0 w (lit "cd") r' [] Hn ltac:(by repeat constructor)) as Hiff. rewrite Hc in Hiff.
  destruct (Z.eqb_spec c 0) as [->|Hne].
  - rewrite decide_True by by apply Hiff. eapply does_bind; [exact Hcdr|apply does_ret].
  - rewrite decide_False by (intros E; apply Hiff in E; congruence). exact Hcmd.
Qed.
Definition demo_answers (l : string) (pid : Z) : answers := Answers (lit "/home") (lit l) pid (-2).
Definition demo_uninit : uninit := Uninit 0 (λ n, replicate n 0xaa) (syscall.MkFileState 7 7 7 7).
(** a command, in the shell and in its child; a cd that fails; an empty line *)
Lemma sh_round_correct_witness :
  let run l pid := does (script (demo_answers l pid)) (sh_round demo_uninit (replicate 16 (replicate 32 0xaa)) 0) [] in
  let p := out (prompt_text (lit "/home")) in
  run "cat  a.txt" 5 (Ok (inl (), [p; Forked; Waited])) ∧
  run "cat  a.txt" 0 (Ok (inr (-1), [p; Forked; Executed (lit "cat") [lit "cat"; lit "a.txt"]; out (ln "cat: command not found")])) ∧
  run "cd x" 5 (Ok (inl (), [p; Changed_dir (lit "x"); out (ln "sh: cd: x: No such file or directory")])) ∧
  run " " 5 (Stop (Faulted "strcmp(nullptr)")) ∧
  does (script (Answers (lit "/home") (replicate 200 97) 5 0)) (sh_round demo_uninit (replicate 16 (replicate 32 0xaa)) 0) []
    (Stop (Faulted "read past the string")).
Proof.
  assert (∀ l pid, answers_ok (demo_answers l pid) →
    does (script (demo_answers l pid)) (sh_round demo_uninit (replicate 16 (replicate 32 0xaa)) 0) [] (sh_spec (demo_answers l pid) [])) as H.
  { intros l pid Hok. apply (sh_round_correct (demo_answers l pid) demo_uninit _ 0 []); [exact Hok|reflexivity|reflexivity|by apply Forall_replicate]. }
  assert (∀ l pid, no_nul (lit l) → 10 ∉ lit l → 0 ≤ pid < 10 → answers_ok (demo_answers l pid)) as Hok.
  { intros l pid Hn H10 Hp. split; [by repeat constructor|]. split; [exact Hn|]. split; [exact H10|]. cbn [demo_answers a_line a_pid a_cd]. lia. }
  assert (∀ l, forallb (λ c, negb (c =? 10)) l = true → 10 ∉ l) as H10.
  { intros l Hl Hin. rewrite forallb_forall in Hl. specialize (Hl 10 (proj1 (list_elem_of_In _ _) Hin)). discriminate Hl. }
  split; [|split; [|split; [|split]]].
  - apply (H "cat  a.txt"%string 5), Hok; [by repeat constructor|by apply H10|lia].
  - apply (H "cat  a.txt"%string 0), Hok; [by repeat constructor|by apply H10|lia].
  - apply (H "cd x"%string 5), Hok; [by repeat constructor|by apply H10|lia].
  - apply (H " "%string 5), Hok; [by repeat constructor|by apply H10|lia].
  - apply (sh_round_correct (Answers (lit "/home") (replicate 200 97) 5 0) demo_uninit _ 0 []); [|reflexivity|reflexivity|by apply Forall_replicate].
    split; [by repeat constructor|]. split; [by apply Forall_replicate|]. split; [intros [? _]%elem_of_replicate; done|]. cbn [a_pid a_cd]. lia.
Defined.
