(* ===== verification/Image.v ===== *)
(** The image viewer: user/graphic/image_viewer.cc (the BMP parser), user/view.cc and
    the demonstration user/lcd.cc.  The parser reads through the system calls, so its
    theorem holds for every kernel of the class [FilesLaw]; drawing is stores to the
    memory [framebuffer] returns. *)
From ITree Require Import ITree.
From S2P Require Import Prelude Mem Printk Stl Inode Process FsCommon FileData FileStream Directory Syscalls Mkfs UserSys UserPrograms UserFiles.

(** * image_viewer.cc *)
Definition compression_type_name : list string := ["no_compression"; "bi_rle8"; "bi_rle4"]%string.
(** [None]: the table is indexed past its end *)
Definition GetCompressionTypeName (type : Z) : option string := compression_type_name !! Z.to_nat type.
(** [Header], the 52 bytes that follow the two of the file's magic *)
Definition sizeof_BmpHeader : Z := 52.
Definition file_size (h : list Z) : Z := get_le h 0 4.
Definition data_offset (h : list Z) : Z := get_le h 8 4.
Definition bmp_width (h : list Z) : Z := get_le h 16 4.
Definition bmp_height (h : list Z) : Z := get_le h 20 4.
Definition planes (h : list Z) : Z := get_le h 24 2.
Definition bits_per_pixel (h : list Z) : Z := get_le h 26 2.
Definition compression (h : list Z) : Z := get_le h 28 4.
Definition image_size (h : list Z) : Z := get_le h 32 4.
Record bmpParser := BmpParser { header_ : list Z; fd_ : Z; is_valid_ : bool }.

Section viewer.
Context (U : uninit).
Abbreviation sayl := (print_level U).
(** [for (uint32_t i = 0; i < n; ++i) body(i)] *)
Definition count (n : Z) (body : Z → user ()) : user () :=
  loop (λ i, if i <? n then body i;; mret (inl (u32 (i + 1))) else mret (inr ())) 0.

Definition bmp_Init (fd : Z) (state : syscall.FileState) : user bmpParser :=
  '(_, l) ← sys (syscall.read fd sizeof_BmpHeader);
  let h := splice (u_bytes U 52) 0 l in
  let invalid := BmpParser h 0 false in
  if negb (planes h =? 1) then
    sayl error (line "Invalid 'planes' in bmp header, got: %d") [VInt (planes h)];; mret invalid
  else if data_offset h <? sizeof_BmpHeader then
    sayl error (line "Invalid 'data_offset' in file header, got: %d") [VInt (data_offset h)];; mret invalid
  else
    (if negb (file_size h =? syscall.st_size state) then
       sayl error (line "Invalid 'file_size' in file header, %d vs %d") [VInt (file_size h); VInt (syscall.st_size state)]
     else mret ());;
    let size := u32 (u32 (u32 (u32 (bits_per_pixel h / 8 * bmp_width h) + 3) / 4 * 4) * bmp_height h) in
    if ((compression h =? 0) && (8 <=? bits_per_pixel h)) && negb (size =? image_size h) then
      sayl error (line "Invalid 'image_size' in bmp header, %d vs %d") [VInt size; VInt (image_size h)];; mret invalid
    else
      name ← get "compression_type_name" (GetCompressionTypeName (compression h));
      sayl info (line "img H: %d, W: %d, bits_per_pixel: %d, compression_method: %s")
        [VInt (bmp_height h); VInt (bmp_width h); VInt (bits_per_pixel h); str (txt name)];;
      mret (BmpParser h fd true).

(** a store of [l] at [buf], which is the offset into the vector's buffer *)
Definition store_row (data : list Z) (buf : Z) (l : list Z) : user (list Z) :=
  if buf + Z.of_nat (length l) <=? Z.of_nat (length data) then mret (splice data (Z.to_nat buf) l)
  else undefined (Faulted "vector buffer").
(** [while (size > 0)]: a row in batches of at most 128 bytes *)
Definition read_row (fd buf size : Z) (data : list Z) : user (list Z) :=
  loop (λ '(buf, size, data),
    if 0 <? size then
      let count := if 128 <? size then 128 else size in
      '(_, l) ← sys (syscall.read fd count);
      data ← store_row data buf l;
      mret (inl (buf + count, size - count, data))
    else mret (inr data)) (buf, size, data).
Definition row_size (h : list Z) : Z := u32 (bmp_width h * bits_per_pixel h) / 8.
Definition padding (h : list Z) : Z := if row_size h mod 4 =? 0 then 0 else 4 - row_size h mod 4.
Definition read_rows (fd : Z) (h : list Z) (data : list Z) : user (list Z) :=
  loop (λ '(row_index, data),
    if row_index <? bmp_height h then
      data ← read_row fd (u32 ((bmp_height h - row_index - 1) * row_size h)) (row_size h) data;
      (if nonzero (padding h) then sys (syscall.read fd (padding h));; mret () else mret ());;
      mret (inl (u32 (row_index + 1), data))
    else mret (inr data)) (0, data).
(** [data] is the viewer's vector, empty before; the result is its buffer *)
Definition DoParse (p : bmpParser) : user (bool * list Z) :=
  if negb (is_valid_ p) then mret (false, [])
  else
    let h := header_ p in
    let img_size := u32 (bmp_height h * row_size h) in
    '(_, v) ← on_string (resize 0 (λ _, true) img_size) (@vector_empty Z);
    data ← read_rows (fd_ p) h (default [] (buffer_ v));
    mret (true, data).
Definition parser_height (p : bmpParser) : Z := if negb (is_valid_ p) then 0 else bmp_height (header_ p).
Definition parser_width (p : bmpParser) : Z := if negb (is_valid_ p) then 0 else bmp_width (header_ p).

Inductive ImageType := none | bmp | jpeg.
Record ImageViewer := MkViewer { image_parser_ : option bmpParser; data_ : list Z; image_type_ : ImageType }.
Definition no_image : ImageViewer := MkViewer None [] none.
(** the constructor *)
Definition new_ImageViewer (path : list Z) : user ImageViewer :=
  fd ← open path;
  if fd <? 0 then sayl error (line "Cannot open target file: %s") [str path];; mret no_image
  else
    '(_, file_state) ← fstat_into fd (u_state U);
    if negb (syscall.st_type file_state =? FT_regular_file) then
      sayl error (line "Target file: %s is not regular file") [str path];; mret no_image
    else
      '(_, l) ← sys (syscall.read fd 2);
      let buf := splice (u_bytes U 2) 0 l in
      if (default 0 (buf !! 0%nat) =? 66) && (default 0 (buf !! 1%nat) =? 77) then
        p ← bmp_Init fd file_state;
        mret (MkViewer (Some p) [] bmp)
      else sayl error (line "Not supported file format") [];; mret no_image.
Definition ImageViewer_Init (v : ImageViewer) : user (bool * ImageViewer) :=
  match image_parser_ v with
  | None => mret (false, v)
  | Some p => '(_, data) ← DoParse p; mret (true, MkViewer (Some p) data (image_type_ v))
  end.
Definition height (v : ImageViewer) : Z := from_option parser_height 0 (image_parser_ v).
Definition width (v : ImageViewer) : Z := from_option parser_width 0 (image_parser_ v).

(** * view.cc *)
Definition set_byte (frame_buffer i v : Z) : user () := sys (syscall.store (frame_buffer + u32 i) (u8 v)).
(** the pixels of the image that are on the screen, from blue-green-red to red-green-blue *)
Definition draw (frame_buffer : Z) (data : list Z) (vw vh sw sh : Z) : user () :=
  count vh (λ y,
    if sh <=? y then mret ()
    else count vw (λ x,
      if sw <=? x then mret ()
      else
        let src c := get "data" (data !! Z.to_nat (u32 ((y * vw + x) * 3 + c))) in
        v ← src 2; set_byte frame_buffer ((y * sw + x) * 4 + 0) v;;
        v ← src 1; set_byte frame_buffer ((y * sw + x) * 4 + 1) v;;
        v ← src 0; set_byte frame_buffer ((y * sw + x) * 4 + 2) v)).
Definition screen_info (junk : Z * Z) : user (option (Z * Z)) :=
  '(r, o) ← sys syscall.get_screen_info;
  if s32 r <? 0 then sayl error (line "get_screen_info failed") [];; mret None
  else
    let '(w, h) := default junk o in
    sayl info (line "display resolution: [width: %d, height: %d]") [VInt w; VInt h];;
    mret (Some (w, h)).
Definition view (junk : Z * Z) (argv : list (list Z)) : user Z :=
  if negb (argc argv =? 2) then sayl info (line "usage: view image_name") [];; mret (-1)
  else
    sys (syscall.dlopen (txt "libgraphic.so"));;
    path ← arg argv 1;
    viewer ← new_ImageViewer path;
    '(ret, viewer) ← ImageViewer_Init viewer;
    if negb ret then mret (-1)
    else
      info ← screen_info junk;
      match info with
      | None => mret (-1)
      | Some (sw, sh) =>
        frame_buffer ← sys syscall.framebuffer;
        draw frame_buffer (data_ viewer) (width viewer) (height viewer) sw sh;;
        sys syscall.frame_flush;;
        fd ← open console_path;
        sys (syscall.read fd 1);;
        sys syscall.detach_framebuffer;;
        mret 0
      end.

(** * lcd.cc *)
Definition cursor_image : list Z := concat (replicate (64 * 64) [255; 255; 0; 255]).
Definition lcd (junk : Z * Z) : user Z :=
  info ← screen_info junk;
  match info with
  | None => mret (-1)
  | Some (w, h) =>
    frame_buffer ← sys syscall.framebuffer;
    count h (λ y, count w (λ x,
      set_byte frame_buffer ((y * w + x) * 4) x;;
      set_byte frame_buffer ((y * w + x) * 4 + 1) 255;;
      set_byte frame_buffer ((y * w + x) * 4 + 2) (x + y)));;
    sys (syscall.setup_cursor cursor_image);;
    sys syscall.frame_flush;;
    loop (λ cnt,
      count h (λ y, count w (λ x, count 4 (λ z,
        set_byte frame_buffer ((y * w + x) * 4 + z) (if z =? Z.rem cnt 4 then 255 else 0))));;
      sys syscall.frame_flush;;
      sys (syscall.sleep 100);;
      mret (inl (s32 (cnt + 1)))) 0
  end.
End viewer.

(** * Lemmas *)
Lemma ends_count {S} (h : kernelH S) n body (Inv : Z → S → Prop) Q s :
  0 ≤ n < 2 ^ 32 → Inv 0 s → (∀ i s, 0 ≤ i < n → Inv i s → ends h (body i) (λ _ s', Inv (i + 1) s') s) →
  (∀ s, Inv n s → Q () s) → ends h (count n body) Q s.
Proof.
  intros Hn H0 Hb HQ. apply (ends_loop h _ (λ k i s, 0 ≤ i ≤ n ∧ Z.of_nat k = n - i ∧ Inv i s) _) with (n := Z.to_nat n).
  2: { split; [lia|]. split; [lia|done]. }
  clear s H0. intros k i s (Hi & Hk & HI). destruct (Z.ltb_spec i n) as [Hlt|Hge].
  - apply ends_bind. eapply ends_mono; [apply Hb; [lia|done]|]. intros [] s' HI'. apply ends_ret. rewrite wrap_small by lia.
    exists (Z.to_nat (n - (i + 1))). split; [lia|]. split; [lia|]. split; [lia|done].
  - apply ends_ret, HQ. by replace n with i by lia.
Qed.
Section parse.
Context {S : Type} (h : kernelH S) (V : UserFiles.view S) `{!FilesLaw h V} (fd : Z).
(** what is left to read at [fd] is [l], and nothing was printed *)
Definition reading (s : S) (l : list Z) (s' : S) : Prop :=
  ready V s' ∧ printed V [] s s' ∧ opened V s' fd (Regular l).
Lemma read_exact s0 s l rest : reading s0 (l ++ rest) s → Z.of_nat (length l) ≤ 4096 →
  ends h (sys (syscall.read fd (Z.of_nat (length l)))) (λ '(_, d) s', d = l ∧ reading s0 rest s') s.
Proof using All.
  intros (Hr & Hp & Ho) Hl. apply ends_sys. eapply wp_mono; [apply (read_law s fd _ (Z.of_nat (length l)) Hr Ho); lia|].
  intros [r d] s' (-> & _ & Ht & Hk & Hm & Ho'). rewrite Nat2Z.id, take_app_length in *. rewrite drop_app_length in Ho'.
  split; [done|]. split; [by apply Hk|]. split; [|done]. apply (printed_trans V [] [] _ _ _ Hp). split; [by rewrite app_nil_r|done].
Qed.
Lemma read_row_run s0 s buf r rest data : reading s0 (r ++ rest) s → 0 ≤ buf → buf + Z.of_nat (length r) ≤ Z.of_nat (length data) →
  ends h (read_row fd buf (Z.of_nat (length r)) data) (λ d s', d = splice data (Z.to_nat buf) r ∧ reading s0 rest s') s.
Proof using All.
  intros Hs Hbuf Hlen.
  apply (ends_loop h _ (λ n '(b, size, d) s, ∃ r1 r2, r = r1 ++ r2 ∧ size = Z.of_nat (length r2) ∧ n = length r2 ∧
    b = buf + Z.of_nat (length r1) ∧ d = splice data (Z.to_nat buf) r1 ∧ reading s0 (r2 ++ rest) s) _) with (n := length r).
  2: { exists [], r. split_and!; try done; [by rewrite Z.add_0_r|]. unfold splice. cbn. by rewrite Nat.add_0_r, take_drop. }
  clear Hs s. intros n [[b size] d] s (r1 & r2 & -> & -> & -> & -> & -> & Hs). rewrite length_app in Hlen.
  destruct (Z.ltb_spec 0 (Z.of_nat (length r2))) as [Hlt|Hge].
  - cbv zeta. set (c := if 128 <? _ then _ else _). assert (c = Z.of_nat (length (take 128 r2))) as ->.
    { unfold c. rewrite length_take. destruct (Z.ltb_spec 128 (Z.of_nat (length r2))); lia. }
    rewrite <-(take_drop 128 r2) in Hs. set (x := take 128 r2) in *. set (y := drop 128 r2) in *.
    assert (length r2 = length x + length y)%nat as Exy by (rewrite <-length_app; unfold x, y; by rewrite take_drop).
    assert (0 < length x ≤ 128)%nat as Hx by (unfold x; rewrite length_take; lia).
    apply ends_bind. eapply ends_mono; [rewrite <-app_assoc in Hs; apply (read_exact _ _ _ _ Hs); lia|]. intros [? d] s' [-> Hs'].
    apply ends_bind. unfold store_row. rewrite length_splice by lia. rewrite (proj2 (Z.leb_le _ _)) by lia.
    apply ends_ret, ends_ret. exists (length y). split; [lia|]. exists (r1 ++ x), y. rewrite <-app_assoc.
    split; [unfold x, y; by rewrite take_drop|]. split; [lia|]. split; [done|]. split; [rewrite length_app; lia|].
    split; [|done]. rewrite Z2Nat.inj_add, Nat2Z.id by lia. apply splice_app. lia.
  - apply ends_ret. assert (r2 = []) as -> by (apply nil_length_inv; lia). rewrite app_nil_r. done.
Qed.
(** the rows in the order of the file, each with its padding *)
Definition file_rows (fr : list (list Z * list Z)) : list Z := concat ((λ '(r, p), r ++ p) <$> fr).
Definition rows_ok (h : list Z) (fr : list (list Z * list Z)) : Prop :=
  Z.of_nat (length fr) = bmp_height h ∧
  Forall (λ '(r, p), Z.of_nat (length r) = row_size h ∧ Z.of_nat (length p) = padding h) fr ∧
  bmp_height h < 2 ^ 32 ∧ bmp_height h * row_size h < 2 ^ 32.
(** The format, apart from the parser's arithmetic: the rows of [width] pixels of [bpp] bits,
    whole bytes, each followed by the fewest bytes that make its length a multiple of four *)
Definition stored_rows (width height bpp : Z) (fr : list (list Z * list Z)) : Prop :=
  Z.of_nat (length fr) = height ∧ height < 2 ^ 32 ∧ 0 ≤ width * bpp < 2 ^ 32 ∧ height * (width * bpp) < 8 * 2 ^ 32 ∧
  Forall (λ '(r, p), 8 * Z.of_nat (length r) = width * bpp ∧ (length p < 4)%nat ∧ (4 | Z.of_nat (length r + length p))) fr.
Lemma stored_rows_ok hd fr : stored_rows (bmp_width hd) (bmp_height hd) (bits_per_pixel hd) fr → rows_ok hd fr.
Proof.
  intros (HH & Hh & Hw & Hs & Hrow). split; [done|]. rewrite Forall_forall in Hrow. split; [|split; [done|]].
  - apply Forall_forall. intros [r p] Hin. destruct (Hrow _ Hin) as (Hr & Hp & k & Hk).
    assert (row_size hd = Z.of_nat (length r)) as E by (unfold row_size; rewrite wrap_small by lia; dlia).
    split; [done|]. unfold padding. rewrite E. destruct (Z.eqb_spec (Z.of_nat (length r) mod 4) 0); dlia.
  - unfold row_size. rewrite wrap_small by lia. assert (8 * (bmp_width hd * bits_per_pixel hd / 8) ≤ bmp_width hd * bits_per_pixel hd) by dlia.
    nia.
Qed.
(** the rows from top to bottom *)
Definition image_of (fr : list (list Z * list Z)) : list Z := concat (reverse (fst <$> fr)).
Lemma padding_range hd : 0 ≤ padding hd < 4.
Proof. unfold padding. case_match; dlia. Qed.
Lemma read_rows_run s0 s hd fr rest data : rows_ok hd fr → 0 ≤ row_size hd → reading s0 (file_rows fr ++ rest) s →
  Z.of_nat (length data) = bmp_height hd * row_size hd →
  ends h (read_rows fd hd data) (λ d s', d = image_of fr ∧ reading s0 rest s') s.
Proof using All.
  intros (HH & Hrow & Hh & Hsz) HR Hs Hlen. pose proof (padding_range hd) as Hpad.
  apply (ends_loop h _ (λ n '(i, d) s, ∃ fr1 fr2 pre, fr = fr1 ++ fr2 ∧ i = Z.of_nat (length fr1) ∧ n = length fr2 ∧
    Z.of_nat (length pre) = Z.of_nat (length fr2) * row_size hd ∧ d = pre ++ image_of fr1 ∧ reading s0 (file_rows fr2 ++ rest) s) _) with (n := length fr).
  2: { exists [], fr, data. split_and!; try done; [lia|]. unfold image_of. by rewrite app_nil_r. }
  clear Hs s Hlen data. intros n [i d] s (fr1 & fr2 & pre & -> & -> & -> & Hpre & -> & Hs). rewrite length_app in HH.
  destruct fr2 as [|[r p] fr2].
  { rewrite (proj2 (Z.ltb_ge _ _)) by (cbn in HH; lia). apply ends_ret. rewrite app_nil_r. cbn in Hpre.
    by rewrite (nil_length_inv pre) by lia. }
  cbn [length] in HH, Hpre. rewrite (proj2 (Z.ltb_lt _ _)) by lia. apply Forall_app in Hrow as [Hrow1 Hrow2].
  apply Forall_cons in Hrow2 as [[Hr Hp] Hrow2]. apply ends_bind.
  assert (bmp_height hd - Z.of_nat (length fr1) - 1 = Z.of_nat (length fr2)) as -> by lia.
  assert (0 ≤ Z.of_nat (length fr2) * row_size hd ≤ bmp_height hd * row_size hd) as HRs by nia. rewrite wrap_small by lia.
  unfold file_rows in Hs. cbn [fmap list_fmap concat] in Hs. fold (file_rows fr2) in Hs. rewrite <-!app_assoc in Hs. rewrite <-Hr.
  assert (Z.of_nat (length pre) = Z.of_nat (length fr2) * Z.of_nat (length r) + Z.of_nat (length r)) as Hpre' by nia.
  eapply ends_mono; [apply (read_row_run s0 s); [exact Hs|nia|rewrite length_app; nia]|].
  intros d s1 [-> Hs1]. apply ends_bind. apply (ends_mono _ _ (λ _ s', reading s0 (file_rows fr2 ++ rest) s')).
  { destruct (Z.eqb_spec (padding hd) 0) as [E|E].
    - rewrite E. apply ends_ret. rewrite E in Hp. by rewrite (nil_length_inv p) in Hs1 by lia.
    - rewrite (proj2 (nonzero_true _)) by done. apply ends_bind. rewrite <-Hp.
      eapply ends_mono; [apply (read_exact _ _ _ _ Hs1); lia|]. intros [? ?] s2 [_ Hs2]. by apply ends_ret. }
  intros [] s2 Hs2. apply ends_ret. rewrite wrap_small by lia. exists (length fr2). split; [cbn; lia|].
  exists (fr1 ++ [(r, p)]), fr2, (take (Z.to_nat (Z.of_nat (length fr2) * Z.of_nat (length r))) pre).
  split; [by rewrite <-app_assoc|]. split; [rewrite length_app; cbn; lia|]. split; [done|].
  split; [rewrite length_take, Hr in *; nia|]. split; [|done].
  unfold image_of. rewrite fmap_app, reverse_app. cbn [fmap list_fmap reverse rev_append app concat fst].
  unfold splice. rewrite take_app_le, drop_app_ge by nia. do 2 f_equal.
  replace (_ - _)%nat with 0%nat by nia. done.
Qed.
End parse.

(** * Drawing: stores to the screen's memory *)
Section draw.
Context (fb : Z) (data : list Z) (vw vh sw sh : Z).
Definition screen : kernelH (gmap Z Z) := λ T e,
  match e with
  | syscall.store p v => modify (λ m, <[p := v]> m)
  | _ => stop_with (Faulted "not a store")
  end.
Definition pixel (x y c : Z) : Z := fb + ((y * sw + x) * 4 + c).
Definition sample (x y c : Z) : Z := u8 (default 0 (data !! Z.to_nat ((y * vw + x) * 3 + (2 - c)))).
(** the channels of the pixels before column [j] of row [i], in the order they are drawn *)
Definition drawn_to (i j : Z) (x y c : Z) : Prop :=
  0 ≤ x < Z.min vw sw ∧ 0 ≤ y < Z.min vh sh ∧ 0 ≤ c < 3 ∧ (y < i ∨ y = i ∧ x < j).
(** [m'] is [m] with what [P] selects drawn *)
Definition draws (P : Z → Z → Z → Prop) (m m' : gmap Z Z) : Prop :=
  (∀ x y c, P x y c → m' !! pixel x y c = Some (sample x y c)) ∧
  (∀ a, (∀ x y c, P x y c → a ≠ pixel x y c) → m' !! a = m !! a).
Definition sizes_ok : Prop :=
  0 ≤ vw < 2 ^ 32 ∧ 0 ≤ vh < 2 ^ 32 ∧ 0 ≤ sw ∧ 0 ≤ sh ∧ sw * sh * 4 < 2 ^ 32 ∧ vw * vh * 3 ≤ Z.of_nat (length data) < 2 ^ 32.
Lemma draws_ext P P' m m' : (∀ x y c, P x y c ↔ P' x y c) → draws P m m' → draws P' m m'.
Proof. intros HP [H1 H2]. split; [intros x y c H; by apply H1, HP|]. intros a Ha. apply H2. intros x y c H. by apply Ha, HP. Qed.
(** one more channel, at an address of its own *)
Lemma draws_store P m m' x y c : draws P m m' → (∀ x' y' c', P x' y' c' → pixel x' y' c' = pixel x y c → x' = x ∧ y' = y ∧ c' = c) →
  draws (λ x' y' c', P x' y' c' ∨ (x' = x ∧ y' = y ∧ c' = c)) m (<[pixel x y c := sample x y c]> m').
Proof.
  intros [H1 H2] Hinj. split.
  - intros x' y' c' HP. destruct (decide (pixel x y c = pixel x' y' c')) as [E|E].
    + assert (x' = x ∧ y' = y ∧ c' = c) as (-> & -> & ->) by naive_solver. apply lookup_insert_eq.
    + rewrite lookup_insert_ne by done. apply H1. naive_solver.
  - intros a Ha. rewrite lookup_insert_ne; [|intros E; apply (Ha x y c); auto]. apply H2. auto.
Qed.
Lemma pixel_inj x y c x' y' c' : 0 ≤ x < sw → 0 ≤ x' < sw → 0 ≤ c < 4 → 0 ≤ c' < 4 →
  pixel x' y' c' = pixel x y c → x' = x ∧ y' = y ∧ c' = c.
Proof.
  intros Hx Hx' Hc Hc' E. unfold pixel in E. assert (y' * sw + x' = y * sw + x ∧ c' = c) as [E' ->] by lia.
  assert (y' = y) as -> by (destruct (Z.lt_total y' y) as [?|[?|?]]; nia). split; [lia|done].
Qed.
Lemma set_channel x y c (m : gmap Z Z) : sizes_ok → 0 ≤ x < Z.min vw sw → 0 ≤ y < Z.min vh sh → 0 ≤ c < 3 →
  ∃ v, data !! Z.to_nat (u32 ((y * vw + x) * 3 + (2 - c))) = Some v ∧
    screen _ (syscall.store (fb + u32 ((y * sw + x) * 4 + c)) (u8 v)) m = Ok ((), <[pixel x y c := sample x y c]> m).
Proof.
  intros (Hvw & Hvh & Hsw & Hsh & Hs & Hd) Hx Hy Hc.
  assert (0 ≤ y * vw + x < vw * vh) as Hi by nia. assert (0 ≤ y * sw + x < sw * sh) as Hj by nia.
  destruct (lookup_lt_is_Some_2 data (Z.to_nat ((y * vw + x) * 3 + (2 - c)))) as [v Hv]; [lia|].
  exists v. rewrite !wrap_small by lia. split; [done|]. unfold pixel, sample. by rewrite Hv.
Qed.
Lemma draw_pixel x y (m m' : gmap Z Z) (P : Z → Z → Z → Prop) : sizes_ok → 0 ≤ x < Z.min vw sw → 0 ≤ y < Z.min vh sh →
  (∀ x' y' c', P x' y' c' → 0 ≤ x' < sw ∧ 0 ≤ c' < 3 ∧ (x' ≠ x ∨ y' ≠ y)) → draws P m m' →
  ends screen (
    let src c := get "data" (data !! Z.to_nat (u32 ((y * vw + x) * 3 + c))) in
    v ← src 2; set_byte fb ((y * sw + x) * 4 + 0) v;;
    v ← src 1; set_byte fb ((y * sw + x) * 4 + 1) v;;
    v ← src 0; set_byte fb ((y * sw + x) * 4 + 2) v) (λ _ m', draws (λ x' y' c', P x' y' c' ∨ (x' = x ∧ y' = y ∧ 0 ≤ c' < 3)) m m') m'.
Proof.
  intros Hs Hx Hy HP Hd.
  destruct (set_channel x y 0 m' Hs Hx Hy ltac:(lia)) as (v0 & E0 & F0). set (m0 := <[_ := _]> m') in F0.
  destruct (set_channel x y 1 m0 Hs Hx Hy ltac:(lia)) as (v1 & E1 & F1). set (m1 := <[_ := _]> m0) in F1.
  destruct (set_channel x y 2 m1 Hs Hx Hy ltac:(lia)) as (v2 & E2 & F2). set (m2 := <[_ := _]> m1) in F2.
  change (2 - 0) with 2 in E0. change (2 - 1) with 1 in E1. change (2 - 2) with 0 in E2. cbv beta zeta. unfold set_byte.
  rewrite E0. apply ends_bind, ends_ret, ends_bind, ends_sys. unfold wp. rewrite F0.
  rewrite E1. apply ends_bind, ends_ret, ends_bind, ends_sys. unfold wp. rewrite F1.
  rewrite E2. apply ends_bind, ends_ret, ends_sys. unfold wp. rewrite F2.
  assert (draws (λ x' y' c', ((P x' y' c' ∨ x' = x ∧ y' = y ∧ c' = 0) ∨ x' = x ∧ y' = y ∧ c' = 1) ∨ x' = x ∧ y' = y ∧ c' = 2) m m2) as H.
  { unfold m2, m1, m0. repeat apply draws_store; [done|..]; intros x' y' c' HP' E;
      (apply pixel_inj in E; [done|lia|naive_solver lia|lia|naive_solver lia]). }
  eapply draws_ext; [|exact H]. intros x' y' c'. cbv beta. intuition lia.
Qed.
Lemma drawn_skip_row i j m m' : draws (drawn_to i j) m m' → Z.min vw sw ≤ j → draws (drawn_to (i + 1) 0) m m'.
Proof. intros Hd Hj. eapply draws_ext; [|exact Hd]. intros x y c. unfold drawn_to. lia. Qed.
Lemma drawn_skip_pixel i j m m' : draws (drawn_to i j) m m' → sw ≤ j → draws (drawn_to i (j + 1)) m m'.
Proof. intros Hd Hj. eapply draws_ext; [|exact Hd]. intros x y c. unfold drawn_to. lia. Qed.
End draw.

(** * Properties *)
(** C15: A BMP image is stored from the bottom row up, each row of width * bits / 8 bytes
    (a whole number) and then the fewest bytes that bring it to a multiple of four.  The
    parser turns it into the rows from top to bottom without that padding, whatever the
    length of a row (it reads in batches of 128 bytes), for every kernel that keeps the
    laws of [FilesLaw]; it reads exactly the rows, and prints nothing. *)
Theorem DoParse_reads_image {S} (h : kernelH S) (V : UserFiles.view S) `{!FilesLaw h V} p fr rest s :
  is_valid_ p = true → stored_rows (bmp_width (header_ p)) (bmp_height (header_ p)) (bits_per_pixel (header_ p)) fr →
  ready V s → opened V s (fd_ p) (Regular (file_rows fr ++ rest)) →
  ends h (DoParse p) (λ '(ok, data) s', ok = true ∧ data = image_of fr ∧ reading V (fd_ p) s rest s') s.
Proof.
  intros Hv Hst Hr Ho. pose proof (stored_rows_ok _ _ Hst) as Hok.
  assert (0 ≤ row_size (header_ p)) as HR by (apply Z.div_pos; [apply wrap_range; lia|done]). unfold DoParse. rewrite Hv. cbn [negb]. cbv zeta. pose proof Hok as (HH & _ & Hh & Hsz).
  rewrite wrap_small by nia. set (n := bmp_height _ * row_size _) in *. apply ends_bind.
  assert (∃ v, resize 0 (λ _ : Z, true) n vector_empty = Ok ((), v) ∧ length (default [] (buffer_ v)) = Z.to_nat n) as (v & E & Hlen).
  { unfold resize, reserve, mbind, M_bind, Stl.get, gets, put, modify, lift_res. cbn [buffer_ vector_empty capacity_ size_ mret M_ret].
    destruct (Z.leb_spec n 0) as [Hn|Hn]; cbn [mret M_ret].
    - eexists. split; [done|]. cbn. lia.
    - change (Z.to_nat 0) with 0%nat. cbn [copy_loop new_T]. eexists. split; [done|]. cbn [buffer_ default]. apply length_replicate. }
  unfold on_string. rewrite E. apply ends_ret, ends_bind.
  eapply ends_mono; [apply (read_rows_run h V (fd_ p) s s (header_ p) fr rest); [done|lia| |lia]|].
  - split; [done|]. split; [apply printed_nil|done].
  - intros d s' [-> Hs']. by apply ends_ret.
Qed.
(** a 2 by 2 image of 24 bits, and the four bytes after it, in a file of a built image *)
Definition demo_header : list Z :=
  le_bytes 4 70 ++ le_bytes 4 0 ++ le_bytes 4 54 ++ le_bytes 4 40 ++ le_bytes 4 2 ++ le_bytes 4 2 ++ le_bytes 2 1 ++ le_bytes 2 24 ++
  le_bytes 4 0 ++ le_bytes 4 16 ++ replicate 16 0.
Definition demo_rows : list (list Z * list Z) := [([7; 8; 9; 10; 11; 12], [0; 0]); ([1; 2; 3; 4; 5; 6], [0; 0])].
Lemma DoParse_reads_image_witness :
  let data := file_rows demo_rows ++ [9; 9; 9; 9] in
  ∃ im ino, mkfs_image 50 [Some (HostFile [97] data)] = Some im ∧
    ends (kernel_calls (demo_uproc false)) (DoParse (BmpParser demo_header 1 true))
      (λ '(ok, d) _, ok = true ∧ d = [1; 2; 3; 4; 5; 6; 7; 8; 9; 10; 11; 12])
      (demo_ukernel false im [MkFd FT_device 0 5 inode0; MkFd FT_regular_file 0 1 ino]).
Proof.
  set (data := file_rows demo_rows ++ [9; 9; 9; 9]). set (fs := [Some (HostFile [97] data)]).
  destruct (mkfs_image_run 50 fs (replicate 512 0xaa) (current_path (demo_utask []))) as (im & E & Hopen).
  - vm_compute. split; [reflexivity|discriminate].
  - repeat constructor; cbn; try lia; discriminate.
  - cbn. lia.
  - reflexivity.
  - assert (name_ok [97]) as Hn by (split; [discriminate|]; split; [repeat constructor; discriminate|cbn; lia]).
    pose proof (Hopen [97] Hn) as H. apply wp_ok in H as ([n o] & s' & _ & _ & Hr). change (number_of (omap id fs) [97]) with (Some 0%nat) in Hr.
    destruct Hr as (_ & f & ino & bl & Hf & _ & _ & Hty & Hsh & Hd). injection Hf as <-. exists im, ino. split; [exact E|].
    eapply ends_mono.
    + apply (DoParse_reads_image (kernel_calls (demo_uproc false)) (kernel_view (demo_uproc false)) (BmpParser demo_header 1 true) demo_rows [9; 9; 9; 9]).
      * reflexivity.
      * split; [reflexivity|]. split; [reflexivity|]. split; [split; [discriminate|reflexivity]|]. split; [reflexivity|].
        apply Forall_cons. split; [|apply Forall_cons; split; [|apply Forall_nil; exact I]];
          (split; [reflexivity|]; split; [cbn; lia|]; exists 2; reflexivity).
      * apply demo_ready. cbn. lia.
      * split; [discriminate|]. exists 0, 1, ino. split; [reflexivity|]. exists bl. split; [exact Hsh|].
        pose proof (sh_size _ _ _ Hsh) as Hsz. split; [lia|]. change (k_disk _) with im. rewrite Hd. reflexivity.
    + intros [ok d] s2 (-> & -> & _). split; reflexivity.
Defined.

(** C16: drawing an image puts the pixels that are both on the screen and in the image at
    their places, with the channels from blue-green-red to red-green-blue, and changes
    no other byte; pixels beyond the screen's width or height are skipped. *)
Theorem draw_correct fb data vw vh sw sh (m : gmap Z Z) :
  sizes_ok data vw vh sw sh →
  ends screen (draw fb data vw vh sw sh) (λ _ m', draws fb data vw sw (λ x y c, 0 ≤ x < Z.min vw sw ∧ 0 ≤ y < Z.min vh sh ∧ 0 ≤ c < 3) m m') m.
Proof.
  intros Hs. pose proof Hs as (Hvw & Hvh & Hsw & Hsh & _). unfold draw.
  apply (ends_count _ _ _ (λ i m', draws fb data vw sw (drawn_to vw vh sw sh i 0) m m')); [done| | |].
  - split; [|done]. intros x y c H. unfold drawn_to in H. lia.
  - intros i m1 Hi Hd. cbv beta. destruct (Z.leb_spec sh i) as [Hge|Hlt].
    { apply ends_ret. eapply draws_ext; [|exact Hd]. intros x y c. unfold drawn_to. lia. }
    apply (ends_count _ _ _ (λ j m', draws fb data vw sw (drawn_to vw vh sw sh i j) m m')); [done|done| |].
    + intros j m2 Hj Hd2. cbv beta. destruct (Z.leb_spec sw j) as [Hge2|Hlt2].
      { apply ends_ret. by apply drawn_skip_pixel. }
      eapply ends_mono; [apply (draw_pixel fb data vw vh sw sh j i m m2 (drawn_to vw vh sw sh i j)); [done|lia|lia| |done]|].
      * intros x' y' c' H. unfold drawn_to in H. lia.
      * intros [] m3 Hd3. eapply draws_ext; [|exact Hd3]. intros x y c. unfold drawn_to. cbv beta. lia.
    + intros m2 Hd2. eapply drawn_skip_row; [exact Hd2|lia].
  - intros m1 Hd. eapply draws_ext; [|exact Hd]. intros x y c. unfold drawn_to. lia.
Qed.
(** a 2 by 2 image on a screen of 3 by 1 *)
Lemma draw_correct_witness :
  ∃ m, does screen (draw 0x1000 [1; 2; 3; 4; 5; 6; 7; 8; 9; 10; 11; 12] 2 2 3 1) ∅ (Ok ((), m)) ∧
    m !! 0x1000 = Some 3 ∧ m !! 0x1006 = Some 4 ∧ m !! 0x1003 = None ∧ m !! 0x100c = None.
Proof.
  destruct (draw_correct 0x1000 [1; 2; 3; 4; 5; 6; 7; 8; 9; 10; 11; 12] 2 2 3 1 ∅) as ([] & m & Hm & Hin & Hout).
  - unfold sizes_ok. cbn. lia.
  - exists m. split; [exact Hm|]. split; [|split; [|split]].
    + apply (Hin 0 0 0). lia.
    + apply (Hin 1 0 2). lia.
    + apply (Hout 0x1003). intros x y c H. unfold pixel. lia.
    + apply (Hout 0x100c). intros x y c H. unfold pixel. lia.
Defined.
