(* ===== verification/ContextSwitch.v ===== *)
(** The assembly of the kernel that saves and restores registers: kernel/switch.S,
    context_switch_user.S, context_switch_kernel.S and timer_handler.S, as lists of
    instructions over a machine of registers, CSRs and memory.  The offsets are those of
    the structs [RegFrame] (kernel/regs_frame.hpp, from which the build generates
    reg_frame_offset.h) and [SavedContext] (kernel/process.h). *)
From S2P Require Import Prelude Riscv Mem Process.

(** * The machine *)
Module X.
Inductive xreg :=
| ra | sp | gp | tp | t0 | t1 | t2 | s0 | s1 | a0 | a1 | a2 | a3 | a4 | a5 | a6 | a7
| s2 | s3 | s4 | s5 | s6 | s7 | s8 | s9 | s10 | s11 | t3 | t4 | t5 | t6.
End X.
#[export] Instance xreg_eq_dec : EqDecision X.xreg.
Proof. solve_decision. Defined.
(** the registers but for the zero register, the CSRs and the memory *)
Record mach := Mach { xr : X.xreg → Z; mcsr : csrs; mm : mem }.
Inductive instr :=
| sd (rs : X.xreg) (off : Z) (base : X.xreg)
| ld (rd : X.xreg) (off : Z) (base : X.xreg)
| csrr_ (rd : X.xreg) (c : csr)
| csrw_ (c : csr) (rs : X.xreg)
| csrrw (rd : X.xreg) (c : csr) (rs : X.xreg)
| addi (rd rs : X.xreg) (imm : Z)
| add (rd rs1 rs2 : X.xreg)
| la (rd : X.xreg) (addr : Z).
Definition setr (r : X.xreg) (v : Z) (f : X.xreg → Z) : X.xreg → Z := λ r', if decide (r = r') then u64 v else f r'.
Definition step (i : instr) (m : mach) : mach :=
  match i with
  | sd rs off base => Mach (xr m) (mcsr m) (store64 (mm m) (xr m base + off) (xr m rs))
  | ld rd off base => Mach (setr rd (load64 (mm m) (xr m base + off)) (xr m)) (mcsr m) (mm m)
  | csrr_ rd c => Mach (setr rd (mcsr m c) (xr m)) (mcsr m) (mm m)
  | csrw_ c rs => Mach (xr m) (csrw c (xr m rs) (mcsr m)) (mm m)
  | csrrw rd c rs => Mach (setr rd (mcsr m c) (xr m)) (csrw c (xr m rs) (mcsr m)) (mm m)
  | addi rd rs imm => Mach (setr rd (xr m rs + imm) (xr m)) (mcsr m) (mm m)
  | add rd rs1 rs2 => Mach (setr rd (xr m rs1 + xr m rs2) (xr m)) (mcsr m) (mm m)
  | la rd addr => Mach (setr rd addr (xr m)) (mcsr m) (mm m)
  end.
Fixpoint exec (l : list instr) (m : mach) : mach :=
  match l with [] => m | i :: l => exec l (step i m) end.
Definition saves (base : X.xreg) (l : list (X.xreg * Z)) : list instr := (λ '(r, o), sd r o base) <$> l.
Definition loads (base : X.xreg) (l : list (X.xreg * Z)) : list instr := (λ '(r, o), ld r o base) <$> l.
(** registers in consecutive slots of eight bytes *)
Definition slots (first : Z) (l : list X.xreg) : list (X.xreg * Z) := imap (λ i r, (r, 8 * (first + Z.of_nat i))) l.

(** * The code *)
(** ** switch.S; it goes on at [ra] *)
Definition saved_regs : list X.xreg :=
  [X.ra; X.s0; X.s1; X.s2; X.s3; X.s4; X.s5; X.s6; X.s7; X.s8; X.s9; X.s10; X.s11; X.sp].
Definition context_slots : list (X.xreg * Z) := slots 0 saved_regs.
Definition Switch : list instr := saves X.a0 context_slots ++ loads X.a1 context_slots.

(** ** context_switch_user.S *)
(** the layout of [RegFrame]: the members are in the order of the registers *)
Definition frame_regs : list X.xreg :=
  [X.ra; X.sp; X.gp; X.tp; X.t0; X.t1; X.t2; X.s0; X.s1; X.a0; X.a1; X.a2; X.a3; X.a4; X.a5; X.a6; X.a7;
   X.s2; X.s3; X.s4; X.s5; X.s6; X.s7; X.s8; X.s9; X.s10; X.s11; X.t3; X.t4; X.t5; X.t6].
Definition frame_slots : list (X.xreg * Z) := slots 0 frame_regs.
Definition A0_OFFSET : Z := 8 * 9.
(** the saves before and after that of [a0], and the same registers' loads *)
Definition slots_before_a0 : list (X.xreg * Z) := take 9 frame_slots.
Definition slots_after_a0 : list (X.xreg * Z) := drop 10 frame_slots.
Section code.
(** addresses of symbols: the kernel's vector table and [time_scratch] *)
Context (kernel_exception_table time_scratch : Z).
(** up to the jump to ProcessUserTrap *)
Definition preserve_user_context : list instr :=
  [csrrw X.a0 c_mscratch X.a0] ++ saves X.a0 slots_before_a0 ++
  [csrr_ X.s1 c_mscratch; sd X.s1 A0_OFFSET X.a0] ++ saves X.a0 slots_after_a0 ++
  [ld X.sp RegFrame_kernel_sp X.a0;
   csrr_ X.a1 c_mepc; sd X.a1 RegFrame_mepc X.a0;
   csrr_ X.a1 c_mcause; sd X.a1 RegFrame_mcause X.a0;
   csrrw X.a0 c_mscratch X.a0;
   la X.a0 kernel_exception_table; addi X.a0 X.a0 1; csrw_ c_mtvec X.a0].
(** up to the [mret] *)
Definition restore_user_context : list instr :=
  [csrw_ c_mscratch X.a0] ++ loads X.a0 (slots_before_a0 ++ slots_after_a0) ++ [ld X.a0 A0_OFFSET X.a0].

(** ** context_switch_kernel.S, before and after the call of ProcessKernelTrap *)
Definition kernel_slots : list (X.xreg * Z) :=
  slots 0 [X.ra; X.gp; X.tp; X.t0; X.t1; X.t2; X.a0; X.a1; X.a2; X.a3; X.a4; X.a5; X.a6; X.a7; X.t3; X.t4; X.t5; X.t6].
Definition kernel_intr_enter : list instr :=
  [addi X.sp X.sp (-152)] ++ saves X.sp kernel_slots ++ [csrr_ X.t0 c_mepc; sd X.t0 (18 * 8) X.sp].
Definition kernel_intr_leave : list instr :=
  [ld X.t0 (18 * 8) X.sp; csrw_ c_mepc X.t0] ++ loads X.sp kernel_slots ++ [addi X.sp X.sp 152].

(** ** timer_handler.S, with the words of [temporary_space], the 128th of the frame on: from user mode with the first four temporary slots, from the
    kernel with the next four *)
Definition timer_slots (first : Z) : list (X.xreg * Z) := slots (128 + first) [X.a1; X.a2; X.a3; X.a4].
Definition timer_handler (first : Z) : list instr :=
  [csrrw X.a0 c_mscratch X.a0] ++ saves X.a0 (timer_slots first) ++
  [la X.a4 time_scratch; ld X.a1 0 X.a4; ld X.a3 0 X.a1; ld X.a2 8 X.a4; add X.a3 X.a3 X.a2; sd X.a3 0 X.a1] ++
  loads X.a0 (timer_slots first) ++ [csrrw X.a0 c_mscratch X.a0].
Definition user_timer_handler : list instr := timer_handler 0 ++ preserve_user_context.
Definition kernel_timer_handler : list instr := timer_handler 4 ++ kernel_intr_enter.
End code.

(** * Lemmas *)
Lemma exec_app l1 l2 m : exec (l1 ++ l2) m = exec l2 (exec l1 m).
Proof. revert m. induction l1; intros m; cbn; auto. Qed.
Lemma setr_same r v f : setr r v f r = u64 v.
Proof. unfold setr. by rewrite decide_True. Qed.
Lemma setr_ne r r' v f : r ≠ r' → setr r v f r' = f r'.
Proof. intros. unfold setr. by rewrite decide_False. Qed.
Lemma exec_cons i l m : exec (i :: l) m = exec l (step i m).
Proof. done. Qed.
Lemma exec_nil m : exec [] m = m.
Proof. done. Qed.
Lemma step_sd rs off base x c h : step (sd rs off base) (Mach x c h) = Mach x c (store64 h (x base + off) (x rs)).
Proof. done. Qed.
Lemma step_ld rd off base x c h : step (ld rd off base) (Mach x c h) = Mach (setr rd (load64 h (x base + off)) x) c h.
Proof. done. Qed.
Lemma step_csrr rd r x c h : step (csrr_ rd r) (Mach x c h) = Mach (setr rd (c r) x) c h.
Proof. done. Qed.
Lemma step_csrw r rs x c h : step (csrw_ r rs) (Mach x c h) = Mach x (csrw r (x rs) c) h.
Proof. done. Qed.
Lemma step_csrrw rd r rs x c h : step (csrrw rd r rs) (Mach x c h) = Mach (setr rd (c r) x) (csrw r (x rs) c) h.
Proof. done. Qed.
Lemma step_addi rd rs imm x c h : step (addi rd rs imm) (Mach x c h) = Mach (setr rd (x rs + imm) x) c h.
Proof. done. Qed.
Lemma step_add rd rs1 rs2 x c h : step (add rd rs1 rs2) (Mach x c h) = Mach (setr rd (x rs1 + x rs2) x) c h.
Proof. done. Qed.
Lemma step_la rd a x c h : step (la rd a) (Mach x c h) = Mach (setr rd a x) c h.
Proof. done. Qed.
Lemma mm_Mach x c h : mm (Mach x c h) = h.
Proof. done. Qed.
(** runs instructions from a machine that is given by its parts *)
Ltac run :=
  rewrite ?exec_cons, ?exec_nil;
  repeat (first [rewrite step_sd | rewrite step_ld | rewrite step_csrr | rewrite step_csrw | rewrite step_csrrw
                |rewrite step_addi | rewrite step_add | rewrite step_la]).
(** reads registers and CSRs after writes to named ones *)
Ltac regs :=
  repeat match goal with
  | |- context [setr ?r ?v ?f ?r] => rewrite (setr_same r v f)
  | |- context [csrw ?r ?v ?f ?r] => rewrite (csrw_same r v f)
  | |- context [setr ?r ?v ?f ?r'] => rewrite (setr_ne r r' v f) by congruence
  | |- context [csrw ?r ?v ?f ?r'] => rewrite (csrw_ne r r' v f) by congruence
  end.
(** slots that do not overlap: distinct multiples of eight *)
Definition spread (l : list (X.xreg * Z)) : Prop :=
  ∀ i j x y, l !! i = Some x → l !! j = Some y → i ≠ j → x.2 + 8 ≤ y.2 ∨ y.2 + 8 ≤ x.2.
Lemma slots_lookup first l i x : slots first l !! i = Some x ↔ ∃ r, l !! i = Some r ∧ x = (r, 8 * (first + Z.of_nat i)).
Proof. unfold slots. rewrite list_lookup_imap, fmap_Some. done. Qed.
Lemma slots_spread first l : spread (slots first l).
Proof.
  intros i j x y Hx Hy Hij. apply slots_lookup in Hx as (r & _ & ->). apply slots_lookup in Hy as (r' & _ & ->). cbn. lia.
Qed.
Lemma spread_sub (l l' : list (X.xreg * Z)) (f : nat → nat) : spread l → (∀ i x, l' !! i = Some x → l !! f i = Some x) →
  (∀ i j, f i = f j → i = j) → spread l'.
Proof. intros Hl Hf Hi i j x y Hx Hy Hij. apply (Hl (f i) (f j)); auto. Qed.
Lemma spread_cons x l : spread (x :: l) → spread l ∧ ∀ y, y ∈ l → x.2 + 8 ≤ y.2 ∨ y.2 + 8 ≤ x.2.
Proof.
  intros H. split.
  - apply (spread_sub _ _ S H); [done|lia].
  - intros y [j Hy]%list_elem_of_lookup_1. apply (H 0%nat (S j)); done.
Qed.
(** stores of registers change the slots and nothing else *)
Lemma exec_saves base l : ∀ m, spread l →
  let m' := exec (saves base l) m in
  xr m' = xr m ∧ mcsr m' = mcsr m ∧
  (∀ r o, (r, o) ∈ l → load64 (mm m') (xr m base + o) = u64 (xr m r)) ∧
  (∀ a, (∀ r o, (r, o) ∈ l → a + 8 ≤ xr m base + o ∨ xr m base + o + 8 ≤ a) → load64 (mm m') a = load64 (mm m) a).
Proof.
  induction l as [|[r o] l IH]; intros m Hl; cbv zeta.
  { cbn. split; [done|]. split; [done|]. split; [intros r o H; by apply elem_of_nil in H|done]. }
  apply spread_cons in Hl as [Hl Hx]. cbn [saves fmap list_fmap exec step]. set (m1 := Mach _ _ _).
  destruct (IH m1 Hl) as (E1 & E2 & E3 & E4). fold (saves base l). split; [done|]. split; [done|]. split.
  - intros r' o' Hin. apply elem_of_cons in Hin as [[= -> ->]|Hin]; [|by apply E3].
    rewrite E4; [apply load64_store64|]. intros r' o' Hin. apply Hx in Hin. cbn in *. lia.
  - intros a Ha. rewrite E4; [apply load64_store64_ne; destruct (Ha r o ltac:(left)); lia|].
    intros r' o' Hin. apply (Ha r' o'). by right.
Qed.
(** loads of registers from the slots *)
Lemma exec_loads base l : ∀ m, NoDup (fst <$> l) → base ∉ fst <$> l →
  let m' := exec (loads base l) m in
  mm m' = mm m ∧ mcsr m' = mcsr m ∧
  (∀ r o, (r, o) ∈ l → xr m' r = load64 (mm m) (xr m base + o)) ∧
  (∀ r, r ∉ fst <$> l → xr m' r = xr m r).
Proof.
  induction l as [|[r o] l IH]; intros m Hnd Hb; cbv zeta.
  { cbn. split; [done|]. split; [done|]. split; [intros r o H; by apply elem_of_nil in H|done]. }
  cbn [fmap list_fmap fst] in Hnd, Hb. apply NoDup_cons in Hnd as [Hr Hnd]. apply not_elem_of_cons in Hb as [Hne Hb].
  cbn [loads fmap list_fmap exec step]. set (m1 := Mach _ _ _). destruct (IH m1 Hnd Hb) as (E1 & E2 & E3 & E4). fold (loads base l).
  assert (xr m1 base = xr m base) as Eb by (cbn; unfold setr; by rewrite decide_False by done).
  split; [done|]. split; [done|]. split.
  - intros r' o' Hin. apply elem_of_cons in Hin as [[= -> ->]|Hin]; [|rewrite (E3 _ _ Hin), Eb; done].
    rewrite E4 by done. cbn. unfold setr. rewrite decide_True by done. apply wrap_small, load_le_range.
  - intros r' Hr'. cbn [fmap list_fmap fst] in Hr'. apply not_elem_of_cons in Hr' as [Hne' Hr']. rewrite E4 by done.
    cbn. unfold setr. by rewrite decide_False by done.
Qed.
Lemma fst_slots first l : fst <$> slots first l = l.
Proof.
  apply list_eq. intros i. rewrite list_lookup_fmap. unfold slots. rewrite list_lookup_imap. by destruct (l !! i).
Qed.
(** decides that a list of registers has no duplicates or lacks a register *)
Ltac no_dup :=
  match goal with
  | |- NoDup ?l => apply (bool_decide_eq_true_1 (NoDup l)); vm_compute; reflexivity
  | |- ?x ∉ ?l => apply (bool_decide_eq_true_1 (x ∉ l)); vm_compute; reflexivity
  end.

(** ** Switch *)
(** the context of a process in memory: what [Switch] saved of the registers [f] *)
Definition context_of (f : X.xreg → Z) (c : Z) (m : mem) : Prop := ∀ r o, (r, o) ∈ context_slots → load64 m (c + o) = u64 (f r).
Lemma slot_range r o : (r, o) ∈ context_slots → 0 ≤ o ≤ 104.
Proof.
  intros [i Hi]%list_elem_of_lookup_1. apply slots_lookup in Hi as (r' & Hi & [= -> ->]). apply lookup_lt_Some in Hi. cbn in Hi. lia.
Qed.
Lemma Switch_run m : let c1 := xr m X.a0 in let c2 := xr m X.a1 in c1 + 112 ≤ c2 ∨ c2 + 112 ≤ c1 →
  let m' := exec Switch m in
  context_of (xr m) c1 (mm m') ∧ mcsr m' = mcsr m ∧
  (∀ r o, (r, o) ∈ context_slots → xr m' r = load64 (mm m) (c2 + o)) ∧
  (∀ r, r ∉ saved_regs → xr m' r = xr m r) ∧
  (∀ a, a + 8 ≤ c1 ∨ c1 + 112 ≤ a → load64 (mm m') a = load64 (mm m) a).
Proof.
  intros c1 c2 Hc m'. unfold m', Switch. rewrite exec_app.
  destruct (exec_saves X.a0 context_slots m (slots_spread _ _)) as (E1 & E2 & E3 & E4). set (m1 := exec (saves X.a0 context_slots) m) in *.
  destruct (exec_loads X.a1 context_slots m1) as (F1 & F2 & F3 & F4); [unfold context_slots; rewrite fst_slots; no_dup|unfold context_slots; rewrite fst_slots; no_dup|].
  assert (∀ a, a + 8 ≤ c1 ∨ c1 + 112 ≤ a → load64 (mm m1) a = load64 (mm m) a) as Hother.
  { intros a Ha. apply E4. intros r o Hin. apply slot_range in Hin. fold c1. lia. }
  split; [|split; [|split; [|split]]].
  - intros r o Hin. rewrite F1. by apply E3.
  - congruence.
  - intros r o Hin. rewrite (F3 r o Hin), E1. apply Hother. apply slot_range in Hin. fold c2. lia.
  - intros r Hr. rewrite F4, E1; [done|]. unfold context_slots. by rewrite fst_slots.
  - intros a Ha. rewrite F1. by apply Hother.
Qed.

(** ** The frame of a user process *)
Definition wide (m : mach) : Prop := (∀ r, 0 ≤ xr m r < 2 ^ 64) ∧ ∀ c, 0 ≤ mcsr m c < 2 ^ 64.
Lemma frame_slot_cases r o : (r, o) ∈ frame_slots →
  ((r, o) ∈ slots_before_a0 ∧ 0 ≤ o ≤ 64) ∨ (r = X.a0 ∧ o = A0_OFFSET) ∨ ((r, o) ∈ slots_after_a0 ∧ 80 ≤ o ≤ 240).
Proof.
  intros [i Hi]%list_elem_of_lookup_1. pose proof Hi as Hi'. apply slots_lookup in Hi' as (r' & Hr & [= -> ->]).
  pose proof (lookup_lt_Some _ _ _ Hr) as Hlt. cbn in Hlt. destruct (decide (i < 9)%nat); [|destruct (decide (i = 9)%nat) as [->|]].
  - left. split; [|lia]. apply list_elem_of_lookup_2 with i. unfold slots_before_a0. by rewrite lookup_take_lt.
  - right. left. split; [|done]. cbn in Hr. congruence.
  - right. right. split; [|lia]. apply list_elem_of_lookup_2 with (i - 10)%nat. unfold slots_after_a0.
    rewrite lookup_drop. by replace (10 + (i - 10))%nat with i by lia.
Qed.
Lemma before_range r o : (r, o) ∈ slots_before_a0 → 0 ≤ o ≤ 64 ∧ r ≠ X.a0.
Proof.
  intros [i Hi]%list_elem_of_lookup_1. unfold slots_before_a0 in Hi. apply lookup_take_Some in Hi as [Hi Hlt].
  apply slots_lookup in Hi as (r' & Hr & [= -> ->]). split; [lia|]. intros ->.
  do 9 (destruct i as [|i]; [by cbn in Hr|]). lia.
Qed.
Lemma after_range r o : (r, o) ∈ slots_after_a0 → 80 ≤ o ≤ 240 ∧ r ≠ X.s1 ∧ r ≠ X.a0.
Proof.
  intros [i Hi]%list_elem_of_lookup_1. unfold slots_after_a0 in Hi. rewrite lookup_drop in Hi.
  apply slots_lookup in Hi as (r' & Hr & [= -> ->]). pose proof (lookup_lt_Some _ _ _ Hr) as Hlt. cbn in Hlt. split; [lia|].
  change (frame_regs !! (10 + i)%nat) with (drop 10 frame_regs !! i) in Hr. apply list_elem_of_lookup_2 in Hr.
  split; intros ->; revert Hr.
  all: match goal with |- ?P → False => change (¬ P); no_dup end.
Qed.
Lemma slots_before_spread : spread slots_before_a0.
Proof. apply (spread_sub frame_slots _ id); [apply slots_spread| |auto]. intros i x Hx. by apply lookup_take_Some in Hx as [Hx _]. Qed.
Lemma slots_after_spread : spread slots_after_a0.
Proof.
  apply (spread_sub frame_slots _ (λ i, 10 + i)%nat); [apply slots_spread| |lia]. intros i x Hx. unfold slots_after_a0 in Hx. by rewrite lookup_drop in Hx.
Qed.
Lemma all_framed r : ∃ o, (r, o) ∈ frame_slots.
Proof.
  assert (r ∈ frame_regs) as [i Hi]%list_elem_of_lookup_1.
  { apply (bool_decide_eq_true_1 (r ∈ frame_regs)). by destruct r. }
  exists (8 * (0 + Z.of_nat i)). apply list_elem_of_lookup_2 with i, slots_lookup. by exists r.
Qed.
(** the first part: all registers are in the frame *)
Lemma preserve_saves m rest : wide m → let f := mcsr m c_mscratch in
  ∃ m3, exec ([csrrw X.a0 c_mscratch X.a0] ++ saves X.a0 slots_before_a0 ++
              [csrr_ X.s1 c_mscratch; sd X.s1 A0_OFFSET X.a0] ++ saves X.a0 slots_after_a0 ++ rest) m = exec rest m3 ∧
  (∀ r o, (r, o) ∈ frame_slots → load64 (mm m3) (f + o) = xr m r) ∧
  (∀ a, a + 8 ≤ f ∨ f + 248 ≤ a → load64 (mm m3) a = load64 (mm m) a) ∧
  (∀ r, r ≠ X.a0 → r ≠ X.s1 → xr m3 r = xr m r) ∧ xr m3 X.a0 = f ∧ mcsr m3 = csrw c_mscratch (xr m X.a0) (mcsr m).
Proof.
  intros [Hx Hc] f. assert (u64 f = f) as Uf by apply wrap_small, Hc.
  rewrite exec_app. remember (exec [csrrw X.a0 c_mscratch X.a0] m) as m0 eqn:Em0.
  assert (xr m0 = setr X.a0 f (xr m) ∧ mm m0 = mm m ∧ mcsr m0 = csrw c_mscratch (xr m X.a0) (mcsr m)) as (E0 & M0 & C0) by by subst m0.
  clear Em0. assert (xr m0 X.a0 = f) as A0 by (rewrite E0, setr_same; done).
  rewrite exec_app. destruct (exec_saves X.a0 slots_before_a0 m0 slots_before_spread) as (E1 & C1 & S1 & O1).
  remember (exec (saves X.a0 slots_before_a0) m0) as m1 eqn:Em1. clear Em1.
  assert (xr m1 X.a0 = f) as A1 by by rewrite E1.
  rewrite exec_app. remember (exec [csrr_ X.s1 c_mscratch; sd X.s1 A0_OFFSET X.a0] m1) as m2 eqn:Em2.
  assert (xr m2 = setr X.s1 (xr m X.a0) (xr m1) ∧ mcsr m2 = mcsr m1 ∧ mm m2 = store64 (mm m1) (f + A0_OFFSET) (xr m X.a0)) as (E2 & C2 & M2).
  { subst m2. destruct m1 as [x1 c1 h1]. cbn [xr mcsr mm] in *. run. cbn [xr mcsr mm]. subst c1. rewrite C0. regs. rewrite A1.
    assert (u64 (xr m X.a0) = xr m X.a0) as -> by apply wrap_small, Hx. by regs; assert (u64 (xr m X.a0) = xr m X.a0) as -> by apply wrap_small, Hx. }
  clear Em2. rewrite exec_app. destruct (exec_saves X.a0 slots_after_a0 m2 slots_after_spread) as (E3 & C3 & S3 & O3).
  remember (exec (saves X.a0 slots_after_a0) m2) as m3 eqn:Em3. clear Em3.
  assert (xr m2 X.a0 = f) as A2 by (rewrite E2, setr_ne by congruence; done). rewrite A2 in *.
  exists m3. split; [reflexivity|]. split; [|split; [|split; [|split]]].
  - intros r o Hin. apply frame_slot_cases in Hin as [[Hin Ho]|[[-> ->]|[Hin Ho]]].
    + rewrite O3 by (intros r' o' Hr'; apply after_range in Hr'; lia). rewrite M2, load64_store64_ne by (cbv [A0_OFFSET]; lia).
      apply before_range in Hin as Hr. rewrite <-A0, (S1 r o Hin), E0, setr_ne by (intros <-; tauto). apply wrap_small, Hx.
    + rewrite O3 by (intros r' o' Hr'; apply after_range in Hr'; cbv [A0_OFFSET]; lia). rewrite M2, load64_store64. apply wrap_small, Hx.
    + rewrite (S3 r o Hin). apply after_range in Hin as (_ & H1 & H2). rewrite E2, setr_ne, E1, E0, setr_ne by congruence. apply wrap_small, Hx.
  - intros a Ha. rewrite O3 by (intros r' o' Hr'; apply after_range in Hr'; lia). rewrite M2, load64_store64_ne by (cbv [A0_OFFSET]; lia).
    rewrite O1, M0; [reflexivity|]. intros r o Hin. apply before_range in Hin. rewrite A0. lia.
  - intros r Hr Hr1. rewrite E3, E2, setr_ne, E1, E0, setr_ne by congruence. reflexivity.
  - congruence.
  - congruence.
Qed.
Section user.
Context (table : Z).
Lemma preserve_run m : wide m → let f := mcsr m c_mscratch in let m' := exec (preserve_user_context table) m in
  (∀ r o, (r, o) ∈ frame_slots → load64 (mm m') (f + o) = xr m r) ∧
  load64 (mm m') (f + RegFrame_mepc) = mcsr m c_mepc ∧ load64 (mm m') (f + RegFrame_mcause) = mcsr m c_mcause ∧
  (∀ a, a + 8 ≤ f ∨ f + RegFrame_kernel_sp ≤ a → load64 (mm m') a = load64 (mm m) a) ∧
  xr m' X.sp = load64 (mm m) (f + RegFrame_kernel_sp) ∧
  (∀ r, r ∉ [X.sp; X.s1; X.a0; X.a1] → xr m' r = xr m r) ∧
  mcsr m' c_mscratch = f ∧ mcsr m' c_mtvec = u64 (u64 table + 1) ∧ (∀ c, c ≠ c_mscratch → c ≠ c_mtvec → mcsr m' c = mcsr m c).
Proof.
  intros Hw f m'. unfold m', preserve_user_context.
  match goal with |- context [exec (_ ++ _ ++ _ ++ _ ++ ?rest) m] => destruct (preserve_saves m rest Hw) as (m3 & -> & Sall & Oall & Xall & A3 & C3) end.
  destruct Hw as [Hx Hc]. clear m'. fold f in Sall, Oall, A3. assert (u64 f = f) as Uf by apply wrap_small, Hc.
  destruct m3 as [x3 c3 h3]. cbn [xr mcsr mm] in *. subst c3. run. cbn [xr mcsr mm]. regs. rewrite A3, !(wrap_small 64 (mcsr m _)) by apply Hc.
  cbv [RegFrame_mepc RegFrame_mcause RegFrame_kernel_sp] in *. split; [|split; [|split; [|split; [|split; [|split; [|split; [|split]]]]]]].
  - intros r o Hin. rewrite !load64_store64_ne; [by apply Sall|apply frame_slot_cases in Hin; cbv [A0_OFFSET] in Hin; lia..].
  - rewrite load64_store64_ne, load64_store64 by lia. apply wrap_small, Hc.
  - rewrite load64_store64. apply wrap_small, Hc.
  - intros a Ha. rewrite !load64_store64_ne by lia. apply Oall. lia.
  - rewrite Oall by lia. apply wrap_small, load_le_range.
  - intros r Hr. rewrite !not_elem_of_cons in Hr. destruct Hr as (H1 & H2 & H3 & H4 & _). regs. by apply Xall.
  - apply Uf.
  - apply wrap_small, wrap_range. lia.
  - intros c H1 H2. regs. reflexivity.
Qed.
End user.
Lemma restore_run m : wide m → let f := xr m X.a0 in let m' := exec restore_user_context m in
  (∀ r o, (r, o) ∈ frame_slots → xr m' r = load64 (mm m) (f + o)) ∧ mm m' = mm m ∧
  mcsr m' c_mscratch = f ∧ (∀ c, c ≠ c_mscratch → mcsr m' c = mcsr m c).
Proof.
  intros [Hx _] f. unfold restore_user_context. rewrite !exec_app.
  remember (exec [csrw_ c_mscratch X.a0] m) as m0 eqn:Em0.
  assert (xr m0 = xr m ∧ mm m0 = mm m ∧ mcsr m0 = csrw c_mscratch f (mcsr m)) as (E0 & M0 & C0) by by subst m0. clear Em0.
  destruct (exec_loads X.a0 (slots_before_a0 ++ slots_after_a0) m0) as (M1 & C1 & L1 & X1); [no_dup|no_dup|].
  remember (exec (loads X.a0 (slots_before_a0 ++ slots_after_a0)) m0) as m1 eqn:Em1. clear Em1.
  assert (xr m1 X.a0 = f) as A1 by (rewrite X1 by no_dup; by rewrite E0).
  cbn [exec step xr mcsr mm]. rewrite C1, C0, M1, M0, A1. split; [|split; [done|split]].
  - intros r o Hin. destruct (decide (r = X.a0)) as [->|Hr].
    + rewrite setr_same. apply frame_slot_cases in Hin as [[Hin _]|[[_ ->]|[Hin _]]].
      * apply before_range in Hin. tauto.
      * apply wrap_small, load_le_range.
      * apply after_range in Hin. tauto.
    + rewrite setr_ne by congruence. rewrite <-M0. unfold f. rewrite <-E0. apply L1, elem_of_app.
      apply frame_slot_cases in Hin as [[Hin _]|[[Hin _]|[Hin _]]]; [by left|done|by right].
  - regs. apply wrap_small, Hx.
  - intros c Hc. by regs.
Qed.

(** ** Interrupts of the kernel *)
Lemma kernel_slots_range r o : (r, o) ∈ kernel_slots → 0 ≤ o ≤ 136.
Proof.
  intros [i Hi]%list_elem_of_lookup_1. apply slots_lookup in Hi as (r' & Hi & [= -> ->]). apply lookup_lt_Some in Hi. cbn in Hi. lia.
Qed.
Lemma enter_run m : wide m → 152 ≤ xr m X.sp → let sp := xr m X.sp - 152 in let m' := exec kernel_intr_enter m in
  (∀ r o, (r, o) ∈ kernel_slots → load64 (mm m') (sp + o) = xr m r) ∧ load64 (mm m') (sp + 144) = mcsr m c_mepc ∧
  xr m' X.sp = sp ∧ (∀ r, r ≠ X.sp → r ≠ X.t0 → xr m' r = xr m r) ∧ mcsr m' = mcsr m ∧
  (∀ a, a + 8 ≤ sp ∨ sp + 152 ≤ a → load64 (mm m') a = load64 (mm m) a).
Proof.
  intros [Hx Hc] Hsp sp. unfold kernel_intr_enter. rewrite !exec_app. pose proof (Hx X.sp) as Hsp'.
  remember (exec [addi X.sp X.sp (-152)] m) as m0 eqn:Em0.
  assert (xr m0 = setr X.sp sp (xr m) ∧ mm m0 = mm m ∧ mcsr m0 = mcsr m) as (E0 & M0 & C0) by by subst m0. clear Em0.
  assert (xr m0 X.sp = sp) as S0 by (rewrite E0, setr_same; apply wrap_small; lia).
  destruct (exec_saves X.sp kernel_slots m0 (slots_spread _ _)) as (E1 & C1 & S1 & O1).
  remember (exec (saves X.sp kernel_slots) m0) as m1 eqn:Em1. clear Em1. rewrite S0 in *.
  destruct m1 as [x1 c1 h1]. cbn [xr mcsr mm] in *. subst x1 c1. run. cbn [xr mcsr mm]. rewrite C0. regs. rewrite S0, (wrap_small 64 (mcsr m _)) by apply Hc.
  split; [|split; [|split; [|split; [|split]]]].
  - intros r o Hin. apply kernel_slots_range in Hin as Ho. rewrite load64_store64_ne by lia. rewrite (S1 r o Hin), E0, setr_ne.
    + apply wrap_small, Hx.
    + intros <-. apply (list_elem_of_fmap_2 fst) in Hin. revert Hin. change (X.sp ∉ fst <$> kernel_slots). no_dup.
  - change (18 * 8) with 144. rewrite load64_store64. apply wrap_small, Hc.
  - done.
  - intros r H1 H2. regs. by rewrite E0, setr_ne by congruence.
  - done.
  - intros a Ha. rewrite load64_store64_ne by lia. rewrite O1, M0; [done|]. intros r o Hin. apply kernel_slots_range in Hin. lia.
Qed.
Lemma leave_run m : wide m → let sp := xr m X.sp in let m' := exec kernel_intr_leave m in
  (∀ r o, (r, o) ∈ kernel_slots → xr m' r = load64 (mm m) (sp + o)) ∧ mcsr m' c_mepc = load64 (mm m) (sp + 144) ∧
  xr m' X.sp = u64 (sp + 152) ∧ (∀ r, r ≠ X.sp → r ∉ fst <$> kernel_slots → xr m' r = xr m r) ∧ mm m' = mm m.
Proof.
  intros [Hx Hc] sp. unfold kernel_intr_leave. rewrite !exec_app.
  remember (exec [ld X.t0 (18 * 8) X.sp; csrw_ c_mepc X.t0] m) as m0 eqn:Em0.
  assert (xr m0 = setr X.t0 (load64 (mm m) (sp + 144)) (xr m) ∧ mm m0 = mm m ∧
          mcsr m0 = csrw c_mepc (xr m0 X.t0) (mcsr m)) as (E0 & M0 & C0) by by subst m0. clear Em0.
  assert (xr m0 X.sp = sp) as S0 by by rewrite E0, setr_ne.
  destruct (exec_loads X.sp kernel_slots m0) as (M1 & C1 & L1 & X1); [no_dup|no_dup|].
  remember (exec (loads X.sp kernel_slots) m0) as m1 eqn:Em1. clear Em1.
  assert (xr m1 X.sp = sp) as S1 by by rewrite X1 by no_dup.
  cbn [exec step xr mcsr mm]. split; [|split; [|split; [|split]]].
  - intros r o Hin. rewrite setr_ne.
    + by rewrite (L1 r o Hin), M0, S0.
    + intros <-. apply (list_elem_of_fmap_2 fst) in Hin. revert Hin. change (X.sp ∉ fst <$> kernel_slots). no_dup.
  - rewrite C1, C0, csrw_same, E0, setr_same. change (u64 (u64 (load64 (mm m) (sp + 144))) = load64 (mm m) (sp + 144)).
    rewrite !(wrap_small 64 (load64 _ _)) by apply load_le_range. done.
  - by rewrite setr_same, S1.
  - intros r H1 H2. rewrite setr_ne, X1, E0, setr_ne; try congruence. intros <-. apply H2.
    apply (bool_decide_eq_true_1 (X.t0 ∈ fst <$> kernel_slots)). by vm_compute.
  - congruence.
Qed.

(** ** The timer *)
Lemma swap_run m : let m' := exec [csrrw X.a0 c_mscratch X.a0] m in
  xr m' = setr X.a0 (mcsr m c_mscratch) (xr m) ∧ mcsr m' = csrw c_mscratch (xr m X.a0) (mcsr m) ∧ mm m' = mm m.
Proof. by destruct m. Qed.
Lemma timer_slots_range first r o : (r, o) ∈ timer_slots first → 8 * (128 + first) ≤ o ≤ 8 * (128 + first) + 24.
Proof.
  intros [i Hi]%list_elem_of_lookup_1. apply slots_lookup in Hi as (r' & Hi & [= -> ->]). apply lookup_lt_Some in Hi. cbn in Hi. lia.
Qed.

(** * Theorems *)
(** C19: A trap of a user process is transparent.  [preserve_user_context] leaves the
    user's 31 registers, [mepc] and [mcause] in the frame that [mscratch] points to,
    takes the kernel's stack from the frame and changes no memory but the frame;
    [restore_user_context], run later on any state that has the frame in [a0] and has
    not touched the saved registers but [a0] (where a system call puts its result),
    gives every other register the value it had at the trap, [a0] the value in the
    frame, and points [mscratch] to the same frame again. *)
Theorem user_trap_roundtrip table m m2 : wide m → wide m2 →
  let f := mcsr m c_mscratch in let m1 := exec (preserve_user_context table) m in
  xr m2 X.a0 = f →
  (∀ r o, (r, o) ∈ frame_slots → r ≠ X.a0 → load64 (mm m2) (f + o) = load64 (mm m1) (f + o)) →
  let m3 := exec restore_user_context m2 in
  (∀ r, r ≠ X.a0 → xr m3 r = xr m r) ∧ xr m3 X.a0 = load64 (mm m2) (f + RegFrame_a 0) ∧ mcsr m3 c_mscratch = f ∧
  load64 (mm m1) (f + RegFrame_a 0) = xr m X.a0 ∧
  load64 (mm m1) (f + RegFrame_mepc) = mcsr m c_mepc ∧ load64 (mm m1) (f + RegFrame_mcause) = mcsr m c_mcause ∧
  xr m1 X.sp = load64 (mm m) (f + RegFrame_kernel_sp) ∧
  (∀ a, a + 8 ≤ f ∨ f + RegFrame_kernel_sp ≤ a → load64 (mm m1) a = load64 (mm m) a).
Proof.
  intros Hw Hw2 f m1 Ha Hf. destruct (preserve_run table m Hw) as (P1 & P2 & P3 & P4 & P5 & _). fold f m1 in P1, P2, P3, P4, P5.
  destruct (restore_run m2 Hw2) as (R1 & _ & R3 & _). rewrite Ha in R1, R3. cbv zeta. clearbody m1.
  split; [|split; [|split; [|split; [|split; [|split; [|split]]]]]]; try assumption.
  - intros r Hr. destruct (all_framed r) as [o Ho]. by rewrite (R1 r o Ho), (Hf r o Ho Hr), (P1 r o Ho).
  - apply R1. by apply (bool_decide_eq_true_1 ((X.a0, RegFrame_a 0) ∈ frame_slots)); vm_compute.
  - apply P1. by apply (bool_decide_eq_true_1 ((X.a0, RegFrame_a 0) ∈ frame_slots)); vm_compute.
Qed.
(** the kernel is entered with the user's [gp] and [tp], which it uses as its hart id *)
Lemma user_tp_reaches_the_kernel table m : wide m →
  let m1 := exec (preserve_user_context table) m in xr m1 X.tp = xr m X.tp ∧ xr m1 X.gp = xr m X.gp.
Proof. intros Hw. destruct (preserve_run table m Hw) as (_ & _ & _ & _ & _ & P & _). split; apply P; no_dup. Qed.
(** A process that [Switch] stopped is resumed with the context it had: when its
    saved context is unchanged in memory and a later [Switch] switches to it from a
    context elsewhere, [ra], [sp] and [s0] to [s11] have the values of the first call. *)
Theorem Switch_resumes m m2 : wide m →
  let c := xr m X.a0 in let m1 := exec Switch m in
  c + 112 ≤ xr m X.a1 ∨ xr m X.a1 + 112 ≤ c →
  xr m2 X.a1 = c → xr m2 X.a0 + 112 ≤ c ∨ c + 112 ≤ xr m2 X.a0 →
  (∀ r o, (r, o) ∈ context_slots → load64 (mm m2) (c + o) = load64 (mm m1) (c + o)) →
  (∀ r, r ∈ saved_regs → xr (exec Switch m2) r = xr m r) ∧ (∀ r, r ∉ saved_regs → xr (exec Switch m2) r = xr m2 r).
Proof.
  intros [Hx _] c m1 Hd Hc Hd2 Hm. destruct (Switch_run m Hd) as (S1 & _). destruct (Switch_run m2) as (_ & _ & L & O & _); [by rewrite Hc|].
  split; [|exact O]. intros r Hr. apply list_elem_of_lookup_1 in Hr as [i Hi].
  assert ((r, 8 * (0 + Z.of_nat i)) ∈ context_slots) as Hin by (apply list_elem_of_lookup_2 with i, slots_lookup; eauto).
  rewrite (L r _ Hin), Hc, (Hm r _ Hin). etrans; [exact (S1 r _ Hin)|]. apply wrap_small, Hx.
Qed.
(** An interrupt of the kernel is transparent.  Between the entry of
    [kernel_intr_hander] and its return runs a function that keeps the stack pointer,
    the callee-saved registers and the 152 bytes of the stack the handler saved to, and
    may change all else, [mepc] too; then all 31 registers and [mepc] are as they were. *)
Theorem kernel_trap_roundtrip m m2 : wide m → wide m2 → 152 ≤ xr m X.sp →
  let m1 := exec kernel_intr_enter m in
  (∀ r, r ∉ fst <$> kernel_slots → xr m2 r = xr m1 r) →
  (∀ a, xr m1 X.sp ≤ a → a + 8 ≤ xr m1 X.sp + 152 → load64 (mm m2) a = load64 (mm m1) a) →
  let m3 := exec kernel_intr_leave m2 in
  (∀ r, xr m3 r = xr m r) ∧ mcsr m3 c_mepc = mcsr m c_mepc.
Proof.
  intros Hw Hw2 Hsp m1 Hr Hm. destruct (enter_run m Hw Hsp) as (E1 & E2 & E3 & E4 & _ & _). fold m1 in E1, E2, E3, E4.
  destruct (leave_run m2 Hw2) as (L1 & L2 & L3 & L4 & _).
  assert (xr m2 X.sp = xr m X.sp - 152) as Es by (rewrite Hr; [done|no_dup]). rewrite Es in L1, L2, L3. rewrite E3 in Hm.
  clearbody m1. split; [|rewrite L2, Hm, E2 by lia; done]. intros r. destruct (decide (r = X.sp)) as [->|Hne].
  { rewrite L3. replace (_ - _ + _) with (xr m X.sp) by lia. apply wrap_small, Hw. }
  destruct (decide (r ∈ fst <$> kernel_slots)) as [Hin|Hin].
  - apply list_elem_of_fmap in Hin as ([r' o] & -> & Hin). cbn [fst]. apply kernel_slots_range in Hin as Ho.
    rewrite (L1 r' o Hin), Hm, (E1 r' o Hin) by lia. done.
  - rewrite L4, Hr, E4 by (try done; intros ->; apply Hin, (bool_decide_eq_true_1 (X.t0 ∈ fst <$> kernel_slots)); by vm_compute). done.
Qed.
(** The machine-timer interrupt of a hart rearms its comparator and is otherwise
    invisible: [timer_handler] adds the interval to the comparator that [time_scratch]
    points to (modulo 2^64), keeps all registers and CSRs, and writes no memory but the
    comparator and four words of the frame's temporary space. *)
Theorem timer_rearms time_scratch first m : wide m → 0 ≤ time_scratch < 2 ^ 64 →
  let lo := mcsr m c_mscratch + 8 * (128 + first) in
  let away a := a + 8 ≤ lo ∨ lo + 32 ≤ a in
  let cmp := load64 (mm m) time_scratch in
  away time_scratch → away (time_scratch + 8) → away cmp →
  let m' := exec (timer_handler time_scratch first) m in
  (∀ r, xr m' r = xr m r) ∧ (∀ c, mcsr m' c = mcsr m c) ∧
  load64 (mm m') cmp = u64 (load64 (mm m) cmp + load64 (mm m) (time_scratch + 8)) ∧
  (∀ a, away a → a + 8 ≤ cmp ∨ cmp + 8 ≤ a → load64 (mm m') a = load64 (mm m) a).
Proof.
  intros [Hx Hc] Hts lo away cmp A1 A2 A3. unfold timer_handler. rewrite exec_app.
  set (f := mcsr m c_mscratch) in *. assert (u64 f = f) as Uf by apply wrap_small, Hc.
  remember (exec [csrrw X.a0 c_mscratch X.a0] m) as m0 eqn:Em0.
  assert (xr m0 = setr X.a0 f (xr m) ∧ mm m0 = mm m ∧ mcsr m0 = csrw c_mscratch (xr m X.a0) (mcsr m)) as (E0 & M0 & C0) by by subst m0.
  clear Em0. assert (xr m0 X.a0 = f) as B0 by (rewrite E0, setr_same; done).
  rewrite exec_app. destruct (exec_saves X.a0 (timer_slots first) m0 (slots_spread _ _)) as (E1 & C1 & S1 & O1).
  remember (exec (saves X.a0 (timer_slots first)) m0) as m1 eqn:Em1. clear Em1. rewrite B0 in S1, O1.
  assert (∀ a, away a → load64 (mm m1) a = load64 (mm m) a) as O1'.
  { intros a Ha. rewrite O1, M0; [reflexivity|]. intros r o Hin. apply timer_slots_range in Hin. unfold away, lo in Ha. lia. }
  rewrite exec_app. remember (exec [la X.a4 time_scratch; ld X.a1 0 X.a4; ld X.a3 0 X.a1; ld X.a2 8 X.a4; add X.a3 X.a3 X.a2; sd X.a3 0 X.a1] m1) as m2 eqn:Em2.
  assert (mm m2 = store64 (mm m1) cmp (u64 (load64 (mm m) cmp + load64 (mm m) (time_scratch + 8))) ∧ mcsr m2 = mcsr m1 ∧
          xr m2 X.a0 = f ∧ ∀ r, r ∉ [X.a1; X.a2; X.a3; X.a4] → xr m2 r = xr m1 r) as (M2 & C2 & B2 & X2).
  { subst m2. destruct m1 as [x1 c1 h1]. cbn [xr mcsr mm] in *. run. cbn [xr mcsr mm]. regs. rewrite (wrap_small 64 time_scratch) by done.
    rewrite !Z.add_0_r. assert (load64 h1 time_scratch = cmp) as -> by by apply O1'.
    rewrite !(wrap_small 64 cmp), (O1' cmp), (O1' (time_scratch + 8)), !(wrap_small 64 (load64 _ _)) by (done || apply load_le_range).
    split; [reflexivity|]. split; [reflexivity|]. split; [congruence|].
    intros r Hr. rewrite !not_elem_of_cons in Hr. destruct Hr as (H1 & H2 & H3 & H4 & _). by regs. }
  clear Em2. rewrite exec_app. destruct (exec_loads X.a0 (timer_slots first) m2) as (M3 & C3 & L3 & X3); [unfold timer_slots; rewrite fst_slots; no_dup..|].
  remember (exec (loads X.a0 (timer_slots first)) m2) as m3 eqn:Em3. clear Em3.
  assert (∀ r, xr m3 r = xr m0 r) as Xall.
  { intros r. destruct (decide (r ∈ fst <$> timer_slots first)) as [Hin|Hin].
    - apply list_elem_of_fmap in Hin as ([r' o] & -> & Hin). apply timer_slots_range in Hin as Ho. cbn [fst].
      rewrite (L3 r' o Hin), M2, B2, load64_store64_ne by (unfold away, lo in *; lia). rewrite (S1 r' o Hin). apply wrap_small. rewrite E0.
      destruct (decide (X.a0 = r')) as [<-|Hr]; [rewrite setr_same, Uf; apply Hc|rewrite setr_ne by done; apply Hx].
    - rewrite X3, X2, E1; [reflexivity|unfold timer_slots in Hin; by rewrite fst_slots in Hin|done]. }
  destruct (swap_run m3) as (X4 & C4 & M4). remember (exec [csrrw X.a0 c_mscratch X.a0] m3) as m4 eqn:Em4. clear Em4.
  rewrite M3, M2 in M4. rewrite C3, C2, C1, C0 in X4, C4. cbv zeta. rewrite X4, C4, M4.
  split; [|split; [|split]].
  - intros r. destruct (decide (X.a0 = r)) as [<-|Hr]; regs; [apply eq_trans with (u64 (xr m X.a0)); [|]; by rewrite !(wrap_small 64 (xr m X.a0)) by apply Hx|].
    by rewrite Xall, E0, setr_ne.
  - intros c. destruct (decide (c_mscratch = c)) as [<-|Hr]; [|by regs]. regs. by rewrite Xall, B0.
  - rewrite load64_store64. apply wrap_small, wrap_range. lia.
  - intros a Ha Hcmp. rewrite load64_store64_ne by lia. by apply O1'.
Qed.

(** after the timer's part the two handlers go on as for any trap: the frame, or the
    kernel's stack, gets the registers of the interrupted code, and the comparator is
    rearmed *)
Theorem timer_traps_save table time_scratch m : wide m → 0 ≤ time_scratch < 2 ^ 64 →
  let f := mcsr m c_mscratch in let cmp := load64 (mm m) time_scratch in
  let away a := a + 8 ≤ f ∨ f + 8 * 136 ≤ a in away time_scratch → away (time_scratch + 8) → away cmp →
  let rearmed := u64 (load64 (mm m) cmp + load64 (mm m) (time_scratch + 8)) in
  (let m1 := exec (user_timer_handler table time_scratch) m in
   (∀ r o, (r, o) ∈ frame_slots → load64 (mm m1) (f + o) = xr m r) ∧ load64 (mm m1) cmp = rearmed ∧ mcsr m1 c_mscratch = f) ∧
  (152 ≤ xr m X.sp → cmp + 8 ≤ xr m X.sp - 152 ∨ xr m X.sp ≤ cmp →
   let m1 := exec (kernel_timer_handler time_scratch) m in
   (∀ r o, (r, o) ∈ kernel_slots → load64 (mm m1) (xr m X.sp - 152 + o) = xr m r) ∧ load64 (mm m1) cmp = rearmed).
Proof.
  intros Hw Hts f cmp away A1 A2 A3 rearmed. unfold user_timer_handler, kernel_timer_handler.
  assert (∀ first, first = 0 ∨ first = 4 → let m0 := exec (timer_handler time_scratch first) m in
    wide m0 ∧ (∀ r, xr m0 r = xr m r) ∧ mcsr m0 c_mscratch = f ∧ load64 (mm m0) cmp = rearmed) as Ht.
  { intros first Hf. destruct (timer_rearms time_scratch first m Hw Hts) as (X & C & L & _); [unfold away in *; fold f; fold cmp; lia..|].
    cbv zeta. split; [|split; [exact X|split; [apply C|exact L]]]. split; [intros r; rewrite X; apply Hw|intros c; rewrite C; apply Hw]. }
  split.
  - destruct (Ht 0) as (Hw0 & X & C & L); [by left|]. rewrite exec_app. remember (exec (timer_handler time_scratch 0) m) as m0 eqn:Em. clear Em.
    destruct (preserve_run table m0 Hw0) as (P1 & _ & _ & P4 & _ & _ & P7 & _). rewrite C in P1, P4, P7. cbv zeta.
    split; [|split; [|exact P7]].
    + intros r o Hin. by rewrite (P1 r o Hin), X.
    + rewrite P4, L; [done|]. unfold away in A3. cbv [RegFrame_kernel_sp]. lia.
  - intros Hsp Hc. destruct (Ht 4) as (Hw0 & X & C & L); [by right|]. rewrite exec_app. remember (exec (timer_handler time_scratch 4) m) as m0 eqn:Em. clear Em.
    destruct (enter_run m0 Hw0) as (E1 & _ & _ & _ & _ & E6); [by rewrite X|]. rewrite X in E1, E6. cbv zeta. split.
    + intros r o Hin. by rewrite (E1 r o Hin), X.
    + rewrite E6, L; [done|lia].
Qed.

(** * Witnesses *)
Definition user_regs (r : X.xreg) : Z := match r with X.a7 => 64 | X.sp => 0x3fff0000 | _ => 7 end.
Definition trapped : mach := Mach user_regs (λ c, if decide (c = c_mscratch) then 0x80013000 else 8) (store64 ∅ (0x80013000 + RegFrame_kernel_sp) 0x80016000).
(** the kernel's machine when the system call has returned 512 *)
Definition handled : mach :=
  Mach (λ _, 0x80013000) (λ _, 8) (store64 (mm (exec (preserve_user_context 0x80000100) trapped)) (0x80013000 + RegFrame_a 0) 512).
Lemma user_trap_roundtrip_witness : wide trapped ∧
  let m3 := exec restore_user_context handled in
  xr m3 X.a7 = 64 ∧ xr m3 X.sp = 0x3fff0000 ∧ xr m3 X.a0 = 512 ∧ xr (exec (preserve_user_context 0x80000100) trapped) X.sp = 0x80016000.
Proof.
  assert (wide trapped) as Hw by (split; [by intros []|intros c; cbn; by case_decide]). split; [done|]. cbv zeta.
  destruct (user_trap_roundtrip 0x80000100 trapped handled Hw) as (H1 & H2 & _ & _ & _ & _ & H3 & _).
  - done.
  - done.
  - intros r o Hin Hr. change (mcsr trapped c_mscratch) with 0x80013000. apply load64_store64_ne. apply frame_slot_cases in Hin as [[_ ?]|[[? _]|[_ ?]]]; [|done|]; cbv [RegFrame_a]; lia.
  - split; [by rewrite H1|]. split; [by rewrite H1|]. split; [by rewrite H2|]. by rewrite H3.
Defined.
(** three processes' contexts: 0x1000 switches to 0x2000, and 0x2000 back *)
Definition running_1 : mach := Mach (λ r, match r with X.a0 => 0x1000 | X.a1 => 0x2000 | X.sp => 0x80016000 | X.s3 => 33 | _ => 1 end) (λ _, 0) ∅.
Definition running_2 : mach := Mach (λ r, match r with X.a0 => 0x2000 | X.a1 => 0x1000 | _ => 2 end) (λ _, 0) (mm (exec Switch running_1)).
Lemma Switch_resumes_witness : wide running_1 ∧ xr (exec Switch running_2) X.sp = 0x80016000 ∧ xr (exec Switch running_2) X.s3 = 33.
Proof.
  assert (wide running_1) as Hw by (split; [by intros []|done]). split; [done|].
  destruct (Switch_resumes running_1 running_2 Hw) as [H _]; [cbn; lia|done|cbn; lia|done|].
  split; [rewrite H|rewrite H]; try done; by apply (bool_decide_eq_true_1 (_ ∈ saved_regs)); vm_compute.
Defined.
Definition kernel_runs : mach := Mach user_regs (λ _, 0x80002000) ∅.
Lemma kernel_runs_wide : wide kernel_runs.
Proof. split; [by intros []|done]. Qed.
Definition handler_done : mach :=
  Mach (λ r, if decide (r ∈ fst <$> kernel_slots) then 99 else xr (exec kernel_intr_enter kernel_runs) r) (λ _, 5) (mm (exec kernel_intr_enter kernel_runs)).
Lemma kernel_trap_roundtrip_witness : wide handler_done ∧
  xr (exec kernel_intr_leave handler_done) X.a7 = 64 ∧ mcsr (exec kernel_intr_leave handler_done) c_mepc = 0x80002000.
Proof.
  assert (wide handler_done) as Hw.
  { split; [|done]. intros r. cbn [xr handler_done]. case_decide; [done|].
    destruct (enter_run kernel_runs) as (_ & _ & E & E' & _); [split; [by intros []|done]|done|].
    destruct (decide (r = X.sp)) as [->|Hr]; [rewrite E; done|]. rewrite E'; [by destruct r|done|].
    intros ->. apply H, (bool_decide_eq_true_1 (X.t0 ∈ fst <$> kernel_slots)). by vm_compute. }
  split; [done|]. assert (mm handler_done = mm (exec kernel_intr_enter kernel_runs)) as Em by apply mm_Mach.
  destruct (kernel_trap_roundtrip kernel_runs handler_done kernel_runs_wide Hw) as [H1 H2].
  - done.
  - intros r Hr. cbn [xr handler_done]. by rewrite decide_False.
  - intros a _ _. by rewrite Em.
  - rewrite (H1 X.a7), H2. split; [vm_compute; reflexivity|vm_compute; reflexivity].
Defined.
Definition timer_fires : mach := Mach user_regs (λ _, 0x80013000) (store64 (store64 (store64 ∅ 0x80001000 0x2004000) 0x80001008 1000) 0x2004000 50).
Lemma timer_rearms_witness : wide timer_fires ∧ load64 (mm (exec (timer_handler 0x80001000 4) timer_fires)) 0x2004000 = 1050.
Proof.
  assert (wide timer_fires) as Hw by (split; [by intros []|done]). split; [done|].
  assert (load64 (mm timer_fires) 0x80001000 = 0x2004000) as Hc by by vm_compute.
  destruct (timer_rearms 0x80001000 4 timer_fires Hw) as (_ & _ & H & _); rewrite ?Hc in *; [done|cbn; lia..|].
  rewrite H. by vm_compute.
Defined.
