(* ===== verification/Mandelbrot.v ===== *)
(** user/mandelbrot.cc: a picture of the Mandelbrot set, computed in double precision.
    A [double] is a [spec_float] of the Standard Library with the operations of IEEE 754
    binary64, rounded to nearest; that the compiler may contract a product and a sum
    into one operation is not modelled. *)
From Stdlib Require Import SpecFloat.
From ITree Require Import ITree.
From S2P Require Import Prelude Mem Printk Inode FsCommon UserSys UserPrograms Image.

(** * Doubles *)
Abbreviation double := spec_float.
Definition fadd : double → double → double := SFadd 53 1024.
Definition fsub : double → double → double := SFsub 53 1024.
Definition fmul : double → double → double := SFmul 53 1024.
Definition fdiv : double → double → double := SFdiv 53 1024.
Definition of_Z (z : Z) : double := binary_normalize 53 1024 z 0 false.
(** the literal 0.0015 *)
Definition stride : double := S754_finite false 0x189374bc6a7efa (-62).
(** the value without its fraction; [None] for infinities and not-a-number *)
Definition trunc (d : double) : option Z :=
  match d with
  | S754_zero _ => Some 0
  | S754_finite s m e => let a := Z.shiftl (Z.pos m) e in Some (if s then - a else a)
  | _ => None
  end.
Definition fits (lo hi : Z) (d : double) : bool := from_option (λ z, (lo <=? z) && (z <? hi)) false (trunc d).

(** * The program *)
(** [complex] *)
Record complex := Complex { real_ : double; imag_ : double }.
Definition norm (a : complex) : double := fadd (fmul (real_ a) (real_ a)) (fmul (imag_ a) (imag_ a)).
Definition cadd (a c : complex) : complex := Complex (fadd (real_ a) (real_ c)) (fadd (imag_ a) (imag_ c)).
Definition csub (a c : complex) : complex := Complex (fsub (real_ a) (real_ c)) (fsub (imag_ a) (imag_ c)).
Definition cmul (a c : complex) : complex :=
  Complex (fsub (fmul (real_ a) (real_ c)) (fmul (imag_ a) (imag_ c))) (fadd (fmul (imag_ a) (real_ c)) (fmul (real_ a) (imag_ c))).
Definition czero : complex := Complex (S754_zero false) (S754_zero false).

Section mandelbrot.
Context (U : uninit).
(** what a conversion gives for a value that the integer type does not have, which C++
    leaves undefined *)
Context (wild : double → Z).
Definition to_int (d : double) : Z := if fits (- 2 ^ 31) (2 ^ 31) d then default 0 (trunc d) else wild d.
Definition to_uint8 (d : double) : Z := u8 (if fits 0 256 d then default 0 (trunc d) else wild d).
Definition set_pixel (buffer w h x y r g b : Z) : user () :=
  if (h <=? y) || (w <=? x) then mret ()
  else
    set_byte buffer ((y * w + x) * 4 + 0) r;;
    set_byte buffer ((y * w + x) * 4 + 1) g;;
    set_byte buffer ((y * w + x) * 4 + 2) b.
(** a coordinate, as the lambda's [uint32_t] argument *)
Definition coordinate (v : double) (min_edge side : Z) : Z :=
  u32 (to_int (fadd (fdiv (fmul v (of_Z min_edge)) (of_Z 3)) (of_Z (side / 2)))).
Definition grey (c : complex) : Z := to_uint8 (fsub (of_Z 255) (fdiv (fmul (of_Z 128) (norm c)) (of_Z 4))).
Definition red (c t : complex) : Z := to_uint8 (fmul (of_Z 255) (fdiv (norm (cmul t t)) (norm (cmul (csub t c) c)))).
Definition mandle (buffer w h : Z) (c t : complex) (counter : Z) : user () :=
  loop (λ '(t, counter),
    let min_edge := Z.min h w in
    if SFltb (of_Z 4) (norm t) then
      let x := coordinate (real_ c) min_edge w in
      let y := coordinate (imag_ c) min_edge h in
      set_pixel buffer w h x y (grey c) (grey c) (grey c);; mret (inr ())
    else if counter =? 60 then
      let x := coordinate (real_ c) min_edge w in
      let y := coordinate (imag_ c) min_edge h in
      set_pixel buffer w h x y (red c t) 0 0;; mret (inr ())
    else mret (inl (cadd (cmul t t) c, s32 (counter + 1)))) (t, counter).
Definition waiting : user () :=
  print_level U info (line "press any key to return") [];;
  fd ← sys (syscall.open console_path);
  sys (syscall.read fd 1);;
  mret ().
(** [for (double x = -2; x < 2; x += 0.0015)] *)
Definition sweep (body : double → user ()) : user () :=
  loop (λ x, if SFltb x (of_Z 2) then body x;; mret (inl (fadd x stride)) else mret (inr ())) (of_Z (-2)).
(** the constructor of [FrameBufferGuard], the program, the destructor *)
Definition mandelbrot (junk : Z * Z) : user Z :=
  buffer ← sys syscall.framebuffer;
  '(_, o) ← sys syscall.get_screen_info;
  let '(w, h) := default junk o in
  sweep (λ x, sweep (λ y, mandle buffer w h (Complex x y) czero 0));;
  sys syscall.frame_flush;;
  waiting;;
  sys syscall.detach_framebuffer;;
  mret 0.
End mandelbrot.

(** * What it means *)
(** the picture's definition, written out on pairs of doubles and apart from the
    program's own operations *)
Declare Scope double_scope.
Delimit Scope double_scope with D.
#[local] Infix "+" := fadd : double_scope.
#[local] Infix "-" := fsub : double_scope.
#[local] Infix "*" := fmul : double_scope.
#[local] Infix "/" := fdiv : double_scope.
(** z(0) = 0 and z(n+1) = z(n)^2 + (x + iy), with (a + ib)^2 = a^2 - b^2 + i(ba + ab) *)
Definition orbit (x y : double) (n : nat) : double * double :=
  Nat.iter n (λ '(a, b), (a * a - b * b + x, b * a + a * b + y)%D) (S754_zero false, S754_zero false).
(** the first 61 members do not stay in the disc of radius 2 *)
Definition escapes (x y : double) : bool :=
  existsb (λ n, let '(a, b) := orbit x y n in SFltb (of_Z 4) (a * a + b * b)%D) (seq 0 61).
(** a double as a channel of a pixel, and as a coordinate *)
Definition channel (wild : double → Z) (d : double) : Z :=
  match trunc d with Some z => if decide (0 ≤ z < 256) then z else wild d `mod` 256 | None => wild d `mod` 256 end.
Definition shade (x y : double) : double := (of_Z 255 - of_Z 128 * (x * x + y * y) / of_Z 4)%D.
(** 255 |z^2|^2 / |(z - c) c|^2 for the 61st member *)
Definition glow (x y : double) : double :=
  let '(a, b) := orbit x y 60 in
  let '(p, q) := (a * a - b * b, b * a + a * b)%D in
  let '(u, v) := ((a - x) * x - (b - y) * y, (b - y) * x + (a - x) * y)%D in
  (of_Z 255 * ((p * p + q * q) / (u * u + v * v)))%D.
Definition colour (wild : double → Z) (x y : double) : Z * Z * Z :=
  if escapes x y then let k := channel wild (shade x y) in (k, k, k) else (channel wild (glow x y), 0, 0).
(** the column or row of a coordinate on a side of [n] pixels: three units fill the
    shorter side, and zero is in the middle *)
Definition position (wild : double → Z) (sw sh : Z) (v : double) (n : Z) : Z :=
  let d := (v * of_Z (Z.min sw sh) / of_Z 3 + of_Z (n / 2))%D in
  match trunc d with Some z => if decide (- 2 ^ 31 ≤ z < 2 ^ 31) then z else wild d | None => wild d end `mod` 2 ^ 32.
(** the pixel at [x], [y] of a screen's memory gets a colour, when it is on the screen *)
Definition paint (fb w h x y : Z) (rgb : Z * Z * Z) (m : gmap Z Z) : gmap Z Z :=
  let '(r, g, b) := rgb in let at_ c := fb + ((y * w + x) * 4 + c) in
  if (y <? h) && (x <? w) then <[at_ 2 := b]> (<[at_ 1 := g]> (<[at_ 0 := r]> m)) else m.
(** the loop ends in [n] rounds *)
Fixpoint sweep_ends (n : nat) (x : double) : bool :=
  if SFltb x (of_Z 2) then match n with O => false | Datatypes.S n => sweep_ends n (fadd x stride) end else true.
(** the values of the loop's variable *)
Fixpoint sweep_values (n : nat) (x : double) : list double :=
  match n with O => [] | Datatypes.S n => if SFltb x (of_Z 2) then x :: sweep_values n (fadd x stride) else [] end.
Lemma sweep_2667 : sweep_ends 2667 (of_Z (-2)) = true ∧ sweep_ends 2666 (of_Z (-2)) = false.
Proof. split; vm_compute; reflexivity. Qed.
(** out of range: the grey of the first point, and the red of a point of the loops that
    is inside the set *)
Definition inside : double := default stride (last (sweep_values 1401 (of_Z (-2)))).
Lemma undefined_colours :
  trunc (shade (of_Z (-2)) (of_Z (-2))) = Some (-1) ∧ escapes inside inside = false ∧ trunc (glow inside inside) = Some 12749.
Proof. split; [|split]; vm_compute; reflexivity. Qed.

(** What the program needs of the kernel: its calls answer, the screen is the memory
    [fb] to [fb + w * h * 4], and a store there changes one byte.  Nothing is promised
    of a store anywhere else. *)
Inductive quiet : ∀ T, syscall.sysE T → Prop :=
| quiet_write fd src n : quiet _ (syscall.write fd src n)
| quiet_open path : quiet _ (syscall.open path)
| quiet_read fd n : quiet _ (syscall.read fd n)
| quiet_flush : quiet _ syscall.frame_flush
| quiet_detach : quiet _ syscall.detach_framebuffer.
Class ScreenLaw {S} (h : kernelH S) (pixels : S → gmap Z Z) (fb sw sh : Z) := {
  framebuffer_law s : wp (h _ syscall.framebuffer) (λ p s', p = fb ∧ pixels s' = pixels s) s;
  screen_info_law s : wp (h _ syscall.get_screen_info) (λ '(_, o) s', o = Some (sw, sh) ∧ pixels s' = pixels s) s;
  store_law p v s : fb ≤ p < fb + sw * sh * 4 → wp (h _ (syscall.store p v)) (λ _ s', pixels s' = <[p := v]> (pixels s)) s;
  quiet_law T (e : syscall.sysE T) s : quiet T e → wp (h T e) (λ _ s', pixels s' = pixels s) s;
}.
Section laws.
Context {S : Type} (h : kernelH S) (pixels : S → gmap Z Z) (fb sw sh : Z) `{!ScreenLaw h pixels fb sw sh}.
Context (Hsw : 0 ≤ sw) (Hsh : 0 ≤ sh) (Hsize : sw * sh * 4 < 2 ^ 32).
Lemma set_byte_run i v s : 0 ≤ i < sw * sh * 4 → ends h (set_byte fb i v) (λ _ s', pixels s' = <[fb + i := u8 v]> (pixels s)) s.
Proof using All. intros Hi. unfold set_byte. apply ends_sys. rewrite wrap_small by lia. apply store_law. lia. Qed.
Lemma set_pixel_run x y r g b s : 0 ≤ x → 0 ≤ y →
  ends h (set_pixel fb sw sh x y r g b) (λ _ s', pixels s' = paint fb sw sh x y (u8 r, u8 g, u8 b) (pixels s)) s.
Proof using All.
  intros Hx Hy. unfold set_pixel, paint. destruct (Z.leb_spec sh y) as [Hge|Hlt].
  { rewrite (proj2 (Z.ltb_ge y sh)) by lia. by apply ends_ret. }
  destruct (Z.leb_spec sw x) as [Hge|Hlt2].
  { rewrite (proj2 (Z.ltb_ge x sw)), andb_false_r by lia. by apply ends_ret. }
  rewrite (proj2 (Z.ltb_lt y sh)), (proj2 (Z.ltb_lt x sw)) by lia. cbn [orb andb].
  assert (0 ≤ y * sw + x < sw * sh) as Hi by nia.
  apply ends_bind. eapply ends_mono; [apply set_byte_run; lia|]. intros [] s1 E1.
  apply ends_bind. eapply ends_mono; [apply set_byte_run; lia|]. intros [] s2 E2.
  eapply ends_mono; [apply set_byte_run; lia|]. intros [] s3 E3. by rewrite E3, E2, E1.
Qed.
Lemma quiet_run {T} (e : syscall.sysE T) s : quiet T e → ends h (sys e) (λ _ s', pixels s' = pixels s) s.
Proof using All. intros He. by apply ends_sys, quiet_law. Qed.
Lemma writes_run tr : ∀ s, ends h (writes tr) (λ _ s', pixels s' = pixels s) s.
Proof using All.
  induction tr as [|[fd l] tr IH]; intros s; cbn [writes]; [by apply ends_ret|].
  apply ends_bind. eapply ends_mono; [eapply quiet_run; constructor|]. intros ? s1 E1.
  eapply ends_mono; [apply IH|]. intros ? s2 E2. congruence.
Qed.
Context (wild : double → Z).
Lemma coordinate_range v a b : 0 ≤ coordinate wild v a b.
Proof. apply wrap_range. lia. Qed.
Lemma channel_of d : u8 (to_uint8 wild d) = channel wild d.
Proof.
  unfold to_uint8. rewrite (wrap_small 8 (u8 _)) by (apply wrap_range; lia). unfold channel, fits.
  destruct (trunc d) as [z|]; [|done]. cbn [from_option id default]. destruct (decide (0 ≤ z < 256)).
  - replace (_ && _) with true by lia. apply wrap_small. lia.
  - by replace (_ && _) with false by lia.
Qed.
Lemma coordinate_of v n : coordinate wild v (Z.min sh sw) n = position wild sw sh v n.
Proof.
  unfold coordinate, to_int, position, fits. rewrite (Z.min_comm sh sw). cbv zeta. destruct (trunc _) as [z|]; [|done].
  cbn [from_option id default]. destruct (decide (- 2 ^ 31 ≤ z < 2 ^ 31)).
  - by replace (_ && _) with true by lia.
  - by replace (_ && _) with false by lia.
Qed.
Lemma channel_range d : 0 ≤ channel wild d < 256.
Proof. rewrite <-channel_of. apply wrap_range. lia. Qed.
Lemma position_range v n : 0 ≤ position wild sw sh v n.
Proof. rewrite <-coordinate_of. apply coordinate_range. Qed.
Lemma norm_orbit x y k : norm (Complex (orbit x y k).1 (orbit x y k).2) = (let '(a, b) := orbit x y k in fadd (fmul a a) (fmul b b)).
Proof. by destruct (orbit x y k). Qed.
Lemma orbit_next x y k (c := Complex (orbit x y k).1 (orbit x y k).2) :
  cadd (cmul c c) (Complex x y) = Complex (orbit x y (Datatypes.S k)).1 (orbit x y (Datatypes.S k)).2.
Proof. unfold orbit in *. rewrite Nat.iter_succ. subst c. by destruct (Nat.iter k _ _). Qed.
Lemma red_glow x y : u8 (red wild (Complex x y) (Complex (orbit x y 60).1 (orbit x y 60).2)) = channel wild (glow x y).
Proof. unfold red, glow. rewrite channel_of. by destruct (orbit x y 60). Qed.
Lemma mandle_run x y s : ends h (mandle wild fb sw sh (Complex x y) czero 0)
  (λ _ s', pixels s' = paint fb sw sh (position wild sw sh x sw) (position wild sw sh y sh) (colour wild x y) (pixels s)) s.
Proof using All.
  apply (ends_loop h _ (λ n '(t, counter) s', ∃ k, (n + k = 60)%nat ∧ counter = Z.of_nat k ∧
    t = Complex (orbit x y k).1 (orbit x y k).2 ∧ pixels s' = pixels s ∧
    ∀ j, (j < k)%nat → (let '(a, b) := orbit x y j in SFltb (of_Z 4) (fadd (fmul a a) (fmul b b))) = false) _) with (n := 60%nat).
  2: { exists 0%nat. split_and!; try done. intros j Hj. lia. }
  intros n [t counter] s1 (k & Hk & -> & -> & Hp & Hj). cbv beta iota zeta.
  cbn [real_ imag_]. rewrite !coordinate_of, norm_orbit.
  destruct (SFltb (of_Z 4) _) eqn:En.
  - apply ends_bind. eapply ends_mono; [apply set_pixel_run; apply position_range|]. intros [] s2 E. apply ends_ret.
    rewrite E, Hp. unfold colour. assert (escapes x y = true) as ->.
    { apply existsb_exists. exists k. split; [apply in_seq; lia|]. revert En. by destruct (orbit x y k). }
    unfold grey. by rewrite channel_of.
  - destruct (Z.eqb_spec (Z.of_nat k) 60) as [E60|E60].
    + assert (k = 60%nat) as -> by lia. apply ends_bind. eapply ends_mono; [apply set_pixel_run; apply position_range|].
      intros [] s2 E. apply ends_ret. rewrite E, Hp. unfold colour. assert (escapes x y = false) as ->.
      { apply not_true_is_false. intros (j & Hin & Hesc)%existsb_exists. apply in_seq in Hin.
        destruct (decide (j = 60%nat)) as [->|]; [|by rewrite Hj in Hesc by lia].
        revert En Hesc. destruct (orbit x y 60). congruence. }
      by rewrite red_glow.
    + apply ends_ret. exists (59 - k)%nat. split; [lia|]. exists (Datatypes.S k). split; [lia|].
      split; [rewrite swrap_small by lia; lia|]. split; [apply orbit_next|]. split; [done|].
      intros j Hjk. destruct (decide (j = k)) as [->|]; [|apply Hj; lia]. revert En. by destruct (orbit x y k).
Qed.
Lemma ends_sweep body (Inv : S → Prop) s : Inv s → (∀ x s, Inv s → ends h (body x) (λ _ s', Inv s') s) →
  ends h (sweep body) (λ _ s', Inv s') s.
Proof using Type.
  intros H0 Hb. apply (ends_loop h _ (λ n x s, sweep_ends n x = true ∧ Inv s) _) with (n := 2667%nat); [|split; [apply sweep_2667|done]].
  intros n x s1 [Hn HI]. destruct n as [|n]; cbn [sweep_ends] in Hn; destruct (SFltb x (of_Z 2)) eqn:E; try done; try by apply ends_ret.
  apply ends_bind. eapply ends_mono; [by apply Hb|]. intros [] s2 HI2. apply ends_ret. exists n. split; [lia|done].
Qed.
(** [m'] is [m] but for colour channels of pixels of the screen *)
Definition pixels_change (m m' : gmap Z Z) : Prop :=
  ∀ a, m' !! a ≠ m !! a → ∃ x y c v, 0 ≤ x < sw ∧ 0 ≤ y < sh ∧ 0 ≤ c < 3 ∧ a = fb + ((y * sw + x) * 4 + c) ∧ m' !! a = Some v ∧ 0 ≤ v < 256.
Lemma pixels_change_refl m m' : m' = m → pixels_change m m'.
Proof using Type. by intros -> a Ha. Qed.
Lemma pixels_change_trans m1 m2 m3 : pixels_change m1 m2 → pixels_change m2 m3 → pixels_change m1 m3.
Proof using Type.
  intros H12 H23 a Ha. destruct (decide (m3 !! a = m2 !! a)) as [E|E]; [|by apply H23].
  rewrite E in *. by apply H12.
Qed.
Lemma paint_change x y r g b m : 0 ≤ x → 0 ≤ y → 0 ≤ r < 256 → 0 ≤ g < 256 → 0 ≤ b < 256 →
  pixels_change m (paint fb sw sh x y (r, g, b) m).
Proof using Type.
  intros Hx Hy Hr Hg Hb. unfold paint. destruct (Z.ltb_spec y sh); [|by apply pixels_change_refl].
  destruct (Z.ltb_spec x sw); [|by apply pixels_change_refl]. cbn [andb].
  assert (∀ c v m, 0 ≤ c < 3 → 0 ≤ v < 256 → pixels_change m (<[fb + ((y * sw + x) * 4 + c) := v]> m)) as Hins.
  { clear m. intros c v m Hc Hv a Ha. destruct (decide (fb + ((y * sw + x) * 4 + c) = a)) as [<-|Hne].
    - exists x, y, c, v. rewrite lookup_insert_eq. done.
    - by rewrite lookup_insert_ne in Ha. }
  eapply pixels_change_trans; [|apply Hins; lia]. eapply pixels_change_trans; apply Hins; lia.
Qed.
Lemma mandle_changes x y s : ends h (mandle wild fb sw sh (Complex x y) czero 0) (λ _ s', pixels_change (pixels s) (pixels s')) s.
Proof using All.
  eapply ends_mono; [apply mandle_run|]. intros ? s' ->.
  unfold colour. destruct (escapes x y); apply paint_change; (first [apply position_range | apply channel_range | lia]).
Qed.
Context (U : uninit).
Lemma waiting_run s : ends h (waiting U) (λ _ s', pixels s' = pixels s) s.
Proof using All.
  unfold waiting. apply ends_bind. set (l := lit "press any key to return" ++ [10]).
  assert (line "press any key to return" = format_of ((Lit <$> l) ++ [])) as -> by by rewrite format_lits.
  rewrite (print_level_items U info _ [] [] (l ++ [])); [|rewrite app_nil_r; apply plain_items|by apply render_lits|cbn; lia].
  2: { by repeat constructor. }
  eapply ends_mono; [apply writes_run|]. intros ? s1 E1. apply ends_bind.
  eapply ends_mono; [eapply quiet_run; constructor|]. intros fd s2 E2. apply ends_bind.
  eapply ends_mono; [eapply quiet_run; constructor|]. intros r s3 E3. apply ends_ret. congruence.
Qed.
End laws.

(** * Properties *)
(** C20: [mandle] ends after at most 61 calls of itself and does what the picture is
    defined by: it paints one pixel, whose column and row are those of the point's
    coordinates, grey when the sequence z, z^2 + c, ... from 0 leaves the disc of radius 2
    among its first 61 members, and red when it does not, both of the intensity the
    formulas above give, whose arithmetic is written out in doubles; nothing, when the
    pixel is off the screen. *)
Theorem mandle_paints {S} (h : kernelH S) (pixels : S → gmap Z Z) fb sw sh wild x y s :
  ScreenLaw h pixels fb sw sh → 0 ≤ sw → 0 ≤ sh → sw * sh * 4 < 2 ^ 32 →
  ends h (mandle wild fb sw sh (Complex x y) czero 0)
    (λ _ s', pixels s' = paint fb sw sh (position wild sw sh x sw) (position wild sw sh y sh) (colour wild x y) (pixels s)) s.
Proof. intros. by apply mandle_run. Qed.
(** C21: The program ends with 0 on any screen whose bytes a 32-bit index can count,
    whatever conversions of values out of range give: both loops over doubles stop
    after 2667 rounds, every store is to the memory of the screen (the laws promise
    nothing of one elsewhere), and what changes are colour channels of pixels of the
    screen, never the fourth byte of a pixel. *)
Theorem mandelbrot_ends {S} (h : kernelH S) (pixels : S → gmap Z Z) fb sw sh U wild junk s :
  ScreenLaw h pixels fb sw sh → 0 ≤ sw → 0 ≤ sh → sw * sh * 4 < 2 ^ 32 →
  ends h (mandelbrot U wild junk) (λ r s', r = 0 ∧ pixels_change fb sw sh (pixels s) (pixels s')) s.
Proof.
  intros L Hsw Hsh Hsize. unfold mandelbrot. apply ends_bind, ends_sys. eapply wp_mono; [apply framebuffer_law|]. intros p s1 [-> E1].
  apply ends_bind, ends_sys. eapply wp_mono; [apply screen_info_law|]. intros [r o] s2 [-> E2]. cbv beta iota zeta. cbn [default from_option id].
  apply ends_bind. apply (ends_mono _ _ (λ _ s', pixels_change fb sw sh (pixels s) (pixels s'))).
  { apply (ends_sweep h _ (λ s', pixels_change fb sw sh (pixels s) (pixels s'))); [apply pixels_change_refl; congruence|].
    intros x s3 H3. apply (ends_sweep h _ (λ s', pixels_change fb sw sh (pixels s) (pixels s'))); [done|].
    intros y s4 H4. eapply ends_mono; [by apply mandle_changes|]. intros ? s5 H5. by eapply pixels_change_trans. }
  intros ? s3 H3. apply ends_bind. eapply ends_mono; [eapply quiet_run; [done..|constructor]|]. intros ? s4 E4.
  apply ends_bind. eapply ends_mono; [by eapply waiting_run|]. intros ? s5 E5.
  apply ends_bind. eapply ends_mono; [eapply quiet_run; [done..|constructor]|]. intros ? s6 E6.
  apply ends_ret. split; [done|]. by rewrite E6, E5, E4.
Qed.

(** * Witnesses *)
(** a screen of 4 by 3 pixels at 0x10000 that faults on a store outside *)
Definition demo_screen : kernelH (gmap Z Z) := λ T e,
  match e with
  | syscall.store p v => if (0x10000 <=? p) && (p <? 0x10030) then modify (λ m, <[p := v]> m) else stop_with (Faulted "store")
  | syscall.framebuffer => mret 0x10000
  | syscall.get_screen_info => mret (0, Some (4, 3))
  | syscall.write _ _ n => mret n
  | syscall.open _ => mret 3
  | syscall.read _ _ => mret (1, [10])
  | syscall.frame_flush => mret 0
  | syscall.detach_framebuffer => mret 0
  | _ => stop_with (Faulted "call")
  end.
#[export] Instance demo_screen_law : ScreenLaw demo_screen id 0x10000 4 3.
Proof.
  split.
  - by intros s.
  - by intros s.
  - intros p v s Hp. unfold wp. cbn [demo_screen]. rewrite (proj2 (Z.leb_le _ _)), (proj2 (Z.ltb_lt _ _)) by lia. done.
  - intros T e s []; done.
Defined.
(** the origin is in the set: its pixel, the middle one, is red, with what the
    conversion of 255 * (0 / 0) gives *)
Lemma mandle_paints_witness : ends demo_screen (mandle (λ _, 9) 0x10000 4 3 czero czero 0)
  (λ _ m, m !! 0x10018 = Some 9 ∧ m !! 0x1001a = Some 0 ∧ m !! 0x1001b = None) ∅.
Proof.
  eapply ends_mono; [apply (mandle_paints demo_screen id 0x10000 4 3); [exact demo_screen_law|lia|lia|lia]|].
  intros ? m E. cbn [id] in E. rewrite E. split; [|split]; vm_compute; reflexivity.
Defined.
Lemma mandelbrot_ends_witness : ends demo_screen (mandelbrot (Uninit 0 (λ n, replicate n 0) (syscall.MkFileState 0 0 0 0)) (λ _, 0) (1, 1))
  (λ r m, r = 0 ∧ m !! 0x1001b = None ∧ m !! 0xffff = None) ∅.
Proof.
  eapply ends_mono; [apply (mandelbrot_ends demo_screen id 0x10000 4 3); [exact demo_screen_law|lia|lia|lia]|].
  intros r m [-> H]. cbn [id] in H. split; [done|]. split.
  - destruct (m !! 0x1001b) as [u|] eqn:E; [|done]. destruct (H 0x1001b) as (x & y & c & v & Hx & Hy & Hc & Ha & _); [by rewrite E|lia].
  - destruct (m !! 0xffff) as [u|] eqn:E; [|done]. destruct (H 0xffff) as (x & y & c & v & Hx & Hy & Hc & Ha & _); [by rewrite E|lia].
Defined.
