(* ===== verification/Start.v ===== *)
(** kernel/start.cc and kernel/resource_factory.h: from the entry of the hart to the
    dispatch loop.  The static constructors are code the compiler makes, and the
    devices are behind [BasicDevice]'s virtual functions: parameters here.  The vector
    tables of kernel/exception_table.S are here too, since [start] decides which
    interrupts can come.  Messages printed are left out. *)
From S2P Require Import Prelude Riscv Lock Mem MemoryList VirtualMemory Inode Process Scheduler Console FsCommon FileData FileStream Syscalls Trap Loader.

(** * resource_factory *)
Definition slot_size : Z := 512.
(** one slot, and an index for one major and one minor number, which holds a slot's
    number once it is written *)
Record ResourceFactory := Factory { stored_resource : list (list Z); stored_resource_size : Z; resource_index : list (list (option nat)) }.
Definition factory0 : ResourceFactory := Factory [replicate 512 0] 0 [[None]].
(** [resource] is the object's bytes *)
Definition RegistResource (major minor : Z) (resource : list Z) : M ResourceFactory bool := λ f,
  if slot_size <? Z.of_nat (length resource) then Ok (false, f)
  else
    let n := Z.to_nat (stored_resource_size f) in
    match stored_resource f !! n, resource_index f !! Z.to_nat major with
    | Some slot, Some row =>
      if (Z.to_nat minor <? length row)%nat then
        Ok (true, Factory (<[n := resource ++ drop (length resource) slot]> (stored_resource f)) (u8 (stored_resource_size f + 1))
                    (<[Z.to_nat major := <[Z.to_nat minor := Some n]> row]> (resource_index f)))
      else Stop (Faulted "resource_index")
    | _, _ => Stop (Faulted "stored_resource")
    end.
Definition ResourceFactory_GetResource (major minor : Z) : M ResourceFactory (list Z) := λ f,
  match resource_index f !! Z.to_nat major ≫= (.!! Z.to_nat minor) with
  | Some (Some n) => match stored_resource f !! n with Some l => Ok (l, f) | None => Stop (Faulted "stored_resource") end
  | _ => Stop (Faulted "resource_index")
  end.
Definition console_major : Z := 0.
Definition console_minor : Z := 0.

(** * exception_table.S: where the hart goes for an interrupt, by its number; number 0 is
    also the entry for exceptions *)
Inductive vector_entry := to_preserve_user_context | to_user_timer_handler | to_kernel_exception | to_kernel_timer_handler | to_kernel_intr_hander.
Definition user_exception_table_ (slot : Z) : option vector_entry :=
  if slot =? 0 then Some to_preserve_user_context else if slot =? 7 then Some to_user_timer_handler
  else if slot =? 11 then Some to_preserve_user_context else None.
Definition kernel_exception_table_ (slot : Z) : option vector_entry :=
  if slot =? 0 then Some to_kernel_exception else if slot =? 7 then Some to_kernel_timer_handler
  else if slot =? 11 then Some to_kernel_intr_hander else None.

(** * start.cc *)
Record boot (D : Type) := Boot { b_hart : hart D; b_writes : list (Z * Z); b_resources : ResourceFactory; b_time_scratch : Z * Z }.
Arguments Boot {D} _ _ _ _.
Arguments b_hart {D} _.
Arguments b_writes {D} _.
Arguments b_resources {D} _.
Arguments b_time_scratch {D} _.

Section start.
Context {D : Type} `{BlockDevice D}.
Abbreviation BM := (M (boot D)).
(** [device_read] answers the reads of device memory, [run_ctor] is the code at an address *)
Context (ExecuteRet_addr memory_beg kernel_exception_table : Z) (device_read : Z → Z → Z) (run_ctor : Z → BM ()).
Context (device_Init : device_object → Z → M (kernel D) bool).
Context (stack console_bytes initcode : list Z) (initcode_size : Z).
Definition on_hart {A} (m : M (hart D) A) : BM A := λ b,
  match m (b_hart b) with Ok (a, h) => Ok (a, Boot h (b_writes b) (b_resources b) (b_time_scratch b)) | Stop e => Stop e end.
Definition on_resources {A} (m : M ResourceFactory A) : BM A := λ b,
  match m (b_resources b) with Ok (a, f) => Ok (a, Boot (b_hart b) (b_writes b) f (b_time_scratch b)) | Stop e => Stop e end.
Definition on_io {A} (m : io A) : BM A := λ b,
  let '(l, a) := io_trace device_read m in Ok (a, Boot (b_hart b) (b_writes b ++ l) (b_resources b) (b_time_scratch b)).
(** the allocator, before there is a process *)
Definition on_boot_vm {A} (m : M vmstate A) : M (hart D) A :=
  on_kernel (k_on_sched (λ s,
    match m (sc_vm s) with
    | Ok (a, v) => Ok (a, Sched (process_tasks_ s) (process_task s) (ticks s) (init_process_ s) v (sc_cur_pid s))
    | Stop e => Stop e
    end)).
Definition read_csr (r : csr) : BM Z := on_hart (gets (λ h, h_csrs h r)).

(** the pointers between [init_array_start] and [init_array_end] *)
Fixpoint RunInitArray (init_array : list Z) : BM () :=
  match init_array with
  | [] => mret ()
  | addr :: rest =>
    (if (addr =? 0) || (addr =? 0xffffffffffffffff) then mret () else run_ctor addr);;
    RunInitArray rest
  end.
(** up to the first process *)
Definition set_up (init_array : list Z) : BM () :=
  RunInitArray init_array;;
  id ← read_csr c_mhartid;
  on_hart (on_csrs (csrw c_tp id));;
  on_hart (upd_mstatus (clear_bit (StatusBit_val mie)));;
  on_hart (on_csrs (mtvec_write_vec kernel_exception_table true));;
  ok ← on_hart (on_boot_vm (VirtualMemory.Init memory_beg));
  if negb ok then stop_with (Panicked "")
  else
    on_hart (on_csrs (pmp_addr_write 0 0x3fffffffffffff));;
    on_hart (on_csrs (pmp_cfg_write 0 (Z.lor (Z.lor (Z.lor PMP_X PMP_R) PMP_W) PMP_TOR)));;
    on_io globalinit;;
    id ← read_csr c_mhartid;
    b ← gets (λ b, h_csrs (b_hart b));
    σ ← on_io (hartinit id b);
    on_hart (on_csrs (λ _, σ));;
    on_hart (InitDevices device_Init);;
    on_resources (RegistResource console_major console_minor console_bytes);;
    mret ().
(** [Schedueler::InitTimer] with its effects *)
Definition init_timer : BM () :=
  id ← read_csr c_mhartid;
  σ ← gets (λ b, h_csrs (b_hart b));
  '(σ, scratch) ← on_io (InitTimer id σ);
  on_hart (on_csrs (λ _, σ));;
  modify (λ b, Boot (b_hart b) (b_writes b) (b_resources b) scratch).
(** the dispatch loop does not return: it begins by turning interrupts on *)
Definition start (init_array : list Z) : BM control :=
  set_up init_array;;
  on_hart (on_kernel (k_on_sched (ExcuteInitProcess ExecuteRet_addr stack initcode initcode_size)));;
  init_timer;;
  on_hart (on_kernel (k_on_sched global_interrunpt_on));;
  mret (Scheduler 0).
End start.

(** * Lemmas *)
Definition vm_of {D} (k : kernel D) : vmstate := sc_vm (k_sched k).
Definition allocator_ready {D} (k : kernel D) : Prop := ∃ fl, vm_inv (vm_of k) fl.
(** before [start]: static storage as the constructors leave it *)
Definition cold {D} (b : boot D) : Prop :=
  vm_boot (vm_of (h_kernel (b_hart b))) ∧ device_list_ (b_hart b) = [] ∧ b_resources b = factory0 ∧
  h_csrs (b_hart b) c_mie = 0 ∧ 0 ≤ h_csrs (b_hart b) c_mhartid < 2 ^ 64.
Section run.
Context {D : Type} `{BlockDevice D}.
Abbreviation BM := (M (boot D)).
Context (run_ctor : Z → BM ()) (Hctor : ∀ a b, cold b → wp (run_ctor a) (λ _, cold) b).
Lemma RunInitArray_run l : ∀ b, cold b → wp (RunInitArray run_ctor l) (λ _, cold) b.
Proof using Hctor.
  induction l as [|a l IH]; intros b Hb; [done|]. cbn [RunInitArray]. apply wp_bind.
  apply (wp_mono _ (λ _, cold)); [|intros _ b' Hb'; by apply IH]. destruct (_ || _); [done|by apply Hctor].
Qed.
Lemma RegistResource_first obj : Z.of_nat (length obj) ≤ slot_size →
  RegistResource console_major console_minor obj factory0 =
    Ok (true, Factory [obj ++ replicate (512 - length obj) 0] 1 [[Some 0%nat]]).
Proof.
  intros Hl. unfold RegistResource. unfold slot_size in *. destruct (Z.ltb_spec 512 (Z.of_nat (length obj))); [lia|].
  change (Ok (true, Factory [obj ++ drop (length obj) (replicate 512 0)] 1 [[Some 0%nat]]) =
    Ok (true, Factory [obj ++ replicate (512 - length obj) 0] 1 [[Some 0%nat]])). by rewrite drop_replicate.
Qed.
Lemma clear_mie_cold (k : kernel D) : vm_boot (vm_of k) →
  vm_boot (vm_of (set_con (put_mstatus (u64 (clear_bit (StatusBit_val mie) (get_mstatus (k_con k)))) (k_con k)) k)).
Proof.
  intros [H1 H2 H3 H4]. unfold vm_of, k_sched in *. destruct k as [c d j]. destruct c as [? ? ? ? ? ? [? ? ? ? [] ?]].
  cbn in *. constructor; cbn; try done. unfold mstatus_ok. cbn. apply wrap_range. lia.
Qed.
(** the CSRs at the end of [set_up] and of [start], on a hart that started with none of
    the interrupts enabled *)
Record csrs_set (table : Z) (σ : csrs) : Prop := {
  cs_tp : σ c_tp = σ c_mhartid;
  cs_mtvec : σ c_mtvec = u64 (table + 1);
  cs_pmpaddr : σ (c_pmpaddr 0) = 0x3fffffffffffff;
  cs_pmpcfg : σ c_pmpcfg0 = 15;
}.
Context (memory_beg : Z) (Hmem : memory_beg mod PGSIZE = 0) (Hbeg : KERNEL_BASE ≤ memory_beg ≤ MEMORY_END).
Lemma boot_vm_run (h : hart D) : vm_boot (vm_of (h_kernel h)) →
  wp (on_boot_vm (VirtualMemory.Init memory_beg)) (λ ok h', ok = true ∧ allocator_ready (h_kernel h') ∧
    h_csrs h' = h_csrs h ∧ device_list_ h' = device_list_ h) h.
Proof using Hmem Hbeg D.
  intros Hb. destruct (proj1 (wp_ok _ _ _) (wp_Init memory_beg (vm_of (h_kernel h)) (Z.to_nat ((MEMORY_END - memory_beg) / PGSIZE)) Hb Hmem Hbeg
    ltac:(unfold PGSIZE in *; unfold MEMORY_END, KERNEL_BASE in *; dlia))) as (ok & v & E & -> & Hinv & _).
  unfold wp, on_boot_vm, on_kernel, k_on_sched, on_con, on_sched. unfold vm_of, k_sched in E. rewrite E. cbn.
  split; [done|]. split; [|done]. eexists. exact Hinv.
Qed.
Context (table : Z) (device_read : Z → Z → Z) (device_Init : device_object → Z → M (kernel D) bool) (console_bytes : list Z).
Context (Hdev : ∀ d a k, allocator_ready k → ∃ k', device_Init d a k = Ok (true, k') ∧ allocator_ready k').
Context (Hcon : Z.of_nat (length console_bytes) ≤ slot_size).
Lemma on_hart_run {A} (m : M (hart D) A) (Q : A → boot D → Prop) b :
  wp m (λ a h, Q a (Boot h (b_writes b) (b_resources b) (b_time_scratch b))) (b_hart b) → wp (on_hart m) Q b.
Proof using Type. unfold wp, on_hart. by destruct (m (b_hart b)) as [[a h]|]. Qed.
Lemma on_csrs_run f (Q : () → boot D → Prop) k σ dl done_ ws rf ts :
  Q () (Boot (Hart k (f σ) dl done_) ws rf ts) → wp (on_hart (on_csrs f)) Q (Boot (Hart k σ dl done_) ws rf ts).
Proof using Type. done. Qed.
Lemma boot_mstatus_run f (Q : () → boot D → Prop) k σ dl done_ ws rf ts :
  Q () (Boot (Hart (set_con (put_mstatus (u64 (f (get_mstatus (k_con k)))) (k_con k)) k) σ dl done_) ws rf ts) →
  wp (on_hart (upd_mstatus f)) Q (Boot (Hart k σ dl done_) ws rf ts).
Proof using Type. done. Qed.
Lemma read_csr_run r (Q : Z → boot D → Prop) b : Q (h_csrs (b_hart b) r) b → wp (read_csr r) Q b.
Proof using Type. by destruct b. Qed.
Lemma on_io_run {A} (m : io A) (Q : A → boot D → Prop) h ws rf ts l a : io_trace device_read m = (l, a) →
  Q a (Boot h (ws ++ l) rf ts) → wp (on_io device_read m) Q (Boot h ws rf ts).
Proof using Type. unfold wp, on_io. by intros ->. Qed.
Lemma set_up_run l b : cold b →
  wp (set_up memory_beg table device_read run_ctor device_Init console_bytes l) (λ _ b',
    let σ := h_csrs (b_hart b') in
    allocator_ready (h_kernel (b_hart b')) ∧ csrs_set table σ ∧ σ c_mie = MIE_MEIE ∧ device_list_ (b_hart b') = registered ∧
    b_resources b' = Factory [console_bytes ++ replicate (512 - length console_bytes) 0] 1 [[Some 0%nat]] ∧
    0 ≤ σ c_mhartid < 2 ^ 64) b.
Proof using All.
  intros Hb. unfold set_up. apply wp_bind. eapply wp_mono; [by apply RunInitArray_run|].
  intros _ b1 (Hvm & Hdl & Hrf & Hmie & Hid). cbv beta. destruct b1 as [[k σ dl done_] ws rf ts]. cbn [b_hart h_kernel h_csrs device_list_ b_resources] in *. subst dl rf.
  apply wp_bind, read_csr_run. cbn [b_hart h_csrs]. apply wp_bind, on_csrs_run. set (σ1 := csrw c_tp _ σ).
  apply wp_bind, boot_mstatus_run. pose proof (clear_mie_cold k Hvm) as Hvm1. set (k1 := set_con _ k) in *. clearbody k1.
  apply wp_bind, on_csrs_run. set (σ2 := mtvec_write_vec _ _ σ1).
  apply wp_bind, on_hart_run. eapply wp_mono; [by apply boot_vm_run|]. cbn [h_csrs device_list_].
  intros ok [k2 σ2' dl2 done2] (-> & Hk2 & E1 & E2). cbn [h_csrs device_list_ h_kernel b_writes b_resources b_time_scratch] in *. subst σ2' dl2. cbn [negb].
  apply wp_bind, on_csrs_run. apply wp_bind, on_csrs_run. set (σ3 := pmp_cfg_write _ _ _).
  apply wp_bind. eapply on_io_run; [reflexivity|]. apply wp_bind, read_csr_run. apply wp_bind, wp_gets. cbn [b_hart h_csrs].
  apply wp_bind. eapply on_io_run; [reflexivity|]. apply wp_bind, on_csrs_run.
  destruct (InitDevices_keeps device_Init allocator_ready k2 (mie_set_bit MIE_MEIE σ3) done2 Hdev Hk2) as (k3 & E3 & Hk3).
  apply wp_bind, on_hart_run, (proj2 (wp_ok _ _ _)). eexists (), _. split; [exact E3|]. cbn [b_writes b_resources b_time_scratch].
  apply wp_bind, (proj2 (wp_ok _ _ _)). eexists true, _. split.
  { unfold on_resources. cbn [b_resources]. rewrite RegistResource_first by done. reflexivity. }
  apply wp_ret. cbv zeta. cbn [b_hart h_csrs h_kernel device_list_ b_resources].
  split; [done|]. split; [|split; [|split; [done|split; [done|]]]].
  - split; try reflexivity. unfold mie_set_bit, σ3, σ2, σ1, pmp_cfg_write, pmp_addr_write, mtvec_write_vec. cbn -[csrw u64].
    rewrite !csrw_ne, csrw_same by done. apply wrap_small, Hid.
  - unfold mie_set_bit. rewrite csrw_same. change (σ3 c_mie) with (σ c_mie). by rewrite Hmie.
  - exact Hid.
Qed.
(** the last steps, after the first process is there *)
Lemma init_timer_run (b : boot D) : 0 ≤ h_csrs (b_hart b) c_mhartid →
  ∃ b', init_timer device_read b = Ok ((), b') ∧ h_kernel (b_hart b') = h_kernel (b_hart b) ∧ device_list_ (b_hart b') = device_list_ (b_hart b) ∧
    h_csrs (b_hart b') = mie_set_bit MIE_MTIE (h_csrs (b_hart b)) ∧
    b_time_scratch b' = (CLINT_MTIMECMP (h_csrs (b_hart b) c_mhartid), TIMER_INTERVAL) ∧
    b_writes b' = b_writes b ++ [(CLINT_MTIMECMP (h_csrs (b_hart b) c_mhartid), u64 (u64 (device_read 64 CLINT_MTIME) + TIMER_INTERVAL))].
Proof using Type. intros Hid. destruct b as [[k σ dl done_] ws rf ts]. eexists. split; [reflexivity|]. done. Qed.
End run.

(** * Properties *)
(** the constructors' pointers are called in order, but for the sentinels *)
Theorem RunInitArray_calls {D} (run_ctor : Z → M (boot D) ()) l :
  RunInitArray run_ctor l = foldr (λ a m, run_ctor a;; m) (mret ()) (filter (λ a, a ≠ 0 ∧ a ≠ 0xffffffffffffffff) l).
Proof.
  induction l as [|a l IH]; [done|]. cbn [RunInitArray]. rewrite filter_cons, IH. destruct (decide (a ≠ 0 ∧ a ≠ 0xffffffffffffffff)) as [[H1 H2]|Hn].
  - by rewrite (proj2 (Z.eqb_neq _ _) H1), (proj2 (Z.eqb_neq _ _) H2).
  - destruct (Z.eqb_spec a 0); [done|]. destruct (Z.eqb_spec a 0xffffffffffffffff); [done|]. tauto.
Qed.
(** there is one slot: a second resource is stored past the array *)
Theorem second_resource_overflows obj obj' f : Z.of_nat (length obj) ≤ slot_size → Z.of_nat (length obj') ≤ slot_size →
  RegistResource console_major console_minor obj factory0 = Ok (true, f) →
  RegistResource console_major console_minor obj' f = Stop (Faulted "stored_resource").
Proof.
  intros H1 H2. rewrite RegistResource_first by done. intros [= <-]. unfold RegistResource. unfold slot_size in *.
  destruct (Z.ltb_spec 512 (Z.of_nat (length obj'))); [lia|]. reflexivity.
Qed.
Lemma enabled_vectors i : 0 ≤ i < 64 → Z.testbit (Z.lor MIE_MEIE MIE_MTIE) i = true →
  is_Some (user_exception_table_ i) ∧ is_Some (kernel_exception_table_ i).
Proof.
  intros Hi Hb. assert (i = 7 ∨ i = 11) as [-> | ->]; [|split; by eexists..].
  assert (i ∈ seqZ 0 64) as Hin by (apply elem_of_seqZ; lia).
  assert (Forall (λ i, Z.testbit (Z.lor MIE_MEIE MIE_MTIE) i = true → i = 7 ∨ i = 11) (seqZ 0 64)) as HF.
  { apply (bool_decide_unpack _). by vm_compute. }
  rewrite Forall_forall in HF. auto.
Qed.
(** C22: [start] brings the hart up in an order that works: the allocator is ready when
    the devices, which need it, are initialised; then all devices are registered with
    their interrupts, the console is what [GetResource] finds, [tp], the vectored
    kernel table and the memory protection are set.  From there the outcome is that of
    loading the first program: when that returns, the timer is armed, interrupts are on,
    every interrupt that is enabled has an entry in both vector tables, and the
    dispatch loop starts at the first task. *)
Theorem start_sets_up {D} `{BlockDevice D} ExecuteRet memory_beg table device_read run_ctor device_Init stack console_bytes initcode size l (b : boot D) :
  (∀ a b, cold b → wp (run_ctor a) (λ _, cold) b) → memory_beg mod PGSIZE = 0 → KERNEL_BASE ≤ memory_beg ≤ MEMORY_END →
  (∀ d a (k : kernel D), allocator_ready k → ∃ k', device_Init d a k = Ok (true, k') ∧ allocator_ready k') →
  Z.of_nat (length console_bytes) ≤ slot_size → cold b →
  let run := start ExecuteRet memory_beg table device_read run_ctor device_Init stack console_bytes initcode size l b in
  ∃ b1, set_up memory_beg table device_read run_ctor device_Init console_bytes l b = Ok ((), b1) ∧
    allocator_ready (h_kernel (b_hart b1)) ∧ csrs_set table (h_csrs (b_hart b1)) ∧ device_list_ (b_hart b1) = registered ∧
    ResourceFactory_GetResource console_major console_minor (b_resources b1) =
      Ok (console_bytes ++ replicate (512 - length console_bytes) 0, b_resources b1) ∧
    match k_on_sched (ExcuteInitProcess ExecuteRet stack initcode size) (h_kernel (b_hart b1)) with
    | Stop e => run = Stop e
    | Ok (_, k) => ∃ b2, run = Ok (Scheduler 0, b2) ∧ csrs_set table (h_csrs (b_hart b2)) ∧ device_list_ (b_hart b2) = registered ∧
        b_time_scratch b2 = (CLINT_MTIMECMP (h_csrs (b_hart b2) c_mhartid), TIMER_INTERVAL) ∧
        last (b_writes b2) = Some (CLINT_MTIMECMP (h_csrs (b_hart b2) c_mhartid), u64 (u64 (device_read 64 CLINT_MTIME) + TIMER_INTERVAL)) ∧
        k_on_sched global_interrunpt_on k = Ok ((), h_kernel (b_hart b2)) ∧
        ∀ i, 0 ≤ i < 64 → Z.testbit (h_csrs (b_hart b2) c_mie) i = true → is_Some (user_exception_table_ i) ∧ is_Some (kernel_exception_table_ i)
    end.
Proof.
  intros Hctor Hmem Hbeg Hdev Hcon Hb run.
  destruct (proj1 (wp_ok _ _ _) (set_up_run run_ctor Hctor memory_beg Hmem Hbeg table device_read device_Init console_bytes Hdev Hcon l b Hb))
    as ([] & b1 & E1 & Hk & Hcs & Hmie & Hdl & Hrf & Hid). cbv zeta in *.
  exists b1. split; [done|]. split; [done|]. split; [done|]. split; [done|]. split; [by rewrite Hrf|].
  unfold run, start. rewrite (bind_Ok _ _ _ _ _ E1). destruct b1 as [[k1 σ1 dl1 done1] ws1 rf1 ts1]. cbn [b_hart h_kernel h_csrs device_list_ b_resources] in *.
  destruct (k_on_sched _ k1) as [[[] k]|e] eqn:E2.
  2: { unfold mbind, M_bind at 1. unfold on_hart, on_kernel. cbn [b_hart h_kernel]. by rewrite E2. }
  erewrite bind_Ok by (unfold on_hart, on_kernel; cbn [b_hart h_kernel]; rewrite E2; reflexivity).
  cbn [h_csrs device_list_ completed b_writes b_resources b_time_scratch].
  destruct (init_timer_run device_read (Boot (Hart k σ1 dl1 done1) ws1 rf1 ts1)) as ([[k3 σ3 dl3 done3] ws3 rf3 ts3] & E3 & H1 & H5 & H2 & H3 & H4); [apply Hid|].
  cbn [b_hart h_kernel h_csrs device_list_ b_time_scratch b_writes] in *.
  rewrite (bind_Ok _ _ _ _ _ E3). subst k3 σ3 ts3 ws3. eexists. split; [reflexivity|]. cbn [b_hart h_kernel h_csrs device_list_ b_time_scratch b_writes].
  split; [|split; [congruence|split; [done|split; [by rewrite last_snoc|split; [reflexivity|]]]]].
  - destruct Hcs. by split.
  - intros i Hi Hbit. apply enabled_vectors; [done|]. unfold mie_set_bit in Hbit. rewrite csrw_same, Hmie in Hbit. exact Hbit.
Qed.
(** a machine whose image leaves two pages, with one unused process *)
Definition demo_power_on : boot ramdisk :=
  Boot (Hart (Kernel (Con (replicate 256 0) 0 0 false true [] (Sched [task0] None 0 None demo_boot 0)) (k_disk (demo_kernel 0 [])) []) (λ _, 0) [] [])
    [] factory0 (0, 0).
Lemma start_sets_up_witness :
  let init := λ (_ : device_object) (_ : Z) (k : kernel ramdisk), Ok (true, k) in
  let ctor := λ _ : Z, mret () : M (boot ramdisk) () in
  cold demo_power_on ∧
  ∃ b1, set_up (MEMORY_END - 2 * PGSIZE) 0x80000100 (λ _ _, 5) ctor init (replicate 300 7) [0; 0x80000200] demo_power_on = Ok ((), b1) ∧
    allocator_ready (h_kernel (b_hart b1)) ∧ device_list_ (b_hart b1) = registered ∧ h_csrs (b_hart b1) c_mtvec = 0x80000101.
Proof.
  intros init ctor. assert (cold demo_power_on) as Hc.
  { split; [exact demo_boot_ok|]. split; [done|]. split; [done|]. by split. }
  split; [done|].
  destruct (start_sets_up 0 (MEMORY_END - 2 * PGSIZE) 0x80000100 (λ _ _, 5) ctor init [] (replicate 300 7) [] 0 [0; 0x80000200] demo_power_on)
    as (b1 & E & Hk & Hcs & Hdl & _); [done|done|done|intros d a k Hk; by exists k|by vm_compute|done|].
  exists b1. split; [exact E|]. split; [exact Hk|]. split; [exact Hdl|]. by rewrite (cs_mtvec _ _ Hcs).
Defined.
